(* ===== verification/_CoqProject ===== *)
-Q . S2P
Prelude.v
SystemPrompts.v
PyStr.v
Dict.v
Json.v
State.v
StateFacts.v
Transitions.v
StateJson.v
World.v
Tool.v
Events.v
Evolution.v
Prompts.v
Helpers.v
Hitl.v
Dag.v
Engine.v
Llm.v
Planner.v
RemoteCaller.v
Patch.v
Tools.v
ToolFacts.v
NodeExec.v
NodeFacts.v
RemoteCallerFacts.v
Settlement.v
PlanFlow.v
Rewind.v
History.v
Planning.v
MessageFlow.v
Samples.v
MessageFacts.v
Db.v
AgentTree.v
Registry.v
Cards.v
SimAgent.v
SimModel.v
Runner.v
RunnerFacts.v
DagPlan.v
DagRuntime.v
Orchestrator.v
OrchestratorFacts.v
OrchestratorSpec.v
OrchestratorRuns.v
OrchestratorThms.v
OrchestratorEnd.v
OrchestratorRules.v
DagSamples.v
Graph.v
GraphFacts.v
Workflow.v
WorkflowFacts.v
WorkflowRuns.v
NodePath.v
NewEvents.v
Contents.v
Replay.v
ReplayFacts.v
NodeRunner.v
RemoteA2a.v
RemoteFacts.v
LlmAgent.v
LlmAgentFacts.v
LiteLlm.v
A2aServer.v
ServedAgent.v
AgentNode.v
LlmRequest.v
Service.v
ApiReplay.v
Conversations.v
Recovery.v
App.v
Witnesses.v
NewWitnesses.v
