(* ===== verification/Prelude.v ===== *)
(** * ChoirWorks: a verified model of the orchestration services

    The repository holds two generations of one service, in which a request of a
    human is planned as a graph of nodes, each node is worked on by a remote agent
    reached over the A2A protocol, and what the agents answer, ask and fail with
    decides how the plan goes on. [src/src/choirworks] is the service with sessions,
    interventions and a scheduler; [src/src/new_choirworks] is its successor, a
    workflow engine with an orchestrator built on it. This development models both:
    the code becomes executable definitions under the names of the source, and the
    theorems state what makes it correct.

    ** How things are modelled

    - A Python dict is an association list in insertion order ([Dict.v]): the code
      relies on the order of plans and tables. Strings are UTF-8 byte strings with
      Python's operations on them ([PyStr.v]); JSON values and Python's conversions
      of them are in [Json.v].
    - An exception is a value of [exn] in the result type [res]; code that changes a
      session runs in the state and error monad [M] of [World.v], whose world holds
      the session, the history, the stored snapshot, the inboxes, and the log of
      published events. When an exception ends an operation, what it had done remains.
    - What answers from outside (models, remote agents, url and JSON parsers, the task
      store, clocks and ids) is a parameter: a function of the step at which it is
      asked, or a record of what it sends. No theorem assumes anything of it beyond
      its stated hypotheses, and each of those has a witness.
    - Concurrency is interleaving: the scheduler ([Runner.v]), the job of the
      orchestrator ([Orchestrator.v]), the replay of a workflow ([Replay.v]), the A2A
      server ([A2aServer.v]), the pool of clients ([Cards.v]) and the transactions on the
      database ([Db.v]) are step relations; the waits of the workflow loop ask an
      environment which tasks have ended. The code is asyncio code, which runs
      undisturbed between two awaits; a step is a whole handler, so interleavings inside
      one handler are not modelled.

    ** Shared files

    [Prelude.v] (this file): tactics, hint databases, lists, runs of step relations.
    [PyStr.v], [Dict.v], [Json.v]: the data of Python. [Dag.v]: graphs of dependencies:
    closed, acyclic by a rank, and the search shared by the two validators.
    [SystemPrompts.v]: the constant texts.

    ** The service with sessions (src/src/choirworks)

    - State: [State.v], [StateFacts.v] (orchestration/state.py: nodes, members,
      questions, queues; readiness and verdicts), [Transitions.v] (transitions.py),
      [StateJson.v] (the snapshot, written and read back).
    - Events: [World.v], [Events.v] (events.py, session.py, a2a/wire.py), and
      [Evolution.v], which says what every operation keeps of a session: the relations
      shared by all later proofs, with the tactics [keeps] and [wp].
    - Talking: [Prompts.v] (prompts.py, core/fencing.py), [Llm.v] (core/llm.py,
      core/agents), [RemoteCaller.v], [RemoteCallerFacts.v], [Helpers.v] (a2a/client.py,
      execution/remote_caller.py, helpers.py), [Tool.v], [Tools.v], [ToolFacts.v] (tools/,
      planning/derived.py, hitl/assist.py), [Hitl.v]
      (hitl/intervention.py).
    - Plans: [Planner.v] (core/planner.py), [Patch.v] (planning/patch.py), [Planning.v]
      (planning/planner.py).
    - Running: [Engine.v] (flows/engine.py: the literal routes of a flow are read off
      the annotations of its handlers), [NodeExec.v], [NodeFacts.v]
      (execution/node_executor.py, flows/outcome.py), [Settlement.v]
      (flows/settlement.py), [PlanFlow.v] (flows/plan.py,
      planning/repair.py), [MessageFlow.v], [MessageFacts.v] (flows/message.py,
      a2a/executor.py), [Runner.v], [RunnerFacts.v]
      (execution/runner.py).
    - Conversations: [Rewind.v] (a2a/tasks.py, orchestration/rewind.py), [History.v]
      (history.py), [ApiReplay.v] (api/replay.py), [Conversations.v]
      (api/conversations.py, store/contexts.py), [Recovery.v] (a2a/recovery.py).
    - Agents: [Registry.v] (orchestration/registry.py, models/domain.py, api/agents.py),
      [Cards.v] (a2a/card.py, a2a/client.py: cards, and the clients made of them),
      [AgentTree.v] (core/agents/base.py: agents over agents).
    - The database: [Db.v] (store/db.py: one connection, a lock, and the transactions of
      all coroutines, with another connection to the same file; SQLite and its driver are
      a class with the laws they document, failures and automatic rollbacks included).
    - The simulation: [SimAgent.v] (sim/fake_agent.py, the scripted agents), [SimModel.v]
      (sim/litellm_mock.py, the scripted model), [App.v] (config.py, api/app.py,
      sim/runner.py: settings and the start).

    A message enters by [MessageFlow.execute]; the message flow answers a question,
    plans a turn ([Planning]) or wakes the scheduler; the scheduler runs nodes
    ([NodeExec]) and settlements, and asks the plan flow when nothing runs; every one
    of them changes the session through the operations of [Events.v], which publish
    and save. [Witnesses.v] and [Samples.v] hold concrete sessions.

    What is shown: every operation keeps the session well formed and settled work
    settled, whatever agents and models answer ([MessageFacts], [NodeFacts]); the
    scheduler never runs more than its limit, is never stuck, waits only for tasks in
    flight and never stops in silence ([RunnerFacts], [PlanFlow]); a
    streamed answer reaches its node whole ([RemoteCallerFacts], and from the scripted
    agents [SimAgent]); the clients in use are those of the cached cards ([Cards]);
    transactions have the effect of running one after the other, unless SQLite rolls
    one back under its block or cannot commit it ([Db]); agents form a forest
    ([AgentTree]); patches and repairs keep finished work, and the plan closed and
    acyclic ([Patch]); the validator accepts exactly the plans that can be run to the
    end ([Planner]); snapshots, histories and listings read back as written
    ([StateJson], [History], [Rewind]); a replay shows a question pending and
    resolved once each before it closes with the state, and a rewind restores the state
    before its turn ([ApiReplay], [Conversations]).

    ** The workflow service (src/src/new_choirworks)

    - The orchestrator: [DagPlan.v] (orchestrator/plan.py), [DagRuntime.v]
      (orchestrator/runtime.py, catalog.py), [Orchestrator.v] (executor_node.py,
      helper.py, planner.py, orchestrator.py). The invariant and its preservation are in
      [OrchestratorFacts.v] and [OrchestratorRuns.v]; [OrchestratorSpec.v] is an
      abstract machine of tasks and outputs, which every run refines;
      [OrchestratorThms.v] and [OrchestratorRules.v] hold the theorems, [DagSamples.v]
      concrete jobs. A job with the launches it has made ([OrchestratorThms.Job]) traces
      every output back to what an agent returned; the agents are a relation there,
      which the witness takes to be the remote nodes of [RemoteA2a].
      [OrchestratorEnd.v]: a job whose planner stands by its plan, and whose tasks return
      and ask nobody for help, is done after a number of steps that the plan determines.
    - The engine: [Graph.v], [GraphFacts.v] (core/workflow/graph.py,
      utils/graph_validation.py), [Workflow.v], [WorkflowFacts.v], [WorkflowRuns.v]
      (workflow.py, join_node.py), [NodePath.v] (core/events/node_path_builder.py),
      [NewEvents.v] (core/events, core/models/llm_response.py), [NodeRunner.v]
      (node_runner.py, base_node.py, core/sessions), [Replay.v], [ReplayFacts.v]
      (utils/rehydration_utils.py, replay_manager.py, replay_sequence_barrier.py).
    - The agents: [Contents.v] (core/flows/llm_flows/context), [LlmAgent.v],
      [LlmAgentFacts.v] (core/agents/llm_agent.py), [LiteLlm.v] (core/models/lite_llm.py),
      [LlmRequest.v] (its requests, core/models/llm_request.py), [RemoteA2a.v],
      [RemoteFacts.v] (core/a2a/agent/remote_a2a_agent.py, with the life of its HTTP
      client, and the remote node of executor_node.py), [AgentNode.v]
      (core/workflow/llm_agent_wrapper.py, core/utils/schema_utils.py, the planner of
      the orchestrator and the start of a run).
    - Serving: [A2aServer.v] (a2a/executor.py: the requests of a server), [ServedAgent.v]
      (an agent that runs a model, served and called as a remote node).
    - The whole: [Service.v] puts the orchestrator, its planner, its remote nodes and the
      agents they call together, and follows a request to its answer; it begins with the
      application (config.py, app/server.py).

    The orchestrator is the workflow planner, executor, helper, done; [WorkflowRuns]
    proves that its graph is valid, that the loop runs one of its nodes at a time, and
    that it hands over as [orch_step] has it. The planner is any plan that the schema
    given to its model allows. The executor launches tasks, each of them a remote node
    ([RemoteA2a]), and an environment says at each wait which have ended. Nothing in the
    code keeps a plan from using an id X-assistN that an assist will be given later; then
    the id is in the plan twice and a node in flight can be started again
    ([DagSamples.assist_id_clash] runs [orch_step] that far). The theorems about the
    orchestrator are about [careful_step]: the steps of [orch_step] in which no answer of
    the planner uses such an id ([plan_allowed]).

    What is shown: in every run the tasks in flight are those of the running nodes, no
    node starts before its dependencies have an output, launches carry those outputs,
    plans stay within their bounds, and the executor makes progress or drains; a
    workflow without routes ends; the validator of graphs means what it says; a replay
    follows the record, and stops where it differs; streams are assembled exactly once;
    every tool call is answered before the model is asked again; in the schemas a model
    is given every object that has properties is closed and requires them;
    a node that runs an agent, in the workflow or behind A2A, ends as the run of the
    agent did ([AgentNode], [ServedAgent]); the requests of an A2A server do not mix
    ([A2aServer]); a request whose planner stands by its plan is answered by what the
    agents said ([Service]). [NewWitnesses.v] applies these theorems to concrete inputs.

    ** Fuel and bounds

    Loops that are not structural take fuel. It is enough, by theorem, where the code
    ends: [Dag] searches and the validators with the number of names ([connect_fuel],
    the depth of [dfs], Kahn's worklist), the cascade of a patch with the number of
    nodes, references in instructions with the length of the text, the four flows with
    six handlers ([MessageFacts.flows_end]), the drain of the executor with the number
    of tasks in flight ([OrchestratorFacts.drain_ends]), the workflow loop without
    routes with a number of turns of its graph ([WorkflowRuns.workflow_terminates]), the
    run of an agent with the number of requests after which its model calls no tool
    ([LlmAgentFacts.agent_run_bounds]). Elsewhere the code may go on for ever, and the
    fuel is an argument of the model: polling a remote task ([poll_budget]), a workflow
    with routes that loop, a model that always calls tools. The theorems about those
    runs hold for every amount of fuel. Integers of Python are [Z]: nothing wraps.

    ** Not modelled

    Wiring (main.py, api/deps.py, the routes of api/app.py and app/server.py), SQLite
    itself, reading settings from the environment, the ports
    and web servers of the simulator, the declarations of tools (made by pydantic), and
    protobuf structures, which are records and JSON values here. Time does
    not pass: a wait, a timeout or a backoff is a step that happens or does not. No coroutine is
    cancelled while it waits for the database. A task that is cancelled in [Runner.v] has done all of its turn or nothing of it, and a
    cancellation in [A2aServer.v] is one step. *)
From stdpp Require Export base tactics decidable option list strings pretty gmap.
From Stdlib Require Export Lia ZArith.

(** ** Scope and notations *)

Declare Scope choir_scope.
Delimit Scope choir_scope with choir.

(** The empty Python string. *)
Abbreviation estr := EmptyString.

#[export] Set Default Goal Selector "!".
#[export] Set Warnings "-clear-no-such-hyp,-register-all".

(** ** Hint databases *)

(** [choir] collects the lemmas that discharge routine side conditions,
    [choir_rw] the equations that describe how an operation acts on a field. *)
Create HintDb choir.
Create Rewrite HintDb choir_rw.

(** ** Tactics *)

(** Case analysis on the scrutinee of some [match] of the goal. *)
Ltac break_match :=
  match goal with
  | |- context [match ?x with _ => _ end] =>
      lazymatch x with
      | context [match _ with _ => _ end] => fail
      | _ => destruct x eqn:?
      end
  end.

(** The same, in a hypothesis. *)
Ltac break_match_hyp :=
  match goal with
  | H : context [match ?x with _ => _ end] |- _ =>
      lazymatch x with
      | context [match _ with _ => _ end] => fail
      | _ => destruct x eqn:?
      end
  end.

(** Turns boolean facts into propositions. *)
Ltac bool_prop :=
  repeat match goal with
  | H : _ && _ = true |- _ => apply andb_prop in H; destruct H
  | H : _ || _ = false |- _ => apply orb_false_iff in H; destruct H
  | H : bool_decide _ = true |- _ => apply bool_decide_eq_true in H
  | H : bool_decide _ = false |- _ => apply bool_decide_eq_false in H
  | H : negb _ = true |- _ => apply negb_true_iff in H
  | H : negb _ = false |- _ => apply negb_false_iff in H
  end.

Ltac crush :=
  repeat (intros; cbn in *; simplify_eq; bool_prop; try break_match_hyp; try break_match);
  simplify_eq; eauto with choir; try done; try lia.

(** ** Python truthiness of optional strings *)

(** [bool(x)] for [x : str]. *)
Definition str_truthy (s : string) : bool := bool_decide (s ≠ estr).

(** [bool(x)] for [x : str | None]. *)
Definition ostr_truthy (s : option string) : bool :=
  match s with Some t => str_truthy t | None => false end.

(** [x or d] for [x : str | None] and a string default. *)
Definition ostr_or (s : option string) (d : string) : string :=
  match s with Some t => if str_truthy t then t else d | None => d end.

(** [x or d] for strings. *)
Definition str_or (s d : string) : string := if str_truthy s then s else d.

Lemma str_truthy_true s : str_truthy s = true <-> s <> estr.
Proof. unfold str_truthy. by rewrite bool_decide_eq_true. Qed.

Lemma ostr_truthy_true o : ostr_truthy o = true <-> exists s, o = Some s /\ s <> estr.
Proof.
  destruct o as [s|]; cbn.
  - rewrite str_truthy_true. split; [eauto | by intros (? & [= <-] & ?)].
  - split; [done | by intros (? & ? & _)].
Qed.

(** ** Lists *)

(** [next((x for x in l if p(x)), None)]. *)
Definition find_first {A} (p : A -> bool) (l : list A) : option A := List.find p l.

(** [[x for x in l if p(x)]]. *)
Definition filterb {A} (p : A -> bool) (l : list A) : list A := List.filter p l.

Lemma elem_of_filterb {A} (p : A -> bool) l x : x ∈ filterb p l <-> x ∈ l /\ p x = true.
Proof. unfold filterb. rewrite !list_elem_of_In. apply filter_In. Qed.

Lemma filterb_app {A} (p : A -> bool) l k : filterb p (l ++ k) = filterb p l ++ filterb p k.
Proof. apply List.filter_app. Qed.

Lemma filterb_nil {A} (p : A -> bool) l :
  filterb p l = [] <-> forall x, x ∈ l -> p x = false.
Proof.
  induction l as [|a l IH]; cbn.
  - split; [by intros _ ? ?%elem_of_nil | done].
  - destruct (p a) eqn:Ha.
    + split; [done | intros H]. specialize (H a (list_elem_of_here _ _)). congruence.
    + rewrite IH. split.
      * intros H x [->|Hx]%elem_of_cons; auto.
      * intros H x Hx. apply H. by apply list_elem_of_further.
Qed.

Lemma filterb_sublist {A} (p : A -> bool) l : sublist (filterb p l) l.
Proof. induction l as [|a l IH]; cbn; [constructor|]. destruct (p a); by constructor. Qed.

Lemma filterb_filterb {A} (p q : A -> bool) l : filterb p (filterb q l) = filterb (fun x => p x && q x) l.
Proof.
  induction l as [|x l IH]; [done|]. unfold filterb in *. cbn. destruct (q x); cbn; [|by rewrite andb_false_r].
  rewrite andb_true_r. by destruct (p x); rewrite IH.
Qed.

Lemma find_first_some {A} (p : A -> bool) l x :
  find_first p l = Some x -> x ∈ l /\ p x = true.
Proof. unfold find_first. intros H. rewrite list_elem_of_In. by apply find_some. Qed.

Lemma find_first_none {A} (p : A -> bool) l :
  find_first p l = None <-> forall x, x ∈ l -> p x = false.
Proof.
  split.
  - intros H x Hx. apply (find_none p l H). by apply list_elem_of_In.
  - intros H. destruct (find_first p l) eqn:E; [|done].
    apply find_first_some in E as [Hin Hp]. rewrite (H _ Hin) in Hp. done.
Qed.

Lemma find_first_app {A} (p : A -> bool) l k :
  find_first p (l ++ k) = match find_first p l with Some x => Some x | None => find_first p k end.
Proof. unfold find_first. induction l as [|a l IH]; cbn; [done|]. by destruct (p a). Qed.

(** [any(p(x) for x in l)] and [all(p(x) for x in l)]. *)
Lemma existsb_elem {A} (p : A -> bool) l : existsb p l = true <-> exists x, x ∈ l /\ p x = true.
Proof. rewrite existsb_exists. by setoid_rewrite list_elem_of_In. Qed.

Lemma existsb_false {A} (p : A -> bool) l :
  existsb p l = false <-> forall x, x ∈ l -> p x = false.
Proof.
  rewrite <- not_true_iff_false, existsb_elem. split.
  - intros H x Hx. destruct (p x) eqn:E; [|done]. exfalso. eauto.
  - intros H (x & Hx & Hp). rewrite (H x Hx) in Hp. done.
Qed.

Lemma forallb_elem {A} (p : A -> bool) l : forallb p l = true <-> forall x, x ∈ l -> p x = true.
Proof. rewrite forallb_forall. by setoid_rewrite list_elem_of_In. Qed.

Lemma forallb_false {A} (p : A -> bool) l : forallb p l = false <-> exists x, x ∈ l /\ p x = false.
Proof.
  induction l as [|a l IH]; cbn; [split; [done | by intros (x & ?%elem_of_nil & _)]|].
  rewrite andb_false_iff, IH. setoid_rewrite elem_of_cons. naive_solver.
Qed.

(** [any(x in k for x in l)]. *)
Lemma existsb_mem {A} `{EqDecision A} (l k : list A) :
  existsb (fun x => bool_decide (x ∈ k)) l = true <-> exists x, x ∈ l /\ x ∈ k.
Proof. rewrite existsb_elem. by setoid_rewrite bool_decide_eq_true. Qed.

(** [list(dict.fromkeys(l))]: the first occurrence of each element, in order. *)
Fixpoint dedup_from {A} `{EqDecision A} (seen : list A) (l : list A) : list A :=
  match l with
  | [] => []
  | x :: l' => if bool_decide (x ∈ seen) then dedup_from seen l'
               else x :: dedup_from (x :: seen) l'
  end.

Definition fromkeys {A} `{EqDecision A} (l : list A) : list A := dedup_from [] l.

Lemma elem_of_dedup_from {A} `{EqDecision A} (l : list A) :
  forall seen x, x ∈ dedup_from seen l <-> x ∈ l /\ x ∉ seen.
Proof.
  induction l as [|a l IH]; intros seen x; cbn.
  - rewrite !elem_of_nil. tauto.
  - case_bool_decide as Ha.
    + rewrite IH, elem_of_cons. naive_solver.
    + rewrite !elem_of_cons, IH, elem_of_cons. destruct (decide (x = a)); naive_solver.
Qed.

Lemma elem_of_fromkeys {A} `{EqDecision A} (l : list A) x : x ∈ fromkeys l <-> x ∈ l.
Proof. unfold fromkeys. rewrite elem_of_dedup_from. set_solver. Qed.

Lemma NoDup_dedup_from {A} `{EqDecision A} (l : list A) : forall seen, NoDup (dedup_from seen l).
Proof.
  induction l as [|a l IH]; intros seen; cbn; [constructor|].
  case_bool_decide; [apply IH|]. constructor; [|apply IH].
  rewrite elem_of_dedup_from. set_solver.
Qed.

Lemma NoDup_fromkeys {A} `{EqDecision A} (l : list A) : NoDup (fromkeys l).
Proof. apply NoDup_dedup_from. Qed.

(** Elements of a list without duplicate images are told apart by them. *)
Lemma NoDup_fmap_inj {A B} (f : A -> B) l x y : NoDup (f <$> l) -> x ∈ l -> y ∈ l -> f x = f y -> x = y.
Proof.
  intros Hnd [i Hi]%list_elem_of_lookup [j Hj]%list_elem_of_lookup E.
  assert (i = j) as ->; [|congruence].
  apply (NoDup_lookup _ _ _ (f x) Hnd); rewrite list_lookup_fmap; [by rewrite Hi | by rewrite Hj, E].
Qed.

#[export] Hint Resolve NoDup_fromkeys : choir.

(** ** Reflexive-transitive closure with step induction *)

Section closure.
Context {S L : Type} (step : S -> L -> S -> Prop).

(** [steps s tr s']: the labelled steps [tr] lead from [s] to [s']. *)
Inductive steps : S -> list L -> S -> Prop :=
| steps_nil s : steps s [] s
| steps_cons s l s' tr s'' : step s l s' -> steps s' tr s'' -> steps s (l :: tr) s''.

Lemma steps_app s tr s' tr' s'' :
  steps s tr s' -> steps s' tr' s'' -> steps s (tr ++ tr') s''.
Proof. induction 1; cbn; eauto using steps. Qed.

(** An inductive invariant holds after every sequence of steps. *)
Lemma steps_invariant (I : S -> Prop) :
  (forall s l s', step s l s' -> I s -> I s') ->
  forall s tr s', steps s tr s' -> I s -> I s'.
Proof. intros Hstep. induction 1; eauto. Qed.

(** A reflexive and transitive relation between consecutive states holds
    between the ends of every sequence of steps. *)
Lemma steps_preorder (R : S -> S -> Prop) `{!PreOrder R} :
  (forall s l s', step s l s' -> R s s') ->
  forall s tr s', steps s tr s' -> R s s'.
Proof. intros Hstep. induction 1; [done|]. etrans; eauto. Qed.
End closure.

(** The newline string. *)
Definition nl : string := String (Ascii.ascii_of_nat 10) EmptyString.

(** Numbered ids with one prefix are distinct. *)
Lemma prefix_pretty_inj (p : string) (a b : Z) : (p +:+ pretty a = p +:+ pretty b)%string -> a = b.
Proof. intros H. apply (inj (String.append p)) in H. by apply (inj (pretty (A:=Z))) in H. Qed.
