(* ===== verification/PyStr.v ===== *)
(** * Python strings

    A Python [str] is represented by its UTF-8 encoding in a [string]; the
    encoding is injective and compatible with concatenation, so equality,
    concatenation and substring replacement are those of the byte strings.  The
    operations that count or cut characters ([len], slicing, [strip],
    [splitlines]) work on the list of code points [uchars s]. *)
From S2P Require Import Prelude.
From Stdlib Require Import Ascii.
From stdpp Require Import sorting.

(** ** Concatenation ([+:+] does not reduce by [cbn] under stdpp) *)

Lemma sapp_nil s : estr +:+ s = s.
Proof. done. Qed.

Lemma sapp_cons a s t : String a s +:+ t = String a (s +:+ t).
Proof. done. Qed.

Lemma sapp_assoc s t u : s +:+ (t +:+ u) = (s +:+ t) +:+ u.
Proof. induction s as [|a s IH]; rewrite ?sapp_nil, ?sapp_cons; [done|]. by rewrite IH. Qed.

Lemma sapp_nil_r s : s +:+ estr = s.
Proof. induction s as [|a s IH]; [done|]. by rewrite sapp_cons, IH. Qed.

#[export] Hint Rewrite sapp_nil sapp_cons : choir_rw.

(** ** Code points *)

(** UTF-8 continuation bytes are [10xxxxxx]. *)
Definition is_cont (a : ascii) : bool :=
  match a with Ascii _ _ _ _ _ _ b6 b7 => b7 && negb b6 end.

Definition starts_cont (s : string) : bool :=
  match s with String a _ => is_cont a | estr => false end.

(** The encodings of the code points of a string, in order. *)
Fixpoint uchars (s : string) : list string :=
  match s with
  | estr => []
  | String a s' =>
      match uchars s' with
      | c :: cs => if starts_cont c then String a c :: cs else String a estr :: c :: cs
      | [] => [String a estr]
      end
  end.

Definition uconcat (l : list string) : string := foldr String.append estr l.

(** [len(s)], [s[:n]] and [s[n:]]. *)
Definition ulen (s : string) : nat := length (uchars s).
Definition utake (n : nat) (s : string) : string := uconcat (take n (uchars s)).
Definition udrop (n : nat) (s : string) : string := uconcat (drop n (uchars s)).

Lemma uconcat_uchars s : uconcat (uchars s) = s.
Proof.
  induction s as [|a s IH]; cbn; [done|].
  destruct (uchars s) as [|c cs]; cbn in *; [by rewrite <- IH|].
  destruct (starts_cont c); cbn; by rewrite <- IH.
Qed.

Fixpoint all_cont (s : string) : bool :=
  match s with String a s' => is_cont a && all_cont s' | estr => true end.

(** One code point: a first byte followed by continuation bytes. *)
Definition one_char (c : string) : Prop :=
  exists a s, c = String a s /\ all_cont s = true.

(** Only the first chunk of a decoded string may begin with a continuation byte. *)
Definition wf_chunks (l : list string) : Prop :=
  Forall one_char l /\ Forall (fun c => starts_cont c = false) (tail l).

Lemma uchars_wf s : wf_chunks (uchars s).
Proof.
  induction s as [|a s [IH1 IH2]]; cbn; [by repeat constructor|].
  destruct (uchars s) as [|c cs]; cbn in *.
  - repeat constructor. by exists a, estr.
  - apply Forall_cons in IH1 as [(b & t & -> & Ht) IH1].
    cbn. destruct (is_cont b) eqn:Eb; split; cbn; auto.
    + constructor; [|done]. exists a, (String b t). cbn. by rewrite Eb.
    + repeat constructor; auto; [by exists a, estr | by exists b, t].
Qed.

Lemma uchars_chunk a s l :
  all_cont s = true -> wf_chunks l -> Forall (fun c => starts_cont c = false) l ->
  uchars (uconcat l) = l ->
  uchars (String a s +:+ uconcat l) = String a s :: l.
Proof.
  intros Hs Hl Hc Hu. revert a. induction s as [|b s IH]; intros a; rewrite sapp_cons, ?sapp_nil; cbn [uchars].
  - rewrite Hu. destruct l as [|c l]; [done|]. apply Forall_cons in Hc as [-> _]. done.
  - cbn in Hs. apply andb_prop in Hs as [Hb Hs].
    specialize (IH Hs b). rewrite IH. cbn. by rewrite Hb.
Qed.

Lemma uchars_uconcat l : wf_chunks l -> uchars (uconcat l) = l.
Proof.
  intros [H1 H2]. induction l as [|c l IH]; [done|].
  apply Forall_cons in H1 as [(a & s & -> & Hs) H1]. cbn [tail] in H2.
  assert (wf_chunks l) as Hwf.
  { split; [done|]. destruct l; cbn; [constructor|]. by apply Forall_cons in H2 as [_ ?]. }
  cbn [uconcat foldr]. fold (uconcat l). apply uchars_chunk; auto.
  apply IH; [done|]. by destruct Hwf.
Qed.

Lemma uchars_head s : match uchars s with c :: _ => starts_cont c = starts_cont s | [] => s = estr end.
Proof.
  destruct s as [|a s]; [done|]. cbn [uchars]. destruct (uchars s) as [|c cs]; [done|]. by destruct (starts_cont c).
Qed.

Lemma uconcat_app l k : uconcat (l ++ k) = uconcat l +:+ uconcat k.
Proof.
  induction l as [|c l IH]; [by rewrite sapp_nil|]. cbn [app uconcat foldr].
  fold (uconcat (l ++ k)) (uconcat l). by rewrite IH, sapp_assoc.
Qed.

(** A string that begins with a first byte begins with a new code point. *)
Lemma uchars_app s t : starts_cont t = false -> uchars (s +:+ t) = uchars s ++ uchars t.
Proof.
  intros Ht. rewrite <- (uchars_uconcat (uchars s ++ uchars t)).
  - by rewrite uconcat_app, !uconcat_uchars.
  - destruct (uchars_wf s) as [H1 H2], (uchars_wf t) as [H3 H4]. split; [by apply Forall_app|].
    assert (Forall (fun c => starts_cont c = false) (uchars t)) as H5.
    { pose proof (uchars_head t) as Hh. destruct (uchars t) as [|c cs]; [done|]. constructor; [congruence|done]. }
    destruct (uchars s) as [|c cs]; cbn in *; [by destruct (uchars t) as [|c cs]; [|apply Forall_cons in H5 as [_ ?]]|]. by apply Forall_app.
Qed.

Lemma wf_chunks_take n l : wf_chunks l -> wf_chunks (take n l).
Proof.
  intros [H1 H2]. split; [by apply Forall_take|].
  destruct l as [|c l], n as [|n]; cbn; try constructor. by apply Forall_take.
Qed.

Lemma uchars_utake n s : uchars (utake n s) = take n (uchars s).
Proof. apply uchars_uconcat, wf_chunks_take, uchars_wf. Qed.

Lemma ulen_utake n s : ulen (utake n s) = min n (ulen s).
Proof. unfold ulen. by rewrite uchars_utake, length_take. Qed.

Lemma utake_ge n s : ulen s <= n -> utake n s = s.
Proof. intros H. unfold utake. rewrite take_ge by done. apply uconcat_uchars. Qed.

Lemma utake_utake n s : utake n (utake n s) = utake n s.
Proof. apply utake_ge. rewrite ulen_utake. lia. Qed.

(** ** Whitespace and lines *)

Definition bytes (l : list nat) : string := foldr (fun n => String (ascii_of_nat n)) estr l.

(** The code points for which [str.isspace] holds. *)
Definition py_spaces : list string :=
  bytes <$> [[9]; [10]; [11]; [12]; [13]; [28]; [29]; [30]; [31]; [32];
    [194; 133]; [194; 160]; [225; 154; 128];
    [226; 128; 128]; [226; 128; 129]; [226; 128; 130]; [226; 128; 131]; [226; 128; 132];
    [226; 128; 133]; [226; 128; 134]; [226; 128; 135]; [226; 128; 136]; [226; 128; 137];
    [226; 128; 138]; [226; 128; 168]; [226; 128; 169]; [226; 128; 175]; [226; 129; 159];
    [227; 128; 128]].

(** The line boundaries of [str.splitlines] ([\r\n] counts once). *)
Definition py_newlines : list string :=
  bytes <$> [[10]; [11]; [12]; [13]; [28]; [29]; [30]; [194; 133]; [226; 128; 168]; [226; 128; 169]].

Definition is_space (c : string) : bool := bool_decide (c ∈ py_spaces).
Definition is_newline (c : string) : bool := bool_decide (c ∈ py_newlines).

Fixpoint drop_while {A} (p : A -> bool) (l : list A) : list A :=
  match l with x :: l' => if p x then drop_while p l' else l | [] => [] end.

(** [s.strip()]. *)
Definition ustrip (s : string) : string :=
  uconcat (reverse (drop_while is_space (reverse (drop_while is_space (uchars s))))).

(** [s.splitlines()]: [cur] is the reversed current line. *)
Fixpoint lines_from (cur : list string) (l : list string) : list string :=
  match l with
  | [] => match cur with [] => [] | _ => [uconcat (reverse cur)] end
  | c :: l' =>
      if is_newline c then
        match l' with
        | d :: l'' => if bool_decide (c = bytes [13]) && bool_decide (d = bytes [10])
                      then uconcat (reverse cur) :: lines_from [] l''
                      else uconcat (reverse cur) :: lines_from [] l'
        | [] => [uconcat (reverse cur)]
        end
      else lines_from (c :: cur) l'
  end.

Definition splitlines (s : string) : list string := lines_from [] (uchars s).

(** [sep.join(l)]. *)
Fixpoint str_join (sep : string) (l : list string) : string :=
  match l with
  | [] => estr
  | [x] => x
  | x :: l' => x +:+ sep +:+ str_join sep l'
  end.

Lemma str_join_cons sep x l : l <> [] -> str_join sep (x :: l) = x +:+ (sep +:+ str_join sep l).
Proof. by destruct l. Qed.

(** [s.split(c)] for a one-character separator. *)
Fixpoint split_on (c : ascii) (s : string) : list string :=
  match s with
  | estr => [estr]
  | String a s' =>
      if Ascii.eqb a c then estr :: split_on c s'
      else match split_on c s' with
           | x :: l => String a x :: l
           | [] => [String a estr]
           end
  end.

Lemma split_on_cons c s : exists x l, split_on c s = x :: l.
Proof.
  destruct s as [|a s]; cbn; [eauto|]. destruct (Ascii.eqb a c); [eauto|].
  destruct (split_on c s); eauto.
Qed.

Fixpoint has_char (c : ascii) (s : string) : bool :=
  match s with estr => false | String a s' => Ascii.eqb a c || has_char c s' end.

(** Splitting and joining are inverse. *)
Lemma join_split_on c s : str_join (String c estr) (split_on c s) = s.
Proof.
  induction s as [|a s IH]; cbn [split_on]; [done|].
  destruct (split_on_cons c s) as (x & l & E). rewrite E in *.
  destruct (Ascii.eqb_spec a c) as [->|Hne].
  - rewrite str_join_cons by done. by rewrite IH, sapp_nil, sapp_cons, sapp_nil.
  - destruct l as [|y l].
    + cbn in *. by rewrite IH.
    + rewrite str_join_cons in * by done. by rewrite sapp_cons, IH.
Qed.

Lemma split_on_no_char c s : has_char c s = false -> split_on c s = [s].
Proof.
  induction s as [|a s IH]; cbn; [done|]. intros [H1 H2]%orb_false_iff.
  rewrite H1. by rewrite IH.
Qed.

Lemma split_on_app c x s : has_char c x = false -> split_on c (x +:+ String c s) = x :: split_on c s.
Proof.
  induction x as [|a x IH]; rewrite ?sapp_nil, ?sapp_cons; cbn.
  - by rewrite Ascii.eqb_refl.
  - intros [-> H2]%orb_false_iff. by rewrite IH.
Qed.

Lemma split_join c l :
  l <> [] -> Forall (fun x => has_char c x = false) l -> split_on c (str_join (String c estr) l) = l.
Proof.
  intros Hne H. induction H as [|x l Hx Hl IH]; [done|].
  destruct l as [|y l].
  - by apply split_on_no_char.
  - rewrite str_join_cons, sapp_cons, sapp_nil, split_on_app by done. f_equal. by apply IH.
Qed.

Lemma split_on_no_sep c s : Forall (fun x => has_char c x = false) (split_on c s).
Proof.
  induction s as [|a s IH]; cbn; [by repeat constructor|].
  destruct (Ascii.eqb a c) eqn:E; [by constructor|].
  destruct (split_on c s) as [|x l]; [by repeat constructor; cbn; rewrite E|].
  apply Forall_cons in IH as [H1 H2]. constructor; [|done]. cbn. by rewrite E.
Qed.

(** ** Prefixes and substring replacement *)

Fixpoint strip_prefix (p s : string) : option string :=
  match p, s with
  | estr, _ => Some s
  | String a p', String b s' => if Ascii.eqb a b then strip_prefix p' s' else None
  | String _ _, estr => None
  end.

Lemma strip_prefix_Some p s r : strip_prefix p s = Some r <-> s = p +:+ r.
Proof.
  revert s. induction p as [|a p IH]; intros s; rewrite ?sapp_nil, ?sapp_cons; cbn.
  - split; [by intros [= ->] | by intros ->].
  - destruct s as [|b s]; [done|]. destruct (Ascii.eqb_spec a b) as [->|Hne].
    + rewrite IH. split; [by intros -> | by intros [= ->]].
    + split; [done | intros [= -> _]; done].
Qed.

(** [s.startswith(p)]. *)
Definition starts_with (p s : string) : bool :=
  match strip_prefix p s with Some _ => true | None => false end.

Lemma starts_with_true p s : starts_with p s = true <-> exists r, s = p +:+ r.
Proof.
  unfold starts_with. destruct (strip_prefix p s) as [r|] eqn:E.
  - apply strip_prefix_Some in E. split; eauto.
  - split; [done|]. intros [r Hr%strip_prefix_Some]. congruence.
Qed.

(** [s.replace(old, new)] for a non-empty [old]: leftmost, non-overlapping; the
    fuel is the length of [s], one unit per character of the scan. *)
Fixpoint replace_fuel (n : nat) (old new s : string) : string :=
  match n, s with
  | S n', String c s' =>
      match strip_prefix old s with
      | Some r => new +:+ replace_fuel n' old new r
      | None => String c (replace_fuel n' old new s')
      end
  | _, _ => s
  end.

Definition str_replace (old new s : string) : string := replace_fuel (String.length s) old new s.

(** [p in s] for strings. *)
Definition occurs (p s : string) : Prop := exists a b, s = a +:+ p +:+ b.

(** What a scan does: a hit consumes [old] and emits [new]; a miss copies. *)
Inductive replaced (old new : string) : string -> string -> Prop :=
| replaced_nil : replaced old new estr estr
| replaced_hit s s' : replaced old new s s' -> replaced old new (old +:+ s) (new +:+ s')
| replaced_copy c s s' :
    strip_prefix old (String c s) = None ->
    replaced old new s s' -> replaced old new (String c s) (String c s').

Lemma slength_app s t : String.length (s +:+ t) = String.length s + String.length t.
Proof. induction s as [|a s IH]; rewrite ?sapp_nil, ?sapp_cons; cbn; [done|]. by rewrite IH. Qed.

Lemma replace_replaced old new s : old <> estr -> replaced old new s (str_replace old new s).
Proof.
  intros Hold. unfold str_replace.
  enough (forall n, String.length s <= n -> replaced old new s (replace_fuel n old new s)) by eauto.
  intros n. revert s. induction n as [|n IH]; intros s Hn; destruct s as [|c s]; cbn in *;
    try constructor; try lia.
  destruct (strip_prefix old (String c s)) as [r|] eqn:E.
  - pose proof E as E'. apply strip_prefix_Some in E'. rewrite E'.
    apply replaced_hit, IH.
    destruct old as [|b old]; [done|]. rewrite sapp_cons in E'. injection E' as _ E'.
    rewrite E', slength_app in Hn. lia.
  - apply replaced_copy; [done|]. apply IH. lia.
Qed.

(** All suffixes of a string, itself and the empty one included. *)
Fixpoint suffixes (s : string) : list string :=
  match s with estr => [estr] | String _ s' => s :: suffixes s' end.

(** No non-empty suffix of [p] overlaps [s], that is, is a prefix of it or extends it. *)
Definition no_overlap (p s : string) : bool :=
  forallb (fun q => bool_decide (q = estr) || (negb (starts_with q s) && negb (starts_with s q)))
    (suffixes p).

Lemma suffixes_app a b : b ∈ suffixes (a +:+ b).
Proof.
  induction a as [|c a IH]; rewrite ?sapp_nil, ?sapp_cons; cbn.
  - destruct b; cbn; by left.
  - by right.
Qed.

Lemma sapp_split a b c d :
  a +:+ b = c +:+ d -> (exists e, c = a +:+ e) \/ (exists e, a = c +:+ e).
Proof.
  revert c. induction a as [|x a IH]; intros c; rewrite ?sapp_nil, ?sapp_cons.
  - intros _. left. exists c. by rewrite sapp_nil.
  - destruct c as [|y c]; rewrite ?sapp_nil, ?sapp_cons.
    + intros _. right. by exists (String x a).
    + intros [= -> H]. destruct (IH _ H) as [[e ->]|[e ->]].
      * left. by exists e.
      * right. exists e. by rewrite ?sapp_cons.
Qed.

Lemma no_overlap_prefix p q s t u :
  no_overlap p s = true -> q ∈ suffixes p -> q <> estr -> s +:+ t <> q +:+ u.
Proof.
  intros H Hq Hne E. unfold no_overlap in H. rewrite forallb_elem in H.
  specialize (H q Hq). apply orb_prop in H as [H|H].
  - by apply bool_decide_eq_true in H.
  - apply andb_prop in H as [H1 H2]. apply negb_true_iff in H1, H2.
    apply sapp_split in E as [[e He]|[e He]].
    + assert (starts_with s q = true) by (apply starts_with_true; eauto). congruence.
    + assert (starts_with q s = true) by (apply starts_with_true; eauto). congruence.
Qed.

Lemma replaced_prefix m old new s s' :
  no_overlap m new = true -> replaced old new s s' ->
  forall q r, q ∈ suffixes m -> q <> estr -> s' = q +:+ r -> exists r', s = q +:+ r'.
Proof.
  intros Hno. induction 1 as [|s s' H IH|c s s' Hc H IH]; intros q r Hq Hne E.
  - destruct q; [done|]. by rewrite sapp_cons in E.
  - by apply no_overlap_prefix with (p := m) in E.
  - destruct q as [|d q]; [done|]. rewrite sapp_cons in E. injection E as -> E.
    destruct q as [|e q]; [exists s; by rewrite sapp_cons, sapp_nil|].
    edestruct (IH (String e q) r) as [r' ->]; [|done..|by exists r'].
    clear -Hq. induction m as [|b m IHm]; cbn in Hq; [by apply list_elem_of_singleton in Hq|].
    apply elem_of_cons in Hq as [E|Hq].
    + injection E as <- <-. cbn. right. by left.
    + right. by apply IHm.
Qed.

Lemma occurs_cons m c s : occurs m (String c s) -> (exists r, String c s = m +:+ r) \/ occurs m s.
Proof.
  intros ([|d a] & b & E).
  - left. by exists b.
  - right. rewrite sapp_cons in E. injection E as <- E. by exists a, b.
Qed.

Lemma occurs_app_l m a s : occurs m s -> occurs m (a +:+ s).
Proof. intros (x & y & ->). exists (a +:+ x), y. by rewrite sapp_assoc. Qed.

(** An occurrence in [a +:+ s] that [a] does not overlap lies within [s]. *)
Lemma occurs_app_r m a s :
  m <> estr -> no_overlap a m = true -> occurs m (a +:+ s) -> occurs m s.
Proof.
  intros Hm. assert (forall x, x ∈ suffixes a -> no_overlap a m = true -> occurs m (x +:+ s) -> occurs m s) as H.
  { intros x. induction x as [|c x IH]; intros Hx Hno Ho; [done|].
    rewrite sapp_cons in Ho. apply occurs_cons in Ho as [[r Hr]|Ho].
    - exfalso. rewrite <- sapp_cons in Hr.
      assert (no_overlap a m = true) as Hno' by done. unfold no_overlap in Hno'.
      rewrite forallb_elem in Hno'. specialize (Hno' _ Hx).
      apply orb_prop in Hno' as [Hn|Hn]; [by apply bool_decide_eq_true in Hn|].
      apply andb_prop in Hn as [H1 H2]. apply negb_true_iff in H1, H2.
      apply sapp_split in Hr as [[e He]|[e He]].
      + assert (starts_with (String c x) m = true) by (apply starts_with_true; eauto). congruence.
      + assert (starts_with m (String c x) = true) by (apply starts_with_true; eauto). congruence.
    - apply IH; [|done..]. clear -Hx.
      induction a as [|b a IHa]; cbn in Hx; [by apply list_elem_of_singleton in Hx|].
      apply elem_of_cons in Hx as [E|Hx].
      + injection E as <- <-. cbn. right. destruct x; by left.
      + right. by apply IHa. }
  intros Hno. apply H; [|done]. destruct a; by left.
Qed.

(** Replacing [old] by a text that does not overlap the marker [m] introduces
    no occurrence of [m], and removes every occurrence of [old] itself. *)
Lemma replaced_no_occurs m old new s s' :
  m <> estr -> no_overlap m new = true -> no_overlap new m = true ->
  replaced old new s s' -> m = old \/ ~ occurs m s -> ~ occurs m s'.
Proof.
  intros Hm H1 H2. induction 1 as [|s s' H IH|c s s' Hc H IH]; intros Hmo Ho.
  - destruct Ho as (a & b & E). destruct a; [destruct m; [done|]|]; by rewrite ?sapp_cons in E.
  - apply occurs_app_r in Ho; [|done..]. apply IH; [|done].
    destruct Hmo as [?|Hn]; [by left|]. right. intros Hs. by apply Hn, occurs_app_l.
  - apply occurs_cons in Ho as [[r Hr]|Ho].
    + edestruct (replaced_prefix m old new (String c s) (String c s')) as [r' Hr'];
        [done|by apply replaced_copy| |done|exact Hr|].
      * destruct m; by left.
      * destruct Hmo as [->|Hn].
        -- apply strip_prefix_Some in Hr'. congruence.
        -- apply Hn. exists estr, r'. by rewrite sapp_nil.
    + apply IH; [|done]. destruct Hmo as [?|Hn]; [by left|].
      right. intros Hs. apply Hn. apply (occurs_app_l m (String c estr)) in Hs.
      by rewrite sapp_cons, sapp_nil in Hs.
Qed.

Lemma str_replace_no_occurs m old new s :
  old <> estr -> m <> estr -> no_overlap m new = true -> no_overlap new m = true ->
  m = old \/ ~ occurs m s -> ~ occurs m (str_replace old new s).
Proof. intros. eapply replaced_no_occurs; eauto using replace_replaced. Qed.

(** ** Mentions *)

(** The character class [[A-Za-z0-9_-]]. *)
Definition is_word (a : ascii) : bool :=
  let n := nat_of_ascii a in
  ((65 <=? n) && (n <=? 90)) || ((97 <=? n) && (n <=? 122)) || ((48 <=? n) && (n <=? 57))
  || (n =? 95) || (n =? 45).

Fixpoint span_word (s : string) : string * string :=
  match s with
  | String a s' => if is_word a then let '(w, r) := span_word s' in (String a w, r) else (estr, s)
  | estr => (estr, estr)
  end.

(** [re.findall(r"@([A-Za-z0-9_-]+)", s)]: the fuel is the length of [s]. *)
Fixpoint mentions_fuel (n : nat) (s : string) : list string :=
  match n, s with
  | S n', String a s' =>
      if Ascii.eqb a "@"%char then
        match span_word s' with
        | (estr, _) => mentions_fuel n' s'
        | (w, r) => w :: mentions_fuel n' r
        end
      else mentions_fuel n' s'
  | _, _ => []
  end.

Definition find_mentions (s : string) : list string := mentions_fuel (String.length s) s.

Example find_mentions_ex :
  find_mentions "hi @a-b, @@c_1 x@ @d"%string = ["a-b"; "c_1"; "d"]%string.
Proof. reflexivity. Qed.

(** ** Sorting *)

(** [sorted] on strings: the bytes of UTF-8 compare as the code points do. *)
Definition str_le (a b : string) : Prop := String.leb a b = true.
#[export] Instance str_le_dec a b : Decision (str_le a b) := decide (String.leb a b = true).
Definition py_sorted (l : list string) : list string := merge_sort str_le l.

Lemma py_sorted_spec l : py_sorted l ≡ₚ l /\ Sorted str_le (py_sorted l).
Proof. split; [apply merge_sort_Permutation|]. apply Sorted_merge_sort. intros a b. unfold str_le. destruct (String.leb_total a b); auto. Qed.

(** [p in s]. *)
Definition str_contains (p s : string) : bool := existsb (starts_with p) (suffixes s).
