(* ===== verification/Dict.v ===== *)
(** * Insertion-ordered dictionaries

    A Python [dict] is modelled by the association list of its items in
    insertion order: assigning to a present key keeps its position, assigning
    to a new key appends.  The order is observable in the program (schedulers
    and queries iterate over [state.nodes.values()]). *)
From S2P Require Import Prelude.

Section dict.
Context {K V : Type} `{!EqDecision K}.
Implicit Types (d : list (K * V)) (k : K) (v : V).

(** [d.get(k)]. *)
Fixpoint dget k d : option V :=
  match d with
  | [] => None
  | (k', v) :: d' => if decide (k = k') then Some v else dget k d'
  end.

(** [d[k] = v]. *)
Fixpoint dset k v d : list (K * V) :=
  match d with
  | [] => [(k, v)]
  | (k', v') :: d' => if decide (k = k') then (k', v) :: d' else (k', v') :: dset k v d'
  end.

(** [d.pop(k, None)] seen as an update. *)
Fixpoint ddel k d : list (K * V) :=
  match d with
  | [] => []
  | (k', v) :: d' => if decide (k = k') then d' else (k', v) :: ddel k d'
  end.

Definition dkeys d : list K := d.*1.
Definition dvals d : list V := d.*2.

(** [k in d]. *)
Definition dmem k d : bool := match dget k d with Some _ => true | None => false end.

(** In-place mutation of the object stored under [k]. *)
Definition dupd k (f : V -> V) d : list (K * V) :=
  match dget k d with Some v => dset k (f v) d | None => d end.

Lemma dget_dset_eq k v d : dget k (dset k v d) = Some v.
Proof. induction d as [|[k' v'] d IH]; cbn; repeat (case_decide; cbn); congruence. Qed.

Lemma dget_dset_ne k k' v d : k <> k' -> dget k (dset k' v d) = dget k d.
Proof. intros Hne. induction d as [|[k'' v'] d IH]; cbn; repeat (case_decide; cbn); congruence. Qed.

Lemma dget_dset k k' v d : dget k (dset k' v d) = if decide (k = k') then Some v else dget k d.
Proof. case_decide; [subst; apply dget_dset_eq | by apply dget_dset_ne]. Qed.

Lemma dget_None k d : dget k d = None <-> k ∉ dkeys d.
Proof.
  induction d as [|[k' v'] d IH]; cbn; [set_solver|].
  case_decide; [subst; set_solver|]. rewrite IH. set_solver.
Qed.

Lemma dget_Some_key k v d : dget k d = Some v -> k ∈ dkeys d.
Proof. intros H. destruct (decide (k ∈ dkeys d)) as [|Hn]; [done|].
  apply dget_None in Hn. congruence. Qed.

Lemma dkeys_dget k d : k ∈ dkeys d -> exists v, dget k d = Some v.
Proof. intros H. destruct (dget k d) eqn:E; [eauto|]. by apply dget_None in E. Qed.

Lemma dmem_true k d : dmem k d = true <-> k ∈ dkeys d.
Proof.
  unfold dmem. destruct (dget k d) eqn:E.
  - apply dget_Some_key in E. done.
  - apply dget_None in E. done.
Qed.

Lemma dmem_false k d : dmem k d = false <-> k ∉ dkeys d.
Proof. rewrite <- dmem_true. destruct (dmem k d); intuition congruence. Qed.

Lemma dget_elem k v d : dget k d = Some v -> (k, v) ∈ d.
Proof.
  induction d as [|[k' v'] d IH]; cbn; [done|].
  case_decide; [intros [= ->]; subst; by left | intros ?; right; auto].
Qed.

Lemma elem_dget k v d : NoDup (dkeys d) -> (k, v) ∈ d -> dget k d = Some v.
Proof.
  induction d as [|[k' v'] d IH]; cbn; [by intros _ ?%elem_of_nil|].
  intros [Hk Hnd]%NoDup_cons [[= -> ->]|Hin]%elem_of_cons.
  - by rewrite decide_True.
  - rewrite decide_False; [auto|]. intros ->. apply Hk.
    apply list_elem_of_fmap. by exists (k', v).
Qed.

Lemma elem_dvals v d : v ∈ dvals d <-> exists k, (k, v) ∈ d.
Proof.
  unfold dvals. rewrite list_elem_of_fmap. split.
  - intros ([k v'] & -> & ?). eauto.
  - intros (k & ?). by exists (k, v).
Qed.

Lemma dget_dvals k v d : dget k d = Some v -> v ∈ dvals d.
Proof. intros ?%dget_elem. apply elem_dvals. eauto. Qed.

Lemma dkeys_cons k v d : dkeys ((k, v) :: d) = k :: dkeys d.
Proof. done. Qed.

Lemma dkeys_dset k v d : dkeys (dset k v d) = if decide (k ∈ dkeys d) then dkeys d else dkeys d ++ [k].
Proof.
  induction d as [|[k' v'] d IH]; [done|].
  cbn [dset]. destruct (decide (k = k')) as [->|Hne]; rewrite !dkeys_cons.
  - rewrite decide_True; [done | by left].
  - rewrite IH. repeat case_decide; set_solver.
Qed.

Lemma elem_of_dkeys_dset k k' v d : k' ∈ dkeys (dset k v d) <-> k' = k \/ k' ∈ dkeys d.
Proof. rewrite dkeys_dset. case_decide; set_solver. Qed.

Lemma NoDup_dset k v d : NoDup (dkeys d) -> NoDup (dkeys (dset k v d)).
Proof.
  intros H. rewrite dkeys_dset. case_decide; [done|].
  apply NoDup_app. split; [done|]. split; [set_solver | apply NoDup_singleton].
Qed.

Lemma dset_fresh k v d : k ∉ dkeys d -> dset k v d = d ++ [(k, v)].
Proof.
  induction d as [|[k' v'] d IH]; cbn; [done|].
  intros H. rewrite decide_False by set_solver. rewrite IH; [done|set_solver].
Qed.

Lemma elem_of_dset k v d p : p ∈ dset k v d -> p = (k, v) \/ p ∈ d.
Proof.
  induction d as [|[k' v'] d IH]; cbn; [set_solver|].
  case_decide; subst; set_solver.
Qed.

Lemma dget_ddel_ne k k' d : k <> k' -> dget k (ddel k' d) = dget k d.
Proof. intros Hne. induction d as [|[k'' v'] d IH]; cbn; repeat (case_decide; cbn); congruence. Qed.

Lemma dkeys_ddel_sublist k d : sublist (dkeys (ddel k d)) (dkeys d).
Proof. induction d as [|[k' v] d IH]; cbn; [done|]. case_decide; by constructor. Qed.

Lemma NoDup_ddel k d : NoDup (dkeys d) -> NoDup (dkeys (ddel k d)).
Proof. intros H. eapply sublist_NoDup; [exact H | apply dkeys_ddel_sublist]. Qed.

Lemma dget_ddel_eq k d : NoDup (dkeys d) -> dget k (ddel k d) = None.
Proof.
  induction d as [|[k' v] d IH]; cbn; [done|]. intros [Hk Hnd]%NoDup_cons.
  case_decide; subst.
  - by apply dget_None.
  - cbn. rewrite decide_False by done. auto.
Qed.

Lemma dget_ddel k k' d : NoDup (dkeys d) -> dget k (ddel k' d) = if decide (k' = k) then None else dget k d.
Proof. intros H. destruct (decide (k' = k)) as [->|]; [by apply dget_ddel_eq | by apply dget_ddel_ne]. Qed.

Lemma dkeys_dupd k f d : dkeys (dupd k f d) = dkeys d.
Proof.
  unfold dupd. destruct (dget k d) eqn:E; [|done].
  rewrite dkeys_dset, decide_True; [done | by eapply dget_Some_key].
Qed.

Lemma NoDup_dupd k f d : NoDup (dkeys d) -> NoDup (dkeys (dupd k f d)).
Proof. by rewrite dkeys_dupd. Qed.

Lemma dget_dupd k k' f d :
  dget k (dupd k' f d) = if decide (k = k') then f <$> dget k d else dget k d.
Proof.
  unfold dupd. destruct (dget k' d) eqn:E.
  - rewrite dget_dset. case_decide; [subst; by rewrite E | done].
  - case_decide; [subst; by rewrite E | done].
Qed.

Lemma length_dupd k f d : length (dupd k f d) = length d.
Proof.
  rewrite <- (length_fmap fst (dupd k f d)), <- (length_fmap fst d).
  fold (dkeys (dupd k f d)) (dkeys d). by rewrite dkeys_dupd.
Qed.

(** Values of a dictionary after an in-place mutation: pointwise. *)
Lemma dupd_map k f d :
  NoDup (dkeys d) ->
  dupd k f d = map (fun '(k', v) => (k', if decide (k' = k) then f v else v)) d.
Proof.
  unfold dupd. induction d as [|[k' v] d IH]; cbn; [done|].
  intros [Hk Hnd]%NoDup_cons. specialize (IH Hnd).
  destruct (decide (k = k')) as [<-|Hne].
  - rewrite (decide_True (P := k = k)) by done. f_equal.
    symmetry. transitivity (map id d); [|apply map_id]. apply map_ext_in.
    intros [k'' v''] Hin%list_elem_of_In. rewrite decide_False; [done|].
    intros ->. apply Hk. apply list_elem_of_fmap. by exists (k, v'').
  - rewrite (decide_False (P := k' = k)) by congruence.
    destruct (dget k d) eqn:Eg; by rewrite <- IH.
Qed.
End dict.

#[export] Hint Resolve NoDup_dset NoDup_ddel NoDup_dupd : choir.
#[export] Hint Rewrite @dget_dset_eq @dkeys_dupd @length_dupd : choir_rw.

(** Case analysis on a lookup after an update, as [simplify_map_eq] does for finite maps. *)
Ltac dict_solve :=
  repeat (first
    [ rewrite dget_dset_eq in *
    | rewrite dget_dset_ne in * by congruence
    | rewrite dget_dset in *
    | rewrite dget_dupd in * ]; try case_decide; simplify_eq; cbn in *).

(** Look up literal keys in a literal dictionary. *)
Lemma dget_hit {V} (k : string) (v : V) d : dget k ((k, v) :: d) = Some v.
Proof. cbn. by rewrite decide_True. Qed.

Lemma dget_miss {V} (k k' : string) (v : V) d : String.eqb k k' = false -> dget k ((k', v) :: d) = dget k d.
Proof. intros H%String.eqb_neq. cbn. by rewrite decide_False. Qed.

Ltac dget_literal := repeat first [rewrite dget_hit | rewrite dget_miss by reflexivity].
