(* ===== verification/Json.v ===== *)
(** * JSON values, Python conversions and errors

    The values that [json.loads] returns and [json.dumps] takes (numbers are
    integers: the program writes no other).  The conversions [str], [int],
    [bool] and iteration are those Python applies to such values. *)
From S2P Require Import Prelude PyStr Dict.

Inductive json :=
| JNull
| JBool (b : bool)
| JNum (z : Z)
| JStr (s : string)
| JArr (l : list json)
| JObj (kvs : list (string * json)).

(** Exceptions the modelled code raises. [Unmodelled] marks a value outside the
    annotated types (Python would store it unchecked). *)
Inductive exn :=
| ValueError (msg : string)
| TypeError (msg : string)
| AttributeError (msg : string)
| KeyError (msg : string)
| InvalidTransition (msg : string)
| UnknownAgentError (msg : string)
| RewindUnavailable (msg : string)
| PlanningFailed (msg args_json : string)
| WorkflowError (msg : string)
| WorkflowInvariantError (msg : string)
| GraphValidationError (msg : string)
| FlowError (msg : string)
| TimeoutError
| CancelledError
| RemoteError (msg : string)
| AssertionError
| AgentCardResolutionError (msg : string)
| NodeTimeoutError (node_name timeout : string)
| RuntimeError (msg : string)
| Unmodelled.

(** [str(exc)]. *)
Definition exn_str (e : exn) : string :=
  match e with
  | ValueError m | TypeError m | AttributeError m | KeyError m | InvalidTransition m | UnknownAgentError m
  | RewindUnavailable m | PlanningFailed m _ | WorkflowError m | WorkflowInvariantError m
  | GraphValidationError m | FlowError m | RemoteError m | AgentCardResolutionError m | RuntimeError m => m
  | NodeTimeoutError n t => ("Node '" +:+ n +:+ "' timed out after " +:+ t +:+ " seconds.")%string
  | TimeoutError | CancelledError | AssertionError | Unmodelled => estr
  end.

(** [except Exception]: everything but a cancellation. *)
Definition is_exception (e : exn) : bool :=
  match e with CancelledError | Unmodelled => false | _ => true end.

(** ** The error monad *)

Inductive res (A : Type) := Ok (a : A) | Err (e : exn).
Arguments Ok {A} _.
Arguments Err {A} _.

#[export] Instance res_ret : MRet res := fun A a => Ok a.
#[export] Instance res_bind : MBind res := fun A B f m =>
  match m with Ok a => f a | Err e => Err e end.
#[export] Instance res_fmap : FMap res := fun A B f m =>
  match m with Ok a => Ok (f a) | Err e => Err e end.

Fixpoint res_mapM {A B} (f : A -> res B) (l : list A) : res (list B) :=
  match l with
  | [] => Ok []
  | x :: l' => y ← f x; ys ← res_mapM f l'; Ok (y :: ys)
  end.

Lemma res_bind_ok {A B} (m : res A) (f : A -> res B) b :
  m ≫= f = Ok b <-> exists a, m = Ok a /\ f a = Ok b.
Proof. destruct m; cbn; naive_solver. Qed.

Lemma res_mapM_ok {A B} (f : A -> res B) (g : A -> B) l :
  (forall x, x ∈ l -> f x = Ok (g x)) -> res_mapM f l = Ok (g <$> l).
Proof.
  induction l as [|x l IH]; cbn; [done|]. intros H.
  rewrite H by (by left). cbn. rewrite IH; [done|]. intros y Hy. apply H. by right.
Qed.

Definition is_ok {A} (r : res A) : bool := match r with Ok _ => true | Err _ => false end.

(** ** Conversions *)

Section conversions.
(** [str(x)] of a list or a dict, and [int(s)] of a string: Python built-ins
    the program applies to no value it has written itself. *)
Context (py_repr : json -> string) (py_int : string -> option Z).

(** [str(x)]. *)
Definition py_str (j : json) : string :=
  match j with
  | JNull => "None"
  | JBool true => "True"
  | JBool false => "False"
  | JNum z => pretty z
  | JStr s => s
  | JArr _ | JObj _ => py_repr j
  end.

(** [int(x)]. *)
Definition py_int_of (j : json) : res Z :=
  match j with
  | JNum z => Ok z
  | JBool b => Ok (if b then 1 else 0)%Z
  | JStr s => match py_int s with Some z => Ok z | None => Err (ValueError "invalid literal for int()") end
  | JNull | JArr _ | JObj _ => Err (TypeError "int() argument")
  end.
End conversions.

(** [bool(x)]. *)
Definition py_bool (j : json) : bool :=
  match j with
  | JNull => false
  | JBool b => b
  | JNum z => negb (z =? 0)%Z
  | JStr s => str_truthy s
  | JArr l => match l with [] => false | _ => true end
  | JObj l => match l with [] => false | _ => true end
  end.

(** [for x in j]. *)
Definition py_iter (j : json) : res (list json) :=
  match j with
  | JArr l => Ok l
  | JStr s => Ok (JStr <$> uchars s)
  | JObj kvs => Ok (JStr <$> kvs.*1)
  | JNull | JBool _ | JNum _ => Err (TypeError "object is not iterable")
  end.

(** [j.get(k, d)]: only a dict has [get]. *)
Definition py_get (j : json) (k : string) (d : json) : res json :=
  match j with
  | JObj kvs => Ok (default d (dget k kvs))
  | _ => Err (AttributeError "get")
  end.

(** A field annotated [str | None], stored without a check. *)
Definition opt_str (j : json) : res (option string) :=
  match j with
  | JNull => Ok None
  | JStr s => Ok (Some s)
  | _ => Err Unmodelled
  end.

Definition json_opt (o : option string) : json :=
  match o with Some s => JStr s | None => JNull end.

Lemma opt_str_json o : opt_str (json_opt o) = Ok o.
Proof. by destruct o. Qed.

Definition json_strs (l : list string) : json := JArr (JStr <$> l).

(** ** [strip_none] (a2a/wire.py): drop [None] items of dicts, at every depth *)

Fixpoint strip_none (j : json) : json :=
  match j with
  | JObj kvs =>
      JObj ((fix go (l : list (string * json)) :=
        match l with
        | [] => []
        | (k, v) :: l' => match v with JNull => go l' | _ => (k, strip_none v) :: go l' end
        end) kvs)
  | JArr l => JArr ((fix go (l : list json) :=
        match l with [] => [] | v :: l' => strip_none v :: go l' end) l)
  | _ => j
  end.
