(* ===== verification/State.v ===== *)
(** * Conversation state (choirworks/orchestration/state.py): data model,
    queries and transitions

    Mutable objects are values stored in insertion-ordered dictionaries; a
    Python reference to a [NodeState] or an [Intervention] is the key under
    which the dictionary holds it, and a mutation is an update at that key. *)
From S2P Require Import Prelude PyStr Dict Json.

(** ** Enumerations *)

Module NodeStatus.
Inductive node_status :=
| PENDING | READY | SUBMITTED | WORKING | INPUT_REQUIRED | RECOVER
| COMPLETED | FAILED | CANCELED | INVALIDATED.
#[export] Instance node_status_eq_dec : EqDecision node_status.
Proof. solve_decision. Defined.

(** The [StrEnum] value. *)
Definition node_status_value (s : node_status) : string :=
  match s with
  | PENDING => "pending" | READY => "ready" | SUBMITTED => "submitted"
  | WORKING => "working" | INPUT_REQUIRED => "input_required" | RECOVER => "recover"
  | COMPLETED => "completed" | FAILED => "failed" | CANCELED => "canceled"
  | INVALIDATED => "invalidated"
  end.

Definition all_statuses : list node_status :=
  [PENDING; READY; SUBMITTED; WORKING; INPUT_REQUIRED; RECOVER; COMPLETED; FAILED; CANCELED;
   INVALIDATED].
End NodeStatus.
Export (hints) NodeStatus.
Abbreviation node_status := NodeStatus.node_status.

Module InterventionStatus.
Inductive intervention_status := PENDING | RESOLVED | EXPIRED.
#[export] Instance intervention_status_eq_dec : EqDecision intervention_status.
Proof. solve_decision. Defined.
Definition intervention_status_value (s : intervention_status) : string :=
  match s with PENDING => "pending" | RESOLVED => "resolved" | EXPIRED => "expired" end.
End InterventionStatus.
Export (hints) InterventionStatus.

Inductive InterventionKind := QUESTION | CONFIRM_CANCEL.
#[export] Instance InterventionKind_eq_dec : EqDecision InterventionKind.
Proof. solve_decision. Defined.
Definition InterventionKind_value (k : InterventionKind) : string :=
  match k with QUESTION => "question" | CONFIRM_CANCEL => "confirm_cancel" end.

Inductive QuestionType := INPUT | SELECT | CONFIRM.
#[export] Instance QuestionType_eq_dec : EqDecision QuestionType.
Proof. solve_decision. Defined.
Definition QuestionType_value (q : QuestionType) : string :=
  match q with INPUT => "input" | SELECT => "select" | CONFIRM => "confirm" end.

Definition TERMINAL_NODE_STATUSES : list node_status :=
  [NodeStatus.COMPLETED; NodeStatus.FAILED; NodeStatus.CANCELED; NodeStatus.INVALIDATED].
Definition ACTIVE_NODE_STATUSES : list node_status := [NodeStatus.SUBMITTED; NodeStatus.WORKING].
Definition PENDING_NODE_STATUSES : list node_status :=
  [NodeStatus.PENDING; NodeStatus.READY; NodeStatus.RECOVER].
Definition INPUT_NODE_STATUSES : list node_status := [NodeStatus.INPUT_REQUIRED].

(** [s in STATUSES]. *)
Definition status_in (s : node_status) (l : list node_status) : bool := bool_decide (s ∈ l).

(** ** Records *)

Record NodeState := mkNode {
  n_id : string;
  n_name : string;
  n_agent_name : string;
  n_status : node_status;
  n_attempt : Z;
  n_a2a_task_id : option string;
  n_output : option string;
  n_error : option string;
  n_deps : list string;
  n_input_text : string;
  n_derived : bool;
  n_question : option string;
  n_answer_text : option string;
  n_answer_from : option string;
  n_assist_requested_by : option string;
  n_adopted_helpers : list string
}.

(** A node as its constructor makes it: every field not given has its default. *)
Definition new_node (id name agent_name : string) (deps : list string) (input_text : string)
    (derived : bool) (assist_requested_by : option string) : NodeState :=
  mkNode id name agent_name NodeStatus.PENDING 0 None None None deps input_text derived
    None None None assist_requested_by [].

Definition set_status (s : node_status) (n : NodeState) : NodeState :=
  mkNode (n_id n) (n_name n) (n_agent_name n) s (n_attempt n) (n_a2a_task_id n) (n_output n)
    (n_error n) (n_deps n) (n_input_text n) (n_derived n) (n_question n) (n_answer_text n)
    (n_answer_from n) (n_assist_requested_by n) (n_adopted_helpers n).
Definition set_attempt (a : Z) (n : NodeState) : NodeState :=
  mkNode (n_id n) (n_name n) (n_agent_name n) (n_status n) a (n_a2a_task_id n) (n_output n)
    (n_error n) (n_deps n) (n_input_text n) (n_derived n) (n_question n) (n_answer_text n)
    (n_answer_from n) (n_assist_requested_by n) (n_adopted_helpers n).
Definition set_a2a_task_id (t : option string) (n : NodeState) : NodeState :=
  mkNode (n_id n) (n_name n) (n_agent_name n) (n_status n) (n_attempt n) t (n_output n)
    (n_error n) (n_deps n) (n_input_text n) (n_derived n) (n_question n) (n_answer_text n)
    (n_answer_from n) (n_assist_requested_by n) (n_adopted_helpers n).
Definition set_output (o : option string) (n : NodeState) : NodeState :=
  mkNode (n_id n) (n_name n) (n_agent_name n) (n_status n) (n_attempt n) (n_a2a_task_id n) o
    (n_error n) (n_deps n) (n_input_text n) (n_derived n) (n_question n) (n_answer_text n)
    (n_answer_from n) (n_assist_requested_by n) (n_adopted_helpers n).
Definition set_error (e : option string) (n : NodeState) : NodeState :=
  mkNode (n_id n) (n_name n) (n_agent_name n) (n_status n) (n_attempt n) (n_a2a_task_id n)
    (n_output n) e (n_deps n) (n_input_text n) (n_derived n) (n_question n) (n_answer_text n)
    (n_answer_from n) (n_assist_requested_by n) (n_adopted_helpers n).
Definition set_question (q : option string) (n : NodeState) : NodeState :=
  mkNode (n_id n) (n_name n) (n_agent_name n) (n_status n) (n_attempt n) (n_a2a_task_id n)
    (n_output n) (n_error n) (n_deps n) (n_input_text n) (n_derived n) q (n_answer_text n)
    (n_answer_from n) (n_assist_requested_by n) (n_adopted_helpers n).
Definition set_answer (t f : option string) (n : NodeState) : NodeState :=
  mkNode (n_id n) (n_name n) (n_agent_name n) (n_status n) (n_attempt n) (n_a2a_task_id n)
    (n_output n) (n_error n) (n_deps n) (n_input_text n) (n_derived n) (n_question n) t f
    (n_assist_requested_by n) (n_adopted_helpers n).
Definition set_adopted_helpers (l : list string) (n : NodeState) : NodeState :=
  mkNode (n_id n) (n_name n) (n_agent_name n) (n_status n) (n_attempt n) (n_a2a_task_id n)
    (n_output n) (n_error n) (n_deps n) (n_input_text n) (n_derived n) (n_question n)
    (n_answer_text n) (n_answer_from n) (n_assist_requested_by n) l.

Record Member := mkMember { m_name : string; m_reason : string; m_joined_at : string }.

(** [answer: str | list[str] | bool]. *)
Inductive answer := AStr (s : string) | AList (l : list string) | ABool (b : bool).

Record Intervention := mkIntervention {
  iv_id : string;
  iv_node_id : string;
  iv_question : string;
  iv_status : InterventionStatus.intervention_status;
  iv_answer : option answer;
  iv_responder : option string;
  iv_kind : InterventionKind;
  iv_question_type : QuestionType;
  iv_options : list string;
  iv_multi : bool;
  iv_requester : string;
  iv_created_at : string;
  iv_announced : bool
}.

Definition set_iv_status (s : InterventionStatus.intervention_status) (iv : Intervention) :=
  mkIntervention (iv_id iv) (iv_node_id iv) (iv_question iv) s (iv_answer iv) (iv_responder iv)
    (iv_kind iv) (iv_question_type iv) (iv_options iv) (iv_multi iv) (iv_requester iv)
    (iv_created_at iv) (iv_announced iv).
Definition set_iv_announced (b : bool) (iv : Intervention) :=
  mkIntervention (iv_id iv) (iv_node_id iv) (iv_question iv) (iv_status iv) (iv_answer iv)
    (iv_responder iv) (iv_kind iv) (iv_question_type iv) (iv_options iv) (iv_multi iv)
    (iv_requester iv) (iv_created_at iv) b.
(** Resolution by a human: status, answer and responder together. *)
Definition set_iv_resolved (a : answer) (iv : Intervention) :=
  mkIntervention (iv_id iv) (iv_node_id iv) (iv_question iv) InterventionStatus.RESOLVED (Some a)
    (Some "human"%string) (iv_kind iv) (iv_question_type iv) (iv_options iv) (iv_multi iv)
    (iv_requester iv) (iv_created_at iv) (iv_announced iv).

(** Render a typed answer as the continuation text sent to the node. *)
Definition render_answer (iv : Intervention) : string :=
  match iv_question_type iv, iv_answer iv with
  | SELECT, Some (AList l) => str_join "、" l
  | CONFIRM, Some (ABool true) => "确认"
  | CONFIRM, _ => "取消"
  | _, Some (AStr s) => s
  | _, _ => estr
  end.

Record QueuedMessage := mkQueued {
  q_id : string; q_text : string; q_sender : string; q_quote_id : option string;
  q_created_at : string }.

Record OrchestrationState := mkState {
  plan_id : string;
  plan_version : Z;
  nodes : list (string * NodeState);
  members : list (string * Member);
  interventions : list (string * Intervention);
  queue : list (string * list QueuedMessage);
  derived_count : Z;
  patch_count : Z;
  revision_count : Z;
  next_message : Z
}.

(** [OrchestrationState()]. *)
Definition empty_state : OrchestrationState := mkState estr 1 [] [] [] [] 0 0 0 1.

Definition set_nodes (d : list (string * NodeState)) (s : OrchestrationState) :=
  mkState (plan_id s) (plan_version s) d (members s) (interventions s) (queue s)
    (derived_count s) (patch_count s) (revision_count s) (next_message s).
Definition set_members (d : list (string * Member)) (s : OrchestrationState) :=
  mkState (plan_id s) (plan_version s) (nodes s) d (interventions s) (queue s)
    (derived_count s) (patch_count s) (revision_count s) (next_message s).
Definition set_interventions (d : list (string * Intervention)) (s : OrchestrationState) :=
  mkState (plan_id s) (plan_version s) (nodes s) (members s) d (queue s)
    (derived_count s) (patch_count s) (revision_count s) (next_message s).
Definition set_queue (d : list (string * list QueuedMessage)) (s : OrchestrationState) :=
  mkState (plan_id s) (plan_version s) (nodes s) (members s) (interventions s) d
    (derived_count s) (patch_count s) (revision_count s) (next_message s).
Definition set_derived_count (z : Z) (s : OrchestrationState) :=
  mkState (plan_id s) (plan_version s) (nodes s) (members s) (interventions s) (queue s)
    z (patch_count s) (revision_count s) (next_message s).
Definition set_patch_count (z : Z) (s : OrchestrationState) :=
  mkState (plan_id s) (plan_version s) (nodes s) (members s) (interventions s) (queue s)
    (derived_count s) z (revision_count s) (next_message s).
Definition set_revision_count (z : Z) (s : OrchestrationState) :=
  mkState (plan_id s) (plan_version s) (nodes s) (members s) (interventions s) (queue s)
    (derived_count s) (patch_count s) z (next_message s).
Definition set_next_message (z : Z) (s : OrchestrationState) :=
  mkState (plan_id s) (plan_version s) (nodes s) (members s) (interventions s) (queue s)
    (derived_count s) (patch_count s) (revision_count s) z.

(** In-place mutation of the node (intervention) object stored under a key. *)
Definition upd_node (k : string) (f : NodeState -> NodeState) (s : OrchestrationState) :=
  set_nodes (dupd k f (nodes s)) s.
Definition upd_intervention (k : string) (f : Intervention -> Intervention) (s : OrchestrationState) :=
  set_interventions (dupd k f (interventions s)) s.

Definition get_node (s : OrchestrationState) (k : string) : option NodeState := dget k (nodes s).

(** ** Queries *)

(** [dep in state.nodes and state.nodes[dep].status == COMPLETED]. *)
Definition dep_completed (s : OrchestrationState) (dep : string) : bool :=
  match dget dep (nodes s) with
  | Some d => bool_decide (n_status d = NodeStatus.COMPLETED) | None => false end.

Definition is_ready (s : OrchestrationState) (n : NodeState) : bool :=
  status_in (n_status n) PENDING_NODE_STATUSES && forallb (dep_completed s) (n_deps n).

Definition ready_nodes (s : OrchestrationState) : list NodeState :=
  filterb (is_ready s) (dvals (nodes s)).

(** [dep in state.nodes and state.nodes[dep].status in TERMINAL_NODE_STATUSES]. *)
Definition dep_terminal (s : OrchestrationState) (dep : string) : bool :=
  match dget dep (nodes s) with
  | Some d => status_in (n_status d) TERMINAL_NODE_STATUSES | None => false end.

Definition is_blocked (s : OrchestrationState) (n : NodeState) : bool :=
  bool_decide (n_status n = NodeStatus.PENDING) && existsb (dep_terminal s) (n_deps n).

Definition blocked_nodes (s : OrchestrationState) : list NodeState :=
  filterb (is_blocked s) (dvals (nodes s)).

Definition active_nodes (s : OrchestrationState) : list NodeState :=
  filterb (fun n => status_in (n_status n) ACTIVE_NODE_STATUSES) (dvals (nodes s)).

Definition input_required_nodes (s : OrchestrationState) : list NodeState :=
  filterb (fun n => status_in (n_status n) INPUT_NODE_STATUSES) (dvals (nodes s)).

Definition failed_nodes (s : OrchestrationState) : list NodeState :=
  filterb (fun n => bool_decide (n_status n = NodeStatus.FAILED)) (dvals (nodes s)).

(** True when every task is settled: completed or canceled. *)
Definition all_completed (s : OrchestrationState) : bool :=
  let active := filterb (fun n => bool_decide (n_status n <> NodeStatus.INVALIDATED)) (dvals (nodes s)) in
  match active with [] => false | _ => true end
  && forallb (fun n => status_in (n_status n) [NodeStatus.COMPLETED; NodeStatus.CANCELED]) active.

Definition has_failures (s : OrchestrationState) : bool :=
  existsb (fun n => bool_decide (n_status n = NodeStatus.FAILED)) (dvals (nodes s)).

Definition has_pending_work (s : OrchestrationState) : bool :=
  existsb (fun n => status_in (n_status n)
    (PENDING_NODE_STATUSES ++ ACTIVE_NODE_STATUSES ++ INPUT_NODE_STATUSES)) (dvals (nodes s)).

Definition assist_nodes_for (s : OrchestrationState) (agent_name requested_by : string) : list NodeState :=
  filterb (fun n => n_derived n && bool_decide (n_assist_requested_by n = Some requested_by)
    && bool_decide (n_agent_name n = agent_name)) (dvals (nodes s)).

(** The loop of [assist_chain_agents]: [current] is the node reached, [seen] the
    ids visited, [names] the agents collected.  [None]: out of fuel. *)
Fixpoint assist_chain_loop (fuel : nat) (s : OrchestrationState) (current : NodeState)
    (seen names : gset string) : option (gset string) :=
  match fuel with
  | O => None
  | S fuel' =>
      match n_assist_requested_by current with
      | Some r =>
          if str_truthy r && negb (bool_decide (r ∈ seen)) then
            match dget r (nodes s) with
            | None => Some names
            | Some parent =>
                assist_chain_loop fuel' s parent ({[r]} ∪ seen) ({[n_agent_name parent]} ∪ names)
            end
          else Some names
      | None => Some names
      end
  end.

(** Agents already involved in this assist chain (requester + its ancestors).
    The fuel exceeds the number of nodes: see [assist_chain_terminates]. *)
Definition assist_chain_agents (s : OrchestrationState) (n : NodeState) : gset string :=
  default ∅ (assist_chain_loop (S (length (nodes s))) s n {[n_id n]} {[n_agent_name n]}).

Definition iv_pending (iv : Intervention) : bool :=
  bool_decide (iv_status iv = InterventionStatus.PENDING).

Definition pending_interventions (s : OrchestrationState) : list Intervention :=
  filterb iv_pending (dvals (interventions s)).

Definition pending_intervention_for (s : OrchestrationState) (node_id : string) : option Intervention :=
  find_first (fun iv => bool_decide (iv_node_id iv = node_id) && iv_pending iv)
    (dvals (interventions s)).

(** ** Transitions *)

Definition add_member (now name reason : string) (s : OrchestrationState) : OrchestrationState * bool :=
  if dmem name (members s) then (s, false)
  else (set_members (dset name (mkMember name reason now) (members s)) s, true).

(** Create one pending question for a node. [None] when one is already pending.
    [uid] is the [uuid4().hex] drawn, [now] the creation time. *)
Definition request_user_input (uid now : string) (s : OrchestrationState) (node_id question : string)
    (kind : InterventionKind) (question_type : QuestionType) (options : list string) (multi : bool)
    (requester : string) : OrchestrationState * option Intervention :=
  match pending_intervention_for s node_id with
  | Some _ => (s, None)
  | None =>
      let iv := mkIntervention uid node_id question InterventionStatus.PENDING None None kind
                  question_type options multi requester now false in
      (set_interventions (dset uid iv (interventions s)) s, Some iv)
  end.

Definition _intervention_stale (iv : Intervention) (node : option NodeState) : bool :=
  match node with
  | None => true
  | Some n =>
      match iv_kind iv with
      | CONFIRM_CANCEL => negb (status_in (n_status n) ACTIVE_NODE_STATUSES)
      | QUESTION => bool_decide (n_status n <> NodeStatus.INPUT_REQUIRED)
      end
  end.

(** One iteration of the loops below: expire a pending intervention that is stale. *)
Definition expire_if (p : Intervention -> bool) (s : OrchestrationState) (iv : Intervention) : Intervention * bool :=
  if iv_pending iv && p iv && _intervention_stale iv (dget (iv_node_id iv) (nodes s))
  then (set_iv_status InterventionStatus.EXPIRED iv, true) else (iv, false).

Definition expire_where (p : Intervention -> bool) (s : OrchestrationState) : OrchestrationState * list Intervention :=
  (set_interventions (map (fun '(k, iv) => (k, fst (expire_if p s iv))) (interventions s)) s,
   omap (fun '(_, iv) => let '(iv', b) := expire_if p s iv in if b : bool then Some iv' else None)
     (interventions s)).

(** Expire pending questions for one node that its status no longer justifies. *)
Definition expire_node_interventions (s : OrchestrationState) (node_id : string) :=
  expire_where (fun iv => bool_decide (iv_node_id iv = node_id)) s.

(** Expire pending interventions whose target is no longer waiting. *)
Definition normalize_interventions (s : OrchestrationState) := expire_where (fun _ => true) s.

Definition enqueue (now : string) (s : OrchestrationState) (node_id text sender : string)
    (quote_id : option string) : OrchestrationState * QueuedMessage :=
  let message := mkQueued ("qm" +:+ pretty (next_message s)) text sender quote_id now in
  let s := set_next_message (next_message s + 1) s in
  (set_queue (dset node_id (default [] (dget node_id (queue s)) ++ [message]) (queue s)) s, message).

Definition take_queued (s : OrchestrationState) (node_id : string) : OrchestrationState * list QueuedMessage :=
  (set_queue (ddel node_id (queue s)) s, default [] (dget node_id (queue s))).

(** Reset plan-scoped state for a new turn, keeping session members. *)
Definition start_new_plan (s : OrchestrationState) (new_plan_id : string) : OrchestrationState :=
  mkState new_plan_id (plan_version s + 1) [] (members s) [] [] 0 0 0 1.
