(* ===== verification/StateFacts.v ===== *)
(** * Facts about the conversation state

    The well-formedness invariant of [OrchestrationState], the meaning of the
    scheduler's queries, and the life cycle of interventions and queued
    messages. *)
From S2P Require Import Prelude PyStr Dict Json State.

(** ** Well-formedness *)

(** Every dictionary has unique keys, and an object is stored under its own id. *)
Record wf_state (s : OrchestrationState) : Prop := {
  wf_nodes_nodup : NoDup (dkeys (nodes s));
  wf_nodes_id : forall k n, (k, n) ∈ nodes s -> n_id n = k;
  wf_members_nodup : NoDup (dkeys (members s));
  wf_members_id : forall k m, (k, m) ∈ members s -> m_name m = k;
  wf_ivs_nodup : NoDup (dkeys (interventions s));
  wf_ivs_id : forall k iv, (k, iv) ∈ interventions s -> iv_id iv = k;
  wf_queue_nodup : NoDup (dkeys (queue s))
}.

(** At most one intervention is pending for a node. *)
Definition one_pending (s : OrchestrationState) : Prop :=
  forall k1 iv1 k2 iv2,
    (k1, iv1) ∈ interventions s -> (k2, iv2) ∈ interventions s ->
    iv_pending iv1 = true -> iv_pending iv2 = true -> iv_node_id iv1 = iv_node_id iv2 -> k1 = k2.

Lemma wf_empty : wf_state empty_state.
Proof. split; cbn; try constructor; intros ? ? ?%elem_of_nil; done. Qed.

Section wf.
Context (s : OrchestrationState) (Hwf : wf_state s).

Lemma wf_get_id k n : get_node s k = Some n -> n_id n = k.
Proof using Hwf. intros H%dget_elem. by eapply wf_nodes_id. Qed.

Lemma wf_elem_get n : n ∈ dvals (nodes s) -> get_node s (n_id n) = Some n.
Proof using Hwf.
  intros (k & Hk)%elem_dvals. rewrite (wf_nodes_id s Hwf k n) by done.
  apply elem_dget; [apply Hwf | done].
Qed.

Lemma wf_set_nodes d :
  NoDup (dkeys d) -> (forall k n, (k, n) ∈ d -> n_id n = k) -> wf_state (set_nodes d s).
Proof using Hwf. intros. destruct Hwf. by split. Qed.

Lemma wf_set_interventions d :
  NoDup (dkeys d) -> (forall k iv, (k, iv) ∈ d -> iv_id iv = k) -> wf_state (set_interventions d s).
Proof using Hwf. intros. destruct Hwf. by split. Qed.

Lemma wf_set_members d :
  NoDup (dkeys d) -> (forall k m, (k, m) ∈ d -> m_name m = k) -> wf_state (set_members d s).
Proof using Hwf. intros. destruct Hwf. by split. Qed.

Lemma wf_set_queue d : NoDup (dkeys d) -> wf_state (set_queue d s).
Proof using Hwf. intros. destruct Hwf. by split. Qed.

Lemma wf_set_next_message z : wf_state (set_next_message z s).
Proof using Hwf. destruct Hwf. by split. Qed.

Lemma wf_add_node n : wf_state (set_nodes (dset (n_id n) n (nodes s)) s).
Proof using Hwf.
  apply wf_set_nodes; [apply NoDup_dset, Hwf|].
  intros k m [[= -> ->]|H]%elem_of_dset; [done | by eapply wf_nodes_id].
Qed.

Lemma wf_upd_node k f : (forall n, n_id (f n) = n_id n) -> wf_state (upd_node k f s).
Proof using Hwf.
  intros Hf. apply wf_set_nodes; [apply NoDup_dupd, Hwf|].
  intros k' m. unfold dupd. destruct (dget k (nodes s)) as [n|] eqn:E.
  - intros [[= -> ->]|H]%elem_of_dset; [|by eapply wf_nodes_id].
    rewrite Hf. by apply wf_get_id.
  - apply Hwf.
Qed.
End wf.

Lemma get_upd_node s k k' f :
  get_node (upd_node k f s) k' = if decide (k' = k) then f <$> get_node s k' else get_node s k'.
Proof. unfold get_node, upd_node. cbn. apply dget_dupd. Qed.

Lemma nodes_keys_upd_node s k f : dkeys (nodes (upd_node k f s)) = dkeys (nodes s).
Proof. apply dkeys_dupd. Qed.

#[export] Hint Resolve wf_empty wf_upd_node wf_add_node wf_set_queue wf_set_next_message
  wf_nodes_nodup wf_ivs_nodup wf_members_nodup wf_queue_nodup : choir.
#[export] Hint Rewrite get_upd_node nodes_keys_upd_node : choir_rw.

(** ** Scheduler queries *)

Lemma dep_completed_true s dep :
  dep_completed s dep = true <-> exists d, get_node s dep = Some d /\ n_status d = NodeStatus.COMPLETED.
Proof.
  unfold dep_completed, get_node. destruct (dget dep (nodes s)) as [d|].
  - rewrite bool_decide_eq_true. naive_solver.
  - naive_solver.
Qed.

Lemma dep_terminal_true s dep :
  dep_terminal s dep = true <-> exists d, get_node s dep = Some d /\ n_status d ∈ TERMINAL_NODE_STATUSES.
Proof.
  unfold dep_terminal, get_node, status_in. destruct (dget dep (nodes s)) as [d|].
  - rewrite bool_decide_eq_true. naive_solver.
  - naive_solver.
Qed.

(** The three classes [has_pending_work], [has_failures] and the settled
    statuses cover every status but [INVALIDATED]. *)
Lemma status_classes st :
  status_in st (PENDING_NODE_STATUSES ++ ACTIVE_NODE_STATUSES ++ INPUT_NODE_STATUSES) = false ->
  st <> NodeStatus.FAILED -> st <> NodeStatus.INVALIDATED ->
  status_in st [NodeStatus.COMPLETED; NodeStatus.CANCELED] = true.
Proof. by destruct st. Qed.

(** A node is offered for dispatch exactly when it waits to run and every
    dependency exists and has completed. *)
Theorem ready_nodes_spec s n :
  n ∈ ready_nodes s <->
  n ∈ dvals (nodes s) /\ n_status n ∈ PENDING_NODE_STATUSES /\
  (forall dep, dep ∈ n_deps n -> exists d, get_node s dep = Some d /\ n_status d = NodeStatus.COMPLETED).
Proof.
  unfold ready_nodes, is_ready, status_in. rewrite elem_of_filterb, andb_true_iff.
  rewrite bool_decide_eq_true, forallb_elem. setoid_rewrite dep_completed_true. done.
Qed.

(** The three verdicts of the scheduler are exhaustive and the completion
    verdict excludes the others. *)
Theorem plan_verdicts s :
  (all_completed s = true -> has_failures s = false /\ has_pending_work s = false) /\
  (has_failures s = false -> has_pending_work s = false ->
   (exists n, n ∈ dvals (nodes s) /\ n_status n <> NodeStatus.INVALIDATED) -> all_completed s = true).
Proof.
  unfold all_completed, has_failures, has_pending_work. split.
  - intros [_ H]%andb_prop. rewrite forallb_elem in H. rewrite !existsb_false.
    split; intros n Hn;
      (destruct (decide (n_status n = NodeStatus.INVALIDATED)) as [E|E]; [by rewrite E|]);
      specialize (H n); rewrite elem_of_filterb, bool_decide_eq_true in H;
      specialize (H (conj Hn E)); by destruct (n_status n).
  - rewrite !existsb_false. intros Hf Hp (n & Hn & Hne).
    assert (n ∈ filterb (fun n => bool_decide (n_status n <> NodeStatus.INVALIDATED)) (dvals (nodes s))) as Hin.
    { rewrite elem_of_filterb, bool_decide_eq_true. done. }
    apply andb_true_intro. split.
    + destruct (filterb _ _); [by apply elem_of_nil in Hin | done].
    + apply forallb_elem. intros m [Hm Hi]%elem_of_filterb. bool_prop.
      apply status_classes; [by apply Hp | | done].
      specialize (Hf m Hm). by bool_prop.
Qed.

(** ** The assist chain *)

Section assist_chain.
Context (s : OrchestrationState).

(** The node that asked for [n]'s help. *)
Definition requester_of (n : NodeState) : option NodeState :=
  match n_assist_requested_by n with
  | Some r => if str_truthy r then get_node s r else None
  | None => None
  end.

(** [m] is [n] or one of the requesters above it. *)
Inductive in_chain (n : NodeState) : NodeState -> Prop :=
| in_chain_self : in_chain n n
| in_chain_up m p : in_chain n m -> requester_of m = Some p -> in_chain n p.

(** Invariant of the loop: [P] lists the nodes visited, [current] included;
    all but [current] have their requester in [P]. *)
Record chain_inv (n current : NodeState) (seen names : gset string) (P : list NodeState) : Prop := {
  ci_current : current ∈ P;
  ci_start : n ∈ P;
  ci_seen : forall x, x ∈ seen <-> exists m, m ∈ P /\ n_id m = x;
  ci_names : forall x, x ∈ names <-> exists m, m ∈ P /\ n_agent_name m = x;
  ci_reach : forall m, m ∈ P -> in_chain n m;
  ci_stored : forall m, m ∈ P -> get_node s (n_id m) = Some m;
  ci_closed : forall m p, m ∈ P -> m <> current -> requester_of m = Some p -> p ∈ P
}.

Lemma chain_done n current seen names P :
  chain_inv n current seen names P ->
  (forall p, requester_of current = Some p -> p ∈ P) ->
  forall x, x ∈ names <-> exists m, in_chain n m /\ n_agent_name m = x.
Proof.
  intros I Hc x. rewrite (ci_names _ _ _ _ _ I). split.
  - intros (m & Hm & <-). exists m. split; [by apply (ci_reach _ _ _ _ _ I) | done].
  - intros (m & Hm & <-). exists m. split; [|done].
    induction Hm as [|m p Hm IH Hp]; [apply (ci_start _ _ _ _ _ I)|].
    destruct (decide (n_id m = n_id current)) as [E|Hne].
    + apply Hc. assert (m = current) as ->; [|done].
      pose proof (ci_stored _ _ _ _ _ I _ IH). pose proof (ci_stored _ _ _ _ _ I _ (ci_current _ _ _ _ _ I)).
      congruence.
    + eapply (ci_closed _ _ _ _ _ I m); [done| congruence | done].
Qed.

Hypothesis Hwf : wf_state s.

Lemma chain_step n current seen names P r parent :
  chain_inv n current seen names P ->
  n_assist_requested_by current = Some r -> str_truthy r = true ->
  dget r (nodes s) = Some parent ->
  chain_inv n parent ({[r]} ∪ seen) ({[n_agent_name parent]} ∪ names) (parent :: P).
Proof using Hwf.
  intros I Hr Ht Hg.
  assert (requester_of current = Some parent) as Hreq.
  { unfold requester_of. by rewrite Hr, Ht. }
  assert (n_id parent = r) as Hid by (by apply (wf_get_id s)).
  destruct I as [H1 H2 H3 H4 H5 H6 H7]. split.
  - by left.
  - by right.
  - intros x. rewrite elem_of_union, elem_of_singleton, H3. setoid_rewrite elem_of_cons. naive_solver.
  - intros x. rewrite elem_of_union, elem_of_singleton, H4. setoid_rewrite elem_of_cons. naive_solver.
  - intros m [->|Hm]%elem_of_cons; [apply (in_chain_up n current); auto | auto].
  - intros m [->|Hm]%elem_of_cons; [by rewrite Hid | auto].
  - intros m p [->|Hm]%elem_of_cons Hne Hp; [done|].
    destruct (decide (n_id m = n_id current)) as [E|Hne'].
    + pose proof (H6 _ Hm). pose proof (H6 _ H1). assert (m = current) as -> by congruence.
      assert (p = parent) as -> by congruence. by left.
    + right. eapply H7; eauto. congruence.
Qed.

Lemma assist_chain_loop_spec fuel n : forall current seen names P,
  chain_inv n current seen names P ->
  size (list_to_set (dkeys (nodes s)) ∖ seen) < fuel ->
  exists r, assist_chain_loop fuel s current seen names = Some r /\
    forall x, x ∈ r <-> exists m, in_chain n m /\ n_agent_name m = x.
Proof using Hwf.
  induction fuel as [|fuel IH]; intros current seen names P I Hf; [lia|].
  pose proof (chain_done _ _ _ _ _ I) as Hdone. cbn.
  destruct (n_assist_requested_by current) as [r|] eqn:Hr.
  2: { eexists. split; [done|]. apply Hdone. unfold requester_of. by rewrite Hr. }
  destruct (str_truthy r) eqn:Ht; cbn.
  2: { eexists. split; [done|]. apply Hdone. unfold requester_of. by rewrite Hr, Ht. }
  case_bool_decide as Hs; cbn.
  { eexists. split; [done|]. apply Hdone. unfold requester_of. rewrite Hr, Ht. intros p Hp.
    apply (ci_seen _ _ _ _ _ I) in Hs as (m & Hm & <-).
    pose proof (ci_stored _ _ _ _ _ I _ Hm). congruence. }
  destruct (dget r (nodes s)) as [parent|] eqn:Hg.
  2: { eexists. split; [done|]. apply Hdone. unfold requester_of, get_node. by rewrite Hr, Ht, Hg. }
  eapply IH; [by eapply chain_step|].
  eapply Nat.lt_le_trans; [|apply Nat.lt_succ_r; exact Hf].
  apply subset_size. apply dget_Some_key in Hg. split.
  - intros x. rewrite !elem_of_difference, elem_of_union. naive_solver.
  - intros Hsub. specialize (Hsub r).
    rewrite !elem_of_difference, elem_of_union, elem_of_singleton, elem_of_list_to_set in Hsub.
    naive_solver.
Qed.

Lemma size_keys_le : size (list_to_set (dkeys (nodes s)) : gset string) <= length (nodes s).
Proof.
  rewrite <- (length_fmap fst (nodes s)). fold (dkeys (nodes s)).
  induction (dkeys (nodes s)) as [|k l IH]; [done|].
  cbn [list_to_set length]. rewrite size_union_alt, size_singleton.
  assert (size ((list_to_set l : gset string) ∖ {[k]}) <= size (list_to_set l : gset string)).
  { apply subseteq_size. set_solver. }
  lia.
Qed.

Lemma chain_inv_init n :
  get_node s (n_id n) = Some n -> chain_inv n n {[n_id n]} {[n_agent_name n]} [n].
Proof.
  intros Hn. split.
  - by left.
  - by left.
  - intros x. rewrite elem_of_singleton. setoid_rewrite list_elem_of_singleton. naive_solver.
  - intros x. rewrite elem_of_singleton. setoid_rewrite list_elem_of_singleton. naive_solver.
  - intros m ->%list_elem_of_singleton. constructor.
  - by intros m ->%list_elem_of_singleton.
  - by intros m p ->%list_elem_of_singleton.
Qed.

(** The fuel of [assist_chain_agents] suffices, and the agents collected are
    those of the chain. *)
Lemma assist_chain_loop_total n :
  get_node s (n_id n) = Some n ->
  exists r, assist_chain_loop (S (length (nodes s))) s n {[n_id n]} {[n_agent_name n]} = Some r /\
    forall x, x ∈ r <-> exists m, in_chain n m /\ n_agent_name m = x.
Proof using Hwf.
  intros Hn. eapply assist_chain_loop_spec; [by apply chain_inv_init|].
  apply Nat.lt_succ_r. etrans; [|apply size_keys_le].
  apply subseteq_size. intros x. rewrite elem_of_difference. naive_solver.
Qed.

Lemma assist_chain_agents_elem n x :
  get_node s (n_id n) = Some n ->
  x ∈ assist_chain_agents s n <-> exists m, in_chain n m /\ n_agent_name m = x.
Proof using Hwf.
  intros Hn. destruct (assist_chain_loop_total n Hn) as (r & Hr & Hx).
  unfold assist_chain_agents. rewrite Hr. apply Hx.
Qed.
End assist_chain.

(** ** Interventions *)

Lemma pending_for_none s node_id :
  pending_intervention_for s node_id = None <->
  forall k iv, (k, iv) ∈ interventions s -> iv_node_id iv = node_id -> iv_pending iv = false.
Proof.
  unfold pending_intervention_for. rewrite find_first_none. split.
  - intros H k iv Hin <-. specialize (H iv). rewrite elem_dvals in H.
    specialize (H (ex_intro _ k Hin)). by rewrite bool_decide_true in H.
  - intros H iv (k & Hin)%elem_dvals. case_bool_decide as E; [|done]. cbn. eauto.
Qed.

Lemma pending_for_some s node_id iv :
  pending_intervention_for s node_id = Some iv ->
  iv ∈ dvals (interventions s) /\ iv_node_id iv = node_id /\ iv_pending iv = true.
Proof. unfold pending_intervention_for. intros [H1 H2]%find_first_some. by bool_prop. Qed.

(** The loop bodies of [expire_node_interventions] and [normalize_interventions]. *)
Section expire.
Context (p : Intervention -> bool) (s : OrchestrationState).

Lemma expire_if_id iv : iv_id (fst (expire_if p s iv)) = iv_id iv.
Proof. unfold expire_if. by case_match. Qed.

Lemma expire_if_node iv : iv_node_id (fst (expire_if p s iv)) = iv_node_id iv.
Proof. unfold expire_if. by case_match. Qed.

Lemma expire_if_pending iv :
  iv_pending (fst (expire_if p s iv)) = true ->
  fst (expire_if p s iv) = iv /\ iv_pending iv = true /\
  (p iv = true -> _intervention_stale iv (dget (iv_node_id iv) (nodes s)) = false).
Proof.
  unfold expire_if. destruct (iv_pending iv && p iv && _) eqn:E; cbn; [done|].
  intros Hp. rewrite Hp in E. split; [done|].
  split; [done|]. intros Hpi. by rewrite Hpi in E.
Qed.

Lemma elem_of_expire_where k iv' :
  (k, iv') ∈ interventions (fst (expire_where p s)) <->
  exists iv, (k, iv) ∈ interventions s /\ iv' = fst (expire_if p s iv).
Proof.
  unfold expire_where. cbn. rewrite list_elem_of_In, in_map_iff. setoid_rewrite <- list_elem_of_In.
  split.
  - intros ([k' iv] & [= -> <-] & H). eauto.
  - intros (iv & H & ->). by exists (k, iv).
Qed.

Lemma dkeys_expire_where : dkeys (interventions (fst (expire_where p s))) = dkeys (interventions s).
Proof.
  unfold expire_where, dkeys. cbn. induction (interventions s) as [|[k iv] l IH]; cbn; [done|].
  by rewrite IH.
Qed.

Lemma wf_expire_where : wf_state s -> wf_state (fst (expire_where p s)).
Proof.
  intros Hwf. apply wf_set_interventions; [done|..].
  - change (NoDup (dkeys (interventions (fst (expire_where p s))))).
    rewrite dkeys_expire_where. apply Hwf.
  - intros k iv' (iv & H & ->)%elem_of_expire_where. rewrite expire_if_id.
    by eapply (wf_ivs_id s).
Qed.

Lemma one_pending_expire_where : one_pending s -> one_pending (fst (expire_where p s)).
Proof.
  intros Hone k1 iv1 k2 iv2 (i1 & H1 & ->)%elem_of_expire_where (i2 & H2 & ->)%elem_of_expire_where.
  intros (_ & P1 & _)%expire_if_pending (_ & P2 & _)%expire_if_pending.
  rewrite !expire_if_node. by eapply Hone.
Qed.

(** The list returned holds exactly the interventions that were changed. *)
Lemma elem_of_expired iv' :
  iv' ∈ snd (expire_where p s) <->
  exists iv, iv ∈ dvals (interventions s) /\ iv_pending iv = true /\ p iv = true /\
    _intervention_stale iv (dget (iv_node_id iv) (nodes s)) = true /\
    iv' = set_iv_status InterventionStatus.EXPIRED iv.
Proof.
  unfold expire_where. cbn. rewrite list_elem_of_omap. setoid_rewrite elem_dvals. split.
  - intros ([k iv] & Hin & E). unfold expire_if in E.
    destruct (iv_pending iv && p iv && _) eqn:Ec; cbn in E; [|done].
    simplify_eq. bool_prop. naive_solver.
  - intros (iv & (k & Hin) & H1 & H2 & H3 & ->). exists (k, iv). split; [done|].
    unfold expire_if. by rewrite H1, H2, H3.
Qed.
End expire.

Lemma expire_if_settled p s s' iv :
  nodes s' = nodes s -> expire_if p s' (fst (expire_if p s iv)) = (fst (expire_if p s iv), false).
Proof.
  intros Hn. unfold expire_if at 2 3. destruct (iv_pending iv && p iv && _) eqn:E; cbn.
  - done.
  - unfold expire_if. by rewrite Hn, E.
Qed.

(** Creating a question keeps the invariants. *)
Lemma request_user_input_inv uid now s node_id question kind qt options multi requester s' r :
  wf_state s -> one_pending s ->
  request_user_input uid now s node_id question kind qt options multi requester = (s', r) ->
  wf_state s' /\ one_pending s' /\ nodes s' = nodes s.
Proof.
  intros Hwf Hone. unfold request_user_input.
  destruct (pending_intervention_for s node_id) eqn:E; intros [= <- <-]; [done|].
  rewrite pending_for_none in E. split; [|split; [|done]].
  - apply wf_set_interventions; [done | apply NoDup_dset, Hwf |].
    intros k iv [[= -> ->]|H]%elem_of_dset; [done | by eapply (wf_ivs_id s)].
  - intros k1 i1 k2 i2 [[= -> ->]|H1]%elem_of_dset [[= -> ->]|H2]%elem_of_dset P1 P2 En.
    + done.
    + cbn in En. symmetry in En. specialize (E _ _ H2 En). congruence.
    + cbn in En. specialize (E _ _ H1 En). congruence.
    + by eapply Hone.
Qed.

(** Questions. A node never has two pending questions: a new question is
    created exactly when none is pending, and it is then the node's pending one. *)
Theorem request_user_input_spec uid now s node_id question kind qt options multi requester :
  wf_state s -> one_pending s -> uid ∉ dkeys (interventions s) ->
  let '(s', r) := request_user_input uid now s node_id question kind qt options multi requester in
  wf_state s' /\ one_pending s' /\
  (match pending_intervention_for s node_id with
   | Some _ => s' = s /\ r = None
   | None => exists iv, r = Some iv /\ pending_intervention_for s' node_id = Some iv /\
       iv_question iv = question /\ iv_kind iv = kind /\
       (forall other, other <> node_id ->
          pending_intervention_for s' other = pending_intervention_for s other)
   end).
Proof.
  intros Hwf Hone Hu. destruct (request_user_input _ _ _ _ _ _ _ _ _ _) as [s' r] eqn:E.
  destruct (request_user_input_inv _ _ _ _ _ _ _ _ _ _ _ _ Hwf Hone E) as (H1 & H2 & _).
  split; [done|]. split; [done|]. unfold request_user_input in E.
  destruct (pending_intervention_for s node_id) eqn:Ep; simplify_eq; [done|].
  eexists. split; [done|]. unfold pending_intervention_for in *. cbn.
  rewrite dset_fresh by done. unfold dvals in *. rewrite fmap_app. cbn.
  split; [|split; [done|split; [done|]]].
  - rewrite find_first_app. rewrite Ep. cbn. by rewrite bool_decide_true.
  - intros other Hne. clear Ep H1 H2. rewrite find_first_app. destruct (find_first _ _); [done|]. cbn.
    by rewrite (bool_decide_false (node_id = other)) by congruence.
Qed.

(** Normalisation. After [normalize_interventions] every pending question has
    a target that still waits for it, the expired ones are exactly those
    reported, the others and the nodes are untouched, and a second call changes
    nothing. *)
Theorem normalize_interventions_spec s :
  let '(s', expired) := normalize_interventions s in
  nodes s' = nodes s /\ dkeys (interventions s') = dkeys (interventions s) /\
  (forall iv, iv ∈ pending_interventions s' <->
     iv ∈ pending_interventions s /\ _intervention_stale iv (get_node s (iv_node_id iv)) = false) /\
  (forall iv, iv ∈ expired <-> exists iv0, iv0 ∈ pending_interventions s /\
     _intervention_stale iv0 (get_node s (iv_node_id iv0)) = true /\
     iv = set_iv_status InterventionStatus.EXPIRED iv0) /\
  normalize_interventions s' = (s', []).
Proof.
  unfold normalize_interventions. destruct (expire_where _ s) as [s' expired] eqn:E.
  assert (s' = fst (expire_where (fun _ => true) s)) as Hs' by by rewrite E.
  assert (expired = snd (expire_where (fun _ => true) s)) as -> by by rewrite E.
  assert (nodes s' = nodes s) as Hn by by rewrite Hs'.
  split; [done|]. split; [rewrite Hs'; apply dkeys_expire_where|]. split; [|split].
  - intros iv. unfold pending_interventions. rewrite !elem_of_filterb, !elem_dvals. rewrite Hs'.
    setoid_rewrite elem_of_expire_where. split.
    + intros ((k & iv0 & Hin & ->) & Hp). apply expire_if_pending in Hp as (-> & Hp & Hst). eauto 6.
    + intros (((k & Hin) & Hp) & Hst). split; [|done]. exists k, iv. split; [done|].
      unfold expire_if. unfold get_node in Hst. by rewrite Hst, andb_false_r.
  - intros iv. rewrite elem_of_expired. unfold pending_interventions. setoid_rewrite elem_of_filterb.
    unfold get_node. naive_solver.
  - rewrite Hs'. clear. unfold expire_where. cbn. apply pair_eq. split.
    + unfold set_interventions. cbn. f_equal. rewrite map_map. apply map_ext. intros [k iv]. by rewrite expire_if_settled by done.
    + induction (interventions s) as [|[k iv] l IH]; cbn; [done|].
      rewrite expire_if_settled by done. cbn. exact IH.
Qed.

(** ** Queued messages *)

(** The queue of a node is first-in first-out: what [take_queued] returns is
    what was enqueued for that node, in order; it leaves the node's queue empty
    and the other queues alone; message ids are fresh. *)
Theorem enqueue_take_queued now s node_id text sender quote :
  wf_state s ->
  let '(s1, m) := enqueue now s node_id text sender quote in
  let '(s2, taken) := take_queued s1 node_id in
  taken = snd (take_queued s node_id) ++ [m] /\
  snd (take_queued s2 node_id) = [] /\
  (forall other, other <> node_id -> snd (take_queued s2 other) = snd (take_queued s other)) /\
  q_text m = text /\ q_id m = "qm" +:+ pretty (next_message s) /\ next_message s1 = (next_message s + 1)%Z /\
  wf_state s1 /\ wf_state s2.
Proof.
  intros Hwf. unfold enqueue, take_queued. cbn.
  rewrite dget_dset_eq. cbn. split; [done|]. split.
  { rewrite dget_ddel_eq; [done|]. apply NoDup_dset, Hwf. }
  split. { intros other Hne. by rewrite dget_ddel_ne, dget_dset_ne. }
  split; [done|]. split; [done|]. split; [done|].
  auto 7 with choir.
Qed.

(** ** Deciding the invariants on concrete states *)

Definition wf_stateb (s : OrchestrationState) : bool :=
  bool_decide (NoDup (dkeys (nodes s))) && forallb (fun '(k, n) => bool_decide (n_id n = k)) (nodes s)
  && bool_decide (NoDup (dkeys (members s))) && forallb (fun '(k, m) => bool_decide (m_name m = k)) (members s)
  && bool_decide (NoDup (dkeys (interventions s))) && forallb (fun '(k, iv) => bool_decide (iv_id iv = k)) (interventions s)
  && bool_decide (NoDup (dkeys (queue s))).

Lemma wf_stateb_ok s : wf_stateb s = true -> wf_state s.
Proof.
  unfold wf_stateb. intros H. bool_prop. rewrite !forallb_elem in *.
  split; try done; intros k x Hin;
    match goal with H : forall p, p ∈ _ s -> _ |- _ => specialize (H _ Hin); cbn in H; by apply bool_decide_eq_true in H end.
Qed.

Definition one_pendingb (s : OrchestrationState) : bool :=
  forallb (fun '(k1, iv1) => forallb (fun '(k2, iv2) =>
    bool_decide (k1 = k2) || negb (iv_pending iv1 && iv_pending iv2 && bool_decide (iv_node_id iv1 = iv_node_id iv2)))
    (interventions s)) (interventions s).

Lemma one_pendingb_ok s : one_pendingb s = true -> one_pending s.
Proof.
  unfold one_pendingb. rewrite forallb_elem. intros H k1 iv1 k2 iv2 H1 H2 P1 P2 En.
  pose proof (H _ H1) as H'. cbn in H'. rewrite forallb_elem in H'. specialize (H' _ H2). cbn in H'.
  rewrite P1, P2, (bool_decide_true (iv_node_id iv1 = iv_node_id iv2)) in H' by done.
  cbn in H'. rewrite orb_false_r in H'. by apply bool_decide_eq_true in H'.
Qed.
