(* ===== verification/Transitions.v ===== *)
(** * Node status transitions (choirworks/orchestration/transitions.py) *)
From S2P Require Import Prelude PyStr Dict Json State StateFacts.
Import NodeStatus.

Definition ALLOWED_TRANSITIONS (s : node_status) : list node_status :=
  match s with
  | PENDING => [READY; SUBMITTED; INPUT_REQUIRED; FAILED; CANCELED; INVALIDATED]
  | READY => [SUBMITTED; INPUT_REQUIRED; FAILED; CANCELED; INVALIDATED]
  | SUBMITTED => [WORKING; COMPLETED; FAILED; INPUT_REQUIRED; CANCELED; RECOVER; PENDING; INVALIDATED]
  | WORKING => [SUBMITTED; COMPLETED; FAILED; INPUT_REQUIRED; CANCELED; RECOVER; PENDING; INVALIDATED]
  | RECOVER => [SUBMITTED; WORKING; COMPLETED; FAILED; INPUT_REQUIRED; CANCELED; PENDING; INVALIDATED]
  | INPUT_REQUIRED => [READY; SUBMITTED; FAILED; CANCELED; INVALIDATED]
  | FAILED => [PENDING; INVALIDATED]
  | COMPLETED => []
  | CANCELED => []
  | INVALIDATED => []
  end.

(** Whether [n] may move to [to] (same-status re-assertions allowed). *)
Definition can_transition (n : NodeState) (to : node_status) : bool :=
  if decide (to = n_status n) then true else bool_decide (to ∈ ALLOWED_TRANSITIONS (n_status n)).

(** Whether a failed node still has attempts left. *)
Definition can_retry (n : NodeState) (max_attempts : Z) : bool :=
  bool_decide (n_status n = FAILED) && (n_attempt n <? max_attempts)%Z.

(** Validate and apply a bare status change. *)
Definition apply_transition (n : NodeState) (to : node_status) : res NodeState :=
  if can_transition n to then Ok (set_status to n)
  else Err (InvalidTransition ("node " +:+ n_id n +:+ ": " +:+ node_status_value (n_status n)
         +:+ " -> " +:+ node_status_value to)).

(** ** The life cycle of a node *)

(** One accepted status change of a node. *)
Definition status_step (a : node_status) (to : node_status) (b : node_status) : Prop :=
  b = to /\ (to = a \/ to ∈ ALLOWED_TRANSITIONS a).

Lemma apply_transition_ok n to n' :
  apply_transition n to = Ok n' <->
  n' = set_status to n /\ (to = n_status n \/ to ∈ ALLOWED_TRANSITIONS (n_status n)).
Proof.
  unfold apply_transition, can_transition. case_decide as E.
  - naive_solver.
  - case_bool_decide; naive_solver.
Qed.

Lemma apply_transition_step n to n' :
  apply_transition n to = Ok n' -> status_step (n_status n) to (n_status n').
Proof. by intros [-> ?]%apply_transition_ok. Qed.

Lemma apply_transition_id n to n' : apply_transition n to = Ok n' -> n_id n' = n_id n.
Proof. by intros [-> ?]%apply_transition_ok. Qed.

(** The statuses that nothing leaves. *)
Definition settled (s : node_status) : Prop := s = COMPLETED \/ s = CANCELED \/ s = INVALIDATED.

Lemma settled_step a to b : status_step a to b -> settled a -> b = a.
Proof. intros [-> [->|Hin]] Hs; [done|]. destruct Hs as [E|[E|E]]; rewrite E in Hin; by apply elem_of_nil in Hin. Qed.

(** Settled work stays settled. Along any sequence of accepted status
    changes, a node that has completed, was canceled or invalidated keeps that
    status; and a node completes only from a status in which remote work of its
    own is in flight or being recovered. *)
Theorem settled_forever a tr b :
  steps status_step a tr b ->
  (settled a -> b = a) /\
  (b = COMPLETED -> a = COMPLETED \/ exists c, c ∈ a :: tr /\ (c = SUBMITTED \/ c = WORKING \/ c = RECOVER)).
Proof.
  induction 1 as [a|a to b tr c Hstep Hsteps IH]; [naive_solver|].
  split.
  - intros Hs. pose proof (settled_step _ _ _ Hstep Hs) as ->. by apply IH.
  - intros ->. destruct IH as [_ IH]. destruct (IH eq_refl) as [->|(d & Hd & Hw)].
    + destruct Hstep as [<- [<-|Hin]]; [by left|]. right. exists a. split; [by left|].
      destruct a; cbn in Hin; set_solver.
    + right. exists d. split; [|done]. destruct Hstep as [-> _]. by right.
Qed.

(** Exactly the table. A status change is accepted iff it re-asserts the
    status or the table allows it; it then changes the status and nothing else;
    otherwise [InvalidTransition] is raised and the node is not touched. *)
Theorem apply_transition_spec n to :
  match apply_transition n to with
  | Ok n' => (to = n_status n \/ to ∈ ALLOWED_TRANSITIONS (n_status n)) /\ n' = set_status to n
  | Err e => to <> n_status n /\ (to ∉ ALLOWED_TRANSITIONS (n_status n)) /\ (exists m, e = InvalidTransition m)
  end.
Proof.
  unfold apply_transition, can_transition. case_decide as E; [by split; [left|]|].
  case_bool_decide; naive_solver.
Qed.
