(* ===== verification/StateJson.v ===== *)
(** * Persistence of the conversation state (choirworks/orchestration/state.py,
    serialization; choirworks/core/util.py)

    [to_dict]/[from_dict] of each record, the snapshot [state_to_json] /
    [state_from_json] and [load_state].  Snapshots are JSON values: the text
    level, [json.dumps] and [json.loads], is the standard library's. *)
From S2P Require Import Prelude PyStr Dict Json State StateFacts.
Local Open Scope string_scope.

Definition MAX_METADATA_OUTPUT : nat := 2000.

(** Truncate text to [limit] characters, returning [None] for [None] input. *)
Definition truncate (text : option string) (limit : nat) : option string :=
  match text with
  | None => None
  | Some t => if (ulen t <=? limit)%nat then Some t else Some (utake limit t)
  end.

(** ** Serialization *)

Definition NodeState_to_dict (n : NodeState) : json := JObj [
  ("id", JStr (n_id n));
  ("name", JStr (n_name n));
  ("agent_name", JStr (n_agent_name n));
  ("status", JStr (NodeStatus.node_status_value (n_status n)));
  ("attempt", JNum (n_attempt n));
  ("a2a_task_id", json_opt (n_a2a_task_id n));
  ("output", json_opt (truncate (n_output n) MAX_METADATA_OUTPUT));
  ("error", json_opt (n_error n));
  ("deps", json_strs (n_deps n));
  ("input_text", JStr (n_input_text n));
  ("derived", JBool (n_derived n));
  ("question", json_opt (n_question n));
  ("answer_text", json_opt (n_answer_text n));
  ("answer_from", json_opt (n_answer_from n));
  ("assist_requested_by", json_opt (n_assist_requested_by n));
  ("adopted_helpers", json_strs (n_adopted_helpers n))].

Definition Member_to_dict (m : Member) : json := JObj [
  ("agent_name", JStr (m_name m)); ("reason", JStr (m_reason m)); ("joined_at", JStr (m_joined_at m))].

Definition answer_to_json (a : option answer) : json :=
  match a with
  | None => JNull
  | Some (AStr s) => JStr s
  | Some (AList l) => json_strs l
  | Some (ABool b) => JBool b
  end.

Definition Intervention_to_dict (iv : Intervention) : json := JObj [
  ("id", JStr (iv_id iv));
  ("node_id", JStr (iv_node_id iv));
  ("question", JStr (iv_question iv));
  ("status", JStr (InterventionStatus.intervention_status_value (iv_status iv)));
  ("answer", answer_to_json (iv_answer iv));
  ("responder", json_opt (iv_responder iv));
  ("kind", JStr (InterventionKind_value (iv_kind iv)));
  ("question_type", JStr (QuestionType_value (iv_question_type iv)));
  ("options", json_strs (iv_options iv));
  ("multi", JBool (iv_multi iv));
  ("requester", JStr (iv_requester iv));
  ("created_at", JStr (iv_created_at iv));
  ("announced", JBool (iv_announced iv))].

Definition QueuedMessage_to_dict (m : QueuedMessage) : json := JObj [
  ("id", JStr (q_id m)); ("text", JStr (q_text m)); ("sender", JStr (q_sender m));
  ("quote_id", json_opt (q_quote_id m)); ("created_at", JStr (q_created_at m))].

(** Full snapshot: nodes, members, interventions and queue. *)
Definition state_to_json (s : OrchestrationState) : json := JObj [
  ("plan_id", JStr (plan_id s));
  ("plan_version", JNum (plan_version s));
  ("nodes", JArr (NodeState_to_dict <$> dvals (nodes s)));
  ("members", JArr (Member_to_dict <$> dvals (members s)));
  ("interventions", JArr (Intervention_to_dict <$> dvals (interventions s)));
  ("queue", JObj ((fun '(k, l) => (k, JArr (QueuedMessage_to_dict <$> l))) <$> queue s));
  ("derived_count", JNum (derived_count s));
  ("patch_count", JNum (patch_count s));
  ("revision_count", JNum (revision_count s));
  ("next_message", JNum (next_message s))].

(** ** Deserialization *)

(** [Enum(value)]: the member with that value, [ValueError] if there is none. *)
Definition enum_of {E} (value : E -> string) (all : list E) (j : json) : res E :=
  match j with
  | JStr v => match find_first (fun e => bool_decide (value e = v)) all with
              | Some e => Ok e | None => Err (ValueError (v +:+ " is not a valid member")) end
  | _ => Err (ValueError "not a valid member")
  end.

(** Validate a persisted answer value (str / list[str] / bool / None). *)
Definition _answer_from_json (j : json) : res (option answer) :=
  match j with
  | JNull => Ok None
  | JStr s => Ok (Some (AStr s))
  | JBool b => Ok (Some (ABool b))
  | JArr l =>
      match foldr (fun x acc => match x, acc with JStr s, Some r => Some (s :: r) | _, _ => None end)
              (Some []) l with
      | Some strs => Ok (Some (AList strs))
      | None => Err (ValueError "invalid intervention answer")
      end
  | JNum _ | JObj _ => Err (ValueError "invalid intervention answer")
  end.

Section from_dict.
Context (py_repr : json -> string) (py_int : string -> option Z) (now : string).
Let str := py_str py_repr.
Let int := py_int_of py_int.

Definition NodeState_from_dict (data : json) : res NodeState :=
  id ← py_get data "id" (JStr estr);
  name ← py_get data "name" (JStr estr);
  agent_name ← py_get data "agent_name" (JStr estr);
  status ← py_get data "status" (JStr "pending") ≫=
    enum_of NodeStatus.node_status_value NodeStatus.all_statuses;
  attempt ← py_get data "attempt" (JNum 0) ≫= int;
  a2a_task_id ← py_get data "a2a_task_id" JNull ≫= opt_str;
  output ← py_get data "output" JNull ≫= opt_str;
  error ← py_get data "error" JNull ≫= opt_str;
  deps ← py_get data "deps" (JArr []) ≫= py_iter;
  input_text ← py_get data "input_text" (JStr estr);
  derived ← py_get data "derived" (JBool false);
  question ← py_get data "question" JNull ≫= opt_str;
  answer_text ← py_get data "answer_text" JNull ≫= opt_str;
  answer_from ← py_get data "answer_from" JNull ≫= opt_str;
  assist_requested_by ← py_get data "assist_requested_by" JNull ≫= opt_str;
  adopted_helpers ← py_get data "adopted_helpers" (JArr []) ≫= py_iter;
  Ok (mkNode (str id) (str name) (str agent_name) status attempt a2a_task_id output error
        (str <$> deps) (str input_text) (py_bool derived) question answer_text answer_from
        assist_requested_by (str <$> adopted_helpers)).

Definition Member_from_dict (data : json) : res Member :=
  name ← py_get data "agent_name" (JStr estr);
  reason ← py_get data "reason" (JStr estr);
  joined_at ← py_get data "joined_at" (JStr now);
  Ok (mkMember (str name) (str reason) (str joined_at)).

Definition Intervention_from_dict (data : json) : res Intervention :=
  raw_options ← py_get data "options" (JArr []);
  id ← py_get data "id" (JStr estr);
  node_id ← py_get data "node_id" (JStr estr);
  question ← py_get data "question" (JStr estr);
  status ← py_get data "status" (JStr "pending") ≫=
    enum_of InterventionStatus.intervention_status_value
      [InterventionStatus.PENDING; InterventionStatus.RESOLVED; InterventionStatus.EXPIRED];
  ans ← py_get data "answer" JNull ≫= _answer_from_json;
  responder ← py_get data "responder" JNull ≫= opt_str;
  kind ← py_get data "kind" (JStr "question") ≫= enum_of InterventionKind_value [QUESTION; CONFIRM_CANCEL];
  question_type ← py_get data "question_type" (JStr "input") ≫=
    enum_of QuestionType_value [INPUT; SELECT; CONFIRM];
  multi ← py_get data "multi" (JBool false);
  requester ← py_get data "requester" (JStr estr);
  created_at ← py_get data "created_at" (JStr now);
  announced ← py_get data "announced" (JBool false);
  Ok (mkIntervention (str id) (str node_id) (str question) status ans responder kind question_type
        match raw_options with JArr l => str <$> l | _ => [] end
        (py_bool multi) (str requester) (str created_at) (py_bool announced)).

Definition QueuedMessage_from_dict (data : json) : res QueuedMessage :=
  id ← py_get data "id" (JStr estr);
  text ← py_get data "text" (JStr estr);
  sender ← py_get data "sender" (JStr "user");
  quote_id ← py_get data "quote_id" JNull ≫= opt_str;
  created_at ← py_get data "created_at" (JStr now);
  Ok (mkQueued (str id) (str text) (str sender) quote_id (str created_at)).

(** [(data.get("queue") or {}).items()]. *)
Definition queue_items (j : json) : res (list (string * json)) :=
  if py_bool j then match j with JObj kvs => Ok kvs | _ => Err (AttributeError "items") end else Ok [].

(** [[parse(d) for d in items]]. *)
Definition json_list {A} (parse : json -> res A) (items : json) : res (list A) :=
  l ← py_iter items; res_mapM parse l.

Definition queue_entry (p : string * json) : res (string * list QueuedMessage) :=
  ls ← json_list QueuedMessage_from_dict p.2; Ok (p.1, ls).

(** Rebuild state from a full snapshot. *)
Definition state_from_json (data : json) : res OrchestrationState :=
  match data with
  | JObj _ =>
      plan_id ← py_get data "plan_id" (JStr estr);
      plan_version ← py_get data "plan_version" (JNum 1) ≫= int;
      ns ← py_get data "nodes" (JArr []) ≫= json_list NodeState_from_dict;
      ms ← py_get data "members" (JArr []) ≫= json_list Member_from_dict;
      ivs ← py_get data "interventions" (JArr []) ≫= json_list Intervention_from_dict;
      q ← py_get data "queue" JNull ≫= queue_items;
      qs ← res_mapM queue_entry q;
      derived_count ← py_get data "derived_count" (JNum 0) ≫= int;
      patch_count ← py_get data "patch_count" (JNum 0) ≫= int;
      revision_count ← py_get data "revision_count" (JNum 0) ≫= int;
      next_message ← py_get data "next_message" (JNum 1) ≫= int;
      Ok (mkState (str plan_id) plan_version
            (foldl (fun d n => dset (n_id n) n d) [] ns)
            (foldl (fun d m => dset (m_name m) m d) [] ms)
            (foldl (fun d iv => dset (iv_id iv) iv d) [] ivs)
            (foldl (fun d '(k, l) => dset k l d) [] qs)
            derived_count patch_count revision_count next_message)
  | _ => Err (ValueError "state snapshot must be a JSON object")
  end.

(** The handler around [state_from_json] in [load_state] (both of the module
    and of [SessionManager]): [ValueError] and [TypeError] become [None]. *)
Definition guarded_load (r : res OrchestrationState) : res (option OrchestrationState) :=
  match r with
  | Ok s => Ok (Some s)
  | Err (ValueError _) | Err (TypeError _) => Ok None
  | Err e => Err e
  end.

(** [load_state(task)]: [raw] is the text under the snapshot key of the task's
    metadata ([None]: absent or not a string), [loads] is [json.loads]
    ([None]: it raised [ValueError]). *)
Definition load_state (loads : string -> option json) (raw : option string) : res (option OrchestrationState) :=
  match raw with
  | None => Ok None
  | Some text =>
      if str_truthy text then
        guarded_load (match loads text with
                      | Some j => state_from_json j
                      | None => Err (ValueError "json.loads") end)
      else Ok None
  end.
End from_dict.

(** ** Round trips *)

Section roundtrip.
Context (py_repr : json -> string) (py_int : string -> option Z) (now : string).

(** What persistence does to a node: its output is truncated. *)
Definition truncated (n : NodeState) : NodeState :=
  set_output (truncate (n_output n) MAX_METADATA_OUTPUT) n.

Lemma truncate_idem t k : truncate (truncate t k) k = truncate t k.
Proof.
  destruct t as [t|]; cbn; [|done]. destruct (Nat.leb_spec (ulen t) k); cbn.
  - by rewrite (proj2 (Nat.leb_le _ _)).
  - rewrite ulen_utake. by rewrite (proj2 (Nat.leb_le _ _)) by lia.
Qed.

Lemma truncate_length t k u : truncate t k = Some u -> ulen u <= k.
Proof.
  destruct t as [t|]; cbn; [|done]. destruct (Nat.leb_spec (ulen t) k); intros [= <-]; [done|].
  rewrite ulen_utake. lia.
Qed.

Lemma map_str_json (l : list string) : (py_str py_repr <$> (JStr <$> l)) = l.
Proof. induction l as [|x l IH]; [done|]. by rewrite !fmap_cons, IH. Qed.

Lemma enum_of_value {E} (value : E -> string) all `{!EqDecision E} :
  (forall a b, value a = value b -> a = b) -> forall e, e ∈ all ->
  enum_of value all (JStr (value e)) = Ok e.
Proof.
  intros Hinj e He. cbn. destruct (find_first _ all) as [e'|] eqn:Ef.
  - apply find_first_some in Ef as [_ Hv]. bool_prop. by rewrite (Hinj e' e).
  - rewrite find_first_none in Ef. specialize (Ef e He). bool_prop. done.
Qed.

Lemma NodeState_roundtrip n :
  NodeState_from_dict py_repr py_int (NodeState_to_dict n) = Ok (truncated n).
Proof.
  unfold NodeState_from_dict, NodeState_to_dict, truncated.
  destruct n as [id nm ag st at' ta ou er de inp dr qu an af ar ad]. cbn -[truncate dget].
  generalize (truncate ou MAX_METADATA_OUTPUT) as ou'. intros ou'.
  unfold py_get. dget_literal. cbn. rewrite !opt_str_json. destruct st; cbn; by rewrite !map_str_json.
Qed.

Lemma Member_roundtrip m : Member_from_dict py_repr now (Member_to_dict m) = Ok m.
Proof. by destruct m. Qed.

Lemma answer_roundtrip a : _answer_from_json (answer_to_json a) = Ok a.
Proof.
  destruct a as [[s|l|b]|]; cbn; try done.
  enough (foldr (fun x acc => match x, acc with JStr s, Some r => Some (s :: r) | _, _ => None end)
            (Some []) (JStr <$> l) = Some l) as -> by done.
  induction l as [|x l IH]; [done|]. cbn. by rewrite IH.
Qed.

Lemma Intervention_roundtrip iv : Intervention_from_dict py_repr now (Intervention_to_dict iv) = Ok iv.
Proof.
  unfold Intervention_from_dict, Intervention_to_dict.
  destruct iv as [id nd q st an re ki qt op mu rq cr an']. cbn -[dget _answer_from_json].
  unfold py_get. dget_literal. cbn -[_answer_from_json]. rewrite answer_roundtrip, opt_str_json.
  destruct st, ki, qt; cbn; by rewrite map_str_json.
Qed.

Lemma QueuedMessage_roundtrip m : QueuedMessage_from_dict py_repr now (QueuedMessage_to_dict m) = Ok m.
Proof. destruct m as [i t s [q|] c]; done. Qed.

(** Rebuilding a dictionary from its values, keyed by their ids. *)
Lemma rebuild_dict {V} (key : V -> string) (f : V -> V) (d : list (string * V)) :
  NoDup (dkeys d) -> (forall k v, (k, v) ∈ d -> key (f v) = k) ->
  foldl (fun acc v => dset (key v) v acc) [] (f <$> dvals d) = prod_map id f <$> d.
Proof.
  intros Hnd Hk.
  enough (forall acc, (forall k, k ∈ dkeys d -> k ∉ dkeys acc) ->
    foldl (fun acc v => dset (key v) v acc) acc (f <$> dvals d) = (acc ++ (prod_map id f <$> d))%list) as H.
  { rewrite H; [done|]. intros k _ ?%elem_of_nil. done. }
  revert Hnd Hk. induction d as [|[k v] d IH]; intros Hnd Hk acc Hacc; cbn.
  - by rewrite app_nil_r.
  - rewrite dkeys_cons in *. apply NoDup_cons in Hnd as [Hni Hnd].
    rewrite (Hk k v) by (by left). rewrite dset_fresh by (apply Hacc; by left).
    change (d.*2) with (dvals d). rewrite IH; [|done|..].
    + by rewrite <- app_assoc.
    + intros k' v' H. apply Hk. by right.
    + intros k' Hk'. unfold dkeys. rewrite fmap_app. cbn. change (acc.*1) with (dkeys acc).
      rewrite elem_of_app, list_elem_of_singleton. intros [H| ->]; [|done].
      eapply Hacc; [|exact H]. by right.
Qed.

Lemma rebuild_items {V} (d : list (string * V)) :
  NoDup (dkeys d) -> foldl (fun acc '(k, v) => dset k v acc) [] d = d.
Proof.
  intros Hnd.
  enough (forall acc, (forall k, k ∈ dkeys d -> k ∉ dkeys acc) ->
    foldl (fun acc '(k, v) => dset k v acc) acc d = (acc ++ d)%list) as H'.
  { apply H'. intros k _ ?%elem_of_nil. done. }
  induction d as [|[k v] d IH]; intros acc Hacc; cbn; [by rewrite app_nil_r|].
  rewrite dkeys_cons in *. apply NoDup_cons in Hnd as [Hni Hnd].
  rewrite dset_fresh by (apply Hacc; by left). rewrite IH; [by rewrite <- app_assoc|done|].
  intros k' Hk'. unfold dkeys. rewrite fmap_app, elem_of_app. cbn. rewrite list_elem_of_singleton.
  intros [H| ->]; [|done]. eapply Hacc; [|exact H]. by right.
Qed.

Lemma res_mapM_fmap {A B C} (f : A -> B) (g : B -> res C) (h : A -> C) l :
  (forall x, g (f x) = Ok (h x)) -> res_mapM g (f <$> l) = Ok (h <$> l).
Proof. intros H. induction l as [|x l IH]; cbn; [done|]. by rewrite H, IH. Qed.

Lemma map_id_dict {V} (d : list (string * V)) : prod_map id id <$> d = d.
Proof. induction d as [|[k v] d IH]; [done|]. by rewrite fmap_cons, IH. Qed.

(** The state that a snapshot restores: outputs truncated, all else equal. *)
Definition restored (s : OrchestrationState) : OrchestrationState :=
  set_nodes (prod_map id truncated <$> nodes s) s.

Lemma queue_items_roundtrip q :
  queue_items (JObj ((fun '(k, l) => (k, JArr (QueuedMessage_to_dict <$> l))) <$> q))
  = Ok ((fun '(k, l) => (k, JArr (QueuedMessage_to_dict <$> l))) <$> q).
Proof. by destruct q. Qed.

Lemma queue_entry_roundtrip k l :
  queue_entry py_repr now (k, JArr (QueuedMessage_to_dict <$> l)) = Ok (k, l).
Proof.
  unfold queue_entry, json_list. cbn -[res_mapM fmap].
  rewrite (res_mapM_fmap _ _ id) by apply QueuedMessage_roundtrip. cbn. by rewrite list_fmap_id.
Qed.

Lemma state_roundtrip_eq s :
  wf_state s -> state_from_json py_repr py_int now (state_to_json s) = Ok (restored s).
Proof.
  intros Hwf. unfold state_from_json, state_to_json, py_get. dget_literal.
  cbn -[dvals res_mapM fmap].
  rewrite (res_mapM_fmap NodeState_to_dict _ truncated) by apply NodeState_roundtrip. cbn -[dvals res_mapM fmap].
  rewrite (res_mapM_fmap Member_to_dict _ id) by apply Member_roundtrip. cbn -[dvals res_mapM fmap].
  rewrite (res_mapM_fmap Intervention_to_dict _ id) by apply Intervention_roundtrip. cbn -[dvals res_mapM fmap].
  rewrite queue_items_roundtrip. cbn -[dvals res_mapM fmap].
  rewrite (res_mapM_fmap _ _ id) by (intros [k l]; apply queue_entry_roundtrip).
  cbn -[dvals res_mapM fmap]. rewrite (list_fmap_id (queue s)), rebuild_items by apply Hwf.
  rewrite (rebuild_dict n_id truncated); [|apply Hwf|intros k n H; by apply (wf_nodes_id s Hwf k n)].
  rewrite (rebuild_dict m_name id); [|apply Hwf|apply Hwf].
  rewrite (rebuild_dict iv_id id); [|apply Hwf|apply Hwf].
  unfold restored, set_nodes. rewrite !map_id_dict. done.
Qed.

Lemma restored_idem s : restored (restored s) = restored s.
Proof.
  unfold restored, set_nodes. cbn. f_equal. rewrite <- list_fmap_compose.
  apply list_fmap_ext. intros _ [k n] _. cbn. f_equal. unfold truncated, set_output. cbn.
  by rewrite truncate_idem.
Qed.

Lemma state_to_json_restored s : state_to_json (restored s) = state_to_json s.
Proof.
  unfold state_to_json, restored, set_nodes. cbn. do 5 f_equal.
  unfold dvals. rewrite <- !list_fmap_compose. f_equal. apply list_fmap_ext. intros _ [k n] _. cbn.
  unfold NodeState_to_dict, truncated, set_output. cbn. by rewrite truncate_idem.
Qed.

(** C18: A snapshot of a well-formed state always loads, and gives back the
    state with its node outputs cut to [MAX_METADATA_OUTPUT] characters:
    nodes, members, interventions, queues and counters, in their order.
    Persisting the loaded state writes the same snapshot again, so state
    does not drift over repeated evictions. *)
Theorem state_roundtrip s :
  wf_state s ->
  exists s', state_from_json py_repr py_int now (state_to_json s) = Ok s' /\ s' = restored s /\
    state_to_json s' = state_to_json s /\
    state_from_json py_repr py_int now (state_to_json s') = Ok s'.
Proof.
  intros Hwf. exists (restored s). rewrite state_to_json_restored.
  rewrite state_roundtrip_eq by done. done.
Qed.
End roundtrip.
