(* ===== verification/World.v ===== *)
(** * The orchestration world (choirworks/orchestration/context.py,
    choirworks/orchestration/session.py, SessionRuntime)

    Handlers are values of the monad [M]: functions from the world (session
    state, message history, event log, context store, flags) to the world they
    leave and their value or exception.  What the program asks of its
    surroundings (fresh ids, the clock, JSON text, the agent registry) is the
    class [Env]; each request draws the next tick, so that two requests can be
    answered differently.

    A handler is one coroutine: between two statements of it no other one runs
    here (the interleavings of node tasks are the business of [Runner]).

    [Evolution] is the interface between the primitive operations on a session
    and the handlers built from them: a preorder on worlds that every primitive
    respects. A handler proved to [Keeps] every evolution keeps each invariant
    that is one. *)
From S2P Require Import Prelude PyStr Dict Json State StateFacts Transitions.
Local Open Scope string_scope.
Local Open Scope list_scope.

(** ** Wire vocabulary (a2a.types) *)

Module TaskState.
Inductive task_state :=
| UNSPECIFIED | SUBMITTED | WORKING | COMPLETED | FAILED | CANCELED
| INPUT_REQUIRED | REJECTED | AUTH_REQUIRED.
#[export] Instance task_state_eq_dec : EqDecision task_state.
Proof. solve_decision. Defined.
End TaskState.
Export (hints) TaskState.
Abbreviation task_state := TaskState.task_state.

Inductive content := CText (s : string) | CData (j : json) | COther.
Record Part := mkPart { p_content : content; p_metadata : list (string * json) }.

(** [part.text] when the content is text, else [""]. *)
Definition part_text (p : Part) : string := match p_content p with CText s => s | _ => estr end.

(** [metadata.fields.get(key)] read as [string_value]: [""] when it is no string. *)
Definition meta_str (key : string) (metadata : list (string * json)) : option string :=
  match dget key metadata with
  | None => None
  | Some (JStr s) => Some s
  | Some _ => Some estr
  end.

Inductive role := ROLE_USER | ROLE_AGENT | ROLE_UNSPECIFIED.
#[export] Instance role_eq_dec : EqDecision role.
Proof. solve_decision. Defined.

Record Message := mkMessage {
  msg_id : string; msg_role : role; msg_task_id : string; msg_context_id : string;
  msg_parts : list Part; msg_metadata : list (string * json) }.

Record Artifact := mkArtifact {
  art_id : string; art_name : string; art_parts : list Part; art_metadata : list (string * json) }.

Record Task := mkTask {
  t_id : string; t_context_id : string; t_state : task_state; t_status_message : option Message;
  t_artifacts : list Artifact; t_history : list Message; t_metadata : list (string * json) }.

Inductive A2AEvent :=
| EvTask (t : Task)
| EvStatus (task_id context_id : string) (state : task_state) (message : option Message)
    (metadata : option json)
| EvArtifact (task_id context_id : string) (artifact : Artifact) (append last_chunk : bool).

(** ** Messages of the LLM conversation (core/llm.py, ChatMessage) *)

Inductive ChatMessage :=
| MsgSystem (content : string)
| MsgUser (content : string)
| MsgAssistant (content : string)
| MsgToolCall (call_id name arguments : string)
| MsgTool (tool_call_id content : string).

(** ** Configuration and registry records *)

(** Times ([node_timeout], [retry_backoff]) only delay: they are kept as printed. *)
Record ExecutorConfig := mkConfig {
  max_parallel : Z; node_timeout : string; max_node_attempts : Z;
  max_derived_nodes : Z; max_revisions : Z; replan_on_failure : bool;
  max_nodes : Z; max_plan_retries : nat }.

Definition default_config : ExecutorConfig := mkConfig 5 "600.0" 2 5 3 true 20 2.

Record AgentRecord := mkAgent { ag_name : string; ag_card_url : string; ag_card : list (string * json) }.

Class Env := {
  config : ExecutorConfig;
  (** [await registry.list()] *)
  agents : list AgentRecord;
  (** [uuid4().hex], [now_iso()] *)
  uuid_hex : nat -> string;
  now_iso : nat -> string;
  (** compact [json.dumps]; [str] of a list or a dict *)
  dumps : json -> string;
  py_repr : json -> string
}.

(** ** World *)

(** The request being handled: the inbound fields of [OrchestrationContext]. *)
Record Inbound := mkInbound {
  in_text : string;
  in_room : list (string * json);
  in_responses : list (string * answer);
  in_malformed : option string;
  in_needs_runner : bool;
  in_quote_id : option string;
  in_target : option string
}.
Definition no_inbound : Inbound := mkInbound estr [] [] None false None None.

(** Calls made to remote agents, in order. *)
Inductive remote_call :=
| CallSend (url : string) (text : list string) (task_id : option string) (context_id message_id : string)
| CallSubscribe (url task_id : string)
| CallGet (url task_id : string)
| CallCancel (url task_id : string).

Record World := mkWorld {
  w_state : OrchestrationState;
  w_task_id : string;
  w_context_id : string;
  w_messages : list ChatMessage;
  (** events enqueued, oldest first *)
  w_queue : list A2AEvent;
  (** snapshot in the context store *)
  w_store : option json;
  (** the session is in [SessionManager.sessions] *)
  w_session : bool;
  (** a runner task exists and is not done *)
  w_runner : bool;
  w_wake : bool;
  w_calls : list remote_call;
  w_inbound : Inbound;
  (** [HistoryBuilder._compaction_state] of this conversation: how many messages
      the last summary covers, and the summary *)
  w_compaction : option (Z * string);
  w_tick : nat
}.

Definition set_state (s : OrchestrationState) (w : World) : World :=
  mkWorld s (w_task_id w) (w_context_id w) (w_messages w) (w_queue w) (w_store w) (w_session w)
    (w_runner w) (w_wake w) (w_calls w) (w_inbound w) (w_compaction w) (w_tick w).
Definition set_messages (l : list ChatMessage) (w : World) : World :=
  mkWorld (w_state w) (w_task_id w) (w_context_id w) l (w_queue w) (w_store w) (w_session w)
    (w_runner w) (w_wake w) (w_calls w) (w_inbound w) (w_compaction w) (w_tick w).
Definition add_event (e : A2AEvent) (w : World) : World :=
  mkWorld (w_state w) (w_task_id w) (w_context_id w) (w_messages w) (w_queue w ++ [e])%list
    (w_store w) (w_session w) (w_runner w) (w_wake w) (w_calls w) (w_inbound w) (w_compaction w) (w_tick w).
Definition set_store (j : json) (w : World) : World :=
  mkWorld (w_state w) (w_task_id w) (w_context_id w) (w_messages w) (w_queue w) (Some j) (w_session w)
    (w_runner w) (w_wake w) (w_calls w) (w_inbound w) (w_compaction w) (w_tick w).
Definition set_flags (session runner wake : bool) (w : World) : World :=
  mkWorld (w_state w) (w_task_id w) (w_context_id w) (w_messages w) (w_queue w) (w_store w) session
    runner wake (w_calls w) (w_inbound w) (w_compaction w) (w_tick w).
Definition add_call (c : remote_call) (w : World) : World :=
  mkWorld (w_state w) (w_task_id w) (w_context_id w) (w_messages w) (w_queue w) (w_store w)
    (w_session w) (w_runner w) (w_wake w) (w_calls w ++ [c])%list (w_inbound w) (w_compaction w) (w_tick w).
Definition set_inbound (i : Inbound) (w : World) : World :=
  mkWorld (w_state w) (w_task_id w) (w_context_id w) (w_messages w) (w_queue w) (w_store w)
    (w_session w) (w_runner w) (w_wake w) (w_calls w) i (w_compaction w) (w_tick w).
Definition set_compaction (c : option (Z * string)) (w : World) : World :=
  mkWorld (w_state w) (w_task_id w) (w_context_id w) (w_messages w) (w_queue w) (w_store w)
    (w_session w) (w_runner w) (w_wake w) (w_calls w) (w_inbound w) c (w_tick w).
Definition next_tick (w : World) : World :=
  mkWorld (w_state w) (w_task_id w) (w_context_id w) (w_messages w) (w_queue w) (w_store w)
    (w_session w) (w_runner w) (w_wake w) (w_calls w) (w_inbound w) (w_compaction w) (S (w_tick w)).

(** ** The monad of handlers *)

Definition M (A : Type) : Type := World -> World * res A.

#[export] Instance M_ret : MRet M := fun A a w => (w, Ok a).
#[export] Instance M_bind : MBind M := fun A B f m w =>
  match m w with
  | (w', Ok a) => f a w'
  | (w', Err e) => (w', Err e)
  end.

Definition raise {A} (e : exn) : M A := fun w => (w, Err e).
Definition lift {A} (r : res A) : M A := fun w => (w, r).
Definition get_world : M World := fun w => (w, Ok w).
Definition get_state : M OrchestrationState := fun w => (w, Ok (w_state w)).
Definition modify (f : World -> World) : M unit := fun w => (f w, Ok tt).
Definition mod_state (f : OrchestrationState -> OrchestrationState) : M unit :=
  fun w => (set_state (f (w_state w)) w, Ok tt).
(** A transition of the state that also returns a value. *)
Definition run_state {A} (f : OrchestrationState -> OrchestrationState * A) : M A :=
  fun w => let '(s, a) := f (w_state w) in (set_state s w, Ok a).

(** [try: m except e if handled: h e]. *)
Definition catch {A} (m : M A) (h : exn -> option (M A)) : M A := fun w =>
  match m w with
  | (w', Err e) => match h e with Some m' => m' w' | None => (w', Err e) end
  | r => r
  end.

Definition mapM_ {A} (f : A -> M unit) : list A -> M unit :=
  fix go l := match l with [] => mret tt | x :: l' => f x ≫= fun _ => go l' end.

(** [for x in l: acc = await f(acc, x)]. *)
Definition foldM {A B} (f : B -> A -> M B) : B -> list A -> M B :=
  fix go acc l := match l with [] => mret acc | x :: l' => acc' ← f acc x; go acc' l' end.

Definition unless (b : bool) (m : M unit) : M unit := if b then mret tt else m.
Definition when (b : bool) (m : M unit) : M unit := if b then m else mret tt.

Notation "m ;;; k" := (m ≫= fun _ : unit => k) (at level 100, k at level 200, right associativity) : choir_scope.

(** ** Primitives *)

Section primitives.
Context `{!Env}.

Definition draw : M nat := fun w => (next_tick w, Ok (w_tick w)).
Definition new_uuid : M string := t ← draw; mret (uuid_hex t).
Definition new_time : M string := t ← draw; mret (now_iso t).

(** [await ctx.queue.enqueue_event(event)]. *)
Definition enqueue_event (e : A2AEvent) : M unit := modify (add_event e).

(** Dereference a node held by its key: the object exists as long as its plan. *)
Definition node_at (k : string) : M NodeState :=
  s ← get_state; match get_node s k with Some n => mret n | None => raise Unmodelled end.

(** Assignments to fields of the node object. *)
Definition update_node (k : string) (f : NodeState -> NodeState) : M unit := mod_state (upd_node k f).

(** [apply_transition(node, to)] on the node object held under [k]. *)
Definition transition_at (k : string) (to : node_status) : M unit :=
  n ← node_at k;
  _ ← lift (apply_transition n to);
  mod_state (upd_node k (set_status to)).
End primitives.

(** [registry.get_by_name(name)]. *)
Definition agent_named (l : list AgentRecord) (name : string) : option AgentRecord :=
  find_first (fun a => bool_decide (ag_name a = name)) l.

(** ** Interface: evolutions *)

(** Updates that leave the identity, the place in the plan and the status alone. *)
Definition detail (f : NodeState -> NodeState) : Prop := forall n,
  n_id (f n) = n_id n /\ n_agent_name (f n) = n_agent_name n /\ n_status (f n) = n_status n /\
  n_deps (f n) = n_deps n /\ n_derived (f n) = n_derived n /\
  n_assist_requested_by (f n) = n_assist_requested_by n.

(** Updates that do not move an intervention and do not make it pending again. *)
Definition iv_detail (f : Intervention -> Intervention) : Prop := forall iv,
  iv_id (f iv) = iv_id iv /\ iv_node_id (f iv) = iv_node_id iv /\
  (iv_pending (f iv) = true -> iv_pending iv = true).

(** An id made by [spawn_derived_node] when the counter was at least [c]. *)
Definition derived_id (c : Z) (k : string) : Prop :=
  exists parent suffix m, (c < m)%Z /\ k = parent +:+ "-" +:+ suffix +:+ pretty m.

(** Preorders that ignore everything but the state, as long as the log grows. *)
Class Logging (R : relation World) : Prop := {
  ev_pre :: PreOrder R;
  ev_frame w w' : w_state w' = w_state w -> w_queue w `prefix_of` w_queue w' -> R w w'
}.

(** ... and that a new member does not disturb. *)
Class Joining (R : relation World) : Prop := {
  jn_log :: Logging R;
  ev_member w now name reason : R w (set_state (fst (add_member now name reason (w_state w))) w)
}.

Class Evolution (R : relation World) : Prop := {
  ev_join :: Joining R;
  ev_status w k n to : get_node (w_state w) k = Some n -> can_transition n to = true ->
    R w (set_state (upd_node k (set_status to) (w_state w)) w);
  ev_detail w k f : detail f -> R w (set_state (upd_node k f (w_state w)) w);
  ev_intervention w k f : iv_detail f -> R w (set_state (upd_intervention k f (w_state w)) w);
  ev_expire w p : R w (set_state (fst (expire_where p (w_state w))) w);
  ev_ask w uid now node_id q kind qt opts multi req :
    R w (set_state (fst (request_user_input uid now (w_state w) node_id q kind qt opts multi req)) w);
  ev_enqueue w now node_id text sender quote :
    R w (set_state (fst (enqueue now (w_state w) node_id text sender quote)) w);
  ev_take w node_id : R w (set_state (fst (take_queued (w_state w) node_id)) w);
  ev_revision w : R w (set_state (set_revision_count (revision_count (w_state w) + 1) (w_state w)) w);
  ev_patch w z : R w (set_state (set_patch_count z (w_state w)) w);
  ev_add w n : get_node (w_state w) (n_id n) = None -> n_status n = NodeStatus.PENDING ->
    R w (set_state (set_nodes (dset (n_id n) n (nodes (w_state w))) (w_state w)) w);
  ev_spawn w n parent suffix : n_status n = NodeStatus.PENDING ->
    n_id n = parent +:+ "-" +:+ suffix +:+ pretty (derived_count (w_state w) + 1)%Z ->
    let s := set_derived_count (derived_count (w_state w) + 1) (w_state w) in
    R w (set_state (set_nodes (dset (n_id n) n (nodes s)) s) w)
}.

(** [m] relates the world it starts from to the one it leaves, whether it
    returns or raises. *)
Class Keeps (R : relation World) {A} (m : M A) : Prop := keeps : forall w, R w (fst (m w)).

(** Sequencing needs a preorder only. *)
Section keeps_sequence.
Context (R : relation World) `{!PreOrder R}.

#[export] Instance keeps_ret {A} (a : A) : Keeps R (mret a : M A).
Proof. intros w. cbn. reflexivity. Qed.

#[export] Instance keeps_raise {A} e : Keeps R (raise e : M A).
Proof. intros w. cbn. reflexivity. Qed.

#[export] Instance keeps_lift {A} (r : res A) : Keeps R (lift r).
Proof. intros w. cbn. reflexivity. Qed.

#[export] Instance keeps_get_world : Keeps R get_world.
Proof. intros w. cbn. reflexivity. Qed.

#[export] Instance keeps_get_state : Keeps R get_state.
Proof. intros w. cbn. reflexivity. Qed.

Lemma keeps_bind {A B} (m : M A) (f : A -> M B) :
  Keeps R m -> (forall a, Keeps R (f a)) -> Keeps R (m ≫= f).
Proof.
  intros Hm Hf w. unfold mbind, M_bind. specialize (Hm w). destruct (m w) as [w' [a|e]]; cbn in *.
  - etrans; [exact Hm | apply Hf].
  - exact Hm.
Qed.

Lemma keeps_catch {A} (m : M A) h :
  Keeps R m -> (forall e m', h e = Some m' -> Keeps R m') -> Keeps R (catch m h).
Proof.
  intros Hm Hh w. unfold catch. specialize (Hm w). destruct (m w) as [w' [a|e]]; cbn in *; [done|].
  destruct (h e) as [m'|] eqn:E; [|done]. etrans; [exact Hm | by apply (Hh e)].
Qed.

Lemma keeps_mapM_ {A} (f : A -> M unit) l : (forall x, x ∈ l -> Keeps R (f x)) -> Keeps R (mapM_ f l).
Proof.
  intros Hf. induction l as [|x l IH]; [apply keeps_ret|]. cbn. apply keeps_bind.
  - apply Hf. by left.
  - intros _. apply IH. intros y Hy. apply Hf. by right.
Qed.

Lemma keeps_foldM {A B} (f : B -> A -> M B) l : forall acc,
  (forall b x, Keeps R (f b x)) -> Keeps R (foldM f acc l).
Proof.
  induction l as [|x l IH]; intros acc Hf; cbn; [apply keeps_ret|].
  apply keeps_bind; [apply Hf|]. intros b. by apply IH.
Qed.

#[export] Instance keeps_node_at k : Keeps R (node_at k).
Proof.
  apply keeps_bind; [apply _|]. intros s. destruct (get_node s k); apply _.
Qed.
End keeps_sequence.

Section keeps.
Context (R : relation World) `{!Logging R}.

Lemma keeps_frame (f : World -> World) :
  (forall w, w_state (f w) = w_state w) -> (forall w, w_queue w `prefix_of` w_queue (f w)) ->
  Keeps R (modify f).
Proof. intros H1 H2 w. cbn. by apply ev_frame. Qed.

#[export] Instance keeps_set_messages l : Keeps R (modify (set_messages l)).
Proof. by apply keeps_frame. Qed.

#[export] Instance keeps_modify_messages f : Keeps R (modify (fun w => set_messages (f w) w)).
Proof. by apply keeps_frame. Qed.

#[export] Instance keeps_store f : Keeps R (modify (fun w => set_store (f w) w)).
Proof. by apply keeps_frame. Qed.

#[export] Instance keeps_flags f g h : Keeps R (modify (fun w => set_flags (f w) (g w) (h w) w)).
Proof. by apply keeps_frame. Qed.

#[export] Instance keeps_call c : Keeps R (modify (add_call c)).
Proof. by apply keeps_frame. Qed.

#[export] Instance keeps_inbound f : Keeps R (modify (fun w => set_inbound (f w) w)).
Proof. by apply keeps_frame. Qed.

#[export] Instance keeps_compaction f : Keeps R (modify (fun w => set_compaction (f w) w)).
Proof. by apply keeps_frame. Qed.

#[export] Instance keeps_enqueue_event e : Keeps R (enqueue_event e).
Proof. apply keeps_frame; [done|]. intros w. by eexists. Qed.

#[export] Instance keeps_draw : Keeps R draw.
Proof. intros w. by apply ev_frame. Qed.
End keeps.

Section keeps_nodes.
Context (R : relation World) `{!Evolution R}.

Lemma keeps_update_node k f : detail f -> Keeps R (update_node k f).
Proof. intros Hf w. by apply ev_detail. Qed.

#[export] Instance keeps_transition_at k to : Keeps R (transition_at k to).
Proof.
  intros w. unfold transition_at, node_at, get_state, mbind, M_bind. cbn. destruct (get_node (w_state w) k) as [n|] eqn:E; cbn; [|reflexivity].
  unfold apply_transition. destruct (can_transition n to) eqn:Ec; cbn; [|reflexivity].
  by eapply ev_status.
Qed.
End keeps_nodes.
