(* ===== verification/Tool.v ===== *)
(** * Tools and the data they exchange (choirworks/core/tool.py; the models of
    choirworks/core/planner.py, orchestration/planning/patch.py,
    subagents/*/model.py and tools/*.py)

    The pydantic models the program defines, as records, with the JSON that
    [model_dump] makes of them, and [FunctionTool]: a name, whether its call is
    published as an artifact, and what running it does. *)
From S2P Require Import Prelude PyStr Dict Json State World.
Local Open Scope string_scope.
Local Open Scope list_scope.

(** ** Plans *)

Record PlanNodeDraft := mkDraft {
  pd_id : string; pd_name : string; pd_agent_name : string; pd_input : list (string * string);
  pd_deps : list string }.
Record PlanDraft := mkPlanDraft { pd_nodes : list PlanNodeDraft }.

(** A planning attempt that failed, with the arguments it had. *)
Record PlanRetry := mkPlanRetry { retry_error : string; retry_args_json : string }.

Record PatchNode := mkPatchNode {
  pn_agent_name : string; pn_name : string; pn_instruction : string; pn_deps : list string }.
Record PlanPatch := mkPatch {
  patch_add : list PatchNode; patch_invalidate : list string; patch_reason : string }.
Record PatchResult := mkPatchResult {
  pr_added : list string; pr_invalidated : list string;
  pr_skipped_in_flight : list string; pr_rejected : list string }.
Definition empty_patch_result : PatchResult := mkPatchResult [] [] [] [].

(** ** Subagent results *)

Record AssistanceResult := mkAssistance {
  as_target_agent : option string; as_instruction : string; as_question_type : QuestionType;
  as_options : list string; as_multi : bool }.
(** [AssistanceResult()]. *)
Definition default_assistance : AssistanceResult := mkAssistance None estr INPUT [] false.

Inductive intent := Deliver | NeedInfo | Revise.
#[export] Instance intent_eq_dec : EqDecision intent.
Proof. solve_decision. Defined.
Definition intent_value (i : intent) : string :=
  match i with Deliver => "deliver" | NeedInfo => "need_info" | Revise => "revise" end.

Record OutcomeResult := mkOutcome {
  oc_intent : intent; oc_question : string; oc_patch : option PlanPatch }.

Record RepairResult := mkRepair { rp_patch : PlanPatch }.

(** ** Arguments *)

Inductive Args :=
| JoinMembersArgs (names : list string) (reason : string)
| AskUserArgs (node_id question : string) (question_type : QuestionType) (options : list string) (multi : bool)
| CallSubagentArgs (requested_by target_agent instruction : string)
| PlanDraftArgs (draft : PlanDraft)
| RevisePlanArgs (patch : PlanPatch)
| AssistanceArgs (r : AssistanceResult)
| OutcomeArgs (r : OutcomeResult)
| RepairArgs (r : RepairResult).

Definition draft_json (d : PlanNodeDraft) : json := JObj [
  ("id", JStr (pd_id d)); ("name", JStr (pd_name d)); ("agent_name", JStr (pd_agent_name d));
  ("input", JObj (prod_map id JStr <$> pd_input d)); ("deps", json_strs (pd_deps d))].

Definition patch_json (p : PlanPatch) : json := JObj [
  ("add", JArr ((fun n => JObj [("agent_name", JStr (pn_agent_name n)); ("name", JStr (pn_name n));
     ("instruction", JStr (pn_instruction n)); ("deps", json_strs (pn_deps n))]) <$> patch_add p));
  ("invalidate", json_strs (patch_invalidate p));
  ("reason", JStr (patch_reason p))].

(** [args.model_dump()]. *)
Definition args_dump (a : Args) : json :=
  match a with
  | JoinMembersArgs names reason => JObj [("names", json_strs names); ("reason", JStr reason)]
  | AskUserArgs node_id q qt opts multi => JObj [("node_id", JStr node_id); ("question", JStr q);
      ("question_type", JStr (QuestionType_value qt)); ("options", json_strs opts); ("multi", JBool multi)]
  | CallSubagentArgs by_ target instruction => JObj [("requested_by", JStr by_);
      ("target_agent", JStr target); ("instruction", JStr instruction)]
  | PlanDraftArgs d => JObj [("nodes", JArr (draft_json <$> pd_nodes d))]
  | RevisePlanArgs p => JObj [("patch", patch_json p)]
  | AssistanceArgs r => JObj [("target_agent", json_opt (as_target_agent r));
      ("instruction", JStr (as_instruction r)); ("question_type", JStr (QuestionType_value (as_question_type r)));
      ("options", json_strs (as_options r)); ("multi", JBool (as_multi r))]
  | OutcomeArgs r => JObj [("intent", JStr (intent_value (oc_intent r))); ("question", JStr (oc_question r));
      ("patch", match oc_patch r with Some p => patch_json p | None => JNull end)]
  | RepairArgs r => JObj [("patch", patch_json (rp_patch r))]
  end.

(** ** Results *)

Record PlanNodeData := mkNodeData {
  nd_id : string; nd_name : string; nd_agent_name : string; nd_deps : list string; nd_input_text : string }.
Definition node_data (n : NodeState) : PlanNodeData :=
  mkNodeData (n_id n) (n_name n) (n_agent_name n) (n_deps n) (n_input_text n).

Inductive ToolData :=
| JoinMembersData (joined : list string)
| AskUserData (iv : Intervention) (agent_name : string)
| CallSubagentData (helper_node_id helper requester : string)
| CreatePlanData (plan_id : string) (plan_version : Z) (nodes : list PlanNodeData)
| RevisePlanData (plan_id : string) (plan_version : Z) (reason : string) (added_nodes : list PlanNodeData)
    (result : PatchResult).

Record FunctionResult := mkResult { fr_success : bool; fr_data : option ToolData; fr_error : option string }.
Definition tool_ok (d : ToolData) : FunctionResult := mkResult true (Some d) None.
Definition tool_error (msg : string) : FunctionResult := mkResult false None (Some msg).

Definition node_data_json (d : PlanNodeData) : json := JObj [
  ("id", JStr (nd_id d)); ("name", JStr (nd_name d)); ("agent_name", JStr (nd_agent_name d));
  ("deps", json_strs (nd_deps d)); ("input_text", JStr (nd_input_text d))].

Definition data_dump (d : ToolData) : json :=
  match d with
  | JoinMembersData joined => JObj [("joined", json_strs joined)]
  | AskUserData iv agent => JObj [("intervention_id", JStr (iv_id iv)); ("node_id", JStr (iv_node_id iv));
      ("agent_name", JStr agent); ("requester", JStr agent); ("question", JStr (iv_question iv));
      ("question_type", JStr (QuestionType_value (iv_question_type iv)));
      ("options", json_strs (iv_options iv)); ("multi", JBool (iv_multi iv))]
  | CallSubagentData id helper requester => JObj [("helper_node_id", JStr id); ("helper", JStr helper);
      ("requester", JStr requester)]
  | CreatePlanData id v l => JObj [("plan_id", JStr id); ("plan_version", JNum v);
      ("nodes", JArr (node_data_json <$> l))]
  | RevisePlanData id v reason l r => JObj [("plan_id", JStr id); ("plan_version", JNum v);
      ("reason", JStr reason); ("added", json_strs (pr_added r));
      ("added_nodes", JArr (node_data_json <$> l)); ("invalidated", json_strs (pr_invalidated r));
      ("skipped_in_flight", json_strs (pr_skipped_in_flight r)); ("rejected", json_strs (pr_rejected r))]
  end.

(** [result.model_dump()]. *)
Definition result_dump (r : FunctionResult) : json := JObj [
  ("success", JBool (fr_success r));
  ("data", match fr_data r with Some d => data_dump d | None => JNull end);
  ("error", json_opt (fr_error r))].

Record FunctionTool := mkTool {
  ft_name : string; ft_emit_artifact : bool; ft_run : Args -> M FunctionResult }.

(** [StructuredOutputTool]: its arguments are the output; running it does nothing. *)
Definition StructuredOutputTool (name : string) : FunctionTool :=
  mkTool name true (fun _ => mret (mkResult true None None)).

(** A model's parsed tool call. *)
Record ToolCallResult := mkCall { tc_function : FunctionTool; tc_args : Args; tc_call_id : string }.
