(* ===== verification/Events.v ===== *)
(** * Events and persistence (choirworks/core/events.py, a2a/wire.py,
    orchestration/events.py, orchestration/session.py)

    The A2A events a turn emits, the messages it records for the LLM, and the
    session's snapshot in the context store. Log lines are left out. *)
From S2P Require Import Prelude PyStr Dict Json State StateFacts Transitions StateJson World Tool.
Local Open Scope string_scope.
Local Open Scope list_scope.

(** [CwType]: the values of the [cw_type] metadata of a part. *)
Inductive CwType := THOUGHT | TEXT | FUNCTION_CALL | CW_QUESTION | DECISION | HISTORY | COMPACTION.
Definition CwType_value (t : CwType) : string :=
  match t with
  | THOUGHT => "thought" | TEXT => "text" | FUNCTION_CALL => "function_call" | CW_QUESTION => "question"
  | DECISION => "decision" | HISTORY => "history" | COMPACTION => "compaction"
  end.

(** ** Builders (core/events.py, a2a/wire.py) *)

(** [struct(data)]: a protobuf [Struct], [None] values stripped. *)
Definition struct_of (data : list (string * json)) : list (string * json) :=
  match strip_none (JObj data) with JObj kvs => kvs | _ => [] end.

(** [join_text(parts)]. *)
Definition join_text (parts : list Part) : string :=
  str_join nl
    (omap (fun p => match p_content p with CText s => Some s | _ => None end) parts).

Definition status_update (task_id context_id : string) (st : task_state) (metadata : list (string * json))
    (message : option Message) : A2AEvent :=
  EvStatus task_id context_id st message
    (match metadata with [] => None | _ => Some (JObj (struct_of metadata)) end).

Definition status_event := status_update.

(** [data_part(data, metadata)]. *)
Definition data_part (data metadata : list (string * json)) : Part :=
  mkPart (CData (strip_none (JObj data))) (struct_of metadata).

Definition chunk_event (task_id context_id text : string) (kind : CwType) (author artifact_id : string)
    (append last_chunk : bool) : A2AEvent :=
  EvArtifact task_id context_id
    (mkArtifact artifact_id estr
       [mkPart (CText text) [("cw_type", JStr (CwType_value kind)); ("author", JStr author)]] [])
    append last_chunk.

Definition function_call_event (artifact_id task_id context_id function_name : string) (args result : json)
    (call_id args_json result_json : string) : A2AEvent :=
  EvArtifact task_id context_id
    (mkArtifact artifact_id estr
       [mkPart (CData (JObj [("function_name", JStr function_name); ("function_args", args);
          ("function_result", result); ("call_id", JStr call_id); ("args_json", JStr args_json);
          ("result_json", JStr result_json)])) [("cw_type", JStr (CwType_value FUNCTION_CALL))]] [])
    false true.

Definition state_delta_event (task_id context_id : string) (delta : list (string * json)) (st : task_state) : A2AEvent :=
  status_event task_id context_id st [("cw_delta", JObj delta)] None.

(** ** Emission (orchestration/events.py) *)

Definition _TERMINAL_TASK_STATES : list task_state :=
  [TaskState.COMPLETED; TaskState.CANCELED; TaskState.FAILED; TaskState.REJECTED].

(** Pending questions keep the task in [INPUT_REQUIRED]. *)
Definition _effective_state (s : OrchestrationState) (st : task_state) : task_state :=
  if bool_decide (st ∈ _TERMINAL_TASK_STATES) then st
  else match pending_interventions s with [] => st | _ => TaskState.INPUT_REQUIRED end.

Section events.
Context `{!Env}.

Definition emit_event (st : task_state) (metadata : list (string * json)) (message : option Message) : M unit :=
  w ← get_world;
  enqueue_event (status_event (w_task_id w) (w_context_id w) (_effective_state (w_state w) st) metadata message).

Definition emit_state_delta (ns : list (string * json)) (ms : list json) (ivs : list (string * json))
    (st : task_state) : M unit :=
  let delta := ((match ns with [] => [] | _ => [("nodes", JObj ns)] end)
    ++ (match ms with [] => [] | _ => [("members", JArr ms)] end)
    ++ (match ivs with [] => [] | _ => [("interventions", JObj ivs)] end))%list in
  match delta with
  | [] => mret tt
  | _ =>
      w ← get_world;
      enqueue_event (state_delta_event (w_task_id w) (w_context_id w) delta (_effective_state (w_state w) st))
  end.

Definition emit_intervention_rejected (intervention_id reason : string) : M unit :=
  emit_event TaskState.WORKING [("intervention_id", JStr intervention_id); ("reason", JStr reason)] None.

Definition expired_delta (iv : Intervention) : string * json :=
  (iv_id iv, JObj [("status", JStr "expired"); ("node_id", JStr (iv_node_id iv));
     ("kind", JStr (InterventionKind_value (iv_kind iv)))]).

(** Push an expired delta so the client tears down the reply affordance. *)
Definition emit_interventions_expired (expired : list Intervention) : M unit :=
  match expired with
  | [] => mret tt
  | _ => emit_state_delta [] [] (foldl (fun d iv => dset (expired_delta iv).1 (expired_delta iv).2 d) [] expired)
           TaskState.WORKING
  end.

Definition emit_chunk (text : string) (kind : CwType) (author artifact_id : string) (append last_chunk : bool) : M unit :=
  w ← get_world;
  enqueue_event (chunk_event (w_task_id w) (w_context_id w) text kind author artifact_id append last_chunk).
Definition emit_thought_chunk (text author : string) (append last_chunk : bool) (artifact_id : string) : M unit :=
  emit_chunk text THOUGHT author artifact_id append last_chunk.
Definition emit_text_chunk (text : string) (append last_chunk : bool) (artifact_id : string) : M unit :=
  emit_chunk text TEXT "assistant" artifact_id append last_chunk.

Definition append_messages (l : list ChatMessage) : M unit :=
  modify (fun w => set_messages (w_messages w ++ l)%list w).

(** The assistant tool call and its result, as recorded for the LLM. *)
Definition tool_exchange (function_name call_id args_json result_json : string) : list ChatMessage :=
  [MsgToolCall call_id function_name args_json; MsgTool call_id result_json].

Definition _record_tool_exchange (function_name call_id args_json result_json : string) : M unit :=
  append_messages (tool_exchange function_name call_id args_json result_json).

(** [call_id or uuid.uuid4().hex]. *)
Definition or_uuid (call_id : string) : M string :=
  if str_truthy call_id then mret call_id else new_uuid.

(** The body shared by the two functions below. *)
Definition emit_call_artifact (function_name : string) (args result : json)
    (call_id args_json result_json : string) (st : task_state) : M unit :=
  (_record_tool_exchange function_name call_id args_json result_json ;;;
   artifact_id ← new_uuid;
   w ← get_world;
   enqueue_event (function_call_event artifact_id (w_task_id w) (w_context_id w) function_name args result
     call_id args_json result_json) ;;;
   emit_event st [] None)%choir.

Definition emit_function_call (func : FunctionTool) (args : Args) (result : FunctionResult)
    (call_id : string) (st : task_state) : M unit :=
  call_id ← or_uuid call_id;
  emit_call_artifact (ft_name func) (args_dump args) (result_dump result) call_id
    (dumps (args_dump args)) (dumps (result_dump result)) st.

Definition emit_function_error (func : FunctionTool) (error call_id args_json : string) (st : task_state) : M unit :=
  call_id ← or_uuid call_id;
  let args_json := str_or args_json "{}" in
  let result := JObj [("success", JBool false); ("error", JStr error)] in
  emit_call_artifact (ft_name func) (JObj []) result call_id args_json (dumps result) st.

(** [role] of a recorded message: ["user"] or ["assistant"]. *)
Inductive chat_role := User | Assistant.
Definition chat_role_value (r : chat_role) : string := match r with User => "user" | Assistant => "assistant" end.
Definition chat_message (r : chat_role) (content : string) : ChatMessage :=
  match r with User => MsgUser content | Assistant => MsgAssistant content end.

(** The artifact that carries a recorded message. *)
Definition message_artifact (artifact_id content : string) (t : CwType) (r : chat_role) : Artifact :=
  mkArtifact artifact_id estr
    [mkPart (CText content) [("cw_type", JStr (CwType_value t)); ("role", JStr (chat_role_value r))]] [].

(** Append one message to the history and persist it as an artifact. *)
Definition _record_message (content : string) (t : CwType) (r : chat_role) : M unit :=
  (append_messages [chat_message r content] ;;;
   artifact_id ← new_uuid;
   w ← get_world;
   enqueue_event (EvArtifact (w_task_id w) (w_context_id w) (message_artifact artifact_id content t r) false true))%choir.

Definition record_decision (content : string) : M unit := _record_message content DECISION Assistant.
Definition record_message (content : string) (r : chat_role) : M unit := _record_message content HISTORY r.

Definition compaction_artifact (artifact_id : string) (compacted_count : Z) (summary : string) : Artifact :=
  mkArtifact artifact_id estr
    [mkPart (CText summary) [("cw_type", JStr (CwType_value COMPACTION)); ("compacted_count", JNum compacted_count)]] [].

Definition emit_compaction (compacted_count : Z) (summary : string) : M unit :=
  artifact_id ← new_uuid;
  w ← get_world;
  enqueue_event (EvArtifact (w_task_id w) (w_context_id w) (compaction_artifact artifact_id compacted_count summary) false true).

(** ** Status changes (orchestration/transitions.py, transition) *)

(** The single status change entry: validate, apply, emit. *)
Definition transition (k : string) (to : node_status) (emit : bool) (delta : list (string * json))
    (ivs : list (string * json)) : M unit :=
  (transition_at k to ;;;
   n ← node_at k;
   when emit (emit_state_delta
     [(n_id n, JObj (dset "status" (JStr (NodeStatus.node_status_value to)) delta))] [] ivs
     TaskState.WORKING))%choir.

(** ** Sessions (orchestration/session.py) *)

Definition STATE_JSON_KEY : string := "choirworks.state".

(** [SessionManager.persist]: store a snapshot, then publish it. *)
Definition persist : M unit :=
  (s ← get_state;
   modify (fun w => set_store (state_to_json (w_state w)) w) ;;;
   emit_event TaskState.WORKING [(STATE_JSON_KEY, state_to_json s)] None)%choir.

(** [SessionManager.evict_session]: forget the session; its runner and task
    tables are cleared. *)
Definition evict_session : M unit :=
  modify (fun w => set_flags false (if w_session w then false else w_runner w) (w_wake w) w).

(** [runtime.wake.set()]. *)
Definition wake_set : M unit := modify (fun w => set_flags (w_session w) (w_runner w) true w).

(** [start_runner] (execution/runner.py): at most one runner per session. *)
Definition start_runner : M unit :=
  modify (fun w => set_flags (w_session w) true (w_wake w) w).
End events.
