(* ===== verification/Evolution.v ===== *)
(** * What every handler keeps

    The proof automation for [Keeps], the instances for the event functions, and
    the evolutions of the development: the session invariant, the life of the
    nodes, and the growth of the event log. A handler needs one structural
    proof, [Keeps R] for every [Evolution R]; each instance below then is a
    theorem about it. *)
From S2P Require Import Prelude PyStr Dict Json State StateFacts Transitions StateJson World Tool Events.

(** ** Automation *)

(** Discharges [detail f] and [iv_detail f] for a record update. *)
Ltac detail := by intros ?; repeat split.

Ltac keeps_step :=
  match goal with
  | |- Evolution _ => typeclasses eauto
  | |- Logging _ => typeclasses eauto
  | |- PreOrder _ => typeclasses eauto
  | |- Keeps _ (mbind _ _) => apply keeps_bind
  | |- Keeps _ (catch _ _) => apply keeps_catch; intros
  | |- Keeps _ (mapM_ _ _) => apply keeps_mapM_; intros
  | |- Keeps _ (foldM _ _ _) => apply keeps_foldM; intros
  | |- Keeps _ (when ?b _) => destruct b; cbn [when]
  | |- Keeps _ (unless ?b _) => destruct b; cbn [unless]
  | |- Keeps _ (update_node _ _) => apply keeps_update_node; [typeclasses eauto | detail]
  | |- Keeps _ (match ?x with _ => _ end) => destruct x eqn:?
  | |- Keeps _ _ => solve [eauto 8 with typeclass_instances choir]
  end.

Ltac keeps := repeat (intros; cbv zeta; keeps_step).

Section event_keeps.
Context `{!Env} (R : relation World) `{!Logging R}.

#[export] Instance keeps_new_uuid : Keeps R new_uuid.
Proof. unfold new_uuid. keeps. Qed.
#[export] Instance keeps_new_time : Keeps R new_time.
Proof. unfold new_time. keeps. Qed.
#[export] Instance keeps_or_uuid c : Keeps R (or_uuid c).
Proof. unfold or_uuid. keeps. Qed.
#[export] Instance keeps_emit_event st md msg : Keeps R (emit_event st md msg).
Proof. unfold emit_event. keeps. Qed.
#[export] Instance keeps_emit_state_delta ns ms ivs st : Keeps R (emit_state_delta ns ms ivs st).
Proof. unfold emit_state_delta. keeps. Qed.
#[export] Instance keeps_emit_intervention_rejected i r : Keeps R (emit_intervention_rejected i r).
Proof. apply _. Qed.
#[export] Instance keeps_emit_interventions_expired l : Keeps R (emit_interventions_expired l).
Proof. unfold emit_interventions_expired. keeps. Qed.
#[export] Instance keeps_emit_chunk t k a i ap lc : Keeps R (emit_chunk t k a i ap lc).
Proof. unfold emit_chunk. keeps. Qed.
#[export] Instance keeps_append_messages l : Keeps R (append_messages l).
Proof. unfold append_messages. apply _. Qed.
#[export] Instance keeps_emit_call_artifact f a r c aj rj st : Keeps R (emit_call_artifact f a r c aj rj st).
Proof. unfold emit_call_artifact, _record_tool_exchange. keeps. Qed.
#[export] Instance keeps_emit_function_call f a r c st : Keeps R (emit_function_call f a r c st).
Proof. unfold emit_function_call. keeps. Qed.
#[export] Instance keeps_emit_function_error f e c aj st : Keeps R (emit_function_error f e c aj st).
Proof. unfold emit_function_error. keeps. Qed.
#[export] Instance keeps_record_message' c t r : Keeps R (_record_message c t r).
Proof. unfold _record_message. keeps. Qed.
#[export] Instance keeps_record_decision c : Keeps R (record_decision c).
Proof. apply _. Qed.
#[export] Instance keeps_record_message c r : Keeps R (record_message c r).
Proof. apply _. Qed.
#[export] Instance keeps_emit_compaction n s : Keeps R (emit_compaction n s).
Proof. unfold emit_compaction. keeps. Qed.
#[export] Instance keeps_persist : Keeps R persist.
Proof. unfold persist. keeps. Qed.
#[export] Instance keeps_evict : Keeps R evict_session.
Proof. apply _. Qed.
#[export] Instance keeps_wake : Keeps R wake_set.
Proof. apply _. Qed.
#[export] Instance keeps_start_runner : Keeps R start_runner.
Proof. apply _. Qed.

End event_keeps.

(** The state primitives, as handlers use them. *)
Section state_keeps.
Context `{!Env} (R : relation World) `{!Evolution R}.

#[export] Instance keeps_transition k to e d ivs : Keeps R (transition k to e d ivs).
Proof. unfold transition. keeps. Qed.
#[export] Instance keeps_run_ask uid now k q kind qt opts multi req :
  Keeps R (run_state (fun s => request_user_input uid now s k q kind qt opts multi req)).
Proof.
  intros w. unfold run_state. destruct (request_user_input _ _ _ _ _ _ _ _ _ _) as [s a] eqn:E. cbn.
  assert (s = fst (request_user_input uid now (w_state w) k q kind qt opts multi req)) as -> by by rewrite E.
  apply ev_ask.
Qed.
#[export] Instance keeps_run_expire p : Keeps R (run_state (expire_where p)).
Proof. intros w. unfold run_state. cbn. apply ev_expire. Qed.
#[export] Instance keeps_run_expire_node k : Keeps R (run_state (fun s => expire_node_interventions s k)).
Proof. intros w. unfold run_state. cbn. apply ev_expire. Qed.
#[export] Instance keeps_run_enqueue now k t s q : Keeps R (run_state (fun st => enqueue now st k t s q)).
Proof. intros w. unfold run_state. cbn. apply ev_enqueue. Qed.
#[export] Instance keeps_run_take k : Keeps R (run_state (fun st => take_queued st k)).
Proof. intros w. unfold run_state. cbn. apply ev_take. Qed.
#[export] Instance keeps_revision : Keeps R (mod_state (fun s => set_revision_count (revision_count s + 1)%Z s)).
Proof. intros w. apply ev_revision. Qed.
Lemma keeps_upd_intervention k f : iv_detail f -> Keeps R (mod_state (upd_intervention k f)).
Proof. intros Hf w. by apply ev_intervention. Qed.
End state_keeps.

#[export] Instance keeps_run_member R `{!Joining R} now n r : Keeps R (run_state (add_member now n r)).
Proof.
  intros w. unfold run_state. destruct (add_member now n r (w_state w)) as [s a] eqn:E. cbn.
  assert (s = fst (add_member now n r (w_state w))) as -> by by rewrite E. apply ev_member.
Qed.

(** [upd_intervention] steps are discharged like [update_node] steps. *)
Ltac keeps_step ::=
  match goal with
  | |- Evolution _ => typeclasses eauto
  | |- Logging _ => typeclasses eauto
  | |- PreOrder _ => typeclasses eauto
  | |- Keeps _ (mbind _ _) => apply keeps_bind
  | |- Keeps _ (catch _ _) => apply keeps_catch; intros
  | |- Keeps _ (mapM_ _ _) => apply keeps_mapM_; intros
  | |- Keeps _ (foldM _ _ _) => apply keeps_foldM; intros
  | |- Keeps _ (when ?b _) => destruct b; cbn [when]
  | |- Keeps _ (unless ?b _) => destruct b; cbn [unless]
  | |- Keeps _ (update_node _ _) => apply keeps_update_node; [typeclasses eauto | detail]
  | |- Keeps _ (mod_state (upd_intervention _ _)) => apply keeps_upd_intervention; [typeclasses eauto | detail]
  | |- Keeps _ (match ?x with _ => _ end) => destruct x eqn:?
  | H : _ = Some ?m |- Keeps _ ?m => is_var m; repeat break_match_hyp; simplify_eq
  | |- Keeps _ _ => solve [eauto 8 with typeclass_instances choir]
  end.

(** ** Evolution 1: the session invariant *)

Definition session_inv (s : OrchestrationState) : Prop := wf_state s /\ one_pending s.

Definition keeps_inv (w w' : World) : Prop := session_inv (w_state w) -> session_inv (w_state w').

Lemma one_pending_upd_intervention k f s :
  iv_detail f -> one_pending s -> one_pending (upd_intervention k f s).
Proof.
  intros Hf Hone. unfold upd_intervention, dupd.
  destruct (dget k (interventions s)) as [iv|] eqn:E; [|by destruct s].
  apply dget_elem in E. destruct (Hf iv) as (_ & Hn & Hp).
  intros k1 i1 k2 i2 [[= -> ->]|H1]%elem_of_dset [[= -> ->]|H2]%elem_of_dset P1 P2 En; rewrite ?Hn in *; eauto.
Qed.

Lemma wf_upd_intervention k f s : iv_detail f -> wf_state s -> wf_state (upd_intervention k f s).
Proof.
  intros Hf Hwf. apply wf_set_interventions; [done | apply NoDup_dupd, Hwf |].
  intros k' iv'. unfold dupd. destruct (dget k (interventions s)) as [iv|] eqn:E.
  - intros [[= -> ->]|H]%elem_of_dset; [|by eapply (wf_ivs_id s)].
    rewrite (proj1 (Hf iv)). apply dget_elem in E. by eapply (wf_ivs_id s).
  - by eapply (wf_ivs_id s).
Qed.

Lemma session_inv_nodes s d :
  wf_state (set_nodes d s) -> one_pending s -> session_inv (set_nodes d s).
Proof. by split. Qed.

Lemma wf_set_counters s f :
  (forall s, nodes (f s) = nodes s /\ members (f s) = members s /\ interventions (f s) = interventions s /\
     queue (f s) = queue s) -> wf_state s -> wf_state (f s).
Proof. intros Hf []. destruct (Hf s) as (E1 & E2 & E3 & E4). split; by rewrite ?E1, ?E2, ?E3, ?E4. Qed.

Lemma one_pending_same s s' : interventions s' = interventions s -> one_pending s -> one_pending s'.
Proof. unfold one_pending. by intros ->. Qed.

#[export] Instance keeps_inv_evolution : Evolution keeps_inv.
Proof.
  unfold keeps_inv, session_inv. split; cbn.
  - split; [split|].
    + split; [by intros w | intros w1 w2 w3 H1 H2 H; auto].
    + by intros w w' ->.
    + intros w now name reason [H1 H2]. unfold add_member. destruct (dmem _ _); cbn; [done|].
      split; [|done]. apply wf_set_members; [done | apply NoDup_dset, H1|].
      intros k m [[= -> ->]|H]%elem_of_dset; [done | by eapply (wf_members_id (w_state w))].
  - intros w k n to _ _ [H1 H2]. split; [by apply wf_upd_node | done].
  - intros w k f Hf [H1 H2]. split; [apply wf_upd_node; [done | apply Hf] | done].
  - intros w k f Hf [H1 H2]. split; [by apply wf_upd_intervention | by apply one_pending_upd_intervention].
  - intros w p [H1 H2]. split; [by apply wf_expire_where | by apply one_pending_expire_where].
  - intros w uid now k q kind qt opts multi req [H1 H2].
    destruct (request_user_input _ _ _ _ _ _ _ _ _ _) as [s' r] eqn:E. cbn.
    by destruct (request_user_input_inv _ _ _ _ _ _ _ _ _ _ _ _ H1 H2 E) as (? & ? & _).
  - intros w now k t s q [H1 H2]. unfold enqueue. cbn. split; [|done].
    apply wf_set_queue; [by apply wf_set_next_message | apply NoDup_dset, H1].
  - intros w k [H1 H2]. split; [|done]. apply wf_set_queue; [done | apply NoDup_ddel, H1].
  - intros w [H1 H2]. split; [|done].
    by apply (wf_set_counters _ (set_revision_count (revision_count (w_state w) + 1))).
  - intros w z [H1 H2]. split; [|done]. by apply (wf_set_counters _ (set_patch_count z)).
  - intros w n _ _ [H1 H2]. split; [by apply wf_add_node | done].
  - intros w n parent suffix _ _ [H1 H2]. split; [|done].
    apply (wf_add_node (set_derived_count (derived_count (w_state w) + 1) (w_state w))).
    by apply (wf_set_counters _ (set_derived_count (derived_count (w_state w) + 1))).
Qed.

(** ** Evolution 2: the life of the nodes *)

(** [n'] is [n] later in its life: same identity and place in the plan, and its
    status was reached by accepted status changes. *)
Definition node_later (n n' : NodeState) : Prop :=
  n_id n' = n_id n /\ n_agent_name n' = n_agent_name n /\ n_deps n' = n_deps n /\
  n_derived n' = n_derived n /\ n_assist_requested_by n' = n_assist_requested_by n /\
  exists tr, steps status_step (n_status n) tr (n_status n').

#[export] Instance node_later_preorder : PreOrder node_later.
Proof.
  split.
  - intros n. unfold node_later. repeat split. exists []. constructor.
  - intros a b c (?&?&?&?&?&tr1&?) (?&?&?&?&?&tr2&?). unfold node_later.
    repeat split; try congruence. exists (tr1 ++ tr2). by eapply steps_app.
Qed.

(** Every node of the session is still there, later in its life, unless its id
    is one that a later [spawn_derived_node] can make. *)
Definition lives (w w' : World) : Prop :=
  (derived_count (w_state w) <= derived_count (w_state w'))%Z /\
  forall k n, get_node (w_state w) k = Some n -> ~ derived_id (derived_count (w_state w)) k ->
    exists n', get_node (w_state w') k = Some n' /\ node_later n n'.

Lemma lives_same w w' :
  nodes (w_state w') = nodes (w_state w) -> derived_count (w_state w') = derived_count (w_state w) -> lives w w'.
Proof.
  intros En Ed. split; [by rewrite Ed|]. intros k n Hn _. exists n. unfold get_node in *. by rewrite En.
Qed.

Lemma lives_upd w k f :
  (forall n, get_node (w_state w) k = Some n -> node_later n (f n)) ->
  lives w (set_state (upd_node k f (w_state w)) w).
Proof.
  intros Hf. split; [done|]. intros k' n Hn _. cbn [w_state set_state]. rewrite get_upd_node.
  destruct (decide (k' = k)) as [->|]; [|by exists n]. rewrite Hn. cbn. exists (f n). auto.
Qed.

#[export] Instance lives_preorder : PreOrder lives.
Proof.
  split; [by intros w; apply lives_same|].
  intros a b c [D1 H1] [D2 H2]. split; [lia|]. intros k n Hn Hd.
  destruct (H1 k n Hn Hd) as (n1 & Hn1 & L1). destruct (H2 k n1 Hn1) as (n2 & Hn2 & L2).
  - intros (p & x & m & Hm & ->). apply Hd. exists p, x, m. split; [lia | done].
  - exists n2. split; [done | by etrans].
Qed.

#[export] Instance lives_evolution : Evolution lives.
Proof.
  split.
  - split; [split; [apply _|]|].
    + intros w w' E _. apply lives_same; by rewrite E.
    + intros. unfold add_member. destruct (dmem _ _); by apply lives_same.
  - intros w k n to Hn Hc. apply lives_upd. intros n' Hn'. assert (n' = n) as -> by congruence.
    repeat split. exists [to]. eapply steps_cons; [|constructor].
    apply (apply_transition_step n to). unfold apply_transition. by rewrite Hc.
  - intros w k f Hf. apply lives_upd. intros n _. destruct (Hf n) as (?&?&E&?&?&?).
    repeat split; try done. exists []. rewrite E. constructor.
  - intros w k f _. by apply lives_same.
  - intros w p. by apply lives_same.
  - intros. unfold request_user_input. destruct (pending_intervention_for _ _); by apply lives_same.
  - intros. by apply lives_same.
  - intros. by apply lives_same.
  - intros. by apply lives_same.
  - intros. by apply lives_same.
  - intros w n Hn _. split; [done|]. intros k m Hm _. exists m. split; [|done].
    unfold get_node in *. cbn. rewrite dget_dset_ne; [done|]. congruence.
  - intros w n parent suffix _ Hid. cbn. split; [cbn; lia|]. intros k m Hm Hd. exists m. split; [|done].
    unfold get_node in *. cbn. rewrite dget_dset_ne; [done|]. intros ->. apply Hd.
    exists parent, suffix, (derived_count (w_state w) + 1)%Z. split; [lia | done].
Qed.

(** A settled status is the last one. *)
Lemma settled_steps a tr b : settled a -> steps status_step a tr b -> b = a.
Proof.
  intros Hs Htr. induction Htr as [|a l b tr c Hstep _ IH]; [done|].
  pose proof (settled_step _ _ _ Hstep Hs) as ->. by apply IH.
Qed.

(** What [lives] says about settled nodes. *)
Lemma lives_settled w w' k n :
  lives w w' -> get_node (w_state w) k = Some n -> ~ derived_id (derived_count (w_state w)) k ->
  settled (n_status n) ->
  exists n', get_node (w_state w') k = Some n' /\ n_status n' = n_status n.
Proof.
  intros [_ H] Hn Hd Hs. destruct (H k n Hn Hd) as (n' & Hn' & (_&_&_&_&_&tr&Htr)).
  exists n'. split; [done|]. by eapply settled_steps.
Qed.

(** ** Evolution 3: the event log only grows *)

Definition log_grows (w w' : World) : Prop := w_queue w `prefix_of` w_queue w'.

#[export] Instance log_grows_evolution : Evolution log_grows.
Proof.
  unfold log_grows. split; cbn; try done.
  split; [split|]; cbn; try done. split; [by intros w | intros w1 w2 w3 H1 H2; by etrans].
Qed.

(** ** Quiet handlers

    Handlers that always return and touch only the log, the messages, the store
    and the clock: what is proved about a handler steps over them. *)

(** The store holds a snapshot of the current state. *)
Definition synced (w : World) : Prop := w_store w = Some (state_to_json (w_state w)).

Record quiet (w w' : World) : Prop := {
  q_state : w_state w' = w_state w;
  q_session : w_session w' = w_session w;
  q_runner : w_runner w' = w_runner w;
  q_wake : w_wake w' = w_wake w;
  q_calls : w_calls w' = w_calls w;
  q_inbound : w_inbound w' = w_inbound w;
  q_compaction : w_compaction w' = w_compaction w;
  q_ids : w_task_id w' = w_task_id w /\ w_context_id w' = w_context_id w;
  q_log : w_queue w `prefix_of` w_queue w';
  q_store : w_store w' = w_store w \/ synced w'
}.

#[export] Instance quiet_preorder : PreOrder quiet.
Proof.
  split; [by intros w; split; auto|].
  intros a b c [? ? ? ? ? ? ? [??] ? Hab] [? ? ? ? ? ? ? [??] ? Hbc].
  split; try congruence; [split; congruence | by etrans |].
  destruct Hbc as [Hbc|?]; [|by right]. rewrite Hbc. destruct Hab as [Hab|Hab]; [by left|].
  right. unfold synced in *. congruence.
Qed.

Class Quiet {A} (m : M A) : Prop := quietly : forall w, exists w' a, m w = (w', Ok a) /\ quiet w w'.

#[export] Instance quiet_ret {A} (a : A) : Quiet (mret a : M A).
Proof. intros w. exists w, a. done. Qed.
#[export] Instance quiet_get_world : Quiet get_world.
Proof. intros w. by exists w, w. Qed.
#[export] Instance quiet_get_state : Quiet get_state.
Proof. intros w. by exists w, (w_state w). Qed.
#[export] Instance quiet_draw : Quiet draw.
Proof. intros w. eexists _, _. split; [done|]. by split; auto. Qed.
#[export] Instance quiet_enqueue e : Quiet (enqueue_event e).
Proof. intros w. eexists _, _. split; [done|]. split; auto. by eexists. Qed.
#[export] Instance quiet_append l : Quiet (append_messages l).
Proof. intros w. eexists _, _. split; [done|]. by split; auto. Qed.

Lemma quiet_bind {A B} (m : M A) (f : A -> M B) : Quiet m -> (forall a, Quiet (f a)) -> Quiet (m ≫= f).
Proof.
  intros Hm Hf w. destruct (Hm w) as (w1 & a & E & H1). destruct (Hf a w1) as (w2 & b & E2 & H2).
  exists w2, b. unfold mbind, M_bind. rewrite E. split; [done|]. by etrans.
Qed.

Lemma quiet_mapM_ {A} (f : A -> M unit) l : (forall x, Quiet (f x)) -> Quiet (mapM_ f l).
Proof. intros Hf. induction l as [|x l IH]; cbn; [apply quiet_ret|]. by apply quiet_bind. Qed.

Ltac quiet_step :=
  match goal with
  | |- Quiet (mbind _ _) => apply quiet_bind
  | |- Quiet (mapM_ _ _) => apply quiet_mapM_; intros
  | |- Quiet (when ?b _) => destruct b; cbn [when]
  | |- Quiet (match ?x with _ => _ end) => destruct x eqn:?
  | |- Quiet _ => solve [eauto with typeclass_instances]
  end.
Ltac quiet := repeat (intros; cbv zeta; quiet_step).

Section event_quiet.
Context `{!Env}.
#[export] Instance quiet_new_uuid : Quiet new_uuid.
Proof. unfold new_uuid. quiet. Qed.
#[export] Instance quiet_new_time : Quiet new_time.
Proof. unfold new_time. quiet. Qed.
#[export] Instance quiet_or_uuid c : Quiet (or_uuid c).
Proof. unfold or_uuid. quiet. Qed.
#[export] Instance quiet_emit_event st md msg : Quiet (emit_event st md msg).
Proof. unfold emit_event. quiet. Qed.
#[export] Instance quiet_emit_state_delta ns ms ivs st : Quiet (emit_state_delta ns ms ivs st).
Proof. unfold emit_state_delta. quiet. Qed.
#[export] Instance quiet_rejected i r : Quiet (emit_intervention_rejected i r).
Proof. unfold emit_intervention_rejected. quiet. Qed.
#[export] Instance quiet_expired l : Quiet (emit_interventions_expired l).
Proof. unfold emit_interventions_expired. quiet. Qed.
#[export] Instance quiet_chunk t k a i ap lc : Quiet (emit_chunk t k a i ap lc).
Proof. unfold emit_chunk. quiet. Qed.
#[export] Instance quiet_call_artifact f a r c aj rj st : Quiet (emit_call_artifact f a r c aj rj st).
Proof. unfold emit_call_artifact, _record_tool_exchange. quiet. Qed.
#[export] Instance quiet_function_call f a r c st : Quiet (emit_function_call f a r c st).
Proof. unfold emit_function_call. quiet. Qed.
#[export] Instance quiet_function_error f e c aj st : Quiet (emit_function_error f e c aj st).
Proof. unfold emit_function_error. quiet. Qed.
#[export] Instance quiet_record c t r : Quiet (_record_message c t r).
Proof. unfold _record_message. quiet. Qed.
#[export] Instance quiet_record_message c r : Quiet (record_message c r).
Proof. unfold record_message. quiet. Qed.
#[export] Instance quiet_record_decision c : Quiet (record_decision c).
Proof. unfold record_decision. quiet. Qed.
#[export] Instance quiet_compaction n s : Quiet (emit_compaction n s).
Proof. unfold emit_compaction. quiet. Qed.

Lemma persist_run w : exists w', persist w = (w', Ok tt) /\ quiet w w' /\ synced w'.
Proof.
  unfold persist, get_state, modify, mbind, M_bind.
  destruct (quiet_emit_event TaskState.WORKING [(STATE_JSON_KEY, state_to_json (w_state w))] None
    (set_store (state_to_json (w_state w)) w)) as (w' & [] & E & Hq).
  exists w'. split; [exact E|].
  assert (synced w') as Hs. { destruct Hq as [Hs _ _ _ _ _ _ _ _ [Hst|?]]; [|done]. unfold synced. by rewrite Hst, Hs. }
  split; [|done]. destruct Hq. cbn in *. split; auto.
Qed.
#[export] Instance quiet_persist : Quiet persist.
Proof. intros w. destruct (persist_run w) as (w' & E & Hq & _). by exists w', tt. Qed.
End event_quiet.


(** ** Symbolic execution *)

(** [wp m w Q]: running [m] in [w] ends in a world and a result that satisfy [Q]. *)
Definition wp {A} (m : M A) (w : World) (Q : World -> res A -> Prop) : Prop :=
  Q (fst (m w)) (snd (m w)).

Section wp.
Context {A : Type}.
Implicit Types (w : World) (Q : World -> res A -> Prop).

Lemma wp_ret (a : A) w Q : Q w (Ok a) -> wp (mret a) w Q.
Proof. done. Qed.

Lemma wp_raise e w Q : Q w (Err e) -> wp (raise e) w Q.
Proof. done. Qed.

Lemma wp_bind {B} (m : M B) (f : B -> M A) w Q :
  wp m w (fun w1 r => match r with Ok b => wp (f b) w1 Q | Err e => Q w1 (Err e) end) -> wp (m ≫= f) w Q.
Proof. unfold wp, mbind, M_bind. destruct (m w) as [w1 [b|e]]; done. Qed.

Lemma wp_quiet {B} (m : M B) (f : B -> M A) w Q :
  Quiet m -> (forall w1 b, quiet w w1 -> m w = (w1, Ok b) -> wp (f b) w1 Q) -> wp (m ≫= f) w Q.
Proof.
  intros Hm H. apply wp_bind. unfold wp at 1. destruct (Hm w) as (w1 & b & E & Hq). rewrite E. cbn. by apply H.
Qed.

Lemma wp_get_state (f : OrchestrationState -> M A) w Q : wp (f (w_state w)) w Q -> wp (get_state ≫= f) w Q.
Proof. done. Qed.

Lemma wp_mod_state g (f : unit -> M A) w Q :
  wp (f tt) (set_state (g (w_state w)) w) Q -> wp (mod_state g ≫= f) w Q.
Proof. done. Qed.

Lemma wp_update_node k g (f : unit -> M A) w Q :
  wp (f tt) (set_state (upd_node k g (w_state w)) w) Q -> wp (update_node k g ≫= f) w Q.
Proof. done. Qed.

Lemma wp_run_state {B} (g : OrchestrationState -> OrchestrationState * B) (f : B -> M A) w Q :
  wp (f (snd (g (w_state w)))) (set_state (fst (g (w_state w))) w) Q -> wp (run_state g ≫= f) w Q.
Proof. intros H. apply wp_bind. unfold wp at 1, run_state. by destruct (g (w_state w)). Qed.

Lemma wp_node_at k n (f : NodeState -> M A) w Q :
  get_node (w_state w) k = Some n -> wp (f n) w Q -> wp (node_at k ≫= f) w Q.
Proof. intros E H. apply wp_bind. unfold wp at 1, node_at, get_state, mbind, M_bind. by rewrite E. Qed.

Lemma wp_transition_at k n to (f : unit -> M A) w Q :
  get_node (w_state w) k = Some n -> can_transition n to = true ->
  wp (f tt) (set_state (upd_node k (set_status to) (w_state w)) w) Q ->
  wp (transition_at k to ≫= f) w Q.
Proof.
  intros E Hc H. apply wp_bind. unfold wp at 1, transition_at, node_at, get_state, lift, mbind, M_bind.
  rewrite E. cbn. unfold apply_transition. rewrite Hc. cbn. exact H.
Qed.

Lemma wp_catch (m : M A) h w Q :
  wp m w (fun w1 r => match r with
    | Ok a => Q w1 (Ok a)
    | Err e => match h e with Some m' => wp m' w1 Q | None => Q w1 (Err e) end
    end) -> wp (catch m h) w Q.
Proof.
  unfold wp, catch. destruct (m w) as [w1 [a|e]]; cbn; [done|]. by destruct (h e).
Qed.

(** Step over a handler of which only an evolution is known. *)
Lemma wp_keeps (R : relation World) {B} (m : M B) (f : B -> M A) w Q :
  Keeps R m -> (forall w1 b, R w w1 -> wp (f b) w1 Q) -> (forall w1 e, R w w1 -> Q w1 (Err e)) -> wp (m ≫= f) w Q.
Proof.
  intros Hm Hok Herr. apply wp_bind. unfold wp at 1. specialize (Hm w).
  destruct (m w) as [w1 [b|e]]; cbn in *; auto.
Qed.

Lemma wp_conseq (m : M A) w (Q Q' : World -> res A -> Prop) :
  wp m w Q -> (forall w' r, Q w' r -> Q' w' r) -> wp m w Q'.
Proof. unfold wp. auto. Qed.
End wp.

Lemma wp_persist `{!Env} {A} (f : unit -> M A) w Q :
  (forall w1, quiet w w1 -> synced w1 -> wp (f tt) w1 Q) -> wp (persist ≫= f) w Q.
Proof.
  intros Hf. apply wp_bind. unfold wp at 1. destruct (persist_run w) as (w1 & E & Hq & Hs). rewrite E. cbn. by apply Hf.
Qed.

(** A quiet step keeps a synced world synced. *)
Lemma quiet_synced w w' : quiet w w' -> synced w -> synced w'.
Proof.
  intros [Hs _ _ _ _ _ _ _ _ [Hst|?]] Hsy; [|done]. unfold synced in *. by rewrite Hst, Hs.
Qed.

(** One quiet step, its world named. *)
Ltac wp_quiet_as w1 a Hq E := apply wp_quiet; [typeclasses eauto|]; intros w1 a Hq E.
