(* ===== verification/Helpers.v ===== *)
(** * Helpers (orchestration/helpers.py, tools/join_members.py,
    orchestration/planning/derived.py, a2a/client.py)

    Running a tool and publishing its call, joining agents to the room, creating
    derived nodes, and the calls made to remote agents. *)
From S2P Require Import Prelude PyStr Dict Json State StateFacts Transitions StateJson World Tool Events Evolution.
Local Open Scope string_scope.
Local Open Scope list_scope.

(** ** Remote agents (a2a/client.py, RemoteAgentClient)

    What the A2A SDK and the network answer are parameters; the client turns the
    failures of [get_task] and [cancel_task] into values. *)

Inductive StreamResponse :=
| SrTask (t : Task)
| SrMessage (m : Message)
| SrStatus (task_id : string) (state : task_state) (message : option Message)
| SrArtifact (artifact : Artifact) (append last_chunk : bool).

Class Remote := {
  (** resolving the card and creating the client failed *)
  client_error : nat -> string -> option exn;
  (** the chunks of a stream, and the exception that ended it *)
  send_chunks : nat -> string -> list string -> option string -> list StreamResponse * option exn;
  subscribe_chunks : nat -> string -> string -> list StreamResponse * option exn;
  (** the task, or nothing when the call failed *)
  remote_task : nat -> string -> string -> option Task
}.

Section remote.
Context `{!Env, !Remote}.

Definition _client_for (url : string) : M unit :=
  t ← draw; match client_error t url with Some e => raise e | None => mret tt end.

Definition send_text (url : string) (text : list string) (task_id : option string) (context_id message_id : string)
    : M (list StreamResponse * option exn) :=
  (_client_for url ;;;
   modify (add_call (CallSend url text task_id context_id message_id)) ;;;
   t ← draw; mret (send_chunks t url text task_id))%choir.

Definition subscribe_task (url task_id : string) : M (list StreamResponse * option exn) :=
  (_client_for url ;;; modify (add_call (CallSubscribe url task_id)) ;;;
   t ← draw; mret (subscribe_chunks t url task_id))%choir.

Definition get_task (url task_id : string) : M (option Task) :=
  (_client_for url ;;; modify (add_call (CallGet url task_id)) ;;;
   t ← draw; mret (remote_task t url task_id))%choir.

(** A cancellation is a signal: that it failed is not reported. *)
Definition cancel_task (url task_id : string) : M unit :=
  (_client_for url ;;; modify (add_call (CallCancel url task_id)))%choir.

(** [agent_url_for]. *)
Definition agent_url_for (agent_name : string) : M string :=
  match agent_named agents agent_name with
  | Some record => mret (ag_card_url record)
  | None => raise (UnknownAgentError ("unknown agent: " +:+ agent_name))
  end.

(** ** Running tools (helpers.py) *)

Definition execute_function (func : FunctionTool) (args : Args) (call_id : string) : M FunctionResult :=
  result ← ft_run func args;
  (when (ft_emit_artifact func) (emit_function_call func args result call_id TaskState.WORKING) ;;;
   mret result)%choir.

(** ** Members (tools/join_members.py, helpers.py) *)

(** [add_member(state, name, reason)], drawing the time when it adds one. *)
Definition join_one (reason name : string) : M bool :=
  s ← get_state;
  if dmem name (members s) then mret false else t ← new_time; run_state (add_member t name reason).

Definition join_members_run (args : Args) : M FunctionResult :=
  match args with
  | JoinMembersArgs names reason =>
      joined ← foldM (fun joined name =>
        match agent_named agents name with
        | None => mret joined
        | Some _ => b ← join_one reason name; mret (if b : bool then joined ++ [name] else joined)
        end) [] (fromkeys names);
      mret (tool_ok (JoinMembersData joined))
  | _ => raise Unmodelled
  end.
Definition join_members_func : FunctionTool := mkTool "join_members" true join_members_run.

Definition join_members (names : list string) (reason : string) : M unit :=
  s ← get_state;
  let requested := filterb (fun name => negb (dmem name (members s))) (fromkeys names) in
  match requested with
  | [] => mret tt
  | _ =>
      result ← execute_function join_members_func (JoinMembersArgs requested reason) estr;
      let joined := match fr_data result with Some (JoinMembersData l) => l | _ => [] end in
      match joined with
      | [] => mret tt
      | _ => emit_state_delta [] ((fun name => JObj [("agent_name", JStr name); ("reason", JStr reason)]) <$> joined)
               [] TaskState.WORKING
      end
  end.

(** ** Derived nodes (planning/derived.py) *)

Inductive DerivedKind := FOLLOWUP | ASSIST | HELPER.
Definition _SUFFIX (k : DerivedKind) : string := match k with FOLLOWUP => "f" | ASSIST => "a" | HELPER => "h" end.
(** [None]: follow-ups join nobody. *)
Definition _JOIN_REASON (k : DerivedKind) : option string :=
  match k with FOLLOWUP => None | ASSIST => Some "agent_mention" | HELPER => Some "peer_assist" end.

(** Count and store the node; [None] when the budget is exhausted. *)
Definition derive (kind : DerivedKind) (parent_id agent_name input_text : string) (deps : list string)
    (assist_requested_by : option string) (s : OrchestrationState) : OrchestrationState * option NodeState :=
  if (max_derived_nodes config <=? derived_count s)%Z then (s, None)
  else
    let s := set_derived_count (derived_count s + 1) s in
    let node_id := parent_id +:+ "-" +:+ _SUFFIX kind +:+ pretty (derived_count s) in
    let node := new_node node_id estr agent_name deps input_text true assist_requested_by in
    (set_nodes (dset node_id node (nodes s)) s, Some node).

Definition spawn_derived_node (kind : DerivedKind) (parent_id agent_name input_text : string)
    (deps : list string) (assist_requested_by : option string) (emit : bool) : M (option NodeState) :=
  r ← run_state (derive kind parent_id agent_name input_text deps assist_requested_by);
  match r with
  | None => mret None
  | Some node =>
      ((match _JOIN_REASON kind with Some reason => join_members [agent_name] reason | None => mret tt end) ;;;
       when emit (emit_state_delta [(n_id node, JObj [("status", JStr "pending"); ("agent_name", JStr agent_name);
         ("input_text", JStr input_text)])] [] [] TaskState.WORKING) ;;;
       persist ;;;
       mret (Some node))%choir
  end.

(** [deps = None]: the follow-up waits for its anchor. *)
Definition spawn_followup_node (text : string) (anchor : NodeState) (deps : option (list string)) : M unit :=
  _ ← spawn_derived_node FOLLOWUP (n_id anchor) (n_agent_name anchor) text
        (match deps with Some l => l | None => [n_id anchor] end) None true;
  mret tt.
End remote.

(** ** What these operations keep *)

Section client_keep.
Context `{!Env, !Remote} (R : relation World) `{!Logging R}.

#[export] Instance keeps_client_for url : Keeps R (_client_for url).
Proof. unfold _client_for. keeps. Qed.
#[export] Instance keeps_send_text u t i c m : Keeps R (send_text u t i c m).
Proof. unfold send_text. keeps. Qed.
#[export] Instance keeps_subscribe_task u t : Keeps R (subscribe_task u t).
Proof. unfold subscribe_task. keeps. Qed.
#[export] Instance keeps_get_task u t : Keeps R (get_task u t).
Proof. unfold get_task. keeps. Qed.
#[export] Instance keeps_cancel_task u t : Keeps R (cancel_task u t).
Proof. unfold cancel_task. keeps. Qed.
#[export] Instance keeps_agent_url_for n : Keeps R (agent_url_for n).
Proof. unfold agent_url_for. keeps. Qed.

Lemma keeps_execute_function func args c : Keeps R (ft_run func args) -> Keeps R (execute_function func args c).
Proof. intros Hf. unfold execute_function. keeps. Qed.

End client_keep.

Section helpers_keep.
Context `{!Env, !Remote} (R : relation World) `{!Joining R}.

#[export] Instance keeps_join_one r n : Keeps R (join_one r n).
Proof. unfold join_one. keeps. Qed.
#[export] Instance keeps_join_members_run args : Keeps R (join_members_run args).
Proof. unfold join_members_run. keeps. Qed.
#[export] Instance keeps_join_members_func args : Keeps R (ft_run join_members_func args).
Proof. apply keeps_join_members_run. Qed.
#[export] Instance keeps_execute_join args c : Keeps R (execute_function join_members_func args c).
Proof. apply keeps_execute_function; apply _. Qed.
#[export] Instance keeps_join_members names reason : Keeps R (join_members names reason).
Proof. unfold join_members. keeps. Qed.

End helpers_keep.

Section derived_keep.
Context `{!Env, !Remote} (R : relation World) `{!Evolution R}.

#[export] Instance keeps_derive k p a t d r : Keeps R (run_state (derive k p a t d r)).
Proof.
  intros w. unfold run_state, derive. destruct (_ <=? _)%Z; cbn; [by apply ev_frame|].
  apply (ev_spawn (R:=R) w (new_node _ _ _ _ _ _ _) p (_SUFFIX k)); done.
Qed.
#[export] Instance keeps_spawn_derived k p a t d r e : Keeps R (spawn_derived_node k p a t d r e).
Proof. unfold spawn_derived_node. keeps. Qed.
#[export] Instance keeps_spawn_followup t a d : Keeps R (spawn_followup_node t a d).
Proof. unfold spawn_followup_node. keeps. Qed.
End derived_keep.
