(* ===== verification/Hitl.v ===== *)
(** * Questions and answers (orchestration/hitl/intervention.py)

    Interventions: the questions put to the human, their validation, their
    resolution, and the cancellation of a node that a confirmation asks for. *)
From S2P Require Import Prelude PyStr Dict Json State StateFacts Transitions StateJson World Tool Events Evolution.
From S2P Require Import Helpers.
Local Open Scope string_scope.
Local Open Scope list_scope.

Definition QUESTION_RESPONSE_PART : string := "question_response".

(** ** Parsing answers *)

Section parse.
(** [QuestionResponse.model_validate] (pydantic), and [repr]. *)
Context (validate_response : json -> option (string * answer)) (py_repr : json -> string).

(** Is this part a question response? *)
Definition response_part (p : Part) : option json :=
  match p_content p with
  | CData j =>
      if bool_decide (meta_str "cw_type" (p_metadata p) = Some QUESTION_RESPONSE_PART) then Some j else None
  | _ => None
  end.

(** Extract the [question_response] data parts; [ValueError] when one is malformed. *)
Fixpoint parse_parts (parts : list Part) : res (list (string * answer)) :=
  match parts with
  | [] => Ok []
  | p :: parts' =>
      match response_part p with
      | None => parse_parts parts'
      | Some payload =>
          match validate_response payload with
          | None => Err (ValueError ("malformed question_response: " +:+ py_repr payload))
          | Some r => rs ← parse_parts parts'; Ok (r :: rs)
          end
      end
  end.
Definition parse_question_response (message : Message) : res (list (string * answer)) :=
  parse_parts (msg_parts message).
End parse.

(** ** Validation *)

Definition _validate_answer (iv : Intervention) (a : answer) : option string :=
  match iv_question_type iv with
  | SELECT =>
      if iv_multi iv then
        match a with
        | AList ((_ :: _) as l) =>
            if bool_decide (Forall (fun x => x ∈ iv_options iv) l) then None
            else Some "answer contains options outside the allowed set"
        | _ => Some "multi-select answer must be a non-empty list"
        end
      else
        match a with
        | AStr s => if bool_decide (s ∈ iv_options iv) then None else Some "answer must be one of the allowed options"
        | _ => Some "answer must be one of the allowed options"
        end
  | CONFIRM => match a with ABool _ => None | _ => Some "confirm answer must be a boolean" end
  | INPUT =>
      match a with
      | AStr s => if str_truthy (ustrip s) then None else Some "input answer must be a non-empty string"
      | _ => Some "input answer must be a non-empty string"
      end
  end.

Section hitl.
Context `{!Env, !Remote}.

(** The parts of the aggregated question message. *)
Definition question_parts (iv : Intervention) : list Part :=
  [mkPart (CText (iv_question iv)) [];
   data_part [("intervention_id", JStr (iv_id iv)); ("node_id", JStr (iv_node_id iv));
      ("requester", JStr (iv_requester iv)); ("kind", JStr (InterventionKind_value (iv_kind iv)));
      ("question_type", JStr (QuestionType_value (iv_question_type iv)));
      ("options", json_strs (iv_options iv)); ("multi", JBool (iv_multi iv)); ("question", JStr (iv_question iv))]
     [("cw_type", JStr (CwType_value CW_QUESTION))]].

Definition build_questions_message (pending : list Intervention) : M Message :=
  id ← new_uuid;
  w ← get_world;
  mret (mkMessage id ROLE_AGENT (w_task_id w) (w_context_id w) (pending ≫= question_parts) []).

(** Record one new question for the LLM and mark it announced. *)
Definition announce (iv : Intervention) : M unit :=
  (record_message (iv_question iv) Assistant ;;;
   mod_state (upd_intervention (iv_id iv) (set_iv_announced true)))%choir.

Definition emit_pending_questions : M unit :=
  s ← get_state;
  let pending := pending_interventions s in
  match pending with
  | [] => mret tt
  | _ =>
      let newly := filterb (fun iv => negb (iv_announced iv)) pending in
      (mapM_ announce newly ;;;
       when (match newly with [] => false | _ => true end) persist ;;;
       msg ← build_questions_message pending;
       emit_event TaskState.INPUT_REQUIRED [] (Some msg))%choir
  end.

(** Close a question whose target is gone. *)
Definition _expire (iv : Intervention) : M bool :=
  (mod_state (upd_intervention (iv_id iv) (set_iv_status InterventionStatus.EXPIRED)) ;;;
   persist ;;;
   emit_interventions_expired [iv] ;;;
   mret false)%choir.

(** Signal the remote task of a node, if its agent is still registered. *)
Definition signal_cancel (n : NodeState) : M unit :=
  match n_a2a_task_id n with
  | Some tid =>
      if str_truthy tid then
        url ← catch (u ← agent_url_for (n_agent_name n); mret (Some u))
                (fun e => match e with UnknownAgentError _ => Some (mret None) | _ => None end);
        match url with Some u => cancel_task u tid | None => mret tt end
      else mret tt
  | None => mret tt
  end.

(** [{node.id: canceled, **{b.id: invalidated}}]. *)
Definition cancel_delta (n : NodeState) (invalidated : list NodeState) : list (string * json) :=
  foldl (fun d b => dset (n_id b) (JObj [("status", JStr "invalidated")]) d)
    [(n_id n, JObj [("status", JStr "canceled"); ("agent_name", JStr (n_agent_name n))])] invalidated.

(** Invalidate the nodes [blocked_nodes] reports; the list it was. *)
Definition invalidate_blocked : M (list NodeState) :=
  s ← get_state;
  let invalidated := blocked_nodes s in
  (mapM_ (fun b => transition_at (n_id b) NodeStatus.INVALIDATED) invalidated ;;;
   mret invalidated)%choir.

Definition cancel_node (k : string) : M unit :=
  n ← node_at k;
  (signal_cancel n ;;;
   transition_at k NodeStatus.CANCELED ;;;
   update_node k (set_a2a_task_id None) ;;;
   invalidated ← invalidate_blocked;
   expired ← run_state (fun s => expire_node_interventions s (n_id n));
   expired ← foldM (fun acc b => l ← run_state (fun s => expire_node_interventions s (n_id b)); mret (acc ++ l))
               expired invalidated;
   emit_state_delta (cancel_delta n invalidated) [] [] TaskState.WORKING ;;;
   emit_interventions_expired expired ;;;
   persist)%choir.

(** The delta that publishes a resolution. *)
Definition resolved_delta (iv : Intervention) (a : answer) : string * json :=
  (iv_id iv, JObj [("status", JStr "resolved"); ("node_id", JStr (iv_node_id iv));
     ("kind", JStr (InterventionKind_value (iv_kind iv))); ("responder", JStr "human");
     ("answer", answer_to_json (Some a))]).

(** A confirmed (or declined) cancellation. *)
Definition answer_cancel (iv : Intervention) (a : answer) : M bool :=
  s ← get_state;
  match get_node s (iv_node_id iv) with
  | Some target =>
      if status_in (n_status target) ACTIVE_NODE_STATUSES then
        (mod_state (upd_intervention (iv_id iv) (set_iv_resolved a)) ;;;
         record_message (render_answer (set_iv_resolved a iv)) User ;;;
         when (match a with ABool true => true | _ => false end) (cancel_node (iv_node_id iv)) ;;;
         persist ;;;
         emit_state_delta [] [] [resolved_delta iv a] TaskState.WORKING ;;;
         mret true)%choir
      else _expire iv
  | None => _expire iv
  end.

(** An answered question: the node may continue. *)
Definition answer_question (iv : Intervention) (a : answer) : M bool :=
  s ← get_state;
  match get_node s (iv_node_id iv) with
  | Some node =>
      if bool_decide (n_status node = NodeStatus.INPUT_REQUIRED) then
        let text := render_answer (set_iv_resolved a iv) in
        (mod_state (upd_intervention (iv_id iv) (set_iv_resolved a)) ;;;
         update_node (iv_node_id iv) (fun n => set_answer (Some text) (n_answer_from n) n) ;;;
         record_message text User ;;;
         transition_at (iv_node_id iv) NodeStatus.READY ;;;
         persist ;;;
         emit_state_delta [(n_id node, JObj [("status", JStr "ready")])] [] [resolved_delta iv a] TaskState.WORKING ;;;
         mret true)%choir
      else _expire iv
  | None => _expire iv
  end.

(** Resolve one pending intervention by id with a typed answer. *)
Definition answer_intervention (intervention_id : string) (a : answer) : M bool :=
  s ← get_state;
  match dget intervention_id (interventions s) with
  | Some iv =>
      if iv_pending iv then
        match _validate_answer iv a with
        | Some error => (emit_intervention_rejected intervention_id error ;;; mret false)%choir
        | None => match iv_kind iv with CONFIRM_CANCEL => answer_cancel iv a | QUESTION => answer_question iv a end
        end
      else (emit_intervention_rejected intervention_id "unknown or resolved intervention" ;;; mret false)%choir
  | None => (emit_intervention_rejected intervention_id "unknown or resolved intervention" ;;; mret false)%choir
  end.
End hitl.

(** ** What these operations keep *)

(** Discharges [iv_detail] for updates that never make a question pending. *)
Ltac iv_close := by intros ?; repeat split; intros; bool_prop.

Lemma iv_detail_announced b : iv_detail (set_iv_announced b).
Proof. by intros iv. Qed.
Lemma iv_detail_expired : iv_detail (set_iv_status InterventionStatus.EXPIRED).
Proof. by intros iv. Qed.
Lemma iv_detail_resolved a : iv_detail (set_iv_resolved a).
Proof. by intros iv. Qed.

Section signal_keep.
Context `{!Env, !Remote} (R : relation World) `{!Logging R}.

#[export] Instance keeps_signal_cancel n : Keeps R (signal_cancel n).
Proof. unfold signal_cancel. keeps. Qed.
End signal_keep.

Section hitl_keep.
Context `{!Env, !Remote} (R : relation World) `{!Evolution R}.

#[export] Instance keeps_announced k b : Keeps R (mod_state (upd_intervention k (set_iv_announced b))).
Proof. apply keeps_upd_intervention; [done | apply iv_detail_announced]. Qed.
#[export] Instance keeps_iv_expired k : Keeps R (mod_state (upd_intervention k (set_iv_status InterventionStatus.EXPIRED))).
Proof. apply keeps_upd_intervention; [done | apply iv_detail_expired]. Qed.
#[export] Instance keeps_iv_resolved k a : Keeps R (mod_state (upd_intervention k (set_iv_resolved a))).
Proof. apply keeps_upd_intervention; [done | apply iv_detail_resolved]. Qed.

#[export] Instance keeps_announce iv : Keeps R (announce iv).
Proof. unfold announce. keeps. Qed.
#[export] Instance keeps_questions_message l : Keeps R (build_questions_message l).
Proof. unfold build_questions_message. keeps. Qed.
#[export] Instance keeps_emit_pending : Keeps R emit_pending_questions.
Proof. unfold emit_pending_questions. keeps. Qed.
#[export] Instance keeps_expire iv : Keeps R (_expire iv).
Proof. unfold _expire. keeps. Qed.
#[export] Instance keeps_invalidate_blocked : Keeps R invalidate_blocked.
Proof. unfold invalidate_blocked. keeps. Qed.
#[export] Instance keeps_cancel_node k : Keeps R (cancel_node k).
Proof. unfold cancel_node. keeps. Qed.
#[export] Instance keeps_answer_cancel iv a : Keeps R (answer_cancel iv a).
Proof. unfold answer_cancel. keeps. Qed.
#[export] Instance keeps_answer_question iv a : Keeps R (answer_question iv a).
Proof. unfold answer_question. keeps. Qed.
#[export] Instance keeps_answer_intervention i a : Keeps R (answer_intervention i a).
Proof. unfold answer_intervention. keeps. Qed.
End hitl_keep.

(** ** Answer types *)

(** The answers a question accepts. *)
Definition answer_ok (iv : Intervention) (a : answer) : Prop :=
  match iv_question_type iv, a with
  | SELECT, AList l => iv_multi iv = true /\ l <> [] /\ forall x, x ∈ l -> x ∈ iv_options iv
  | SELECT, AStr s => iv_multi iv = false /\ s ∈ iv_options iv
  | CONFIRM, ABool _ => True
  | INPUT, AStr s => ustrip s <> estr
  | _, _ => False
  end.

Lemma validate_answer_ok iv a : _validate_answer iv a = None <-> answer_ok iv a.
Proof.
  unfold _validate_answer, answer_ok. destruct (iv_question_type iv).
  - destruct a as [s|l|b]; [|done|done]. rewrite <- str_truthy_true. by destruct (str_truthy _).
  - destruct (iv_multi iv), a as [s|[|x l]|b]; try naive_solver.
    + case_bool_decide as H; [rewrite Forall_forall in H|].
      * split; [|done]. intros _. split; [done|]. split; [done|]. intros y Hy. by apply H.
      * split; [done|]. intros (_ & _ & H'). destruct H. by apply Forall_forall.
    + case_bool_decide; naive_solver.
  - by destruct a.
Qed.

Section facts.
Context `{!Env, !Remote}.

(** The three ways an answer is refused leave every node alone. *)
Lemma expire_run w iv :
  wp (_expire iv) w (fun w' r => r = Ok false /\ nodes (w_state w') = nodes (w_state w) /\ synced w' /\
    w_state w' = upd_intervention (iv_id iv) (set_iv_status InterventionStatus.EXPIRED) (w_state w)).
Proof.
  unfold _expire. apply wp_mod_state, wp_persist. intros w1 Hq Hs. wp_quiet_as w2 u Hq2 E2.
  apply wp_ret. split; [done|]. pose proof (quiet_synced _ _ Hq2 Hs) as Hs2.
  rewrite (q_state _ _ Hq2), (q_state _ _ Hq). done.
Qed.

Lemma reject_run {B} w i reason (b : B) :
  wp (emit_intervention_rejected i reason ≫= fun _ => mret b) w (fun w' r => r = Ok b /\ w_state w' = w_state w).
Proof. wp_quiet_as w1 u Hq E. apply wp_ret. split; [done|]. apply Hq. Qed.

(** The question [iv] can take the answer [a]: it is pending, the answer fits,
    and its node waits for it. *)
Definition answerable (s : OrchestrationState) (iid : string) (a : answer) (iv : Intervention) (n : NodeState) : Prop :=
  dget iid (interventions s) = Some iv /\ iv_pending iv = true /\ answer_ok iv a /\
  get_node s (iv_node_id iv) = Some n /\ n_status n = NodeStatus.INPUT_REQUIRED.

Definition answered (a : answer) (iv : Intervention) (s : OrchestrationState) : OrchestrationState :=
  upd_node (iv_node_id iv) (fun n => set_status NodeStatus.READY
    (set_answer (Some (render_answer (set_iv_resolved a iv))) (n_answer_from n) n))
    (upd_intervention (iv_id iv) (set_iv_resolved a) s).

Lemma upd_node_upd_node k f g s : upd_node k f (upd_node k g s) = upd_node k (fun n => f (g n)) s.
Proof.
  unfold upd_node, set_nodes. cbn. f_equal. unfold dupd. destruct (dget k (nodes s)) as [n|] eqn:E.
  - rewrite dget_dset_eq. clear E. induction (nodes s) as [|[k' n'] d IH]; cbn.
    + by rewrite decide_True.
    + destruct (decide (k = k')) as [->|]; cbn.
      * by rewrite decide_True.
      * rewrite decide_False by done. by rewrite IH.
  - by rewrite E.
Qed.

Lemma answer_question_run w iv a n :
  get_node (w_state w) (iv_node_id iv) = Some n -> n_status n = NodeStatus.INPUT_REQUIRED ->
  wp (answer_question iv a) w (fun w' r => r = Ok true /\ synced w' /\ w_state w' = answered a iv (w_state w)).
Proof.
  intros Hn Hst. unfold answer_question. apply wp_get_state. rewrite Hn. rewrite bool_decide_true by done.
  apply wp_mod_state, wp_update_node. wp_quiet_as w1 u Hq E.
  eapply (wp_transition_at _ (set_answer (Some (render_answer (set_iv_resolved a iv))) (n_answer_from n) n)).
  - rewrite (q_state _ _ Hq). cbn [w_state set_state]. rewrite get_upd_node, decide_True by done.
    change (get_node (upd_intervention (iv_id iv) (set_iv_resolved a) (w_state w)) (iv_node_id iv))
      with (get_node (w_state w) (iv_node_id iv)). by rewrite Hn.
  - unfold can_transition. cbn. by rewrite Hst.
  - apply wp_persist. intros w2 Hq2 Hs2. wp_quiet_as w3 u3 Hq3 E3. apply wp_ret.
    split; [done|]. split; [by eapply quiet_synced|].
    rewrite (q_state _ _ Hq3), (q_state _ _ Hq2). cbn [w_state set_state]. rewrite (q_state _ _ Hq).
    cbn [w_state set_state]. by rewrite upd_node_upd_node.
Qed.

(** C31: Answering a question. An answer is applied exactly when its question is
    pending, the answer has the type the question asks for, and the node still
    waits: then the node is ready with the rendered answer, the question is
    resolved, and both are persisted. In every other case the answer is refused
    and no node changes: an answer never resurrects a node. *)
Theorem answer_intervention_spec w iid a :
  (forall iv, dget iid (interventions (w_state w)) = Some iv -> iv_kind iv = QUESTION) ->
  exists w' b, answer_intervention iid a w = (w', Ok b) /\
    (b = true <-> exists iv n, answerable (w_state w) iid a iv n) /\
    (b = false -> nodes (w_state w') = nodes (w_state w)) /\
    (b = true -> synced w' /\ exists iv n, answerable (w_state w) iid a iv n /\
       w_state w' = answered a iv (w_state w)).
Proof.
  intros Hk. enough (wp (answer_intervention iid a) w (fun w' r => exists b, r = Ok b /\
    (b = true <-> exists iv n, answerable (w_state w) iid a iv n) /\
    (b = false -> nodes (w_state w') = nodes (w_state w)) /\
    (b = true -> synced w' /\ exists iv n, answerable (w_state w) iid a iv n /\
       w_state w' = answered a iv (w_state w)))) as Hwp.
  { unfold wp in Hwp. destruct (answer_intervention iid a w) as [w' r]. destruct Hwp as (b & Hr & Hw).
    cbn in Hr. subst r. by exists w', b. }
  unfold answer_intervention, answerable. apply wp_get_state.
  destruct (dget iid (interventions (w_state w))) as [iv|] eqn:Ei.
  2: { eapply wp_conseq; [apply reject_run|]. intros w' r [-> Hs]. exists false. rewrite Hs. naive_solver. }
  destruct (iv_pending iv) eqn:Ep.
  2: { eapply wp_conseq; [apply reject_run|]. intros w' r [-> Hs]. exists false. rewrite Hs. naive_solver. }
  destruct (_validate_answer iv a) as [err|] eqn:Ev.
  { eapply wp_conseq; [apply reject_run|]. intros w' r [-> Hs]. exists false. rewrite Hs.
    assert (~ answer_ok iv a) by (rewrite <- validate_answer_ok; congruence). naive_solver. }
  apply validate_answer_ok in Ev. rewrite (Hk iv eq_refl).
  destruct (get_node (w_state w) (iv_node_id iv)) as [n|] eqn:En.
  2: { unfold answer_question. apply wp_get_state. rewrite En. eapply wp_conseq; [apply expire_run|].
       intros w' r (-> & Hn & _). exists false. naive_solver. }
  destruct (decide (n_status n = NodeStatus.INPUT_REQUIRED)) as [Hst|Hst].
  - eapply wp_conseq; [by apply (answer_question_run w iv a n)|].
    intros w' r (-> & Hs & Heq). exists true. split; [done|]. split; [naive_solver|]. split; [done|].
    intros _. split; [done|]. exists iv, n. done.
  - unfold answer_question. apply wp_get_state. rewrite En, bool_decide_false by done.
    eapply wp_conseq; [apply expire_run|]. intros w' r (-> & Hn & _). exists false. naive_solver.
Qed.
End facts.

(** ** Cancellation *)

Definition world_of (s : OrchestrationState) : World :=
  mkWorld s "task" "ctx" [] [] None true true false [] no_inbound None 0.

Definition node_with (st : node_status) (id agent : string) (deps : list string) : string * NodeState :=
  (id, set_status st (new_node id id agent deps "work" false None)).

(** [n1] is done, [n2] runs, [n3] waits for [n1] only. *)
Definition three_nodes : OrchestrationState :=
  set_nodes [node_with NodeStatus.COMPLETED "n1" "a" []; node_with NodeStatus.WORKING "n2" "b" [];
             node_with NodeStatus.PENDING "n3" "c" ["n1"]] empty_state.

(** [n2] runs, [n3] waits for it and [n4] for [n3]. *)
Definition chain_nodes : OrchestrationState :=
  set_nodes [node_with NodeStatus.WORKING "n2" "b" []; node_with NodeStatus.PENDING "n3" "c" ["n2"];
             node_with NodeStatus.PENDING "n4" "d" ["n3"]] empty_state.

(** The reach of a cancellation is wrong in both directions. [cancel_node]
    invalidates the nodes that [blocked_nodes] reports, and these are the pending
    nodes with some settled dependency. So cancelling [n2] discards [n3], which
    does not depend on it and was ready to run; and of a chain below the cancelled
    node only the first is discarded: the next stays pending, can never become
    ready, and leaves the plan unfinished. *)
Theorem cancel_node_reach `{!Env, !Remote} :
  (is_ready three_nodes (snd (node_with NodeStatus.PENDING "n3" "c" ["n1"])) = true /\
   n_status <$> get_node (w_state (fst (cancel_node "n2" (world_of three_nodes)))) "n3" = Some NodeStatus.INVALIDATED) /\
  (let s := w_state (fst (cancel_node "n2" (world_of chain_nodes))) in
   n_status <$> get_node s "n3" = Some NodeStatus.INVALIDATED /\
   n_status <$> get_node s "n4" = Some NodeStatus.PENDING /\
   has_pending_work s = true /\ ready_nodes s = [] /\ active_nodes s = [] /\ blocked_nodes s <> []).
Proof. repeat split; vm_compute; done. Qed.
