(* ===== verification/Dag.v ===== *)
(** * Dependency graphs

    A plan as a graph: [g k] are the dependencies of node [k]. Acyclicity is the
    existence of a rank that decreases along dependencies. *)
From S2P Require Import Prelude.
Local Open Scope list_scope.

Section graph.
Context {K : Type} `{!EqDecision K}.
Implicit Types (g : K -> option (list K)).

(** Every dependency is a node. *)
Definition closed g : Prop := forall k ds d, g k = Some ds -> d ∈ ds -> is_Some (g d).

Definition acyclic g : Prop :=
  exists rank : K -> nat, forall k ds d, g k = Some ds -> d ∈ ds -> is_Some (g d) -> rank d < rank k.

Lemma closed_ext g g' : (forall k, g k = g' k) -> closed g -> closed g'.
Proof. intros E H k ds d. rewrite <- !E. eauto. Qed.

Lemma acyclic_ext g g' : (forall k, g k = g' k) -> acyclic g -> acyclic g'.
Proof. intros E (rank & H). exists rank. intros k ds d. rewrite <- !E. eauto. Qed.

(** The graph with one more node. *)
Definition add_vertex k0 ds0 g : K -> option (list K) := fun k => if decide (k = k0) then Some ds0 else g k.

Lemma closed_add g k0 ds0 :
  closed g -> (forall d, d ∈ ds0 -> is_Some (g d)) -> closed (add_vertex k0 ds0 g).
Proof.
  intros H Hd k ds d. unfold add_vertex. destruct (decide (k = k0)) as [->|].
  - intros [= <-] Hin. destruct (decide (d = k0)); [done | by apply Hd].
  - intros Hk Hin. destruct (decide (d = k0)); [done | by eapply H].
Qed.

Definition max_rank (rank : K -> nat) (l : list K) : nat := foldr (fun d m => max (rank d) m) 0 l.

Lemma max_rank_elem rank l d : d ∈ l -> rank d <= max_rank rank l.
Proof.
  induction l as [|x l IH]; [by intros ?%elem_of_nil|]. cbn.
  intros [->|H]%elem_of_cons; [lia|]. specialize (IH H). unfold max_rank in IH. lia.
Qed.

(** A new node may depend on the present ones; none depends on it yet. *)
Lemma acyclic_add g k0 ds0 :
  closed g -> acyclic g -> g k0 = None -> (forall d, d ∈ ds0 -> is_Some (g d)) -> acyclic (add_vertex k0 ds0 g).
Proof.
  intros Hcl (rank & Hr) H0 Hds.
  exists (fun k => if decide (k = k0) then S (max_rank rank ds0) else rank k).
  intros k ds d. unfold add_vertex. cbn beta. destruct (decide (k = k0)) as [->|Hk].
  - intros [= <-] Hin _. destruct (Hds d Hin) as [x Hx].
    destruct (decide (d = k0)) as [->|]; [congruence|]. pose proof (max_rank_elem rank _ _ Hin). lia.
  - intros Hg Hin Hd. destruct (decide (d = k0)) as [->|].
    + destruct (Hcl _ _ _ Hg Hin) as [x Hx]. congruence.
    + by eapply Hr.
Qed.

(** A minimal element for a rank. *)
Lemma min_rank (rank : K -> nat) (l : list K) :
  l <> [] -> exists k, k ∈ l /\ forall k', k' ∈ l -> rank k <= rank k'.
Proof.
  induction l as [|x l IH]; [done|]. intros _. destruct l as [|y l'].
  - exists x. split; [by left|]. by intros k' ->%list_elem_of_singleton.
  - destruct IH as (k & Hk & Hmin); [done|]. destruct (decide (rank x <= rank k)).
    + exists x. split; [by left|]. intros k' [->|H]%elem_of_cons; [lia|]. specialize (Hmin _ H). lia.
    + exists k. split; [by right|]. intros k' [->|H]%elem_of_cons; [lia | auto].
Qed.

(** Progress: in a closed acyclic graph, among the nodes not done some node has
    all its dependencies done. *)
Lemma dag_progress g (l : list K) (finished : K -> bool) :
  closed g -> acyclic g -> (forall k, is_Some (g k) -> k ∈ l) ->
  (exists k, is_Some (g k) /\ finished k = false) ->
  exists k ds, g k = Some ds /\ finished k = false /\ forall d, d ∈ ds -> finished d = true.
Proof.
  intros Hcl (rank & Hr) Hl (k0 & [ds0 H0] & Hf0).
  set (todo := filter (fun k => is_Some (g k) /\ finished k = false) l).
  destruct (min_rank rank todo) as (k & Hk & Hmin).
  - intros E. assert (k0 ∈ todo) as H; [|by rewrite E in H; apply elem_of_nil in H].
    apply list_elem_of_filter. split; [by eauto|]. apply Hl. by eauto.
  - apply list_elem_of_filter in Hk as [[[ds Hds] Hf] _]. exists k, ds. split; [done|]. split; [done|].
    intros d Hd. destruct (finished d) eqn:Efd; [done|]. exfalso.
    pose proof (Hcl _ _ _ Hds Hd) as Hgd. specialize (Hr _ _ _ Hds Hd Hgd).
    assert (d ∈ todo) as Hdt; [|specialize (Hmin _ Hdt); lia].
    apply list_elem_of_filter. split; [done|]. by apply Hl.
Qed.
End graph.

(** ** Reachability by a work list

    The search that the flow engine and the workflow validator run: pop a node
    from the end of the frontier, push its successors that were not reached. *)
Section search.
Context {K : Type} `{!EqDecision K} (succs : K -> list K).

Definition push_new (acc : list K * list K) (t : K) : list K * list K :=
  let '(reached, frontier) := acc in
  if bool_decide (t ∈ reached) then (reached, frontier) else (reached ++ [t], frontier ++ [t]).

Fixpoint search (fuel : nat) (reached frontier : list K) : list K :=
  match fuel with
  | O => reached
  | S fuel' =>
      match last frontier with
      | None => reached
      | Some source =>
          let '(reached, frontier) := foldl push_new (reached, removelast frontier) (succs source) in
          search fuel' reached frontier
      end
  end.

(** [b] can be reached from [a]. *)
Inductive reaches (a : K) : K -> Prop :=
| reaches_self : reaches a a
| reaches_step b c : reaches a b -> c ∈ succs b -> reaches a c.

Record search_inv (start : K) (reached frontier : list K) : Prop := {
  si_nodup : NoDup reached;
  si_start : start ∈ reached;
  si_sub : forall k, k ∈ frontier -> k ∈ reached;
  si_sound : forall k, k ∈ reached -> reaches start k;
  si_closed : forall k t, k ∈ reached -> k ∉ frontier -> t ∈ succs k -> t ∈ reached;
  si_front : NoDup frontier
}.

Lemma push_all l : forall reached frontier,
  NoDup reached -> NoDup frontier -> (forall k, k ∈ frontier -> k ∈ reached) ->
  exists new, foldl push_new (reached, frontier) l = (reached ++ new, frontier ++ new) /\
    NoDup (reached ++ new) /\ NoDup (frontier ++ new) /\
    (forall t, t ∈ new -> t ∈ l) /\ (forall t, t ∈ l -> t ∈ reached ++ new).
Proof.
  induction l as [|t l IH]; intros reached frontier Hr Hf Hs; cbn [foldl push_new].
  - exists []. rewrite !app_nil_r. split; [done|]. split; [done|]. split; [done|].
    split; intros t Ht; by apply elem_of_nil in Ht.
  - case_bool_decide as Ht.
    + destruct (IH reached frontier Hr Hf Hs) as (new & -> & H1 & H2 & H3 & H4). exists new.
      split; [done|]. split; [done|]. split; [done|]. split; [intros x Hx; right; auto|].
      intros x [->|Hx]%elem_of_cons; [apply elem_of_app; by left | auto].
    + destruct (IH (reached ++ [t]) (frontier ++ [t])) as (new & E & H1 & H2 & H3 & H4).
      * apply NoDup_app. split; [done|]. split; [|apply NoDup_singleton]. by intros x Hx ->%list_elem_of_singleton.
      * apply NoDup_app. split; [done|]. split; [|apply NoDup_singleton]. intros x Hx ->%list_elem_of_singleton. auto.
      * intros k [Hk|Hk]%elem_of_app; apply elem_of_app; [left; auto | by right].
      * exists (t :: new). rewrite E, <- !app_assoc in *. cbn in *. split; [done|]. split; [done|]. split; [done|].
        split; [intros x [->|Hx]%elem_of_cons; [by left | right; auto]|].
        intros x [->|Hx]%elem_of_cons; [set_solver | auto].
Qed.

Lemma search_spec (all : list K) start :
  (forall k t, k ∈ all -> t ∈ succs k -> t ∈ all) ->
  forall fuel reached frontier, search_inv start reached frontier -> (forall k, k ∈ reached -> k ∈ all) ->
  length all + length frontier <= fuel + length reached ->
  forall k, k ∈ search fuel reached frontier <-> reaches start k.
Proof.
  intros Hall. induction fuel as [|fuel IH]; intros reached frontier I Ha Hlen k; cbn [search].
  - assert (reached ⊆+ all) as Hsub by (apply NoDup_submseteq; [apply (si_nodup _ _ _ I) | exact Ha]).
    apply submseteq_length in Hsub. assert (frontier = []) as ->. { destruct frontier; [done|]. cbn in Hlen. lia. }
    split; [apply (si_sound _ _ _ I)|]. induction 1 as [|b c _ IHr Hc]; [apply (si_start _ _ _ I)|].
    eapply (si_closed _ _ _ I); [exact IHr | apply not_elem_of_nil | done].
  - destruct frontier as [|c q] using rev_ind.
    + split; [apply (si_sound _ _ _ I)|]. induction 1 as [|b c _ IHr Hc]; [apply (si_start _ _ _ I)|].
      eapply (si_closed _ _ _ I); [exact IHr | apply not_elem_of_nil | done].
    + clear IHq. rewrite last_snoc, removelast_last.
      pose proof (si_front _ _ _ I) as Hq. apply NoDup_app in Hq as (Hq & Hqc & _).
      assert (c ∈ reached) as Hc by (apply (si_sub _ _ _ I); set_solver).
      destruct (push_all (succs c) reached q (si_nodup _ _ _ I) Hq) as (new & E & H1 & H2 & H3 & H4).
      { intros x Hx. apply (si_sub _ _ _ I). set_solver. }
      rewrite E. apply IH.
      * split.
        -- done.
        -- apply elem_of_app. left. apply I.
        -- intros x [Hx|Hx]%elem_of_app; apply elem_of_app; [left; apply (si_sub _ _ _ I); set_solver | by right].
        -- intros x [Hx|Hx]%elem_of_app; [by apply (si_sound _ _ _ I)|].
           eapply reaches_step; [by apply (si_sound _ _ _ I)|auto].
        -- intros x t [Hx|Hx]%elem_of_app Hnf Ht.
           ++ destruct (decide (x = c)) as [->|Hne]; [auto|]. apply elem_of_app. left.
              eapply (si_closed _ _ _ I); [exact Hx | set_solver | done].
           ++ exfalso. apply Hnf. apply elem_of_app. by right.
        -- done.
      * intros x [Hx|Hx]%elem_of_app; [auto|]. eapply Hall; [exact (Ha _ Hc) | auto].
      * rewrite !length_app in *. cbn in Hlen. lia.
Qed.

(** From one node, with as much fuel as there are nodes and one more. *)
Lemma search_from (all : list K) start :
  start ∈ all -> (forall k t, k ∈ all -> t ∈ succs k -> t ∈ all) ->
  forall k, k ∈ search (length all) [start] [start] <-> reaches start k.
Proof.
  intros Hs Hall. apply (search_spec all start Hall).
  - split; [apply NoDup_singleton | by left | done | | | apply NoDup_singleton].
    + intros k ->%list_elem_of_singleton. constructor.
    + intros k t Hk Hk'. set_solver.
  - by intros k ->%list_elem_of_singleton.
  - cbn. lia.
Qed.
End search.
