(* ===== verification/Engine.v ===== *)
(** * Flows (orchestration/flows/engine.py)

    A flow is a graph of handlers whose edges carry the routes they are taken on.
    Handlers are elements of a type with decidable equality (the code compares
    functions by identity); what a handler does is given when the flow is run. *)
From S2P Require Import Prelude PyStr Dict Json World Events Evolution Dag.
Local Open Scope string_scope.
Local Open Scope list_scope.

Definition DEFAULT : string := "__default__".

Inductive FlowOutcome := CONTINUE | EXIT_WAIT | EXIT_DONE | EXIT_FAILED | END_.
#[export] Instance FlowOutcome_eq_dec : EqDecision FlowOutcome.
Proof. solve_decision. Defined.

(** What a handler returns: a route or an outcome. *)
Inductive step_result := Route (r : string) | Exit (o : FlowOutcome).

(** ** Return annotations *)

(** A return annotation: a [Literal] with its values, or anything else with its
    arguments (a union, a generic type; a class or an alias has none). *)
Inductive annotation := ALiteral (values : list json) | AType (args : list annotation).

Fixpoint _collect_literals (a : annotation) : list string :=
  match a with
  | ALiteral values => omap (fun v => match v with JStr r => Some r | _ => None end) values
  | AType args => flat_map _collect_literals args
  end.

(** The hints of a handler: [None] when they cannot be evaluated; the annotation of
    its result, if it has one. *)
Definition _literal_routes (hints : option (option annotation)) : list string :=
  match hints with
  | Some (Some a) => _collect_literals a
  | _ => []
  end.

(** [-> Literal["a", "b"]], and [-> FlowOutcome] or [-> Route]. *)
Definition returns (routes : list string) : option (option annotation) := Some (Some (ALiteral (JStr <$> routes))).
Definition returns_other : option (option annotation) := Some (Some (AType [])).

Lemma literal_returns routes : _literal_routes (returns routes) = routes.
Proof. cbn. induction routes as [|r l IH]; [done|]. cbn. by rewrite IH. Qed.

Section flow.
Context {H : Type} `{!EqDecision H}.

Record Edge := mkEdge { e_source : H; e_target : H; e_routes : list string }.
Record Flow := mkFlow { f_name : string; f_start : H; f_edges : list Edge }.

(** ** Routing *)

(** The three candidates of [_target_for]: specific, unconditional, default. *)
Record targets := mkTargets { tg_specific : option H; tg_unconditional : option H; tg_fallback : option H }.

(** [x = x or edge.target]. *)
Definition keep_first (o : option H) (t : H) : option H := match o with Some x => Some x | None => Some t end.

Definition see_edge (source : H) (route : string) (acc : targets) (e : Edge) : targets :=
  if bool_decide (e_source e <> source) then acc
  else match e_routes e with
  | [] => mkTargets (tg_specific acc) (keep_first (tg_unconditional acc) (e_target e)) (tg_fallback acc)
  | _ =>
      if bool_decide (route ∈ e_routes e) then
        mkTargets (keep_first (tg_specific acc) (e_target e)) (tg_unconditional acc) (tg_fallback acc)
      else if bool_decide (DEFAULT ∈ e_routes e) then
        mkTargets (tg_specific acc) (tg_unconditional acc) (keep_first (tg_fallback acc) (e_target e))
      else acc
  end.

Definition _target_for (f : Flow) (source : H) (route : string) : option H :=
  let t := foldl (see_edge source route) (mkTargets None None None) (f_edges f) in
  match tg_specific t with
  | Some x => Some x
  | None => match tg_unconditional t with Some x => Some x | None => tg_fallback t end
  end.

(** ** Validation *)

Definition _nodes (f : Flow) : list H :=
  fromkeys (f_start f :: (f_edges f ≫= fun e => [e_source e; e_target e])).

Definition successors (f : Flow) (source : H) : list H :=
  e_target <$> filterb (fun e => bool_decide (e_source e = source)) (f_edges f).

(** At most one pop per node: the number of nodes is enough fuel ([search_from]). *)
Definition _reachable (f : Flow) : list H := search (successors f) (length (_nodes f)) [f_start f] [f_start f].

(** [literal h]: the routes the return annotation of [h] lists. *)
Definition validate (literal : H -> list string) (f : Flow) : res unit :=
  let keys := (fun e => (e_source e, e_target e)) <$> f_edges f in
  let defaults h := length (filterb (fun e => bool_decide (e_source e = h) && bool_decide (DEFAULT ∈ e_routes e)) (f_edges f)) in
  if negb (bool_decide (NoDup keys)) then Err (FlowError (f_name f +:+ ": duplicate edge"))
  else if existsb (fun e => (1 <? defaults (e_source e))%nat) (f_edges f) then Err (FlowError (f_name f +:+ ": multiple DEFAULT edges"))
  else if existsb (fun h => negb (bool_decide (h ∈ _reachable f))) (_nodes f) then
    Err (FlowError (f_name f +:+ ": unreachable handlers"))
  else if existsb (fun h => existsb (fun r => match _target_for f h r with None => true | Some _ => false end) (literal h)) (_nodes f)
  then Err (FlowError (f_name f +:+ ": handler emits a route with no edge"))
  else Ok tt.

(** ** Running *)

(** [while True]: run the current handler on the payload object, follow its route.
    [fuel] bounds the handlers visited; for a flow whose edges go down in a rank,
    one more than the rank of the start is enough ([flow_run_fuel]). *)
Fixpoint flow_loop {P} (handler : H -> P -> M (P * step_result)) (f : Flow) (fuel : nat) (current : H) (payload : P)
    : M FlowOutcome :=
  match fuel with
  | O => raise Unmodelled
  | S fuel' =>
      '(payload, result) ← handler current payload;
      match result with
      | Exit o => mret o
      | Route r =>
          match _target_for f current r with
          | None => mret END_
          | Some target => flow_loop handler f fuel' target payload
          end
      end
  end.

Definition flow_run {P} (handler : H -> P -> M (P * step_result)) (f : Flow) (payload : P) : M FlowOutcome :=
  flow_loop handler f (S (length (_nodes f))) (f_start f) payload.

(** ** Facts *)

(** [o'] is [o], or the target of some edge of [l] from [source]. *)
Definition grown source (l : list Edge) (o o' : option H) : Prop :=
  forall x, o' = Some x -> o = Some x \/ exists e, e ∈ l /\ e_source e = source /\ e_target e = x.

Lemma grown_trans source e l o1 o2 o3 :
  grown source [e] o1 o2 -> grown source l o2 o3 -> grown source (e :: l) o1 o3.
Proof.
  intros H1 H2 x Hx. destruct (H2 x Hx) as [Hx2|(e' & He & ?)].
  - destruct (H1 x Hx2) as [?|(e' & ->%list_elem_of_singleton & ?)]; [by left|]. right. exists e. split; [by left | done].
  - right. exists e'. split; [by right | done].
Qed.

Lemma grown_same source l o : grown source l o o.
Proof. intros x Hx. by left. Qed.

Lemma grown_keep source e o : e_source e = source -> grown source [e] o (keep_first o (e_target e)).
Proof. intros Hs x. destruct o as [y|]; intros [= <-]; [by left|]. right. exists e. split; [by left | done]. Qed.

Lemma see_edge_grown source route acc e :
  let t := see_edge source route acc e in
  grown source [e] (tg_specific acc) (tg_specific t) /\
  grown source [e] (tg_unconditional acc) (tg_unconditional t) /\
  grown source [e] (tg_fallback acc) (tg_fallback t).
Proof.
  cbn. unfold see_edge. case_bool_decide as Hs; [auto using grown_same|].
  destruct (e_routes e); [cbn; auto using grown_same, grown_keep|].
  case_bool_decide; [cbn; auto using grown_same, grown_keep|].
  case_bool_decide; cbn; auto using grown_same, grown_keep.
Qed.

Lemma see_edges_from source route l : forall acc,
  let t := foldl (see_edge source route) acc l in
  grown source l (tg_specific acc) (tg_specific t) /\
  grown source l (tg_unconditional acc) (tg_unconditional t) /\
  grown source l (tg_fallback acc) (tg_fallback t).
Proof.
  induction l as [|e l IH]; intros acc; cbn; [auto using grown_same|].
  destruct (see_edge_grown source route acc e) as (?&?&?). destruct (IH (see_edge source route acc e)) as (?&?&?).
  repeat split; eapply grown_trans; eassumption.
Qed.

Lemma target_for_edge f source route t :
  _target_for f source route = Some t -> exists e, e ∈ f_edges f /\ e_source e = source /\ e_target e = t.
Proof.
  unfold _target_for. destruct (see_edges_from source route (f_edges f) (mkTargets None None None)) as (H1 & H2 & H3).
  cbn in *. destruct (tg_specific _) as [x|].
  - intros [= <-]. destruct (H1 x eq_refl); naive_solver.
  - destruct (tg_unconditional _) as [x|].
    + intros [= <-]. destruct (H2 x eq_refl); naive_solver.
    + intros E. destruct (H3 t E); naive_solver.
Qed.

(** With a rank that every edge lowers, more fuel changes nothing. *)
Lemma flow_run_fuel {P} (handler : H -> P -> M (P * step_result)) f (rank : H -> nat) :
  (forall e, e ∈ f_edges f -> rank (e_target e) < rank (e_source e)) ->
  forall n m h p w, rank h < n -> rank h < m -> flow_loop handler f n h p w = flow_loop handler f m h p w.
Proof.
  intros Hr. induction n as [|n IH]; intros m h p w Hn Hm; [lia|]. destruct m as [|m]; [lia|].
  cbn [flow_loop]. unfold mbind, M_bind. destruct (handler h p w) as [w' [[p' [r|o]]|e]]; [|done|done].
  destruct (_target_for f h r) as [t|] eqn:E; [|done].
  apply target_for_edge in E as (e & He & <- & <-). specialize (Hr e He). apply IH; lia.
Qed.

(** One step of the loop, by what the handler returned. *)
Lemma flow_loop_route {P} (handler : H -> P -> M (P * step_result)) f n h p w w' p' r t :
  handler h p w = (w', Ok (p', Route r)) -> _target_for f h r = Some t ->
  flow_loop handler f (S n) h p w = flow_loop handler f n t p' w'.
Proof. intros E Ht. cbn [flow_loop]. unfold mbind, M_bind. by rewrite E, Ht. Qed.

Lemma flow_loop_exit {P} (handler : H -> P -> M (P * step_result)) f n h p w w' p' o :
  handler h p w = (w', Ok (p', Exit o)) -> flow_loop handler f (S n) h p w = (w', Ok o).
Proof. intros E. cbn [flow_loop]. unfold mbind, M_bind. by rewrite E. Qed.

Lemma flow_loop_raise {P} (handler : H -> P -> M (P * step_result)) f n h p w w' e :
  handler h p w = (w', Err e) -> flow_loop handler f (S n) h p w = (w', Err e).
Proof. intros E. cbn [flow_loop]. unfold mbind, M_bind. by rewrite E. Qed.

Lemma keeps_flow_loop R `{!PreOrder R} {P} (handler : H -> P -> M (P * step_result)) f :
  (forall h p, Keeps R (handler h p)) -> forall fuel h p, Keeps R (flow_loop handler f fuel h p).
Proof.
  intros Hh. induction fuel as [|fuel IH]; intros h p; cbn [flow_loop]; [apply _|].
  apply (keeps_bind R); [apply Hh|]. intros [p' [r|o]]; [|apply _]. destruct (_target_for f h r); [apply IH | apply _].
Qed.

Lemma keeps_flow_run R `{!PreOrder R} {P} (handler : H -> P -> M (P * step_result)) f p :
  (forall h p, Keeps R (handler h p)) -> Keeps R (flow_run handler f p).
Proof. intros Hh. by apply keeps_flow_loop. Qed.

Lemma elem_nodes f h :
  h ∈ _nodes f <-> h = f_start f \/ exists e, e ∈ f_edges f /\ (h = e_source e \/ h = e_target e).
Proof.
  unfold _nodes, fromkeys. rewrite elem_of_dedup_from, elem_of_cons, list_elem_of_bind.
  setoid_rewrite elem_of_cons. setoid_rewrite list_elem_of_singleton.
  split; [naive_solver|]. intros Hh. split; [naive_solver | apply not_elem_of_nil].
Qed.

Lemma elem_successors f h t : t ∈ successors f h <-> exists e, e ∈ f_edges f /\ e_source e = h /\ e_target e = t.
Proof.
  unfold successors. rewrite list_elem_of_fmap. setoid_rewrite elem_of_filterb.
  setoid_rewrite bool_decide_eq_true. naive_solver.
Qed.

Lemma reachable_spec f h : h ∈ _reachable f <-> reaches (successors f) (f_start f) h.
Proof.
  apply search_from; [apply elem_nodes; by left|].
  intros k t _ (e & He & _ & <-)%elem_successors. apply elem_nodes. right. eauto.
Qed.

(** The flow checks mean what they say. [validate] accepts a flow exactly when
    no edge is declared twice, no handler has two default edges, every handler is
    reachable from the start, and every route a handler declares leads somewhere;
    otherwise [FlowError] is raised. *)
Theorem flow_validate_spec literal f :
  (validate literal f = Ok tt <->
    NoDup ((fun e => (e_source e, e_target e)) <$> f_edges f) /\
    (forall e, e ∈ f_edges f ->
       length (filterb (fun e' => bool_decide (e_source e' = e_source e) && bool_decide (DEFAULT ∈ e_routes e')) (f_edges f)) <= 1) /\
    (forall h, h ∈ _nodes f -> reaches (successors f) (f_start f) h) /\
    (forall h r, h ∈ _nodes f -> r ∈ literal h -> is_Some (_target_for f h r))) /\
  (validate literal f = Ok tt \/ exists m, validate literal f = Err (FlowError m)).
Proof.
  unfold validate. split; [|repeat case_match; eauto].
  destruct (bool_decide (NoDup _)) eqn:E1; cbn [negb]; [|apply bool_decide_eq_false in E1; split; [done | by intros [? _]]].
  apply bool_decide_eq_true in E1.
  destruct (existsb _ (f_edges f)) eqn:E2.
  { split; [done|]. intros (_ & Hd & _). apply existsb_elem in E2 as (e & He & Hlt%Nat.ltb_lt).
    specialize (Hd e He). lia. }
  rewrite existsb_false in E2.
  destruct (existsb (fun h => negb _) _) eqn:E3.
  { split; [done|]. intros (_ & _ & Hr & _). apply existsb_elem in E3 as (h & Hh & Hn). bool_prop.
    destruct Hn. apply reachable_spec. auto. }
  rewrite existsb_false in E3.
  destruct (existsb _ (_nodes f)) eqn:E4.
  { split; [done|]. intros (_ & _ & _ & Ht). apply existsb_elem in E4 as (h & Hh & Hn).
    apply existsb_elem in Hn as (r & Hr & Hn). destruct (Ht h r Hh Hr) as [x Hx]. by rewrite Hx in Hn. }
  rewrite existsb_false in E4. split; [|done]. intros _. split; [done|]. split; [|split].
  - intros e He. specialize (E2 e He). apply Nat.ltb_ge in E2. exact E2.
  - intros h Hh. apply reachable_spec. specialize (E3 h Hh). by bool_prop.
  - intros h r Hh Hr. specialize (E4 h Hh). rewrite existsb_false in E4. specialize (E4 r Hr).
    destruct (_target_for f h r); [by eexists | done].
Qed.
End flow.
Arguments Edge : clear implicits.
Arguments Flow : clear implicits.
