(* ===== verification/Llm.v ===== *)
(** * The LLM client and its agents (core/llm.py, core/agents/llm_agent.py,
    core/agents/base.py, subagents/*/agent.py)

    What the model answers (litellm) and how a payload is checked against a schema
    (pydantic) are parameters; assembling the tool call from its fragments, the
    retries with feedback, and what each subagent makes of the call are modelled. *)
From S2P Require Import Prelude SystemPrompts PyStr Dict Json State World Tool Events Evolution.
Local Open Scope string_scope.
Local Open Scope list_scope.

(** One fragment of a streamed tool call. *)
Record CallDelta := mkCallDelta {
  cd_index : Z; cd_name : option string; cd_arguments : option string; cd_id : option string }.
Record Delta := mkDelta {
  d_reasoning : option string; d_content : option string; d_calls : list CallDelta }.

Class Llm := {
  (** the chunks of a completion ([None]: without choice or delta) and the exception that ended it *)
  completion : nat -> string -> list ChatMessage -> list string -> list (option Delta) * option exn;
  (** [schema.model_validate_json(payload)] for a tool whose agent names are limited to a list *)
  parse_args : string -> list string -> string -> Args + string;
  (** non-streaming completion *)
  completion_text : nat -> string -> string -> res string;
  (** [litellm.token_counter], [None] when it fails; [get_model_info] *)
  token_counter : string -> option Z;
  context_window : option Z;
  max_input_tokens : option Z
}.

(** ** Assembling the tool call (core/llm.py, stream) *)

(** The dictionaries [fragments], [call_names] and [call_ids]. *)
Record Fragments := mkFragments {
  fg_args : list (Z * list string); fg_names : list (Z * string); fg_ids : list (Z * string) }.

Definition add_call_delta (f : Fragments) (c : CallDelta) : Fragments :=
  mkFragments
    (dset (cd_index c) (default [] (dget (cd_index c) (fg_args f)) ++ [default estr (cd_arguments c)]) (fg_args f))
    (if ostr_truthy (cd_name c) then dset (cd_index c) (default estr (cd_name c)) (fg_names f) else fg_names f)
    (if ostr_truthy (cd_id c) then dset (cd_index c) (default estr (cd_id c)) (fg_ids f) else fg_ids f).

Definition collect (deltas : list Delta) : Fragments :=
  foldl (fun f d => foldl add_call_delta f (d_calls d)) (mkFragments [] [] []) deltas.

(** How a stream ends: done, with or without a tool call (the id is [None] when
    the model gave none), or an exception, with the payload of a [ToolParseError]. *)
Inductive StreamEnd :=
| StreamDone (call : option (string * Args * option string))
| StreamFailed (e : exn) (payload : option string).

Definition finish_stream `{!Llm} (tools candidates : list string) (f : Fragments) : StreamEnd :=
  match fg_args f with
  | [] => StreamDone None
  | _ :: _ :: _ => StreamFailed (ValueError "expected a single tool call") None
  | [(index, args_fragments)] =>
      let tool_name := default estr (dget index (fg_names f)) in
      if negb (str_truthy tool_name) || bool_decide (tool_name ∉ tools) then
        StreamFailed (ValueError ("model called unknown tool: " +:+ tool_name)) None
      else
        let payload := uconcat args_fragments in
        match parse_args tool_name candidates payload with
        | inr msg => StreamFailed (ValueError msg) (Some payload)
        | inl args => StreamDone (Some (tool_name, args, dget index (fg_ids f)))
        end
  end.

Section llm.
Context `{!Env, !Llm}.

(** The deltas a stream yields, and how it ends. *)
Definition stream (system : string) (messages : list ChatMessage) (tools candidates : list string)
    : M (list Delta * StreamEnd) :=
  t ← draw;
  let '(chunks, failure) := completion t system (MsgSystem system :: messages) tools in
  let deltas := omap id chunks in
  mret (deltas, match failure with
                | Some e => StreamFailed e None
                | None => finish_stream tools candidates (collect deltas)
                end).

(** [call_ids.get(index) or uuid4().hex]. *)
Definition call_id_of (o : option string) : M string :=
  if ostr_truthy o then mret (default estr o) else new_uuid.

Definition text (system user : string) : M string := t ← draw; lift (completion_text t system user).

Definition count_tokens (s : string) : Z := match token_counter s with Some n => n | None => (Z.of_nat (ulen s) / 3)%Z end.

(** [x or d] on integers. *)
Definition get_context_window : Z :=
  match context_window with
  | Some n => if (n =? 0)%Z then match max_input_tokens with Some m => if (m =? 0)%Z then 128000%Z else m | None => 128000%Z end else n
  | None => match max_input_tokens with Some m => if (m =? 0)%Z then 128000%Z else m | None => 128000%Z end
  end.

(** The message that asks for a corrected call. *)
Definition feedback (payload : string) (e : exn) : ChatMessage :=
  MsgUser ("Your previous tool call was invalid." +:+ nl +:+ "Tool call args:" +:+ nl +:+ payload +:+ nl +:+ nl +:+
    "Error: " +:+ exn_str e +:+ nl +:+ "Return a corrected tool call.").

(** ** Agents (core/agents/llm_agent.py) *)

Record LlmAgent (T : Type) := mkLlmAgent {
  la_name : string;
  la_system_prompt : string;
  la_final_tool : string;
  la_max_retries : nat;
  (** the agent names [build_tools] limits the tool to *)
  la_candidates : list string;
  la_process : option Args -> res T
}.
Arguments la_name {T} _. Arguments la_system_prompt {T} _. Arguments la_final_tool {T} _.
Arguments la_max_retries {T} _. Arguments la_candidates {T} _. Arguments la_process {T} _ _.

(** Publish one delta: reasoning and content each append to their artifact. *)
Definition publish_delta (author thought_id text_id : string) (acc : list string * list string) (d : Delta)
    : M (list string * list string) :=
  let reasoning := ostr_or (d_reasoning d) estr in
  let content := ostr_or (d_content d) estr in
  (when (str_truthy reasoning) (emit_chunk reasoning THOUGHT author thought_id (bool_decide (acc.1 <> [])) false) ;;;
   when (str_truthy content) (emit_chunk content TEXT author text_id (bool_decide (acc.2 <> [])) false) ;;;
   mret (if str_truthy reasoning then acc.1 ++ [reasoning] else acc.1,
         if str_truthy content then acc.2 ++ [content] else acc.2))%choir.

(** [_seal]: the full text of the attempt closes its artifacts. *)
Definition _seal (author thought_id text_id : string) (parts : list string * list string) : M unit :=
  (when (str_truthy (uconcat parts.1)) (emit_chunk (uconcat parts.1) THOUGHT author thought_id false true) ;;;
   when (str_truthy (uconcat parts.2)) (emit_chunk (uconcat parts.2) TEXT author text_id false true))%choir.

Definition is_value_error (e : exn) : bool := match e with ValueError _ => true | _ => false end.

(** One attempt: the published parts with their artifact ids, and the outcome. *)
Definition attempt {T} (agent : LlmAgent T) (messages : list ChatMessage)
    : M (string * string * (list string * list string) * StreamEnd) :=
  thought_id ← new_uuid;
  text_id ← new_uuid;
  '(deltas, ending) ← stream (la_system_prompt agent) messages [la_final_tool agent] (la_candidates agent);
  parts ← foldM (publish_delta (la_name agent) thought_id text_id) ([], []) deltas;
  let ending := match ending with
    | StreamDone None => StreamFailed (ValueError ("model did not call the " +:+ la_final_tool agent +:+ " tool")) None
    | e => e end in
  mret (thought_id, text_id, parts, ending).

(** The remaining attempts, [last] being what the previous one left to seal. *)
Fixpoint attempts {T} (agent : LlmAgent T) (n : nat) (messages : list ChatMessage)
    (last : string * string * (list string * list string)) : M T :=
  match n with
  | O =>
      let '(thought_id, text_id, parts) := last in
      (_seal (la_name agent) thought_id text_id parts ;;; lift (la_process agent None))%choir
  | S n' =>
      '(thought_id, text_id, parts, ending) ← attempt agent messages;
      match ending with
      | StreamDone (Some (_, args, id)) =>
          (_ ← call_id_of id;
           _seal (la_name agent) thought_id text_id parts ;;; lift (la_process agent (Some args)))%choir
      | StreamDone None => raise Unmodelled
      | StreamFailed e payload =>
          if is_value_error e then
            (_seal (la_name agent) thought_id text_id parts ;;;
             attempts agent n' (messages ++ [feedback (default estr payload) e]) (thought_id, text_id, parts))%choir
          else raise e
      end
  end.

(** [run_agent(agent, ctx, user)]. *)
Definition run_agent {T} (agent : LlmAgent T) (user : string) : M T :=
  w ← get_world;
  attempts agent (S (la_max_retries agent)) (w_messages w ++ [MsgUser user]) (estr, estr, ([], [])).

(** [_run_text]: one reply without tools. *)
Definition run_text (author system_prompt user : string) : M string :=
  thought_id ← new_uuid;
  text_id ← new_uuid;
  w ← get_world;
  '(deltas, ending) ← stream system_prompt (w_messages w ++ [MsgUser user]) [] [];
  parts ← foldM (publish_delta author thought_id text_id) ([], []) deltas;
  match ending with
  | StreamFailed e _ => raise e
  | StreamDone _ => (_seal author thought_id text_id parts ;;; mret (uconcat parts.2))%choir
  end.

(** ** Subagents *)

Definition HUMAN_TARGET : string := "human".

(** [AssistanceAgent.process]: choosing the human is choosing nobody. *)
Definition assistance_process (call : option Args) : res AssistanceResult :=
  match call with
  | None => Ok default_assistance
  | Some (AssistanceArgs r) =>
      Ok (if bool_decide (as_target_agent r = Some HUMAN_TARGET)
          then mkAssistance None (as_instruction r) (as_question_type r) (as_options r) (as_multi r) else r)
  | Some _ => Err Unmodelled
  end.
Definition assistance_agent (exclude : gset string) : LlmAgent AssistanceResult :=
  mkLlmAgent _ "assistance" ASSISTANCE_SYSTEM "AssistanceDecision" 2
    (ag_name <$> filterb (fun a => negb (bool_decide (ag_name a ∈ exclude))) agents) assistance_process.

Definition outcome_process (call : option Args) : res OutcomeResult :=
  match call with
  | None => Ok (mkOutcome Deliver estr None)
  | Some (OutcomeArgs r) => Ok r
  | Some _ => Err Unmodelled
  end.
Definition outcome_agent : LlmAgent OutcomeResult :=
  mkLlmAgent _ "outcome" OUTCOME_SYSTEM "OutcomeDecision" 2 [] outcome_process.

(** No retries: a missing call is no patch. *)
Definition repair_process (call : option Args) : res (option RepairResult) :=
  match call with
  | None => Ok None
  | Some (RepairArgs r) => Ok (Some r)
  | Some _ => Err Unmodelled
  end.
Definition repair_agent : LlmAgent (option RepairResult) :=
  mkLlmAgent _ "repair" REPAIR_SYSTEM "RepairDecision" 0 [] repair_process.

(** ** What agents keep *)

Context (R : relation World) `{!Logging R}.

#[export] Instance keeps_stream s m t c : Keeps R (stream s m t c).
Proof. unfold stream. keeps. Qed.
#[export] Instance keeps_call_id o : Keeps R (call_id_of o).
Proof. unfold call_id_of. keeps. Qed.
#[export] Instance keeps_text s u : Keeps R (text s u).
Proof. unfold text. keeps. Qed.
#[export] Instance keeps_publish_delta a t x acc d : Keeps R (publish_delta a t x acc d).
Proof. unfold publish_delta. keeps. Qed.
#[export] Instance keeps_seal a t x p : Keeps R (_seal a t x p).
Proof. unfold _seal. keeps. Qed.
#[export] Instance keeps_attempt {T} (agent : LlmAgent T) m : Keeps R (attempt agent m).
Proof. unfold attempt. keeps. Qed.
Lemma keeps_attempts {T} (agent : LlmAgent T) n : forall m l, Keeps R (attempts agent n m l).
Proof. induction n as [|n IH]; intros m l; cbn [attempts]; keeps; intros; apply IH. Qed.
#[export] Instance keeps_run_agent {T} (agent : LlmAgent T) user : Keeps R (run_agent agent user).
Proof. unfold run_agent. keeps. intros. apply keeps_attempts. Qed.
#[export] Instance keeps_run_text a s u : Keeps R (run_text a s u).
Proof. unfold run_text. keeps. Qed.
End llm.
Arguments mkLlmAgent {T}.
Arguments la_name {T} _. Arguments la_system_prompt {T} _. Arguments la_final_tool {T} _.
Arguments la_max_retries {T} _. Arguments la_candidates {T} _. Arguments la_process {T} _ _.

(** ** Agents only talk *)

(** [w'] is [w] with more events, each a chunk of [author], and a later clock. *)
Definition talks (author : string) (w w' : World) : Prop :=
  exists evs t,
    w' = mkWorld (w_state w) (w_task_id w) (w_context_id w) (w_messages w) (w_queue w ++ evs) (w_store w)
           (w_session w) (w_runner w) (w_wake w) (w_calls w) (w_inbound w) (w_compaction w) t /\
    Forall (fun e => exists text kind artifact_id append last_chunk,
      e = chunk_event (w_task_id w) (w_context_id w) text kind author artifact_id append last_chunk) evs.

Section talk.
Context `{!Env, !Llm} (author : string).

#[export] Instance talks_preorder : PreOrder (talks author).
Proof.
  split.
  - intros w. exists [], (w_tick w). rewrite app_nil_r. by destruct w.
  - intros a b c (e1 & t1 & -> & H1) (e2 & t2 & -> & H2). exists (e1 ++ e2), t2. cbn in *.
    rewrite app_assoc. split; [done|]. apply Forall_app. done.
Qed.

#[export] Instance talks_draw : Keeps (talks author) draw.
Proof. intros w. exists [], (S (w_tick w)). rewrite app_nil_r. by split. Qed.
#[export] Instance talks_uuid : Keeps (talks author) new_uuid.
Proof. unfold new_uuid. keeps. Qed.
#[export] Instance talks_chunk t k a ap lc : Keeps (talks author) (emit_chunk t k author a ap lc).
Proof.
  intros w. unfold emit_chunk. cbn. eexists [_], (w_tick w). split; [done|]. constructor; [|constructor]. by eexists _, _, _, _, _.
Qed.
#[export] Instance talks_stream s m t c : Keeps (talks author) (stream s m t c).
Proof. unfold stream. keeps. Qed.
#[export] Instance talks_call_id o : Keeps (talks author) (call_id_of o).
Proof. unfold call_id_of. keeps. Qed.
#[export] Instance talks_publish_delta t x acc d : Keeps (talks author) (publish_delta author t x acc d).
Proof. unfold publish_delta. keeps. Qed.
#[export] Instance talks_seal t x p : Keeps (talks author) (_seal author t x p).
Proof. unfold _seal. keeps. Qed.
End talk.

Lemma talks_attempts `{!Env, !Llm} {T} (agent : LlmAgent T) n : forall m l, Keeps (talks (la_name agent)) (attempts agent n m l).
Proof.
  induction n as [|n IH]; intros m l; cbn [attempts]; unfold attempt; keeps; intros; apply IH.
Qed.

(** A subagent's decision touches nothing but the event log. Whatever the model
    streams, however often it is asked again and however the run ends, all that
    [run_agent] changes is that chunk events of that agent were appended for the
    current task: the session state, the recorded messages, the store, the flags
    and the remote calls stay. *)
Theorem run_agent_only_talks `{!Env, !Llm} {T} (agent : LlmAgent T) user w :
  talks (la_name agent) w (fst (run_agent agent user w)).
Proof.
  assert (Keeps (talks (la_name agent)) (run_agent agent user)) as Hk; [|apply Hk].
  unfold run_agent. keeps. intros. apply talks_attempts.
Qed.

(** ** Assembling the call *)

(** [fragments.setdefault(index, []).append(arguments or "")]. *)
Definition add_args (d : list (Z * list string)) (c : CallDelta) : list (Z * list string) :=
  dset (cd_index c) (default [] (dget (cd_index c) d) ++ [default estr (cd_arguments c)]) d.

Lemma collect_args deltas : fg_args (collect deltas) = foldl add_args [] (deltas ≫= d_calls).
Proof.
  unfold collect. change (@nil (Z * list string)) with (fg_args (mkFragments [] [] [])) at 2.
  generalize (mkFragments [] [] []). induction deltas as [|d ds IH]; intros f; cbn [foldl mbind list_bind]; [done|].
  rewrite IH, foldl_app. f_equal. clear. revert f.
  induction (d_calls d) as [|c cs IH]; intros f; cbn [foldl]; [done|]. by rewrite IH.
Qed.

Lemma add_args_get cs : forall d i,
  default [] (dget i (foldl add_args d cs)) =
  default [] (dget i d) ++ ((fun c => default estr (cd_arguments c)) <$> filter (fun c => cd_index c = i) cs).
Proof.
  induction cs as [|c cs IH]; intros d i; cbn [foldl]; [by rewrite app_nil_r|].
  rewrite IH. unfold add_args. rewrite dget_dset, filter_cons. destruct (decide (i = cd_index c)) as [->|Hne].
  - rewrite decide_True by done. cbn. by rewrite <- app_assoc.
  - by rewrite (decide_False (P := cd_index c = i)) by congruence.
Qed.

Lemma add_args_keys cs : forall d k,
  k ∈ dkeys d \/ (exists c, c ∈ cs /\ cd_index c = k) -> k ∈ dkeys (foldl add_args d cs).
Proof.
  induction cs as [|c cs IH]; intros d k; cbn [foldl].
  - intros [?|(c & ?%elem_of_nil & _)]; done.
  - intros Hk. apply IH. unfold add_args. rewrite elem_of_dkeys_dset. setoid_rewrite elem_of_cons in Hk. naive_solver.
Qed.

(** A tool call is assembled from its own fragments. A stream ends in a tool
    call only if all the call fragments it carried have one index and name a tool
    that was offered, and the arguments validated are those fragments joined in the
    order they came; several calls, or an unknown tool, are an error. *)
Theorem finish_stream_spec `{!Llm} tools candidates deltas name args id :
  finish_stream tools candidates (collect deltas) = StreamDone (Some (name, args, id)) ->
  exists index,
    (forall d c, d ∈ deltas -> c ∈ d_calls d -> cd_index c = index) /\
    name ∈ tools /\
    parse_args name candidates (uconcat ((fun c => default estr (cd_arguments c)) <$> (deltas ≫= d_calls))) = inl args.
Proof.
  unfold finish_stream. rewrite collect_args. set (cs := deltas ≫= d_calls).
  destruct (foldl add_args [] cs) as [|[index l] [|]] eqn:E; [done| |done].
  destruct (negb _ || _) eqn:En; [done|]. apply orb_false_iff in En as [_ Hin].
  apply bool_decide_eq_false, dec_stable in Hin.
  destruct (parse_args _ _ _) as [a|] eqn:Ep; [|done]. intros [= <- <- _].
  assert (forall c, c ∈ cs -> cd_index c = index) as Hall.
  { intros c Hc. assert (cd_index c ∈ dkeys (foldl add_args [] cs)) as Hk by (apply add_args_keys; eauto).
    rewrite E in Hk. by apply list_elem_of_singleton in Hk. }
  exists index. split; [|split; [done|]].
  - intros d c Hd Hc. apply Hall, list_elem_of_bind. eauto.
  - rewrite <- Ep. do 2 f_equal. pose proof (add_args_get cs [] index) as Hl. rewrite E in Hl. cbn in Hl.
    rewrite decide_True in Hl by done. cbn in Hl. rewrite Hl. f_equal. symmetry. clear -Hall.
    induction cs as [|c cs IH]; [done|]. rewrite filter_cons_True by (apply Hall; by left).
    f_equal. apply IH. intros c' Hc'. apply Hall. by right.
Qed.
