(* ===== verification/Planner.v ===== *)
(** * Plan validation (choirworks/core/planner.py, validate_plan)

    The checks of a drafted plan, the last of them Kahn's algorithm: nodes whose
    remaining in-degree is zero are popped from a stack, and the plan is accepted
    when all were popped. *)
From S2P Require Import Prelude PyStr Dict Json State StateFacts World Tool Dag.
Local Open Scope string_scope.
Local Open Scope list_scope.

Definition PlanValidationError (msg : string) : exn := ValueError msg.

(** The first dependency that is unknown, or that is the node itself. *)
Fixpoint check_deps (ids : list string) (node_id : string) (deps : list string) : res unit :=
  match deps with
  | [] => Ok tt
  | dep :: deps' =>
      if bool_decide (dep ∉ ids) then Err (PlanValidationError ("unknown dependency: " +:+ dep))
      else if bool_decide (dep = node_id) then Err (PlanValidationError ("node " +:+ node_id +:+ " depends on itself"))
      else check_deps ids node_id deps'
  end.

Fixpoint check_nodes (ids : list string) (nodes : list PlanNodeDraft) : res unit :=
  match nodes with
  | [] => Ok tt
  | n :: nodes' => _ ← check_deps ids (pd_id n) (pd_deps n); check_nodes ids nodes'
  end.

Section kahn.
Context (nodes : list PlanNodeDraft).

(** [{node.id: len(set(node.deps)) for node in nodes}]. *)
Definition indegree0 : list (string * Z) := (fun n => (pd_id n, Z.of_nat (length (fromkeys (pd_deps n))))) <$> nodes.

(** [children[dep]]: one entry per node that has [dep] among its dependencies. *)
Definition children (dep : string) : list string :=
  pd_id <$> filterb (fun n => bool_decide (dep ∈ pd_deps n)) nodes.

(** [indegree[child] -= 1; if indegree[child] == 0: queue.append(child)]. *)
Definition visit_child (acc : list (string * Z) * list string) (child : string) : list (string * Z) * list string :=
  let '(indegree, queue) := acc in
  let indegree := dupd child Z.pred indegree in
  (indegree, if bool_decide (dget child indegree = Some 0%Z) then queue ++ [child] else queue).

(** [while queue: current = queue.pop(); visited += 1; ...]. The stack is a list
    whose last element is its top; every node is popped at most once, so the
    number of nodes is enough fuel ([kahn_counts]). *)
Fixpoint kahn (fuel : nat) (indegree : list (string * Z)) (queue : list string) (visited : nat) : nat :=
  match fuel with
  | O => visited
  | S fuel' =>
      match last queue with
      | None => visited
      | Some current =>
          let '(indegree, queue) := foldl visit_child (indegree, removelast queue) (children current) in
          kahn fuel' indegree queue (S visited)
      end
  end.
End kahn.

Definition validate_plan (draft : PlanDraft) (max_nodes : Z) : res unit :=
  let nodes := pd_nodes draft in
  if (max_nodes <? Z.of_nat (length nodes))%Z then
    Err (PlanValidationError ("too many nodes: " +:+ pretty (Z.of_nat (length nodes)) +:+ " > " +:+ pretty max_nodes))
  else
    let ids := pd_id <$> nodes in
    if bool_decide (NoDup ids) then
      _ ← check_nodes ids nodes;
      let queue := fst <$> filterb (fun p => bool_decide (p.2 = 0%Z)) (indegree0 nodes) in
      if bool_decide (kahn nodes (length nodes) (indegree0 nodes) queue 0 = length ids) then Ok tt
      else Err (PlanValidationError "plan contains a cycle")
    else Err (PlanValidationError "duplicate node id in plan").

(** The graph a draft describes. *)
Definition draft_graph (draft : PlanDraft) (k : string) : option (list string) :=
  pd_deps <$> find_first (fun n => bool_decide (pd_id n = k)) (pd_nodes draft).

(** ** The dependency checks *)

Lemma check_deps_ok ids node_id deps :
  check_deps ids node_id deps = Ok tt <-> forall d, d ∈ deps -> d ∈ ids /\ d <> node_id.
Proof.
  induction deps as [|d deps IH]; cbn.
  - split; [by intros _ d ?%elem_of_nil | done].
  - case_bool_decide as H1; [split; [done|]; intros H; destruct (H d); [by left | done]|].
    case_bool_decide as H2; [split; [done|]; intros H; destruct (H d); [by left | done]|].
    rewrite IH. setoid_rewrite elem_of_cons. destruct (decide (d ∈ ids)); naive_solver.
Qed.

Lemma check_nodes_ok ids l :
  check_nodes ids l = Ok tt <-> forall n d, n ∈ l -> d ∈ pd_deps n -> d ∈ ids /\ d <> pd_id n.
Proof.
  induction l as [|n l IH]; cbn.
  - split; [by intros _ n d ?%elem_of_nil | done].
  - destruct (check_deps ids (pd_id n) (pd_deps n)) as [[]|e] eqn:E; cbn.
    + rewrite IH. pose proof (proj1 (check_deps_ok _ _ _) E) as E'. split.
      * intros H m d [->|Hm]%elem_of_cons Hd; eauto.
      * intros H m d Hm Hd. apply H; [by right | done].
    + split; [done|]. intros H. assert (check_deps ids (pd_id n) (pd_deps n) = Ok tt) as H'; [|congruence].
      apply check_deps_ok. intros d Hd. apply H; [by left | done].
Qed.

(** ** Kahn's algorithm *)

(** The dependencies of [n] that are not popped yet. *)
Definition open_deps (P : list string) (n : PlanNodeDraft) : list string :=
  filter (fun d => d ∉ P) (fromkeys (pd_deps n)).

Lemma open_deps_nil P n : open_deps P n = [] <-> forall d, d ∈ pd_deps n -> d ∈ P.
Proof.
  unfold open_deps. split.
  - intros E d Hd. destruct (decide (d ∈ P)) as [|Hni]; [done|].
    assert (d ∈ filter (fun d => d ∉ P) (fromkeys (pd_deps n))) as H; [|by rewrite E in H; apply elem_of_nil in H].
    apply list_elem_of_filter. split; [done|]. unfold fromkeys. apply elem_of_dedup_from. split; [done|].
    by intros ?%elem_of_nil.
  - intros H. destruct (filter _ _) as [|d l] eqn:E; [done|].
    assert (d ∈ d :: l) as Hd by by left. rewrite <- E in Hd. apply list_elem_of_filter in Hd as [Hni Hd].
    apply elem_of_dedup_from in Hd as [Hd _]. by apply H in Hd.
Qed.

Lemma open_deps_cons c P n :
  c ∉ P -> length (open_deps P n) = length (open_deps (c :: P) n) + (if bool_decide (c ∈ pd_deps n) then 1 else 0).
Proof.
  intros Hc. unfold open_deps.
  assert (forall l, NoDup l -> length (filter (fun d => d ∉ P) l) =
    length (filter (fun d => d ∉ c :: P) l) + (if bool_decide (c ∈ l) then 1 else 0)) as H.
  { induction l as [|d l IH]; intros Hl; [done|]. apply NoDup_cons in Hl as [Hd Hl]. specialize (IH Hl).
    rewrite !filter_cons. destruct (decide (d = c)) as [->|Hne].
    - rewrite decide_True by done. rewrite (decide_False (P := c ∉ c :: P)) by set_solver.
      rewrite bool_decide_true by by left. cbn. rewrite bool_decide_false in IH by done. lia.
    - rewrite (bool_decide_ext (c ∈ d :: l) (c ∈ l)) by set_solver.
      destruct (decide (d ∈ P)).
      + rewrite decide_False by set_solver. rewrite decide_False by set_solver. done.
      + rewrite decide_True by done. rewrite decide_True by set_solver. cbn. lia. }
  rewrite H by apply NoDup_fromkeys. f_equal. rewrite (bool_decide_ext (c ∈ fromkeys (pd_deps n)) (c ∈ pd_deps n)); [done|].
  unfold fromkeys. rewrite elem_of_dedup_from, elem_of_nil. tauto.
Qed.

(** The inner loop over the children of the popped node. *)
Lemma visit_children l : forall indegree queue, NoDup l ->
  exists indegree', foldl visit_child (indegree, queue) l =
    (indegree', queue ++ filterb (fun c => bool_decide (dget c indegree = Some 1%Z)) l) /\
    forall k, dget k indegree' = if decide (k ∈ l) then Z.pred <$> dget k indegree else dget k indegree.
Proof.
  induction l as [|c l IH]; intros indegree queue Hl; cbn.
  - exists indegree. rewrite app_nil_r. split; [done|]. intros k. by rewrite decide_False by set_solver.
  - apply NoDup_cons in Hl as [Hc Hl].
    destruct (IH (dupd c Z.pred indegree)
      (if bool_decide (dget c (dupd c Z.pred indegree) = Some 0%Z) then queue ++ [c] else queue) Hl) as (ind' & E & Hg).
    exists ind'. split.
    + rewrite E. f_equal. unfold filterb. cbn.
      assert (filter_eq : List.filter (fun c0 => bool_decide (dget c0 (dupd c Z.pred indegree) = Some 1%Z)) l =
              List.filter (fun c0 => bool_decide (dget c0 indegree = Some 1%Z)) l).
      { apply List.filter_ext_in. intros k Hk%list_elem_of_In. rewrite dget_dupd. by rewrite decide_False by (intros ->; done). }
      rewrite filter_eq, dget_dupd, decide_True by done.
      destruct (dget c indegree) as [z|]; cbn.
      * destruct (decide (z = 1%Z)) as [->|Hz].
        -- rewrite !bool_decide_true by done. by rewrite <- app_assoc.
        -- rewrite !bool_decide_false by (intros [= ?]; lia). done.
      * done.
    + intros k. rewrite Hg, dget_dupd. destruct (decide (k = c)) as [->|].
      * rewrite decide_False by done. by rewrite decide_True by by left.
      * destruct (decide (k ∈ l)); [by rewrite decide_True by by right|]. by rewrite decide_False by set_solver.
Qed.
Section kahn_correct.
Context (nodes : list PlanNodeDraft) (Hnd : NoDup (pd_id <$> nodes)).

(** Loop invariant: [P] was popped (latest first). *)
Record kinv (P : list string) (indegree : list (string * Z)) (queue : list string) : Prop := {
  ki_nodup : NoDup (queue ++ P);
  ki_ids : forall k, k ∈ P -> k ∈ pd_id <$> nodes;
  ki_degree : forall n, n ∈ nodes -> dget (pd_id n) indegree = Some (Z.of_nat (length (open_deps P n)));
  ki_queue : forall k, k ∈ queue <-> (k ∉ P) /\ exists n, n ∈ nodes /\ pd_id n = k /\ open_deps P n = [];
  ki_done : forall n, n ∈ nodes -> pd_id n ∈ P -> open_deps P n = []
}.

Lemma node_inj n m : n ∈ nodes -> m ∈ nodes -> pd_id m = pd_id n -> m = n.
Proof using Hnd.
  intros Hn Hm Hid. apply list_elem_of_lookup in Hn as [i Hi], Hm as [j Hj].
  assert (i = j) as ->; [|congruence]. eapply NoDup_lookup; [exact Hnd| |].
  - by rewrite list_lookup_fmap, Hi.
  - rewrite list_lookup_fmap, Hj. cbn. by rewrite Hid.
Qed.

Lemma elem_children c n : n ∈ nodes -> pd_id n ∈ children nodes c <-> c ∈ pd_deps n.
Proof using Hnd.
  intros Hn. unfold children. rewrite list_elem_of_fmap. setoid_rewrite elem_of_filterb.
  setoid_rewrite bool_decide_eq_true. split; [|by eauto].
  intros (m & Hid & Hm & Hc). by rewrite <- (node_inj n m).
Qed.

Lemma NoDup_children c : NoDup (children nodes c).
Proof using Hnd. unfold children. eapply sublist_NoDup; [exact Hnd|]. apply fmap_sublist, filterb_sublist. Qed.


Lemma open_zero P n : length (open_deps P n) = 0 <-> open_deps P n = [].
Proof using. split; [apply nil_length_inv | by intros ->]. Qed.

(** Membership in the queue, by in-degree. *)
Lemma ready_after P ind queue c n :
  kinv P ind queue -> c ∉ P -> n ∈ nodes ->
  open_deps (c :: P) n = [] <->
  (if bool_decide (c ∈ pd_deps n) then dget (pd_id n) ind = Some 1%Z else open_deps P n = []).
Proof using Hnd.
  intros I Hc Hn. rewrite (ki_degree _ _ _ I n Hn), <- !open_zero, (open_deps_cons c P n Hc).
  destruct (decide (c ∈ pd_deps n)).
  - rewrite !bool_decide_true by done. split; [intros ->; done|]. intros [= H']. lia.
  - rewrite !bool_decide_false by done. rewrite <- (open_zero P n), (open_deps_cons c P n Hc), bool_decide_false by done. by rewrite Nat.add_0_r.
Qed.

Lemma kahn_step P ind rest c ind' queue' :
  kinv P ind (rest ++ [c]) -> foldl visit_child (ind, rest) (children nodes c) = (ind', queue') ->
  kinv (c :: P) ind' queue'.
Proof using Hnd.
  intros I E. destruct (visit_children (children nodes c) ind rest (NoDup_children c)) as (i' & E' & Hg).
  rewrite E in E'. injection E' as -> ->.
  pose proof (ki_nodup _ _ _ I) as Hdup. rewrite <- app_assoc in Hdup.
  apply NoDup_app in Hdup as (Hr & Hrd & Hcp). apply NoDup_cons in Hcp as [Hc HP].
  assert (c ∈ rest ++ [c]) as Hcq by set_solver. apply (ki_queue _ _ _ I) in Hcq as (_ & nc & Hnc & Hidc & Hoc).
  set (new := filterb (fun k => bool_decide (dget k ind = Some 1%Z)) (children nodes c)).
  assert (forall k, k ∈ new -> exists n, n ∈ nodes /\ pd_id n = k /\ c ∈ pd_deps n /\ dget k ind = Some 1%Z) as Hnew.
  { intros k [Hk H1]%elem_of_filterb. bool_prop. unfold children in Hk.
    apply list_elem_of_fmap in Hk as (n & -> & [Hn Hd]%elem_of_filterb). bool_prop. eauto. }
  assert (forall k, k ∈ new -> k ∉ c :: P) as Hfresh.
  { intros k (n & Hn & <- & Hd & H1)%Hnew [Hk|Hk]%elem_of_cons; rewrite (ki_degree _ _ _ I n Hn) in H1.
    - assert (n = nc) as -> by (apply node_inj; [done|done|congruence]). by rewrite Hoc in H1.
    - by rewrite (ki_done _ _ _ I n Hn Hk) in H1. }
  split.
  - apply NoDup_app. split; [|split; [|by constructor]].
    + apply NoDup_app. split; [done|]. split; [|eapply sublist_NoDup; [apply NoDup_children|apply filterb_sublist]].
      intros k Hk (n & Hn & <- & Hd & H1)%Hnew. rewrite (ki_degree _ _ _ I n Hn) in H1.
      assert (pd_id n ∈ rest ++ [c]) as Hq by set_solver. apply (ki_queue _ _ _ I) in Hq as (_ & m & Hm & Hid & Hom).
      assert (m = n) as -> by (by apply node_inj). by rewrite Hom in H1.
    + intros k [Hk|Hk]%elem_of_app; [by apply Hrd | by apply Hfresh].
  - intros k [->|Hk]%elem_of_cons; [|by apply (ki_ids _ _ _ I)]. apply list_elem_of_fmap. eauto.
  - intros n Hn. rewrite Hg, (ki_degree _ _ _ I n Hn), (open_deps_cons c P n Hc).
    destruct (decide (pd_id n ∈ children nodes c)) as [Hk|Hk]; rewrite elem_children in Hk by done; cbn.
    + rewrite bool_decide_true by done. f_equal. lia.
    + rewrite bool_decide_false by done. do 2 f_equal. lia.
  - intros k. rewrite elem_of_app. split.
    + intros [Hk|Hk].
      * assert (k ∈ rest ++ [c]) as (Hnp & n & Hn & Hid & Ho)%(ki_queue _ _ _ I) by set_solver.
        split; [intros [->|?]%elem_of_cons; [|done]; by apply (Hrd c Hk); left|].
        exists n. split; [done|]. split; [done|]. apply open_deps_nil. rewrite open_deps_nil in Ho. set_solver.
      * split; [by apply Hfresh|]. destruct (Hnew k Hk) as (n & Hn & <- & Hd & H1). exists n.
        split; [done|]. split; [done|]. apply (ready_after P ind (rest ++ [c])); [done..|].
        by rewrite bool_decide_true.
    + intros (Hnk & n & Hn & <- & Ho). apply (ready_after P ind (rest ++ [c])) in Ho; [|done..].
      case_bool_decide as Hd.
      * right. apply elem_of_filterb. split; [by apply elem_children|]. by apply bool_decide_eq_true.
      * left. assert (pd_id n ∈ rest ++ [c]) as Hq by (apply (ki_queue _ _ _ I); set_solver). set_solver.
  - intros n Hn [Hid|Hk]%elem_of_cons; apply open_deps_nil.
    + assert (n = nc) as -> by (apply node_inj; [done|done|congruence]). rewrite open_deps_nil in Hoc. set_solver.
    + pose proof (ki_done _ _ _ I n Hn Hk) as Ho. rewrite open_deps_nil in Ho. set_solver.
Qed.

(** Popped in an order in which dependencies come first. *)
Fixpoint pop_rank (P : list string) (k : string) : nat :=
  match P with [] => 0 | c :: P' => if decide (k = c) then S (length P') else pop_rank P' k end.

Inductive pop_order : list string -> Prop :=
| pop_nil : pop_order []
| pop_cons c P : pop_order P -> c ∉ P ->
    (forall n, n ∈ nodes -> pd_id n = c -> forall d, d ∈ pd_deps n -> d ∈ P) -> pop_order (c :: P).

Lemma pop_rank_le P k : pop_rank P k <= length P.
Proof using. induction P as [|c P IH]; cbn; [lia|]. destruct (decide (k = c)); lia. Qed.

Lemma pop_rank_decreases P n d :
  pop_order P -> n ∈ nodes -> pd_id n ∈ P -> d ∈ pd_deps n -> pop_rank P d < pop_rank P (pd_id n).
Proof using.
  intros Ho Hn Hk Hd. induction Ho as [|c P Ho IH Hc Hdeps]; [by apply elem_of_nil in Hk|]. cbn.
  destruct (decide (pd_id n = c)) as [Hid|Hne].
  - pose proof (Hdeps n Hn Hid d Hd) as HdP. rewrite decide_False by (intros ->; done).
    pose proof (pop_rank_le P d). lia.
  - apply elem_of_cons in Hk as [?|Hk]; [done|]. specialize (IH Hk). destruct (decide (d = c)) as [->|]; [|done].
    exfalso. clear -IH Ho Hc Hk Hn Hd.
    assert (c ∈ P) as ?; [|done]. clear IH.
    induction Ho as [|c' P Ho IH Hc' Hdeps]; [by apply elem_of_nil in Hk|].
    apply elem_of_cons in Hk as [Hid|Hk]; [right; by eapply Hdeps|]. right. apply IH; [set_solver | done].
Qed.

(** With enough fuel the loop pops until the queue is empty. *)
Lemma kahn_counts fuel : forall P ind queue,
  kinv P ind queue -> pop_order P -> length nodes <= fuel + length P ->
  exists P' ind', kinv P' ind' [] /\ pop_order P' /\ kahn nodes fuel ind queue (length P) = length P'.
Proof using Hnd.
  induction fuel as [|fuel IH]; intros P ind queue I Ho Hlen; cbn [kahn].
  - exists P, ind. split; [|done]. destruct queue as [|c q]; [done|]. exfalso.
    pose proof (ki_nodup _ _ _ I) as Hn.
    assert (c :: P ⊆+ pd_id <$> nodes) as Hs.
    { apply NoDup_submseteq; [eapply sublist_NoDup; [exact Hn|]; cbn; apply sublist_skip, sublist_inserts_l; done|].
      intros k [->|Hk]%elem_of_cons; [|by apply (ki_ids _ _ _ I)].
      assert (c ∈ c :: q) as (_ & n & Hn' & <- & _)%(ki_queue _ _ _ I) by by left.
      apply list_elem_of_fmap. eauto. }
    apply submseteq_length in Hs. rewrite length_fmap in Hs. cbn in Hs. lia.
  - destruct queue as [|c q] using rev_ind; [by exists P, ind|]. clear IHq.
    rewrite last_snoc, removelast_last.
    destruct (foldl visit_child (ind, q) (children nodes c)) as [ind' queue'] eqn:E.
    pose proof (kahn_step _ _ _ _ _ _ I E) as I'. apply (IH (c :: P) ind' queue'); [done| |cbn; lia].
    assert (c ∈ q ++ [c]) as (Hc & n & Hn & Hid & Hopen)%(ki_queue _ _ _ I) by set_solver.
    constructor; [done|done|]. intros m Hm Hidm d Hd.
    assert (m = n) as -> by (apply node_inj; [done|done|congruence]). rewrite open_deps_nil in Hopen. by apply Hopen.
Qed.

Lemma kinv_init :
  kinv [] (indegree0 nodes) (fst <$> filterb (fun p => bool_decide (p.2 = 0%Z)) (indegree0 nodes)).
Proof using Hnd.
  assert (dkeys (indegree0 nodes) = pd_id <$> nodes) as Hk.
  { unfold dkeys, indegree0. rewrite <- list_fmap_compose. by apply list_fmap_ext. }
  assert (forall n, open_deps [] n = fromkeys (pd_deps n)) as Ho.
  { intros n. unfold open_deps. induction (fromkeys (pd_deps n)) as [|d l IH]; [done|].
    by rewrite filter_cons_True, IH by set_solver. }
  split.
  - rewrite app_nil_r. eapply sublist_NoDup; [|apply fmap_sublist, filterb_sublist].
    change (NoDup (dkeys (indegree0 nodes))). by rewrite Hk.
  - by intros k ?%elem_of_nil.
  - intros n Hn. rewrite Ho. apply elem_dget; [by rewrite Hk|]. unfold indegree0. apply list_elem_of_fmap. eauto.
  - intros k. rewrite list_elem_of_fmap. setoid_rewrite elem_of_filterb. setoid_rewrite bool_decide_eq_true.
    unfold indegree0. setoid_rewrite list_elem_of_fmap. setoid_rewrite <- open_zero. setoid_rewrite Ho. split.
    + intros ([k' z] & -> & (n & [= -> ->] & Hn) & Hz). cbn in *. split; [set_solver|]. exists n. split; [done|]. split; [done|]. lia.
    + intros (_ & n & Hn & <- & Hz). exists (pd_id n, Z.of_nat (length (fromkeys (pd_deps n)))). cbn.
      split; [done|]. split; [by eauto|]. lia.
  - by intros n _ ?%elem_of_nil.
Qed.
End kahn_correct.

(** ** Properties *)

Lemma draft_graph_some draft k ds :
  draft_graph draft k = Some ds -> exists n, n ∈ pd_nodes draft /\ pd_id n = k /\ pd_deps n = ds.
Proof.
  unfold draft_graph. destruct (find_first _ _) as [n|] eqn:E; [|done]. intros [= <-].
  apply find_first_some in E as [Hn Hid]. bool_prop. eauto.
Qed.

Lemma draft_graph_node draft n :
  NoDup (pd_id <$> pd_nodes draft) -> n ∈ pd_nodes draft -> draft_graph draft (pd_id n) = Some (pd_deps n).
Proof.
  intros Hnd Hn. unfold draft_graph. destruct (find_first _ _) as [m|] eqn:E.
  - apply find_first_some in E as [Hm Hid]. bool_prop. by rewrite (node_inj _ Hnd n m).
  - rewrite find_first_none in E. specialize (E n Hn). bool_prop. done.
Qed.

(** Kahn's test on a draft that passed the other checks. *)
Lemma kahn_all draft :
  NoDup (pd_id <$> pd_nodes draft) ->
  (forall n d, n ∈ pd_nodes draft -> d ∈ pd_deps n -> d ∈ pd_id <$> pd_nodes draft /\ d <> pd_id n) ->
  kahn (pd_nodes draft) (length (pd_nodes draft)) (indegree0 (pd_nodes draft))
    (fst <$> filterb (fun p => bool_decide (p.2 = 0%Z)) (indegree0 (pd_nodes draft))) 0
    = length (pd_id <$> pd_nodes draft) <-> acyclic (draft_graph draft).
Proof.
  intros Hnd Hdeps. set (nodes := pd_nodes draft) in *. rewrite length_fmap.
  destruct (kahn_counts nodes Hnd (length nodes) [] _ _ (kinv_init nodes Hnd) (pop_nil nodes)) as (P & ind & I & Ho & E);
    [cbn; lia|]. cbn [length] in E. rewrite E.
  pose proof (ki_nodup _ _ _ _ I) as HP. cbn in HP. split.
  - intros Hlen. exists (pop_rank P). intros k ds d Hk Hd [ds' Hd'].
    apply draft_graph_some in Hk as (n & Hn & <- & <-). eapply pop_rank_decreases; [exact Ho|exact Hn| |done].
    assert (P ≡ₚ pd_id <$> nodes) as Hperm.
    { apply submseteq_length_Permutation; [|rewrite length_fmap; lia]. apply NoDup_submseteq; [done|]. apply I. }
    rewrite Hperm. apply list_elem_of_fmap. eauto.
  - intros Hac. destruct (decide (length P = length nodes)) as [|Hne]; [done|]. exfalso.
    assert (exists n, n ∈ nodes /\ pd_id n ∉ P) as (n0 & Hn0 & Hn0P).
    { destruct (decide (Forall (fun n => pd_id n ∈ P) nodes)) as [Hall|Hall].
      - exfalso. apply Hne. apply Nat.le_antisymm.
        + rewrite <- (length_fmap pd_id nodes). apply submseteq_length, NoDup_submseteq; [apply (ki_nodup _ _ _ _ I)|apply I].
        + rewrite <- (length_fmap pd_id nodes). apply submseteq_length, NoDup_submseteq; [done|].
          intros k (n & -> & Hn)%list_elem_of_fmap. rewrite Forall_forall in Hall. by apply Hall.
      - apply not_Forall_Exists in Hall; [|apply _]. apply Exists_exists in Hall as (n & Hn & ?). eauto. }
    destruct (dag_progress (draft_graph draft) (pd_id <$> nodes) (fun k => bool_decide (k ∈ P)))
      as (k & ds & Hk & Hf & Hdone); [| done | | |].
    + intros k ds d (n & Hn & <- & <-)%draft_graph_some Hd.
      destruct (Hdeps n d Hn Hd) as [(m & -> & Hm)%list_elem_of_fmap _]. rewrite draft_graph_node by done. eauto.
    + intros k [ds (n & Hn & <- & _)%draft_graph_some]. apply list_elem_of_fmap. eauto.
    + exists (pd_id n0). rewrite draft_graph_node by done. split; [eauto|]. by apply bool_decide_eq_false.
    + apply draft_graph_some in Hk as (n & Hn & <- & <-). apply bool_decide_eq_false in Hf.
      assert (pd_id n ∈ ([] : list string)) as Hin; [|by apply elem_of_nil in Hin].
      apply (ki_queue _ _ _ _ I). split; [done|]. exists n. split; [done|]. split; [done|].
      apply open_deps_nil. intros d Hd%Hdone. by apply bool_decide_eq_true in Hd.
Qed.

Lemma check_nodes_error ids l e : check_nodes ids l = Err e -> exists m, e = PlanValidationError m.
Proof.
  induction l as [|n l IH]; cbn; [done|].
  destruct (check_deps ids (pd_id n) (pd_deps n)) as [u|e'] eqn:E'; cbn; [by apply IH|]. intros [= ->].
  induction (pd_deps n) as [|d ds IHd]; cbn in E'; [done|].
  case_bool_decide; [injection E' as <-; by eexists|]. case_bool_decide; [injection E' as <-; by eexists|]. auto.
Qed.

Lemma validate_plan_ok draft max_nodes :
  validate_plan draft max_nodes = Ok tt <->
    (Z.of_nat (length (pd_nodes draft)) <= max_nodes)%Z /\
    NoDup (pd_id <$> pd_nodes draft) /\
    (forall n d, n ∈ pd_nodes draft -> d ∈ pd_deps n -> d ∈ pd_id <$> pd_nodes draft /\ d <> pd_id n) /\
    acyclic (draft_graph draft).
Proof.
  unfold validate_plan. destruct (Z.ltb_spec max_nodes (Z.of_nat (length (pd_nodes draft)))) as [Hlt|Hle].
  { split; [done | lia]. }
  case_bool_decide as Hnd; [|naive_solver].
  destruct (check_nodes _ _) as [[]|e] eqn:E; cbn [mbind res_bind].
  - pose proof (proj1 (check_nodes_ok _ _) E) as Hdeps.
    pose proof (kahn_all draft Hnd Hdeps) as Hk. case_bool_decide as Hc.
    + split; [|done]. intros _. apply Hk in Hc. eauto.
    + split; [done|]. intros (_ & _ & _ & Hac). destruct Hc. by apply Hk.
  - split; [done|]. intros (_ & _ & Hdeps & _). apply check_nodes_ok in Hdeps. congruence.
Qed.

(** C8: Plan validation is sound and complete. A draft is accepted exactly when it
    has at most [max_nodes] nodes with distinct ids, every dependency names
    another node of the draft, and the dependencies have no cycle; otherwise
    [PlanValidationError] is raised. *)
Theorem validate_plan_spec draft max_nodes :
  (validate_plan draft max_nodes = Ok tt <->
    (Z.of_nat (length (pd_nodes draft)) <= max_nodes)%Z /\
    NoDup (pd_id <$> pd_nodes draft) /\
    (forall n d, n ∈ pd_nodes draft -> d ∈ pd_deps n -> d ∈ pd_id <$> pd_nodes draft /\ d <> pd_id n) /\
    acyclic (draft_graph draft)) /\
  (validate_plan draft max_nodes = Ok tt \/ exists m, validate_plan draft max_nodes = Err (PlanValidationError m)).
Proof.
  split; [apply validate_plan_ok|]. unfold validate_plan.
  destruct (_ <? _)%Z; [right; by eexists|]. case_bool_decide; [|right; by eexists].
  destruct (check_nodes _ _) as [[]|e] eqn:E; cbn [mbind res_bind].
  - case_bool_decide; [by left | right; by eexists].
  - right. apply check_nodes_error in E as (m & ->). by eexists.
Qed.
