(* ===== verification/RemoteCaller.v ===== *)
(** * Talking to a remote agent (orchestration/execution/remote_caller.py)

    What a node makes of the chunks its agent streams, and the polling until the
    remote task settles. The node is held by its key [k]. *)
From S2P Require Import Prelude PyStr Dict Json State StateFacts Transitions StateJson World Tool Events Evolution.
From S2P Require Import Helpers.
Local Open Scope string_scope.
Local Open Scope list_scope.

Definition _REMOTE_STATE_MAP (st : task_state) : node_status :=
  match st with
  | TaskState.SUBMITTED => NodeStatus.SUBMITTED
  | TaskState.WORKING => NodeStatus.WORKING
  | TaskState.INPUT_REQUIRED => NodeStatus.INPUT_REQUIRED
  | TaskState.AUTH_REQUIRED => NodeStatus.INPUT_REQUIRED
  | TaskState.COMPLETED => NodeStatus.COMPLETED
  | TaskState.FAILED => NodeStatus.FAILED
  | TaskState.CANCELED => NodeStatus.CANCELED
  | TaskState.REJECTED => NodeStatus.FAILED
  | TaskState.UNSPECIFIED => NodeStatus.WORKING
  end.

(** The statuses in which a remote task no longer moves by itself. *)
Definition remote_settled (st : node_status) : bool :=
  status_in st [NodeStatus.COMPLETED; NodeStatus.FAILED; NodeStatus.CANCELED; NodeStatus.INPUT_REQUIRED].

(** ** Artifacts received *)

Record Piece := mkPiece { pc_id : string; pc_name : string; pc_text : string }.

(** Replace the first entry with the id. *)
Fixpoint replace_piece (id : string) (f : Piece -> Piece) (l : list Piece) : list Piece :=
  match l with
  | [] => []
  | p :: l' => if bool_decide (pc_id p = id) then f p :: l' else p :: replace_piece id f l'
  end.

(** One artifact update: append to the entry, replace it, or add a new one. *)
Definition merge_piece (l : list Piece) (id name piece : string) (append : bool) : list Piece :=
  match find_first (fun p => bool_decide (pc_id p = id)) l with
  | Some _ =>
      if append then replace_piece id (fun p => mkPiece (pc_id p) (pc_name p) (pc_text p +:+ piece)) l
      else replace_piece id (fun _ => mkPiece id name piece) l
  | None => l ++ [mkPiece id name piece]
  end.

(** [" ".join(non-empty texts).strip() or None]. *)
Definition joined_output (l : list string) : option string :=
  let s := ustrip (str_join " " (filterb str_truthy l)) in if str_truthy s then Some s else None.

Section remote_caller.
Context `{!Env, !Remote}.
(** How often a node can poll before [node_timeout] cuts it off. *)
Context (poll_budget : nat).

Definition _artifact_meta (n : NodeState) : list (string * json) :=
  struct_of [("author", JStr (n_agent_name n)); ("node_id", JStr (n_id n))].

(** Relay a text of the node as an artifact of the turn. *)
Definition relay (n : NodeState) (artifact_id name text : string) (append last_chunk : bool) : M unit :=
  w ← get_world;
  enqueue_event (EvArtifact (w_task_id w) (w_context_id w)
    (mkArtifact artifact_id name [mkPart (CText text) []] (_artifact_meta n)) append last_chunk).

(** One chunk: the artifacts so far and the remote status. *)
Definition consume_chunk (k : string) (acc : list Piece * node_status) (chunk : StreamResponse)
    : M (list Piece * node_status) :=
  let '(artifacts, current) := acc in
  match chunk with
  | SrTask task =>
      (update_node k (fun n => set_a2a_task_id (if str_truthy (t_id task) then Some (t_id task) else n_a2a_task_id n) n) ;;;
       let current := _REMOTE_STATE_MAP (t_state task) in
       let artifacts := match t_artifacts task with
         | [] => artifacts
         | l => (fun a => mkPiece (art_id a) (art_name a) (join_text (art_parts a))) <$> l end in
       when (bool_decide (current = NodeStatus.SUBMITTED)) (transition_at k NodeStatus.SUBMITTED) ;;;
       n ← node_at k;
       emit_state_delta [(n_id n, JObj [("status", JStr "submitted"); ("a2a_task_id", json_opt (n_a2a_task_id n))])]
         [] [] TaskState.WORKING ;;;
       mret (artifacts, current))%choir
  | SrStatus _ st message =>
      let mapped := _REMOTE_STATE_MAP st in
      if bool_decide (mapped <> current) then
        match mapped, message with
        | NodeStatus.INPUT_REQUIRED, Some msg =>
            let msg_text := join_text (msg_parts msg) in
            (update_node k (set_question (Some msg_text)) ;;;
             when (str_truthy msg_text) (n ← node_at k; id ← new_uuid; relay n id (n_name n) msg_text false true) ;;;
             mret (artifacts, mapped))%choir
        | _, _ => mret (artifacts, mapped)
        end
      else mret (artifacts, current)
  | SrArtifact art append last_chunk =>
      let piece := join_text (art_parts art) in
      n ← node_at k;
      (relay n (art_id art) (str_or (art_name art) (n_name n)) piece append last_chunk ;;;
       mret (merge_piece artifacts (art_id art) (art_name art) piece append, current))%choir
  | SrMessage msg =>
      let msg_text := join_text (msg_parts msg) in
      n ← node_at k;
      id ← new_uuid;
      (relay n id (n_name n) msg_text false true ;;;
       mret (artifacts ++ [mkPiece "message" "message" msg_text], current))%choir
  end.

Definition consume_chunks (k : string) (chunks : list StreamResponse * option exn) : M node_status :=
  '(artifacts, current) ← foldM (consume_chunk k) ([], NodeStatus.WORKING) chunks.1;
  match chunks.2 with
  | Some e => raise e
  | None =>
      (update_node k (set_output (joined_output (pc_text <$> artifacts))) ;;; mret current)%choir
  end.

(** Follow the remote task; on an exception the status stays and the loop waits. *)
Definition follow (k url tid : string) (current : node_status) : M node_status :=
  catch (chunks ← subscribe_task url tid; consume_chunks k chunks)
    (fun e => if is_exception e then Some (mret current) else None).

(** One look at the remote task: output and question are taken from it. *)
Definition poll (k url tid : string) (current : node_status) : M node_status :=
  task ← get_task url tid;
  match task with
  | None => mret current
  | Some task =>
      let mapped := _REMOTE_STATE_MAP (t_state task) in
      let text := joined_output ((fun a => join_text (art_parts a)) <$> t_artifacts task) in
      (when (bool_decide (mapped = NodeStatus.COMPLETED) && ostr_truthy text) (update_node k (set_output text)) ;;;
       (match mapped, t_status_message task with
        | NodeStatus.INPUT_REQUIRED, Some msg => update_node k (set_question (Some (join_text (msg_parts msg))))
        | _, _ => mret tt end) ;;;
       mret mapped)%choir
  end.

Fixpoint ensure_terminal (fuel : nat) (k : string) (current : node_status) (url : string) : M node_status :=
  if remote_settled current then mret current
  else match fuel with
  | O => raise TimeoutError
  | S fuel' =>
      n ← node_at k;
      if ostr_truthy (n_a2a_task_id n) then
        let tid := default estr (n_a2a_task_id n) in
        current ← poll k url tid current;
        if remote_settled current then mret current
        else
          current ← follow k url tid current;
          ensure_terminal fuel' k current url
      else mret current
  end.

Definition stream_remote (k : string) (text : list string) (continuation : bool) : M node_status :=
  n ← node_at k;
  url ← agent_url_for (n_agent_name n);
  w ← get_world;
  chunks ← send_text url text (if continuation then n_a2a_task_id n else None) (w_context_id w)
    (w_context_id w +:+ ":" +:+ n_id n +:+ ":" +:+ pretty (n_attempt n));
  current ← consume_chunks k chunks;
  ensure_terminal poll_budget k current url.

Definition recover_remote (k : string) : M node_status :=
  n ← node_at k;
  if ostr_truthy (n_a2a_task_id n) then
    url ← agent_url_for (n_agent_name n);
    current ← follow k url (default estr (n_a2a_task_id n)) NodeStatus.WORKING;
    ensure_terminal poll_budget k current url
  else mret NodeStatus.FAILED.

Definition cancel_remote_task (url task_id : string) : M unit := cancel_task url task_id.

(** ** What it keeps *)

Context (R : relation World) `{!Evolution R}.

#[export] Instance keeps_relay n i nm t a l : Keeps R (relay n i nm t a l).
Proof. unfold relay. keeps. Qed.
#[export] Instance keeps_consume_chunk k acc c : Keeps R (consume_chunk k acc c).
Proof. unfold consume_chunk. keeps. Qed.
#[export] Instance keeps_consume_chunks k c : Keeps R (consume_chunks k c).
Proof. unfold consume_chunks. keeps. Qed.
#[export] Instance keeps_follow k u t c : Keeps R (follow k u t c).
Proof. unfold follow. keeps. Qed.
#[export] Instance keeps_poll k u t c : Keeps R (poll k u t c).
Proof. unfold poll. keeps. Qed.
#[export] Instance keeps_ensure_terminal fuel : forall k c u, Keeps R (ensure_terminal fuel k c u).
Proof. induction fuel as [|fuel IH]; intros k c u; cbn [ensure_terminal]; keeps; intros; apply IH. Qed.
#[export] Instance keeps_stream_remote k t c : Keeps R (stream_remote k t c).
Proof. unfold stream_remote. keeps. Qed.
#[export] Instance keeps_recover_remote k : Keeps R (recover_remote k).
Proof. unfold recover_remote. keeps. Qed.
End remote_caller.
