(* ===== verification/Patch.v ===== *)
(** * Incremental plan patches (choirworks/orchestration/planning/patch.py,
    apply_patch)

    [apply_patch] as a function on the session state. The three loops of the
    code are [add_drafts], [invalidate_listed] and [cascade]. *)
From S2P Require Import Prelude PyStr Dict Json State StateFacts Transitions World Tool Events Evolution Dag.
Local Open Scope string_scope.
Local Open Scope list_scope.

Definition INVALIDATABLE_STATUSES : list node_status :=
  [NodeStatus.PENDING; NodeStatus.READY; NodeStatus.RECOVER; NodeStatus.FAILED].

Definition invalidatable (n : NodeState) : bool := status_in (n_status n) INVALIDATABLE_STATUSES.

(** [while node_id in state.nodes]: count on until the id is free. [fuel] bounds
    the rounds; one more than the number of nodes suffices ([next_patch_id_fresh]). *)
Fixpoint next_patch_id (fuel : nat) (s : OrchestrationState) : OrchestrationState * string :=
  let s := set_patch_count (patch_count s + 1) s in
  let node_id := ("x" +:+ pretty (patch_count s)) in
  match fuel with
  | O => (s, node_id)
  | S fuel' => if dmem node_id (nodes s) then next_patch_id fuel' s else (s, node_id)
  end.

(** The node a draft becomes. *)
Definition patch_node (node_id : string) (draft : PatchNode) : NodeState :=
  new_node node_id (str_or (pn_name draft) (pn_agent_name draft)) (pn_agent_name draft) (pn_deps draft)
    (pn_instruction draft) true None.

(** One draft of [patch.add]: rejected, or added under a fresh id. *)
Definition add_draft (known : list string) (acc : OrchestrationState * PatchResult) (draft : PatchNode)
    : OrchestrationState * PatchResult :=
  let '(s, r) := acc in
  let reject msg := (s, mkPatchResult (pr_added r) (pr_invalidated r) (pr_skipped_in_flight r)
                          (pr_rejected r ++ [msg])) in
  if bool_decide (pn_agent_name draft ∉ known) then reject ("unknown agent: " +:+ pn_agent_name draft)
  else
    let unknown := filterb (fun dep => negb (dmem dep (nodes s))) (pn_deps draft) in
    match unknown with
    | _ :: _ => reject ("unknown deps for " +:+ pn_agent_name draft +:+ ": " +:+ str_join ", " unknown)
    | [] =>
        let '(s, node_id) := next_patch_id (S (length (nodes s))) s in
        (set_nodes (dset node_id (patch_node node_id draft) (nodes s)) s,
         mkPatchResult (pr_added r ++ [node_id]) (pr_invalidated r) (pr_skipped_in_flight r) (pr_rejected r))
    end.

Definition add_drafts (known : list string) (drafts : list PatchNode) (acc : OrchestrationState * PatchResult) :=
  foldl (add_draft known) acc drafts.

(** [apply_transition(node, INVALIDATED)] on the node held under [k]. *)
Definition invalidate (k : string) (s : OrchestrationState) : res OrchestrationState :=
  match get_node s k with
  | None => Ok s
  | Some n => _ ← apply_transition n NodeStatus.INVALIDATED; Ok (upd_node k (set_status NodeStatus.INVALIDATED) s)
  end.

(** The loop over [patch.invalidate]. *)
Fixpoint invalidate_listed (ids : list string) (s : OrchestrationState) (r : PatchResult)
    : res (OrchestrationState * PatchResult) :=
  match ids with
  | [] => Ok (s, r)
  | k :: ids' =>
      match get_node s k with
      | None => invalidate_listed ids' s (mkPatchResult (pr_added r) (pr_invalidated r)
                  (pr_skipped_in_flight r) (pr_rejected r ++ ["unknown node: " +:+ k]))
      | Some n =>
          if invalidatable n then
            s ← invalidate k s;
            invalidate_listed ids' s (mkPatchResult (pr_added r) (pr_invalidated r ++ [k])
              (pr_skipped_in_flight r) (pr_rejected r))
          else if bool_decide (n_status n <> NodeStatus.INVALIDATED) then
            invalidate_listed ids' s (mkPatchResult (pr_added r) (pr_invalidated r)
              (pr_skipped_in_flight r ++ [k]) (pr_rejected r))
          else invalidate_listed ids' s r
      end
  end.

(** The nodes the next round of the cascade takes. *)
Definition cascaded (s : OrchestrationState) (invalidated : list string) : list NodeState :=
  filterb (fun n => invalidatable n && existsb (fun dep => bool_decide (dep ∈ invalidated)) (n_deps n))
    (dvals (nodes s)).

#[global] Arguments cascaded : simpl never.

Fixpoint invalidate_all (ids : list string) (s : OrchestrationState) : res OrchestrationState :=
  match ids with [] => Ok s | k :: ids' => s ← invalidate k s; invalidate_all ids' s end.

(** [while True]: rounds until no node depends on an invalidated one. [fuel]
    bounds the rounds; one more than the number of nodes suffices
    ([cascade_mark]). *)
Fixpoint cascade (fuel : nat) (s : OrchestrationState) (invalidated : list string)
    : res (OrchestrationState * list string) :=
  match fuel with
  | O => Err Unmodelled
  | S fuel' =>
      match cascaded s invalidated with
      | [] => Ok (s, invalidated)
      | c => s ← invalidate_all (n_id <$> c) s; cascade fuel' s (invalidated ++ (n_id <$> c))
      end
  end.

(** Apply an incremental plan patch, keeping finished work intact. *)
Definition apply_patch (s : OrchestrationState) (patch : PlanPatch) (known_agents : list string)
    : res (OrchestrationState * PatchResult) :=
  let '(s, r) := add_drafts known_agents (patch_add patch) (s, empty_patch_result) in
  '(s, r) ← invalidate_listed (patch_invalidate patch) s r;
  '(s, invalidated) ← cascade (S (length (nodes s))) s (pr_invalidated r);
  Ok (s, mkPatchResult (pr_added r) invalidated (pr_skipped_in_flight r) (pr_rejected r)).

(** ** Adding drafts *)

Lemma next_patch_id_spec fuel : forall s,
  exists z, fst (next_patch_id fuel s) = set_patch_count z s /\ (patch_count s < z)%Z /\
    snd (next_patch_id fuel s) = "x" +:+ pretty z /\
    (forall m, (patch_count s < m < z)%Z -> "x" +:+ pretty m ∈ dkeys (nodes s)) /\
    ("x" +:+ pretty z ∉ dkeys (nodes s) \/ z = (patch_count s + 1 + Z.of_nat fuel)%Z).
Proof.
  induction fuel as [|fuel IH]; intros s; cbn.
  - exists (patch_count s + 1)%Z. repeat split; [lia | intros; lia | right; lia].
  - destruct (dmem _ _) eqn:E.
    + destruct (IH (set_patch_count (patch_count s + 1) s)) as (z & -> & Hz & -> & Hall & Hor). cbn in *.
      exists z. split; [by destruct s|]. split; [lia|]. split; [done|]. split.
      * intros m Hm. destruct (decide (m = patch_count s + 1)%Z) as [->|]; [by apply dmem_true|].
        apply Hall. lia.
      * destruct Hor as [?| ->]; [by left | right; lia].
    + exists (patch_count s + 1)%Z. repeat split; [lia | intros; lia |].
      left. by apply dmem_false.
Qed.

(** The ids [x1], [x2], ... are distinct, so some id among the first
    [length nodes + 1] candidates is free. *)
Lemma next_patch_id_fresh s :
  snd (next_patch_id (S (length (nodes s))) s) ∉ dkeys (nodes s).
Proof.
  destruct (next_patch_id_spec (S (length (nodes s))) s) as (z & _ & Hz & -> & Hall & [?| ->]); [done|].
  exfalso. set (L := length (nodes s)) in *.
  set (l := (fun i : nat => "x" +:+ pretty (patch_count s + 1 + Z.of_nat i)%Z) <$> seq 0 (S L)).
  assert (NoDup l) as Hnd.
  { apply NoDup_fmap_2; [|apply NoDup_seq]. intros i j. cbn. intros H%prefix_pretty_inj. lia. }
  assert (l ⊆ dkeys (nodes s)) as Hsub.
  { intros x (i & -> & Hi)%list_elem_of_fmap. apply elem_of_seq in Hi. apply Hall. lia. }
  apply (NoDup_submseteq _ _ Hnd) in Hsub. apply submseteq_length in Hsub.
  unfold l, dkeys in Hsub. rewrite !length_fmap, length_seq in Hsub. fold L in Hsub. lia.
Qed.

(** ** Invalidation *)

(** The state in which the nodes listed in [inv] are invalidated. *)
Definition mark (inv : list string) (s : OrchestrationState) : OrchestrationState :=
  set_nodes (map (fun '(k, n) => (k, if bool_decide (k ∈ inv) then set_status NodeStatus.INVALIDATED n else n))
    (nodes s)) s.

(** Every id of [inv] names a node that may be invalidated. *)
Definition can_mark (s : OrchestrationState) (inv : list string) : Prop :=
  forall k, k ∈ inv -> exists n, get_node s k = Some n /\ invalidatable n = true.

Lemma mark_nil s : mark [] s = s.
Proof.
  unfold mark. destruct s. unfold set_nodes. cbn. f_equal.
  rewrite <- (map_id nodes) at 2. apply map_ext. by intros [k n].
Qed.

Lemma dkeys_mark inv s : dkeys (nodes (mark inv s)) = dkeys (nodes s).
Proof. unfold mark, dkeys. cbn. induction (nodes s) as [|[k n] l IH]; cbn; [done|]. by rewrite IH. Qed.

Lemma get_mark inv s k :
  get_node (mark inv s) k =
  (fun n => if bool_decide (k ∈ inv) then set_status NodeStatus.INVALIDATED n else n) <$> get_node s k.
Proof.
  unfold get_node, mark. cbn. induction (nodes s) as [|[k' n] l IH]; cbn; [done|].
  destruct (decide (k = k')) as [->|]; [done | apply IH].
Qed.

Lemma wf_mark inv s : wf_state s -> wf_state (mark inv s).
Proof.
  intros Hwf. apply wf_set_nodes; [done| |].
  - change (NoDup (dkeys (nodes (mark inv s)))). rewrite dkeys_mark. apply Hwf.
  - intros k n. rewrite list_elem_of_In, in_map_iff. intros ([k' n'] & [= -> <-] & H%list_elem_of_In).
    apply (wf_nodes_id s Hwf) in H. by case_bool_decide.
Qed.

Lemma upd_mark inv s k :
  NoDup (dkeys (nodes s)) ->
  upd_node k (set_status NodeStatus.INVALIDATED) (mark inv s) = mark (inv ++ [k]) s.
Proof.
  intros Hnd. unfold upd_node. rewrite dupd_map by by rewrite dkeys_mark.
  unfold mark, set_nodes. cbn. f_equal. rewrite map_map. apply map_ext. intros [k' n].
  f_equal. destruct (decide (k' = k)) as [->|Hne].
  - rewrite (bool_decide_true (k ∈ inv ++ [k])) by set_solver. by case_bool_decide.
  - rewrite (bool_decide_ext (k' ∈ inv ++ [k]) (k' ∈ inv)); [done | set_solver].
Qed.

Lemma invalidatable_transition n :
  invalidatable n = true -> apply_transition n NodeStatus.INVALIDATED = Ok (set_status NodeStatus.INVALIDATED n).
Proof. unfold invalidatable, apply_transition, can_transition. by destruct (n_status n). Qed.

Section with_state.
Context (s : OrchestrationState) (Hwf : wf_state s).

Lemma invalidate_mark inv k n :
  get_node s k = Some n -> invalidatable n = true -> invalidate k (mark inv s) = Ok (mark (inv ++ [k]) s).
Proof using Hwf.
  intros Hn Hi. unfold invalidate. rewrite get_mark, Hn. cbn. rewrite <- upd_mark by apply Hwf.
  case_bool_decide; [|by rewrite invalidatable_transition].
  unfold apply_transition, can_transition. cbn. done.
Qed.

Lemma invalidate_all_mark ids : forall inv,
  can_mark s ids -> invalidate_all ids (mark inv s) = Ok (mark (inv ++ ids) s).
Proof using Hwf.
  induction ids as [|k ids IH]; intros inv H; cbn; [by rewrite app_nil_r|].
  destruct (H k) as (n & Hn & Hi); [by left|]. erewrite invalidate_mark by done. cbn.
  rewrite IH by (intros k' Hk'; apply H; by right). by rewrite <- app_assoc.
Qed.

Lemma elem_cascaded inv n :
  n ∈ cascaded (mark inv s) inv <->
  get_node s (n_id n) = Some n /\ (n_id n ∉ inv) /\ invalidatable n = true /\ exists d, d ∈ n_deps n /\ d ∈ inv.
Proof using Hwf.
  unfold cascaded. rewrite elem_of_filterb, andb_true_iff, existsb_mem. split.
  - intros (Hin & Hi & Hd). apply (wf_elem_get (mark inv s)) in Hin; [|by apply wf_mark].
    rewrite get_mark in Hin. destruct (get_node s (n_id n)) as [n0|] eqn:E; cbn in Hin; [|done].
    injection Hin as Hin. case_bool_decide as Hk; subst n; [done|]. naive_solver.
  - intros (Hg & Hni & Hi & Hd). split; [|done]. apply (dget_dvals (n_id n)).
    change (get_node (mark inv s) (n_id n) = Some n). rewrite get_mark, Hg. cbn. by rewrite bool_decide_false.
Qed.

Lemma NoDup_cascaded inv : NoDup (n_id <$> cascaded (mark inv s) inv).
Proof using Hwf.
  eapply sublist_NoDup; [|apply fmap_sublist, filterb_sublist].
  assert (n_id <$> dvals (nodes (mark inv s)) = dkeys (nodes (mark inv s))) as ->; [|apply wf_mark; apply Hwf].
  unfold dvals, dkeys. rewrite <- list_fmap_compose. apply list_fmap_ext.
  intros i [k n] H%list_elem_of_lookup_2. cbn. eapply wf_nodes_id; [|exact H]. by apply wf_mark.
Qed.

(** The nodes a cascade from [seed] reaches. *)
Inductive doomed (seed : list string) : string -> Prop :=
| doomed_seed k : k ∈ seed -> doomed seed k
| doomed_dep k n d : get_node s k = Some n -> invalidatable n = true -> d ∈ n_deps n ->
    doomed seed d -> doomed seed k.

Lemma cascade_mark fuel : forall seed inv,
  NoDup inv -> can_mark s inv -> (forall k, k ∈ seed -> k ∈ inv) -> (forall k, k ∈ inv -> doomed seed k) ->
  length (nodes s) < fuel + length inv ->
  exists inv', cascade fuel (mark inv s) inv = Ok (mark inv' s, inv') /\ NoDup inv' /\ can_mark s inv' /\
    forall k, k ∈ inv' <-> doomed seed k.
Proof using Hwf.
  induction fuel as [|fuel IH]; intros seed inv Hnd Hcan Hseed Hd Hlen.
  - exfalso. assert (inv ⊆+ dkeys (nodes s)) as Hs.
    { apply NoDup_submseteq; [done|]. intros k (n & Hn & _)%Hcan. by eapply dget_Some_key. }
    apply submseteq_length in Hs. unfold dkeys in Hs. rewrite length_fmap in Hs. lia.
  - cbn [cascade]. destruct (cascaded (mark inv s) inv) as [|c0 c'] eqn:E.
    + exists inv. split; [done|]. split; [done|]. split; [done|]. intros k. split; [apply Hd|].
      induction 1 as [k Hk|k n d Hn Hi Hdep _ IHd]; [by apply Hseed|].
      destruct (decide (k ∈ inv)) as [|Hni]; [done|]. exfalso.
      assert (n ∈ cascaded (mark inv s) inv) as Hin; [|by rewrite E in Hin; apply elem_of_nil in Hin].
      apply elem_cascaded. pose proof (wf_get_id s Hwf k n Hn) as ->. eauto 6.
    + rewrite <- E. set (ids := n_id <$> cascaded (mark inv s) inv).
      assert (forall k, k ∈ ids -> exists n, get_node s k = Some n /\ invalidatable n = true /\ (k ∉ inv) /\
                exists d, d ∈ n_deps n /\ d ∈ inv) as Hids.
      { intros k (n & -> & H%elem_cascaded)%list_elem_of_fmap. naive_solver. }
      rewrite invalidate_all_mark by (intros k Hk; destruct (Hids k Hk); naive_solver). cbn.
      apply IH.
      * apply NoDup_app. split; [done|]. split; [|apply NoDup_cascaded].
        intros k Hk (?&?&?&?&?)%Hids. done.
      * intros k [Hk|Hk]%elem_of_app; [by apply Hcan|]. destruct (Hids k Hk); naive_solver.
      * intros k Hk. apply elem_of_app. left. by apply Hseed.
      * intros k [Hk|(n&Hn&Hi&_&d&Hdep&Hdi)%Hids]%elem_of_app; [by apply Hd|].
        eapply doomed_dep; eauto.
      * assert (length ids > 0). { unfold ids. rewrite E, length_fmap. cbn. lia. }
        rewrite length_app. fold ids. lia.
Qed.

(** The ids of [patch.invalidate] that are invalidated, and those in flight. *)
Definition hit (k : string) : bool :=
  match get_node s k with Some n => invalidatable n | None => false end.
Definition in_flight (k : string) : bool :=
  match get_node s k with
  | Some n => negb (invalidatable n) && bool_decide (n_status n <> NodeStatus.INVALIDATED)
  | None => false
  end.

Lemma can_mark_hit inv : can_mark s inv <-> forall k, k ∈ inv -> hit k = true.
Proof.
  unfold can_mark, hit. split; intros H k Hk; specialize (H k Hk).
  - by destruct H as (n & -> & ?).
  - destruct (get_node s k); naive_solver.
Qed.

Definition listed (ids inv : list string) (r : PatchResult) (inv' : list string) (r' : PatchResult) : Prop :=
  pr_invalidated r' = inv' /\ NoDup inv' /\ can_mark s inv' /\ pr_added r' = pr_added r /\
  (forall x, x ∈ inv' <-> x ∈ inv \/ (x ∈ ids /\ hit x = true)) /\
  pr_skipped_in_flight r' = pr_skipped_in_flight r ++ filterb in_flight ids.

(** An id that is neither newly invalidated nor in flight. *)
Lemma listed_skip k ids inv r0 r inv' r' :
  pr_added r0 = pr_added r -> pr_skipped_in_flight r0 = pr_skipped_in_flight r ->
  in_flight k = false -> (hit k = true -> k ∈ inv) -> listed ids inv r0 inv' r' -> listed (k :: ids) inv r inv' r'.
Proof using.
  intros Ha Hs Hf Hk (H1 & H2 & H3 & H4 & H5 & H6). unfold listed.
  split; [done|]. split; [done|]. split; [done|]. split; [congruence|]. split.
  - intros x. rewrite H5, elem_of_cons. split; [tauto|]. intros [?|[[->|?] ?]]; auto.
  - cbn. unfold filterb in *. rewrite Hf. congruence.
Qed.

Lemma invalidate_listed_mark ids : forall inv r,
  NoDup inv -> can_mark s inv -> pr_invalidated r = inv ->
  exists inv' r', invalidate_listed ids (mark inv s) r = Ok (mark inv' s, r') /\ listed ids inv r inv' r'.
Proof using Hwf.
  induction ids as [|k ids IH]; intros inv r Hnd Hcan Hr; cbn [invalidate_listed].
  { exists inv, r. split; [done|]. unfold listed. cbn. rewrite app_nil_r. repeat split; try done.
    - by left.
    - by intros [?|[?%elem_of_nil _]]. }
  rewrite get_mark. destruct (get_node s k) as [n|] eqn:E; cbn [fmap option_fmap option_map].
  2: { destruct (IH inv (mkPatchResult (pr_added r) (pr_invalidated r) (pr_skipped_in_flight r)
          (pr_rejected r ++ ["unknown node: " +:+ k])) Hnd Hcan Hr) as (inv' & r' & -> & HL).
       exists inv', r'. split; [done|]. eapply listed_skip; [| | | |exact HL]; [done|done|..];
         unfold hit, in_flight; by rewrite E. }
  destruct (decide (k ∈ inv)) as [Hin|Hni].
  - rewrite bool_decide_true by done. pose proof (proj1 (can_mark_hit inv) Hcan k Hin) as Hh.
    destruct (IH inv r Hnd Hcan Hr) as (inv' & r' & Heq & HL). exists inv', r'. split; [exact Heq|].
    eapply listed_skip; [| | | |exact HL]; [done|done| |done].
    unfold hit in Hh. unfold in_flight. rewrite E in *. by rewrite Hh.
  - rewrite bool_decide_false by done. destruct (invalidatable n) eqn:Hi.
    + erewrite invalidate_mark by done. cbn [mbind res_bind].
      destruct (IH (inv ++ [k]) (mkPatchResult (pr_added r) (pr_invalidated r ++ [k]) (pr_skipped_in_flight r)
          (pr_rejected r))) as (inv' & r' & -> & H1 & H2 & H3 & H4 & H5 & H6).
      * apply NoDup_app. split; [done|]. split; [|apply NoDup_singleton]. intros x Hx ->%list_elem_of_singleton. done.
      * intros x [Hx| ->%list_elem_of_singleton]%elem_of_app; [by apply Hcan | eauto].
      * cbn. by rewrite Hr.
      * exists inv', r'. split; [done|]. cbn in H4, H6.
        assert (hit k = true) by (unfold hit; by rewrite E).
        split; [done|]. split; [done|]. split; [done|]. split; [done|]. split.
        -- intros x. rewrite H5, elem_of_app, list_elem_of_singleton, elem_of_cons.
           split; [intros [[?| ->]|[??]]; auto | intros [?|[[->|?] ?]]; auto].
        -- cbn. assert (in_flight k = false) as -> by (unfold in_flight; by rewrite E, Hi). done.
    + case_bool_decide as Hs.
      * destruct (IH inv (mkPatchResult (pr_added r) (pr_invalidated r) (pr_skipped_in_flight r ++ [k])
          (pr_rejected r)) Hnd Hcan Hr) as (inv' & r' & -> & H1 & H2 & H3 & H4 & H5 & H6). exists inv', r'.
        split; [done|]. split; [done|]. split; [done|]. split; [done|]. split; [done|]. split.
        -- intros x. rewrite H5, elem_of_cons. split; [tauto|]. intros [?|[[->|?] Hx]]; auto.
           unfold hit in Hx. rewrite E, Hi in Hx. done.
        -- cbn in *. assert (in_flight k = true) as ->.
           { unfold in_flight. rewrite E, Hi. by rewrite bool_decide_true. }
           rewrite H6, <- app_assoc. done.
      * destruct (IH inv r Hnd Hcan Hr) as (inv' & r' & -> & HL). exists inv', r'. split; [done|].
        eapply listed_skip; [| | | |exact HL]; [done|done|..]; unfold hit, in_flight; rewrite E, Hi; [|done].
        by rewrite Hs.
Qed.
End with_state.

(** ** The whole patch *)

(** The plan of a session as a graph. *)
Definition plan_graph (s : OrchestrationState) (k : string) : option (list string) := n_deps <$> get_node s k.

(** The dependencies of the plan are nodes of it, without a cycle. *)
Definition plan_ok (s : OrchestrationState) : Prop := closed (plan_graph s) /\ acyclic (plan_graph s).

Lemma plan_ok_ext s s' : (forall k, plan_graph s k = plan_graph s' k) -> plan_ok s -> plan_ok s'.
Proof. intros E [H1 H2]. split; [by eapply closed_ext | by eapply acyclic_ext]. Qed.

Lemma plan_graph_mark inv s k : plan_graph (mark inv s) k = plan_graph s k.
Proof. unfold plan_graph. rewrite get_mark. destruct (get_node s k); cbn; [|done]. by case_bool_decide. Qed.

Lemma plan_graph_add s n k :
  plan_graph (set_nodes (dset (n_id n) n (nodes s)) s) k = add_vertex (n_id n) (n_deps n) (plan_graph s) k.
Proof.
  unfold plan_graph, add_vertex, get_node. cbn. rewrite dget_dset. by destruct (decide (k = n_id n)).
Qed.

(** A new node over present ones keeps the plan sound. *)
Lemma plan_ok_add s n :
  plan_ok s -> get_node s (n_id n) = None -> (forall d, d ∈ n_deps n -> d ∈ dkeys (nodes s)) ->
  plan_ok (set_nodes (dset (n_id n) n (nodes s)) s).
Proof.
  intros [H1 H2] Hn Hd.
  assert (forall d, d ∈ n_deps n -> is_Some (plan_graph s d)) as Hd'.
  { intros d (v & Hv)%Hd%dkeys_dget. unfold plan_graph, get_node. rewrite Hv. by eexists. }
  split; (eapply closed_ext || eapply acyclic_ext); try (intros k; symmetry; apply plan_graph_add).
  - by apply closed_add.
  - apply acyclic_add; try done. unfold plan_graph. by rewrite Hn.
Qed.

(** What the first loop does: [new] are the nodes added, oldest first. *)
Record drafts_added (known : list string) (drafts : list PatchNode) (s s1 : OrchestrationState) (r1 : PatchResult)
    (new : list (string * NodeState)) : Prop := {
  da_state : exists z, s1 = set_patch_count z (set_nodes (nodes s ++ new) s);
  da_added : pr_added r1 = dkeys new;
  da_result : pr_invalidated r1 = [] /\ pr_skipped_in_flight r1 = [];
  da_wf : wf_state s -> wf_state s1;
  da_new : forall k n, (k, n) ∈ new -> (k ∉ dkeys (nodes s)) /\ exists draft, draft ∈ drafts /\
    pn_agent_name draft ∈ known /\ n = patch_node k draft;
  da_plan : plan_ok s -> plan_ok s1
}.

Lemma add_draft_step known drafts s s1 r1 new draft :
  drafts_added known drafts s s1 r1 new -> draft ∈ drafts ->
  exists new', drafts_added known drafts s (fst (add_draft known (s1, r1) draft)) (snd (add_draft known (s1, r1) draft)) new'.
Proof.
  intros [(z & Hs) Ha [Hi Hk] Hw Hn Hp] Hin. unfold add_draft. case_bool_decide as Hag.
  { exists new. by split; try exists z. }
  destruct (filterb _ _) as [|u us] eqn:Eu; [|exists new; by split; try exists z].
  pose proof (next_patch_id_fresh s1) as Hfresh.
  destruct (next_patch_id_spec (S (length (nodes s1))) s1) as (z' & Hz' & _).
  destruct (next_patch_id _ s1) as [s2 id] eqn:E. cbn in Hz', Hfresh |- *. subst s2.
  assert (forall d, d ∈ pn_deps draft -> d ∈ dkeys (nodes s1)) as Hdeps.
  { rewrite filterb_nil in Eu. intros d Hd. specialize (Eu d Hd). apply dmem_true. by apply negb_false_iff. }
  assert (nodes s1 = nodes s ++ new) as Hns by by rewrite Hs.
  exists (new ++ [(id, patch_node id draft)]). split.
  - exists z'. cbn. rewrite dset_fresh by done. rewrite Hns, <- app_assoc. by subst s1.
  - cbn. rewrite Ha. unfold dkeys. by rewrite fmap_app.
  - done.
  - intros Hwf. refine (wf_add_node (set_patch_count z' s1) _ (patch_node id draft)).
    apply (wf_set_counters s1 (set_patch_count z')); [done | auto].
  - intros k n [H|[= -> ->]%list_elem_of_singleton]%elem_of_app; [by apply Hn|].
    split; [|naive_solver]. rewrite Hns in Hfresh. unfold dkeys in *. rewrite fmap_app in Hfresh. set_solver.
  - intros Hok. apply (plan_ok_add (set_patch_count z' s1) (patch_node id draft)).
    + by apply (plan_ok_ext s1), Hp.
    + cbn. unfold get_node. by apply dget_None.
    + exact Hdeps.
Qed.

Lemma add_drafts_spec known drafts s :
  exists s1 r1 new, add_drafts known drafts (s, empty_patch_result) = (s1, r1) /\
    drafts_added known drafts s s1 r1 new.
Proof.
  unfold add_drafts.
  enough (forall l s1 r1 new, (forall d, d ∈ l -> d ∈ drafts) -> drafts_added known drafts s s1 r1 new ->
    exists s2 r2 new', foldl (add_draft known) (s1, r1) l = (s2, r2) /\ drafts_added known drafts s s2 r2 new') as H.
  { apply (H drafts s empty_patch_result []); [done|]. split; try done.
    - exists (patch_count s). rewrite app_nil_r. by destruct s.
    - by intros k n ?%elem_of_nil. }
  induction l as [|d l IH]; intros s1 r1 new Hl H; cbn [foldl]; [by exists s1, r1, new|].
  destruct (add_draft_step _ _ _ _ _ _ d H) as (new' & H'); [apply Hl; by left|].
  destruct (add_draft known (s1, r1) d) as [s2 r2]. cbn in H'. eapply IH; [|exact H'].
  intros d' Hd'. apply Hl. by right.
Qed.

(** The patch as a whole: drafts first, then the closed set of invalidations. *)
Lemma apply_patch_result s patch known :
  wf_state s -> exists s1 r1 new r2 inv,
    drafts_added known (patch_add patch) s s1 r1 new /\ wf_state s1 /\
    apply_patch s patch known = Ok (mark inv s1, r2) /\ pr_invalidated r2 = inv /\ NoDup inv /\
    pr_added r2 = dkeys new /\ can_mark s1 inv /\
    (forall k, k ∈ inv <-> doomed s1 (filterb (hit s1) (patch_invalidate patch)) k) /\
    pr_skipped_in_flight r2 = filterb (in_flight s1) (patch_invalidate patch).
Proof.
  intros Hwf. destruct (add_drafts_spec known (patch_add patch) s) as (s1 & r1 & new & E & H).
  pose proof (da_wf _ _ _ _ _ _ H Hwf) as Hwf1. destruct (da_result _ _ _ _ _ _ H) as [Hi Hk].
  exists s1, r1, new. unfold apply_patch. rewrite E.
  destruct (invalidate_listed_mark s1 Hwf1 (patch_invalidate patch) [] r1) as (inv0 & r' & E1 & HL).
  { constructor. } { by intros k ?%elem_of_nil. } { done. }
  rewrite mark_nil in E1. rewrite E1. cbn [mbind res_bind].
  destruct HL as (L1 & L2 & L3 & L4 & L5 & L6).
  assert (forall k, k ∈ filterb (hit s1) (patch_invalidate patch) <-> k ∈ inv0) as Hseed.
  { intros k. rewrite elem_of_filterb, L5, elem_of_nil. tauto. }
  destruct (cascade_mark s1 Hwf1 (S (length (nodes (mark inv0 s1))))
    (filterb (hit s1) (patch_invalidate patch)) inv0) as (inv & E2 & C1 & C2 & C3); try done.
  - intros k Hin. by apply Hseed.
  - intros k Hin. apply doomed_seed. by apply Hseed.
  - unfold mark. cbn. rewrite length_map. lia.
  - rewrite L1, E2. cbn [mbind res_bind]. eexists _, inv. split; [exact H|]. split; [done|]. split; [done|].
    cbn. split; [done|]. split; [done|]. split; [rewrite L4; by apply H|]. split; [done|]. split; [done|].
    by rewrite L6, Hk.
Qed.

(** ** Patches among the other operations *)

(** Run a state operation that may raise. *)
Definition run_res {A} (f : OrchestrationState -> res (OrchestrationState * A)) : M A := fun w =>
  match f (w_state w) with Ok (s, a) => (set_state s w, Ok a) | Err e => (w, Err e) end.

Section patch_evolves.
Context (R : relation World) `{!Evolution R}.

Definition evolves_to (w : World) (s : OrchestrationState) : Prop := R w (set_state s w).

Lemma evolves_refl w : evolves_to w (w_state w).
Proof. unfold evolves_to. by destruct w. Qed.

Lemma evolves_next w s s' : evolves_to w s -> evolves_to (set_state s w) s' -> evolves_to w s'.
Proof. unfold evolves_to. intros H1 H2. etrans; [exact H1|exact H2]. Qed.

Lemma add_draft_evolves w known s r draft :
  evolves_to w s -> evolves_to w (fst (add_draft known (s, r) draft)).
Proof using Evolution0.
  intros H. unfold add_draft. case_bool_decide; [done|]. destruct (filterb _ _); [|done].
  pose proof (next_patch_id_fresh s) as Hfresh.
  destruct (next_patch_id_spec (S (length (nodes s))) s) as (z' & Hz' & _).
  destruct (next_patch_id _ s) as [s2 id]. cbn in *. subst s2.
  eapply evolves_next; [exact H|]. eapply evolves_next; [apply (ev_patch (R:=R) (set_state s w) z')|].
  apply (ev_add (R:=R) (set_state (set_patch_count z' s) w) (patch_node id draft)); [|done].
  unfold get_node. by apply dget_None.
Qed.

Lemma add_drafts_evolves w known drafts : forall s r,
  evolves_to w s -> evolves_to w (fst (add_drafts known drafts (s, r))).
Proof using Evolution0.
  unfold add_drafts. induction drafts as [|d l IH]; intros s r H; cbn [foldl]; [done|].
  pose proof (add_draft_evolves w known s r d H) as H'.
  destruct (add_draft known (s, r) d) as [s' r']. by apply IH.
Qed.

Lemma invalidate_evolves w k s s' : evolves_to w s -> invalidate k s = Ok s' -> evolves_to w s'.
Proof using Evolution0.
  unfold invalidate. destruct (get_node s k) as [n|] eqn:E; [|by intros ? [= <-]].
  unfold apply_transition. destruct (can_transition n _) eqn:Ec; [|done]. cbn. intros H [= <-].
  eapply evolves_next; [exact H|]. by apply (ev_status (R:=R) (set_state s w) k n).
Qed.

Lemma invalidate_listed_evolves w ids : forall s r s' r',
  evolves_to w s -> invalidate_listed ids s r = Ok (s', r') -> evolves_to w s'.
Proof using Evolution0.
  induction ids as [|k ids IH]; intros s r s' r' H; cbn [invalidate_listed]; [by intros [= <- _]|].
  destruct (get_node s k) as [n|]; [|by eauto]. destruct (invalidatable n).
  - intros (s1 & H1 & H2)%res_bind_ok. eapply IH; [|exact H2]. by eapply invalidate_evolves.
  - case_bool_decide; eauto.
Qed.

Lemma invalidate_all_evolves w ids : forall s s',
  evolves_to w s -> invalidate_all ids s = Ok s' -> evolves_to w s'.
Proof using Evolution0.
  induction ids as [|k ids IH]; intros s s' H; cbn [invalidate_all]; [by intros [= <-]|].
  intros (s1 & H1 & H2)%res_bind_ok. eapply IH; [|exact H2]. by eapply invalidate_evolves.
Qed.

Lemma cascade_evolves w fuel : forall s inv s' inv',
  evolves_to w s -> cascade fuel s inv = Ok (s', inv') -> evolves_to w s'.
Proof using Evolution0.
  induction fuel as [|fuel IH]; intros s inv s' inv' H; cbn [cascade]; [done|].
  destruct (cascaded s inv) as [|c0 c]; [by intros [= <- _]|].
  intros (s1 & H1 & H2)%res_bind_ok. eapply IH; [|exact H2]. by eapply invalidate_all_evolves.
Qed.

#[export] Instance keeps_apply_patch patch known : Keeps R (run_res (fun s => apply_patch s patch known)).
Proof using Evolution0.
  intros w. unfold run_res. destruct (apply_patch _ _ _) as [[s a]|e] eqn:E; cbn; [|reflexivity].
  unfold apply_patch in E.
  pose proof (add_drafts_evolves w known (patch_add patch) (w_state w) empty_patch_result (evolves_refl w)) as H.
  destruct (add_drafts _ _ _) as [s1 r1]. apply res_bind_ok in E as ([s2 r2] & E2 & E).
  apply res_bind_ok in E as ([s3 inv] & E3 & [= <- _]).
  eapply cascade_evolves; [|exact E3]. by eapply invalidate_listed_evolves.
Qed.
End patch_evolves.

(** ** Properties *)

(** C7: A patch keeps finished and running work. Applying any patch succeeds: the
    loops end and no status change is refused. The nodes it invalidates are
    exactly the waiting or failed ones it names and, transitively, the waiting
    or failed ones that depend on these, each once; every other node is left as
    it was; no node that can still run depends on one it invalidated; running
    nodes named by the patch are reported instead. *)
Theorem apply_patch_keeps_work s patch known :
  wf_state s ->
  exists s' r, apply_patch s patch known = Ok (s', r) /\ wf_state s' /\ NoDup (pr_invalidated r) /\
    (forall k n, get_node s k = Some n ->
       get_node s' k = Some (if bool_decide (k ∈ pr_invalidated r) then set_status NodeStatus.INVALIDATED n else n)) /\
    (forall k n, get_node s k = Some n -> k ∈ pr_invalidated r -> n_status n ∈ INVALIDATABLE_STATUSES) /\
    (forall k, k ∈ patch_invalidate patch -> hit s k = true -> k ∈ pr_invalidated r) /\
    (forall k n d, get_node s' k = Some n -> invalidatable n = true -> d ∈ n_deps n -> d ∉ pr_invalidated r) /\
    (forall k, k ∈ patch_invalidate patch -> in_flight s k = true -> k ∈ pr_skipped_in_flight r).
Proof.
  intros Hwf. destruct (apply_patch_result s patch known Hwf)
    as (s1 & r1 & new & r2 & inv & Hda & Hwf1 & -> & <- & Hnd & Hadd & Hcan & Hinv & Hskip).
  assert (forall k n, get_node s k = Some n -> get_node s1 k = Some n) as Hold.
  { intros k n Hn. destruct (da_state _ _ _ _ _ _ Hda) as (z & ->). apply dget_elem in Hn.
    apply elem_dget; [apply Hwf1|]. cbn. apply elem_of_app. by left. }
  exists (mark (pr_invalidated r2) s1), r2. split; [done|]. split; [by apply wf_mark|]. split; [done|].
  split; [|split; [|split; [|split]]].
  - intros k n Hn%Hold. rewrite get_mark, Hn. done.
  - intros k n Hn%Hold Hk. destruct (Hcan k Hk) as (n' & Hn' & Hi). rewrite Hn in Hn'. injection Hn' as <-.
    unfold invalidatable, status_in in Hi. by apply bool_decide_eq_true in Hi.
  - intros k Hk Hh. apply Hinv, doomed_seed. apply elem_of_filterb. split; [done|]. unfold hit in *.
    destruct (get_node s k) eqn:E; [|done]. by erewrite Hold.
  - intros k n d Hn Hi Hd Hin. rewrite get_mark in Hn. destruct (get_node s1 k) as [n0|] eqn:E; [|done].
    cbn in Hn. case_bool_decide as Hk; injection Hn as <-; [done|]. apply Hk, Hinv. eapply doomed_dep; [done..|].
    by apply Hinv.
  - intros k Hk Hf. rewrite Hskip. apply elem_of_filterb. split; [done|]. unfold in_flight in *.
    destruct (get_node s k) eqn:E; [|done]. by erewrite Hold.
Qed.

(** C28: A patch keeps the plan sound. The nodes it adds have fresh ids and known
    agents, and a plan whose dependencies exist and form no cycle stays so. *)
Theorem apply_patch_plan s patch known s' r :
  wf_state s -> plan_ok s -> apply_patch s patch known = Ok (s', r) ->
  plan_ok s' /\
  (forall k, k ∈ pr_added r -> get_node s k = None /\
     exists n draft, get_node s' k = Some n /\ draft ∈ patch_add patch /\ n_agent_name n = pn_agent_name draft /\
       pn_agent_name draft ∈ known /\ n_deps n = pn_deps draft /\ n_input_text n = pn_instruction draft).
Proof.
  intros Hwf Hok E. destruct (apply_patch_result s patch known Hwf)
    as (s1 & r1 & new & r2 & inv & Hda & Hwf1 & E' & Hr & Hnd & Hadd & Hcan & Hinv & Hskip).
  rewrite E in E'. injection E' as -> ->. split.
  - apply (plan_ok_ext s1); [intros k; symmetry; apply plan_graph_mark | by apply Hda].
  - intros k Hk. rewrite Hadd in Hk. apply list_elem_of_fmap in Hk as ([k' n] & -> & Hin). cbn [fst].
    destruct (da_new _ _ _ _ _ _ Hda _ _ Hin) as (Hni & draft & Hd & Hag & ->). split; [by apply dget_None|].
    assert (get_node s1 k' = Some (patch_node k' draft)) as Hg.
    { destruct (da_state _ _ _ _ _ _ Hda) as (z & ->). apply elem_dget; [apply Hwf1|].
      cbn. apply elem_of_app. by right. }
    eexists _, draft. rewrite get_mark, Hg. cbn. split; [done|]. by case_bool_decide.
Qed.
