(* ===== verification/Tools.v ===== *)
(** * Tools (tools/ask_user.py, call_subagent.py, create_plan.py, revise_plan.py;
    orchestration/planning/patch.py, apply_patch_locked)

    What running each tool does to the session. *)
From S2P Require Import Prelude PyStr Dict Json State StateFacts Transitions StateJson World Tool Events Evolution.
From S2P Require Import Prompts Helpers Hitl Dag Planner Patch.
Local Open Scope string_scope.
Local Open Scope list_scope.

Section tools.
Context `{!Env, !Remote}.

(** [request_user_input], drawing the id and the time of the new intervention. *)
Definition ask (node_id question : string) (kind : InterventionKind) (qt : QuestionType) (options : list string)
    (multi : bool) (requester : string) : M (option Intervention) :=
  uid ← new_uuid;
  now ← new_time;
  run_state (fun s => request_user_input uid now s node_id question kind qt options multi requester).

(** ** [ask_user] *)

Definition ask_user_run (args : Args) : M FunctionResult :=
  match args with
  | AskUserArgs node_id question qt options multi =>
      s ← get_state;
      match get_node s node_id with
      | None => mret (tool_error ("unknown node: " +:+ node_id))
      | Some node =>
          (transition_at node_id NodeStatus.INPUT_REQUIRED ;;;
           r ← ask (n_id node) question QUESTION qt options multi (n_agent_name node);
           match r with
           | None => mret (tool_error "question already pending")
           | Some iv =>
               update_node node_id (set_question (Some question)) ;;;
               mret (tool_ok (AskUserData iv (n_agent_name node)))
           end)%choir
      end
  | _ => raise Unmodelled
  end.
Definition ask_user_func : FunctionTool := mkTool "ask_user" false ask_user_run.

(** ** [call_subagent] *)

(** The checks on the requesting node, in order. *)
Definition refuse_target (s : OrchestrationState) (target : string) (requester : option NodeState) : option string :=
  match requester with
  | None => None
  | Some r =>
      if bool_decide (target = n_agent_name r) then Some "cannot target the requesting agent"
      else if bool_decide (target ∈ assist_chain_agents s r) then
        Some ("agent already in this assist chain: " +:+ target)
      else match assist_nodes_for s target (n_id r) with
           | [] => None
           | _ => Some ("agent already asked for help: " +:+ target)
           end
  end.

Definition call_subagent_run (args : Args) : M FunctionResult :=
  match args with
  | CallSubagentArgs requested_by target instruction =>
      s ← get_state;
      if bool_decide (requested_by = "assistant") then
        mret (tool_error "assistant dispatch does not create helper nodes")
      else
        match agent_named agents target with
        | None => mret (tool_error ("unknown agent: " +:+ target))
        | Some agent =>
            let requester := get_node s requested_by in
            match refuse_target s target requester with
            | Some msg => mret (tool_error msg)
            | None =>
                helper ← spawn_derived_node HELPER requested_by (ag_name agent)
                  (str_or instruction (build_peer_fallback_input
                     (match requester with Some r => ostr_or (n_question r) estr | None => estr end)))
                  [] (Some requested_by) false;
                mret (match helper with
                      | None => tool_error "max derived nodes reached"
                      | Some h => tool_ok (CallSubagentData (n_id h) (ag_name agent)
                          (match requester with Some r => n_agent_name r | None => estr end))
                      end)
            end
        end
  | _ => raise Unmodelled
  end.
Definition call_subagent_func : FunctionTool := mkTool "call_subagent" true call_subagent_run.

(** ** [create_plan] *)

Definition plan_node (d : PlanNodeDraft) : NodeState :=
  new_node (pd_id d) (pd_name d) (pd_agent_name d) (pd_deps d) (default estr (dget "text" (pd_input d))) false None.

Definition add_plan_nodes (drafts : list PlanNodeDraft) (s : OrchestrationState) : OrchestrationState :=
  set_nodes (foldl (fun d draft => dset (pd_id draft) (plan_node draft) d) (nodes s) drafts) s.

Definition create_plan_run (args : Args) : M FunctionResult :=
  match args with
  | PlanDraftArgs draft =>
      (mod_state (add_plan_nodes (pd_nodes draft)) ;;;
       s ← get_state;
       join_members (filterb str_truthy (n_agent_name <$> dvals (nodes s))) "plan" ;;;
       s ← get_state;
       mret (tool_ok (CreatePlanData (plan_id s) (plan_version s) (node_data <$> dvals (nodes s)))))%choir
  | _ => raise Unmodelled
  end.
Definition create_plan_func : FunctionTool := mkTool "create_plan" true create_plan_run.

(** ** [revise_plan] *)

Definition cancel_question (node : NodeState) (reason : string) : string :=
  "计划修订建议作废进行中的任务 @" +:+ n_agent_name node +:+ "（" +:+ str_or reason "无说明" +:+ "）。是否打断？" +:+
  "回复「确认」打断，回复其他内容则保留。".

(** Ask whether to interrupt one running node that the patch names. *)
Definition ask_interrupt (reason : string) (acc : list (string * json)) (node_id : string) : M (list (string * json)) :=
  s ← get_state;
  match get_node s node_id with
  | None => mret acc
  | Some node =>
      r ← ask node_id (cancel_question node reason) CONFIRM_CANCEL CONFIRM [] false "assistant";
      mret (match r with
            | None => acc
            | Some iv => dset (iv_id iv) (JObj [("status", JStr "pending"); ("node_id", JStr node_id);
                ("kind", JStr "confirm_cancel"); ("question", JStr (iv_question iv))]) acc
            end)
  end.

Definition apply_patch_locked (patch : PlanPatch) : M PatchResult :=
  let known_agents := ag_name <$> agents in
  result ← run_res (fun s => apply_patch s patch known_agents);
  new_interventions ← foldM (ask_interrupt (patch_reason patch)) [] (pr_skipped_in_flight result);
  (when (match new_interventions with [] => false | _ => true end)
     (emit_state_delta [] [] new_interventions TaskState.WORKING) ;;;
   join_members (pn_agent_name <$> filterb (fun d => bool_decide (pn_agent_name d ∈ known_agents)) (patch_add patch))
     "plan_revision" ;;;
   when (match pr_invalidated result with [] => false | _ => true end)
     (emit_state_delta (foldl (fun d k => dset k (JObj [("status", JStr "invalidated")]) d) [] (pr_invalidated result))
        [] [] TaskState.WORKING) ;;;
   persist ;;;
   emit_pending_questions ;;;
   mret result)%choir.

Definition revise_plan_run (args : Args) : M FunctionResult :=
  match args with
  | RevisePlanArgs patch =>
      result ← apply_patch_locked patch;
      s ← get_state;
      mret (tool_ok (RevisePlanData (plan_id s) (plan_version s) (patch_reason patch)
        (omap (fun k => node_data <$> get_node s k) (pr_added result)) result))
  | _ => raise Unmodelled
  end.
Definition revise_plan_func : FunctionTool := mkTool "revise_plan" true revise_plan_run.

(** [revise_plan] (planning/repair.py): run the tool, count the revision. *)
Definition revise_plan (patch : PlanPatch) : M PatchResult :=
  fn_result ← execute_function revise_plan_func (RevisePlanArgs patch) estr;
  let result := match fr_data fn_result with Some (RevisePlanData _ _ _ _ r) => r | _ => empty_patch_result end in
  (when (match pr_added result, pr_invalidated result with [], [] => false | _, _ => true end)
     (mod_state (fun s => set_revision_count (revision_count s + 1)%Z s)) ;;;
   mret result)%choir.

(** ** Mentions and assistance (hitl/assist.py) *)

(** Spawn the assist node of one mention; [true] when the budget is exhausted. *)
Definition assist_mention (k : string) (stop : bool) (name : string) : M bool :=
  if stop then mret true
  else
    node ← node_at k;
    s ← get_state;
    if bool_decide (name = n_agent_name node) then mret false
    else match agent_named agents name with
    | None => mret false
    | Some _ =>
        match assist_nodes_for s name (n_id node) with
        | _ :: _ => mret false
        | [] =>
            helper ← spawn_derived_node ASSIST (n_id node) name (build_assist_input (n_agent_name node) (n_output node))
              [] (Some (n_id node)) true;
            mret (match helper with None => true | Some _ => false end)
        end
    end.

(** Scan the output of a node for mentions and spawn derived assist nodes. *)
Definition arbitrate_mentions (k : string) : M unit :=
  node ← node_at k;
  if ostr_truthy (n_output node) then
    _ ← foldM (assist_mention k) false (fromkeys (find_mentions (default estr (n_output node))));
    mret tt
  else mret tt.

(** Execute [call_subagent] as an assistance decision says. *)
Definition spawn_assist (k : string) (decision : AssistanceResult) : M bool :=
  node ← node_at k;
  result ← execute_function call_subagent_func
    (CallSubagentArgs (n_id node) (ostr_or (as_target_agent decision) estr) (as_instruction decision)) estr;
  mret (fr_success result).
End tools.

Section tools_keep.
Context `{!Env, !Remote} (R : relation World) `{!Evolution R}.

#[export] Instance keeps_ask n q k t o m r : Keeps R (ask n q k t o m r).
Proof. unfold ask. keeps. Qed.
#[export] Instance keeps_ask_user args : Keeps R (ft_run ask_user_func args).
Proof. change (Keeps R (ask_user_run args)). unfold ask_user_run. keeps. Qed.
#[export] Instance keeps_execute_ask args c : Keeps R (execute_function ask_user_func args c).
Proof. apply keeps_execute_function; apply _. Qed.
#[export] Instance keeps_call_subagent args : Keeps R (ft_run call_subagent_func args).
Proof. change (Keeps R (call_subagent_run args)). unfold call_subagent_run. keeps. Qed.
#[export] Instance keeps_execute_call args c : Keeps R (execute_function call_subagent_func args c).
Proof. apply keeps_execute_function; apply _. Qed.
#[export] Instance keeps_ask_interrupt r acc k : Keeps R (ask_interrupt r acc k).
Proof. unfold ask_interrupt. keeps. Qed.
#[export] Instance keeps_patch_locked p : Keeps R (apply_patch_locked p).
Proof. unfold apply_patch_locked. keeps. Qed.
#[export] Instance keeps_revise_func args : Keeps R (ft_run revise_plan_func args).
Proof. change (Keeps R (revise_plan_run args)). unfold revise_plan_run. keeps. Qed.
#[export] Instance keeps_execute_revise args c : Keeps R (execute_function revise_plan_func args c).
Proof. apply keeps_execute_function; apply _. Qed.
#[export] Instance keeps_revise_plan p : Keeps R (revise_plan p).
Proof. unfold revise_plan. keeps. Qed.
#[export] Instance keeps_assist_mention k b n : Keeps R (assist_mention k b n).
Proof. unfold assist_mention. keeps. Qed.
#[export] Instance keeps_arbitrate k : Keeps R (arbitrate_mentions k).
Proof. unfold arbitrate_mentions. keeps. Qed.
#[export] Instance keeps_spawn_assist k d : Keeps R (spawn_assist k d).
Proof. unfold spawn_assist. keeps. Qed.
End tools_keep.
