(* ===== verification/ToolFacts.v ===== *)
(** * Tools: properties *)
From S2P Require Import Prelude PyStr Dict Json State StateFacts Transitions StateJson World Tool Events Evolution.
From S2P Require Import Prompts Helpers Hitl Dag Planner Patch Tools.
Local Open Scope string_scope.
Local Open Scope list_scope.

(** ** Joining changes the members only *)

Definition only_members (w w' : World) : Prop := exists ms, w_state w' = set_members ms (w_state w).

#[export] Instance only_members_joining : Joining only_members.
Proof.
  unfold only_members. split; [split; [split|]|].
  - intros w. exists (members (w_state w)). by destruct (w_state w).
  - intros a b c [m1 ->] [m2 ->]. by exists m2.
  - intros w w' -> _. exists (members (w_state w)). by destruct (w_state w).
  - intros w now name reason. unfold add_member. destruct (dmem _ _); cbn.
    + exists (members (w_state w)). by destruct (w_state w).
    + by eexists.
Qed.

(** ** Creating the plan *)

Lemma add_plan_nodes_fresh drafts s :
  nodes s = [] -> NoDup (pd_id <$> drafts) ->
  nodes (add_plan_nodes drafts s) = (fun d => (pd_id d, plan_node d)) <$> drafts.
Proof.
  intros Hs Hnd. unfold add_plan_nodes. cbn. rewrite Hs.
  enough (forall acc, NoDup (dkeys acc ++ (pd_id <$> drafts)) ->
    foldl (fun d draft => dset (pd_id draft) (plan_node draft) d) acc drafts
    = acc ++ ((fun d => (pd_id d, plan_node d)) <$> drafts)) as H by by apply (H []).
  clear Hs Hnd. induction drafts as [|d l IH]; intros acc Hnd; cbn; [by rewrite app_nil_r|].
  apply NoDup_app in Hnd as (Ha & Hd & Hl). cbn in Hl. apply NoDup_cons in Hl as [Hni Hl].
  rewrite dset_fresh by (intros Hin; apply (Hd _ Hin); cbn; by left).
  rewrite IH; [by rewrite <- app_assoc|]. unfold dkeys. rewrite fmap_app. cbn. rewrite <- app_assoc.
  apply NoDup_app. split; [done|]. split; [|by constructor].
  intros x Hx Hin. apply (Hd x Hx). done.
Qed.

Section create.
Context `{!Env, !Remote}.

Lemma create_plan_nodes draft w w' r :
  nodes (w_state w) = [] -> NoDup (pd_id <$> pd_nodes draft) ->
  create_plan_run (PlanDraftArgs draft) w = (w', Ok r) ->
  nodes (w_state w') = (fun d => (pd_id d, plan_node d)) <$> pd_nodes draft.
Proof.
  intros Hn Hnd E. rewrite <- (add_plan_nodes_fresh _ _ Hn Hnd).
  set (w1 := set_state (add_plan_nodes (pd_nodes draft) (w_state w)) w).
  assert (Keeps only_members (s ← get_state;
       (join_members (filterb str_truthy (n_agent_name <$> dvals (nodes s))) "plan" ;;;
       s ← get_state;
       mret (tool_ok (CreatePlanData (plan_id s) (plan_version s) (node_data <$> dvals (nodes s))))))%choir) as Hk by keeps.
  destruct (Hk w1) as [ms Hms]. change (create_plan_run (PlanDraftArgs draft) w) with
    ((s ← get_state;
       (join_members (filterb str_truthy (n_agent_name <$> dvals (nodes s))) "plan" ;;;
       s ← get_state;
       mret (tool_ok (CreatePlanData (plan_id s) (plan_version s) (node_data <$> dvals (nodes s))))))%choir w1) in E.
  rewrite E in Hms. cbn in Hms. rewrite Hms. done.
Qed.

Lemma find_plan_node drafts k :
  dget k ((fun d => (pd_id d, plan_node d)) <$> drafts) = plan_node <$> find_first (fun n => bool_decide (pd_id n = k)) drafts.
Proof.
  induction drafts as [|d l IH]; cbn; [done|]. destruct (decide (k = pd_id d)) as [->|Hne].
  - by rewrite bool_decide_true.
  - rewrite bool_decide_false by congruence. exact IH.
Qed.

Lemma create_plan_ok draft max_nodes w w' r :
  validate_plan draft max_nodes = Ok tt -> nodes (w_state w) = [] ->
  create_plan_run (PlanDraftArgs draft) w = (w', Ok r) ->
  dkeys (nodes (w_state w')) = pd_id <$> pd_nodes draft /\
  (forall n, n ∈ dvals (nodes (w_state w')) -> n_status n = NodeStatus.PENDING /\ n_attempt n = 0%Z) /\
  plan_ok (w_state w') /\
  (pd_nodes draft <> [] -> ready_nodes (w_state w') <> []).
Proof.
  intros Hv Hn E.
  assert ((Z.of_nat (length (pd_nodes draft)) <= max_nodes)%Z /\ NoDup (pd_id <$> pd_nodes draft) /\
    (forall n d, n ∈ pd_nodes draft -> d ∈ pd_deps n -> d ∈ pd_id <$> pd_nodes draft /\ d <> pd_id n) /\
    acyclic (draft_graph draft)) as (_ & Hnd & Hdeps & Hac) by (by apply validate_plan_ok in Hv).
  pose proof (create_plan_nodes draft w w' r Hn Hnd E) as Hns.
  assert (forall k, plan_graph (w_state w') k = draft_graph draft k) as Hg.
  { intros k. unfold plan_graph, draft_graph, get_node. rewrite Hns, find_plan_node. by destruct (find_first _ _). }
  assert (plan_ok (w_state w')) as Hok.
  { split; [|by eapply acyclic_ext; [intros k; symmetry; apply Hg|]].
    eapply closed_ext; [intros k; symmetry; apply Hg|].
    intros k ds d (n & Hin & <- & <-)%draft_graph_some Hd. destruct (Hdeps n d Hin Hd) as [(m & -> & Hm)%list_elem_of_fmap _].
    rewrite draft_graph_node by done. eauto. }
  assert (forall n, n ∈ dvals (nodes (w_state w')) -> exists d, d ∈ pd_nodes draft /\ n = plan_node d) as Hvals.
  { intros n. unfold dvals. rewrite Hns, <- list_fmap_compose, list_elem_of_fmap. naive_solver. }
  split; [unfold dkeys; rewrite Hns, <- list_fmap_compose; by apply list_fmap_ext|].
  split; [intros n (d & _ & ->)%Hvals; done|]. split; [done|].
  intros Hne. destruct Hok as [Hcl Hacy].
  destruct (dag_progress (plan_graph (w_state w')) (dkeys (nodes (w_state w'))) (fun _ => false)) as (k & ds & Hk & _ & Hd);
    [done|done| | |].
  - intros k [ds Hk]. unfold plan_graph, get_node in Hk. destruct (dget k _) eqn:Ek; [|done]. by eapply dget_Some_key.
  - destruct (pd_nodes draft) as [|d l] eqn:Ed; [done|]. exists (pd_id d). rewrite Hg, draft_graph_node.
    + eauto.
    + by rewrite Ed.
    + rewrite Ed. by left.
  - assert (ds = []) as ->. { destruct ds as [|d ds]; [done|]. by specialize (Hd d (list_elem_of_here _ _)). }
    unfold plan_graph, get_node in Hk. destruct (dget k (nodes (w_state w'))) as [n|] eqn:Ek; [|done].
    injection Hk as Hk. intros Hnil. apply filterb_nil with (x := n) in Hnil; [|by eapply dget_dvals].
    destruct (Hvals n) as (d & _ & ->); [by eapply dget_dvals|]. unfold is_ready in Hnil. by rewrite Hk in Hnil.
Qed.

(** An accepted draft becomes a sound plan. After [create_plan] ran on a
    draft that [validate_plan] accepts (the node table being empty, as
    [start_new_plan] leaves it), the nodes are the draft's, in order, all pending
    and not attempted; their dependencies are nodes of the plan without a cycle;
    and unless the plan is empty some node is ready to be dispatched. *)
Theorem create_plan_sound draft max_nodes w w' r :
  validate_plan draft max_nodes = Ok tt -> nodes (w_state w) = [] ->
  create_plan_run (PlanDraftArgs draft) w = (w', Ok r) ->
  dkeys (nodes (w_state w')) = pd_id <$> pd_nodes draft /\
  (forall n, n ∈ dvals (nodes (w_state w')) -> n_status n = NodeStatus.PENDING /\ n_attempt n = 0%Z) /\
  plan_ok (w_state w') /\
  (pd_nodes draft <> [] -> ready_nodes (w_state w') <> []).
Proof. apply create_plan_ok. Qed.

(** ** Asking a peer for help *)

(** Helpers never loop. [call_subagent] on behalf of a node succeeds only for a
    registered agent that is neither the requester's nor that of any node above
    it in the chain of requests, that was not asked by this node before, and
    while the budget of derived nodes lasts; each success uses up one unit. *)
Theorem call_subagent_guard w w' by_ target instruction n r :
  wf_state (w_state w) -> get_node (w_state w) by_ = Some n ->
  call_subagent_run (CallSubagentArgs by_ target instruction) w = (w', Ok r) -> fr_success r = true ->
  (exists a, a ∈ agents /\ ag_name a = target) /\
  (forall m, in_chain (w_state w) n m -> n_agent_name m <> target) /\
  assist_nodes_for (w_state w) target by_ = [] /\
  (derived_count (w_state w) < max_derived_nodes config)%Z.
Proof.
  intros Hwf Hn E Hr. unfold call_subagent_run, get_state, mbind, M_bind in E. cbn beta iota zeta in E.
  case_bool_decide; [by injection E as _ <-|].
  destruct (agent_named agents target) as [ag|] eqn:Ea; [|by injection E as _ <-].
  rewrite Hn in E. unfold refuse_target in E.
  case_bool_decide as Ht1; [by injection E as _ <-|]. case_bool_decide as Ht2; [by injection E as _ <-|].
  destruct (assist_nodes_for (w_state w) target (n_id n)) eqn:Ht3; [|by injection E as _ <-].
  rewrite (wf_get_id _ Hwf by_ n Hn) in Ht3.
  apply find_first_some in Ea as [Hin Hname]. bool_prop.
  split; [by exists ag|]. split.
  - intros m Hm Hname'. apply Ht2. apply (assist_chain_agents_elem _ Hwf n target); [by rewrite (wf_get_id _ Hwf by_ n Hn)|].
    by exists m.
  - split; [done|]. unfold spawn_derived_node, run_state, derive, mbind, M_bind in E.
    destruct (Z.leb_spec (max_derived_nodes config) (derived_count (w_state w))); [|done].
    cbn in E. by injection E as _ <-.
Qed.
End create.

(** ** Ids of derived nodes *)

(** A plan whose second node has the id of the first node's follow-up. *)
Definition colliding_nodes : OrchestrationState :=
  set_nodes [node_with NodeStatus.COMPLETED "n1" "a" []; node_with NodeStatus.COMPLETED "n1-f1" "b" ["n1"]] empty_state.

#[local] Instance plain_env : Env := {|
  config := default_config; agents := []; uuid_hex t := "u" +:+ pretty (Z.of_nat t); now_iso t := "now"; dumps _ := "{}"; py_repr _ := "?" |}.

(** The id of a derived node is not checked against the plan. With a plan node
    called [n1-f1], the first follow-up of [n1] replaces it: the completed node and
    its output are gone. *)
Theorem derived_id_collides :
  let n1 := snd (node_with NodeStatus.COMPLETED "n1" "a" []) in
  let w' := fst (spawn_followup_node "more" n1 None (world_of colliding_nodes)) in
  n_status <$> get_node colliding_nodes "n1-f1" = Some NodeStatus.COMPLETED /\
  n_status <$> get_node (w_state w') "n1-f1" = Some NodeStatus.PENDING /\
  length (nodes (w_state w')) = 2.
Proof. repeat split; vm_compute; done. Qed.
