(* ===== verification/NodeExec.v ===== *)
(** * Running one node (orchestration/flows/outcome.py,
    orchestration/execution/node_executor.py)

    What a completed reply means for the plan (deliver, ask, revise), and the
    execution of one node from dispatch to its settled status. The node is held
    by its key [k]. *)
From S2P Require Import Prelude PyStr Dict Json State StateFacts Transitions StateJson World Tool Events Evolution.
From S2P Require Import Prompts Helpers Hitl Dag Engine Llm Patch Tools RemoteCaller.
Local Open Scope string_scope.
Local Open Scope list_scope.

(** ** Receipt markers *)

Record Marker := mkMarker { mk_intent : intent; mk_text : string }.

Definition _INTENT_MAP : list (string * intent) :=
  [("deliver", Deliver); ("need_info", NeedInfo); ("assist", NeedInfo); ("revise", Revise)].

(** [_MARKER_RE.match(line)] on a line without newlines. *)
Fixpoint match_marker (tags : list (string * intent)) (line : string) : option Marker :=
  match tags with
  | [] => None
  | (tag, i) :: tags' =>
      match strip_prefix ("[cw:" +:+ tag +:+ "]") line with
      | Some rest => Some (mkMarker i (ustrip rest))
      | None => match_marker tags' line
      end
  end.

(** Only the first non-empty line counts. *)
Fixpoint first_marker (lines : list string) : option Marker :=
  match lines with
  | [] => None
  | line :: lines' => if str_truthy (ustrip line) then match_marker _INTENT_MAP line else first_marker lines'
  end.
Definition parse_marker (output : option string) : option Marker :=
  if ostr_truthy output then first_marker (splitlines (default estr output)) else None.

Section node.
Context `{!Env, !Remote, !Llm} (poll_budget : nat).

(** ** The outcome flow *)

Definition decided (k : string) (r : OutcomeResult) : M OutcomeResult :=
  (record_decision ("[outcome:" +:+ k +:+ "] " +:+ intent_value (oc_intent r)) ;;; mret r)%choir.

Definition _interpret_outcome (k : string) : M OutcomeResult :=
  node ← node_at k;
  match parse_marker (n_output node) with
  | Some marker => decided (n_id node) (mkOutcome (mk_intent marker) (mk_text marker) None)
  | None =>
      if ostr_truthy (n_output node) then
        let candidates := filterb (fun a => negb (bool_decide (ag_name a = n_agent_name node))) agents in
        let user := build_outcome_user (n_agent_name node) (n_input_text node) (default estr (n_output node)) candidates in
        decision ← catch (run_agent outcome_agent user)
          (fun e => if is_exception e then Some (mret (mkOutcome Deliver estr None)) else None);
        decided (n_id node) decision
      else decided (n_id node) (mkOutcome Deliver estr None)
  end.

Inductive outcome_step := _interpret | _mark_input_required | _revise | _mark_delivered | _arbitrate | _deliver_queued.
#[export] Instance outcome_step_eq_dec : EqDecision outcome_step.
Proof. solve_decision. Defined.

Record OutcomePayload := mkOutcomePayload { op_node : string; op_decision : option OutcomeResult }.

Definition outcome_flow : Flow outcome_step := mkFlow "outcome_flow" _interpret
  [mkEdge _interpret _mark_delivered ["deliver"];
   mkEdge _interpret _mark_input_required ["need_info"];
   mkEdge _interpret _revise ["revise"];
   mkEdge _revise _mark_delivered [];
   mkEdge _mark_delivered _arbitrate [];
   mkEdge _arbitrate _deliver_queued []].

(** The routes each handler declares. *)
Definition outcome_hints (h : outcome_step) : option (option annotation) :=
  match h with _interpret => returns ["deliver"; "need_info"; "revise"] | _ => returns_other end.
Definition outcome_literal (h : outcome_step) : list string := _literal_routes (outcome_hints h).

Definition run_interpret (p : OutcomePayload) : M (OutcomePayload * step_result) :=
  decision ← _interpret_outcome (op_node p);
  mret (mkOutcomePayload (op_node p) (Some decision), Route (intent_value (oc_intent decision))).

Definition run_mark_input_required (p : OutcomePayload) : M (OutcomePayload * step_result) :=
  let k := op_node p in
  (node ← node_at k;
   let asked := match op_decision p with Some d => oc_question d | None => estr end in
   update_node k (set_question (if str_truthy asked then Some asked else n_output node)) ;;;
   update_node k (set_a2a_task_id None) ;;;
   node ← node_at k;
   transition k NodeStatus.INPUT_REQUIRED true
     [("question", JStr (ostr_or (n_question node) estr)); ("agent_name", JStr (n_agent_name node))] [] ;;;
   mret (p, Exit END_))%choir.

Definition run_revise (p : OutcomePayload) : M (OutcomePayload * step_result) :=
  ((match op_decision p with
    | Some (mkOutcome Revise _ (Some patch)) =>
        s ← get_state;
        if (revision_count s <? max_revisions config)%Z then (_ ← revise_plan patch; mret tt) else mret tt
    | _ => mret tt
    end) ;;;
   mret (p, Route estr))%choir.

Definition run_mark_delivered (p : OutcomePayload) : M (OutcomePayload * step_result) :=
  (node ← node_at (op_node p);
   transition (op_node p) NodeStatus.COMPLETED true
     [("agent_name", JStr (n_agent_name node)); ("output", JStr (utake 200 (ostr_or (n_output node) estr)))] [] ;;;
   mret (p, Route estr))%choir.

Definition run_arbitrate (p : OutcomePayload) : M (OutcomePayload * step_result) :=
  (arbitrate_mentions (op_node p) ;;; mret (p, Route estr))%choir.

Definition run_deliver_queued (p : OutcomePayload) : M (OutcomePayload * step_result) :=
  (node ← node_at (op_node p);
   messages ← run_state (fun s => take_queued s (n_id node));
   match messages with
   | [] => mret tt
   | _ => spawn_followup_node (str_join nl2 (q_text <$> messages)) node (Some [n_id node])
   end ;;;
   mret (p, Exit END_))%choir.

Definition outcome_handler (h : outcome_step) : OutcomePayload -> M (OutcomePayload * step_result) :=
  match h with
  | _interpret => run_interpret
  | _mark_input_required => run_mark_input_required
  | _revise => run_revise
  | _mark_delivered => run_mark_delivered
  | _arbitrate => run_arbitrate
  | _deliver_queued => run_deliver_queued
  end.

(** ** The executor *)

(** The message for the agent; an answer is used up by the message that carries it. *)
Definition build_node_text (k : string) : M (list string) :=
  node ← node_at k;
  s ← get_state;
  match n_answer_text node with
  | Some answer =>
      (update_node k (set_answer None None) ;;;
       update_node k (set_question None) ;;;
       mret (build_continuation_text node s agents (ostr_or (n_question node) estr) answer (n_answer_from node)))%choir
  | None => mret (build_dispatch_text node s agents)
  end.

Inductive exec_mode := Dispatch | Continue | Recover.

(** The body of the [try]: one turn of the remote agent. *)
Definition remote_turn (mode : exec_mode) (k : string) : M node_status :=
  match mode with
  | Recover => recover_remote poll_budget k
  | _ => text ← build_node_text k;
         stream_remote poll_budget k text (match mode with Continue => true | _ => false end)
  end.

(** Its [except] clauses: the error is kept on the node, which still counts as working. *)
Definition guarded_turn (mode : exec_mode) (k : string) : M node_status :=
  catch (remote_turn mode k) (fun e =>
    match e with
    | TimeoutError => Some (update_node k (set_error (Some ("node timed out after " +:+ node_timeout config +:+ "s"))) ;;;
                            mret NodeStatus.WORKING)%choir
    | _ => if is_exception e then
             Some (update_node k (set_error (Some (exn_str e))) ;;; mret NodeStatus.WORKING)%choir
           else None
    end).

(** What the status of the remote task makes of the node. *)
Definition settle_status (k : string) (current : node_status) : M unit :=
  match current with
  | NodeStatus.COMPLETED =>
      (node ← node_at k;
       when (ostr_truthy (n_output node))
         (record_decision ("[" +:+ n_agent_name node +:+ "] " +:+ default estr (n_output node))) ;;;
       _ ← flow_run outcome_handler outcome_flow (mkOutcomePayload k None);
       mret tt)%choir
  | NodeStatus.CANCELED => transition k NodeStatus.CANCELED true [] []
  | NodeStatus.INPUT_REQUIRED =>
      node ← node_at k;
      transition k NodeStatus.INPUT_REQUIRED true
        [("question", JStr (ostr_or (n_question node) estr)); ("agent_name", JStr (n_agent_name node))] []
  | _ =>
      node ← node_at k;
      transition k NodeStatus.FAILED true [("error", JStr (ostr_or (n_error node) "unknown error"))] []
  end.

(** Count the attempt and announce it. *)
Definition start_node (k : string) (mode : exec_mode) : M unit :=
  ((match mode with Recover => mret tt | _ => update_node k (fun n => set_attempt (n_attempt n + 1)%Z n) end) ;;;
   node ← node_at k;
   match mode with
   | Dispatch => transition k NodeStatus.SUBMITTED true [("input_text", JStr (n_input_text node))] []
   | Recover => transition k NodeStatus.RECOVER true [("a2a_task_id", json_opt (n_a2a_task_id node))] []
   | Continue => mret tt
   end)%choir.

(** Close the questions of the node and publish those still pending. *)
Definition finish_node (k : string) : M unit :=
  (expired ← run_state (fun s => expire_node_interventions s k);
   emit_interventions_expired expired ;;;
   persist ;;;
   emit_pending_questions)%choir.

Definition execute_node (k : string) (mode : exec_mode) : M unit :=
  (start_node k mode ;;;
   current ← guarded_turn mode k;
   settle_status k current ;;;
   finish_node k)%choir.
End node.

(** ** What running a node keeps *)

Section node_keep.
Context `{!Env, !Remote, !Llm} (poll_budget : nat) (R : relation World) `{!Evolution R}.

#[export] Instance keeps_decided k r : Keeps R (decided k r).
Proof. unfold decided. keeps. Qed.
#[export] Instance keeps_interpret_outcome k : Keeps R (_interpret_outcome k).
Proof. unfold _interpret_outcome. keeps. Qed.
Lemma keeps_outcome_handler h p : Keeps R (outcome_handler h p).
Proof.
  destruct h; cbn [outcome_handler];
    unfold run_interpret, run_mark_input_required, run_revise, run_mark_delivered, run_arbitrate, run_deliver_queued;
    keeps.
Qed.
#[export] Instance keeps_build_node_text k : Keeps R (build_node_text k).
Proof. unfold build_node_text. keeps. Qed.
#[export] Instance keeps_remote_turn m k : Keeps R (remote_turn poll_budget m k).
Proof. unfold remote_turn. keeps. Qed.
#[export] Instance keeps_guarded_turn m k : Keeps R (guarded_turn poll_budget m k).
Proof. unfold guarded_turn. keeps. Qed.
#[export] Instance keeps_settle_status k st : Keeps R (settle_status k st).
Proof. unfold settle_status. keeps. apply (keeps_flow_run R). apply keeps_outcome_handler. Qed.
#[export] Instance keeps_start_node k m : Keeps R (start_node k m).
Proof. unfold start_node. keeps. Qed.
#[export] Instance keeps_finish_node k : Keeps R (finish_node k).
Proof. unfold finish_node. keeps. Qed.
#[export] Instance keeps_execute_node k m : Keeps R (execute_node poll_budget k m).
Proof. unfold execute_node. keeps. Qed.
End node_keep.
