(* ===== verification/NodeFacts.v ===== *)
(** * Facts about running a node

    The receipt marker, the questions a node asks, and the end of a turn that
    failed. *)
From S2P Require Import Prelude PyStr Dict Json State StateFacts Transitions StateJson World Tool Events Evolution.
From S2P Require Import Prompts Helpers Hitl Dag Engine Llm Patch Tools ToolFacts RemoteCaller NodeExec.
Local Open Scope string_scope.
Local Open Scope list_scope.

(** ** Steps with a known result *)

Lemma wp_run {A B} (m : M B) (f : B -> M A) w w1 b (Q : World -> res A -> Prop) :
  m w = (w1, Ok b) -> wp (f b) w1 Q -> wp (m ≫= f) w Q.
Proof. intros E H. apply wp_bind. unfold wp at 1. by rewrite E. Qed.

Lemma wp_exact {A} (m : M A) w w1 r (Q : World -> res A -> Prop) : m w = (w1, r) -> Q w1 r -> wp m w Q.
Proof. unfold wp. by intros ->. Qed.

Lemma wp_elim {A} (m : M A) w (Q : World -> res A -> Prop) : wp m w Q -> exists w' r, m w = (w', r) /\ Q w' r.
Proof. unfold wp. destruct (m w) as [w' r]. eauto. Qed.

Section runs.
Context `{!Env}.

Lemma transition_run w k n to e d ivs :
  get_node (w_state w) k = Some n -> can_transition n to = true ->
  exists w', transition k to e d ivs w = (w', Ok tt) /\
    quiet (set_state (upd_node k (set_status to) (w_state w)) w) w'.
Proof.
  intros Hn Hc.
  enough (wp (transition k to e d ivs) w (fun w' r => r = Ok tt /\
    quiet (set_state (upd_node k (set_status to) (w_state w)) w) w')) as Hwp.
  { apply wp_elim in Hwp as (w' & r & E & -> & Hq). eauto. }
  unfold transition. eapply wp_transition_at; [done..|].
  eapply (wp_node_at _ (set_status to n)).
  { cbn [w_state set_state]. by rewrite get_upd_node, decide_True, Hn. }
  destruct e; cbn [when]; [|by apply wp_ret].
  match goal with |- wp ?m ?w0 _ => destruct ((_ : Quiet m) w0) as (w1 & [] & E & Hq) end.
  eapply wp_exact; [exact E | done].
Qed.

Lemma announce_run l : forall w, exists w', mapM_ announce l w = (w', Ok tt) /\ nodes (w_state w') = nodes (w_state w).
Proof.
  induction l as [|iv l IH]; intros w; [by exists w|].
  enough (wp (mapM_ announce (iv :: l)) w (fun w' r => r = Ok tt /\ nodes (w_state w') = nodes (w_state w))) as Hwp.
  { apply wp_elim in Hwp as (w' & r & E & -> & Hn). eauto. }
  cbn [mapM_]. apply wp_bind. unfold announce. wp_quiet_as w1 u Hq E.
  eapply wp_exact; [reflexivity|]. cbn [snd].
  match goal with |- wp _ ?w0 _ => destruct (IH w0) as (w2 & E2 & Hn) end.
  eapply wp_exact; [exact E2|]. split; [done|]. rewrite Hn. cbn. by rewrite (q_state _ _ Hq).
Qed.

(** Publishing the questions changes no node and leaves the snapshot current. *)
Lemma emit_pending_run w : synced w ->
  exists w', emit_pending_questions w = (w', Ok tt) /\ synced w' /\ nodes (w_state w') = nodes (w_state w).
Proof.
  intros Hs.
  enough (wp emit_pending_questions w
    (fun w' r => r = Ok tt /\ synced w' /\ nodes (w_state w') = nodes (w_state w))) as Hwp.
  { apply wp_elim in Hwp as (w' & r & E & -> & ?). eauto. }
  assert (forall w1 pending, wp (msg ← build_questions_message pending; emit_event TaskState.INPUT_REQUIRED [] (Some msg)) w1
    (fun w' r => r = Ok tt /\ quiet w1 w')) as Hend.
  { intros w1 pending.
    assert (Quiet (build_questions_message pending)) by (unfold build_questions_message; quiet).
    wp_quiet_as w2 msg Hq E.
    destruct (quiet_emit_event TaskState.INPUT_REQUIRED [] (Some msg) w2) as (w3 & [] & E3 & Hq3).
    eapply wp_exact; [exact E3|]. split; [done | by etrans]. }
  unfold emit_pending_questions. apply wp_get_state.
  destruct (pending_interventions (w_state w)) as [|p pending]; [by apply wp_ret|].
  generalize (filterb (fun iv => negb (iv_announced iv)) (p :: pending)) as newly. intros newly.
  destruct newly as [|x newly].
  - eapply wp_run; [reflexivity|]. cbn [when]. eapply wp_run; [reflexivity|].
    eapply wp_conseq; [apply Hend|]. intros w' r [-> Hq]. split; [done|]. split; [by eapply quiet_synced|].
    by rewrite (q_state _ _ Hq).
  - destruct (announce_run (x :: newly) w) as (w1 & E1 & Hn). eapply wp_run; [exact E1|]. cbn [when].
    apply wp_persist. intros w2 Hq2 Hs2. eapply wp_conseq; [apply Hend|]. intros w' r [-> Hq].
    split; [done|]. split; [by eapply quiet_synced|]. by rewrite (q_state _ _ Hq), (q_state _ _ Hq2).
Qed.

(** The end of a turn: no node changes and the session is saved. *)
Lemma finish_run w k :
  exists w', finish_node k w = (w', Ok tt) /\ synced w' /\ nodes (w_state w') = nodes (w_state w).
Proof.
  enough (wp (finish_node k) w (fun w' r => r = Ok tt /\ synced w' /\ nodes (w_state w') = nodes (w_state w))) as Hwp.
  { apply wp_elim in Hwp as (w' & r & E & -> & ?). eauto. }
  unfold finish_node. apply wp_run_state. wp_quiet_as w1 u Hq E. apply wp_persist. intros w2 Hq2 Hs2.
  destruct (emit_pending_run w2 Hs2) as (w3 & E3 & Hs3 & Hn). eapply wp_exact; [exact E3|].
  split; [done|]. split; [done|]. by rewrite Hn, (q_state _ _ Hq2), (q_state _ _ Hq).
Qed.
End runs.

(** ** Receipt markers *)

Lemma match_marker_spec line m :
  match_marker _INTENT_MAP line = Some m <->
  exists tag i text, (tag, i) ∈ _INTENT_MAP /\ line = ("[cw:" +:+ tag +:+ "]") +:+ text /\ m = mkMarker i (ustrip text).
Proof.
  split.
  - generalize _INTENT_MAP. intros l. induction l as [|[tag i] l IH]; cbn [match_marker]; [done|].
    destruct (strip_prefix _ line) as [rest|] eqn:E.
    + intros [= <-]. apply strip_prefix_Some in E. exists tag, i, rest. repeat split; [by left | done].
    + intros (tag' & i' & text & ? & ? & ?)%IH. exists tag', i', text. repeat split; [by right | done | done].
  - intros (tag & i & text & Hin & -> & ->). unfold _INTENT_MAP in *.
    rewrite !elem_of_cons, elem_of_nil in Hin.
    destruct_or!; simplify_eq; done.
Qed.

Lemma first_marker_spec lines m :
  first_marker lines = Some m <->
  exists blanks line rest, lines = blanks ++ line :: rest /\ Forall (fun l => ustrip l = estr) blanks /\
    ustrip line <> estr /\ match_marker _INTENT_MAP line = Some m.
Proof.
  induction lines as [|l lines IH]; cbn [first_marker].
  { split; [done|]. by intros ([|]&?&?&?&_). }
  destruct (str_truthy (ustrip l)) eqn:E.
  - apply str_truthy_true in E. split.
    + intros Hm. by exists [], l, lines.
    + intros (blanks & line & rest & Heq & Hb & Hl & Hm). destruct blanks as [|b blanks]; cbn in Heq; [by simplify_eq|].
      inversion Hb; simplify_eq; done.
  - assert (ustrip l = estr) as El. { destruct (decide (ustrip l = estr)) as [|Hn]; [done|]. apply str_truthy_true in Hn. congruence. }
    rewrite IH. split.
    + intros (blanks & line & rest & -> & Hb & Hl & Hm). exists (l :: blanks), line, rest. repeat split; auto.
    + intros (blanks & line & rest & Heq & Hb & Hl & Hm). destruct blanks as [|b blanks]; cbn in Heq; [by simplify_eq|].
      inversion Hb; simplify_eq. by exists blanks, line, rest.
Qed.

(** What counts as a receipt marker. A reply carries a marker exactly when its
    first non-blank line starts with [cw:<tag>] in brackets for one of the four
    tags; its intent is the tag's and its text the stripped rest of the line.
    Nothing on a later line counts, so an agent that echoes its instructions,
    which show the markers, after its own words sends none. *)
Theorem parse_marker_spec o m :
  parse_marker (Some o) = Some m <->
  exists blanks line rest tag i text,
    splitlines o = blanks ++ line :: rest /\ Forall (fun l => ustrip l = estr) blanks /\ ustrip line <> estr /\
    (tag, i) ∈ _INTENT_MAP /\ line = ("[cw:" +:+ tag +:+ "]") +:+ text /\ m = mkMarker i (ustrip text).
Proof.
  assert (parse_marker (Some o) = first_marker (splitlines o)) as ->.
  { unfold parse_marker. cbn. unfold str_truthy. case_bool_decide; by simplify_eq. }
  rewrite first_marker_spec. split.
  - intros (blanks & line & rest & H1 & H2 & H3 & (tag & i & text & H4)%match_marker_spec). naive_solver.
  - intros (blanks & line & rest & tag & i & text & H1 & H2 & H3 & H4).
    exists blanks, line, rest. rewrite match_marker_spec. naive_solver.
Qed.

Section facts.
Context `{!Env, !Remote, !Llm}.

(** The node of a reply that asks for something. *)
Definition asking (t : string) (n : NodeState) : NodeState :=
  set_status NodeStatus.INPUT_REQUIRED
    (set_a2a_task_id None (set_question (if str_truthy t then Some t else n_output n) n)).

(** A reply that asks is not delivered. When the reply of a node starts with a
    marker that asks for information or help, the outcome flow decides without
    the model, ends, and changes exactly that node: it waits for input, asks the
    text of the marker (or its whole reply when the marker has none), and has
    dropped its remote task, so that the answer opens a new one. *)
Theorem outcome_need_info w k n t :
  get_node (w_state w) k = Some n -> can_transition n NodeStatus.INPUT_REQUIRED = true ->
  parse_marker (n_output n) = Some (mkMarker NeedInfo t) ->
  exists w', flow_run outcome_handler outcome_flow (mkOutcomePayload k None) w = (w', Ok END_) /\
    w_state w' = upd_node k (fun _ => asking t n) (w_state w).
Proof.
  intros Hn Hc Hp.
  enough (wp (flow_run outcome_handler outcome_flow (mkOutcomePayload k None)) w (fun w' r => r = Ok END_ /\
    w_state w' = upd_node k (fun _ => asking t n) (w_state w))) as Hwp.
  { apply wp_elim in Hwp as (w' & r & E & -> & ?). eauto. }
  unfold flow_run. cbn [flow_loop f_start outcome_flow outcome_handler]. unfold run_interpret. cbn [op_node].
  apply wp_bind, wp_bind. unfold _interpret_outcome. eapply (wp_node_at _ n); [done|]. rewrite Hp.
  unfold decided. wp_quiet_as w1 u Hq E. apply wp_ret, wp_ret. cbn beta iota.
  replace (_target_for _ _ _) with (Some _mark_input_required) by reflexivity.
  change (length (_nodes _)) with 6. cbn [flow_loop outcome_handler]. apply wp_bind.
  unfold run_mark_input_required. cbn [op_node op_decision oc_question].
  eapply (wp_node_at _ n); [by rewrite (q_state _ _ Hq)|].
  apply wp_update_node, wp_update_node.
  set (q := if str_truthy t then Some t else n_output n).
  assert (get_node (upd_node k (set_a2a_task_id None) (upd_node k (set_question q) (w_state w1))) k
    = Some (set_a2a_task_id None (set_question q n))) as Hn2.
  { assert (get_node (w_state w1) k = Some n) as Hn1 by by rewrite (q_state _ _ Hq).
    rewrite get_upd_node, decide_True by done. rewrite get_upd_node, decide_True by done. by rewrite Hn1. }
  eapply wp_node_at; [exact Hn2|].
  match goal with |- wp (transition _ _ _ ?d _ ≫= _) ?w0 _ =>
    destruct (transition_run w0 k _ NodeStatus.INPUT_REQUIRED true d [] Hn2 Hc) as (w2 & E2 & Hq2) end.
  eapply wp_run; [exact E2|]. apply wp_ret. cbn beta iota. apply wp_ret. split; [done|].
  rewrite (q_state _ _ Hq2). cbn [w_state set_state]. rewrite (q_state _ _ Hq), !upd_node_upd_node.
  unfold upd_node, dupd. unfold get_node in Hn. by rewrite Hn.
Qed.

(** What the node keeps of an exception. *)
Definition error_text (e : exn) : string :=
  match e with TimeoutError => "node timed out after " +:+ node_timeout config +:+ "s" | _ => exn_str e end.

(** A failed turn fails its node and nothing else. When the remote turn of a
    node ends in an exception other than a cancellation, executing the node still
    returns: the node is failed and carries the error, every other node is as the
    turn left it, and the session is saved. *)
Theorem execute_node_failure budget w w1 w2 k mode e n :
  start_node k mode w = (w1, Ok tt) -> remote_turn budget mode k w1 = (w2, Err e) -> is_exception e = true ->
  get_node (w_state w2) k = Some n -> can_transition n NodeStatus.FAILED = true ->
  exists w', execute_node budget k mode w = (w', Ok tt) /\ synced w' /\
    get_node (w_state w') k = Some (set_status NodeStatus.FAILED (set_error (Some (error_text e)) n)) /\
    forall k', k' <> k -> get_node (w_state w') k' = get_node (w_state w2) k'.
Proof.
  intros Hstart Hturn He Hn Hc.
  enough (wp (execute_node budget k mode) w (fun w' r => r = Ok tt /\ synced w' /\
    get_node (w_state w') k = Some (set_status NodeStatus.FAILED (set_error (Some (error_text e)) n)) /\
    forall k', k' <> k -> get_node (w_state w') k' = get_node (w_state w2) k')) as Hwp.
  { apply wp_elim in Hwp as (w' & r & E & -> & ?). eauto. }
  set (w3 := set_state (upd_node k (set_error (Some (error_text e))) (w_state w2)) w2).
  assert (guarded_turn budget mode k w1 = (w3, Ok NodeStatus.WORKING)) as Hg.
  { unfold guarded_turn, catch. rewrite Hturn. destruct e; try done. }
  unfold execute_node. eapply wp_run; [exact Hstart|]. eapply wp_run; [exact Hg|]. cbn [settle_status].
  assert (get_node (w_state w3) k = Some (set_error (Some (error_text e)) n)) as Hn3.
  { unfold w3. cbn [w_state set_state]. by rewrite get_upd_node, decide_True, Hn. }
  apply wp_bind. eapply wp_node_at; [exact Hn3|].
  match goal with |- wp (transition _ _ _ ?d _) _ _ =>
    destruct (transition_run w3 k _ NodeStatus.FAILED true d [] Hn3 Hc) as (w4 & E4 & Hq4) end.
  eapply wp_exact; [exact E4|]. cbn beta iota.
  destruct (finish_run w4 k) as (w5 & E5 & Hs5 & Hns5). eapply wp_exact; [exact E5|].
  split; [done|]. split; [done|].
  assert (forall j, get_node (w_state w5) j = get_node (upd_node k (set_status NodeStatus.FAILED) (w_state w3)) j) as Hget.
  { intros j. unfold get_node. by rewrite Hns5, (q_state _ _ Hq4). }
  split.
  - by rewrite Hget, get_upd_node, decide_True, Hn3.
  - intros k' Hk. rewrite Hget, get_upd_node, decide_False by done. unfold w3. cbn [w_state set_state].
    by rewrite get_upd_node, decide_False.
Qed.
End facts.
