(* ===== verification/RemoteCallerFacts.v ===== *)
(** * What the stream of a remote agent makes of a node (facts of RemoteCaller.v)

    The chunks are consumed one by one: the texts of the artifacts, the status, the
    question. Whatever their order, the output of the node is what the artifacts
    come to at the end. *)
From S2P Require Import Prelude PyStr Dict Json State StateFacts Transitions StateJson World Tool Events Evolution.
From S2P Require Import Helpers RemoteCaller NodeFacts.
Local Open Scope string_scope.
Local Open Scope list_scope.

(** One chunk, as it is seen from outside: the artifacts, the status, the node. *)
Definition chunk_artifacts (c : StreamResponse) (l : list Piece) : list Piece :=
  match c with
  | SrTask task => match t_artifacts task with [] => l | arts => (fun a => mkPiece (art_id a) (art_name a) (join_text (art_parts a))) <$> arts end
  | SrStatus _ _ _ => l
  | SrArtifact art append _ => merge_piece l (art_id art) (art_name art) (join_text (art_parts art)) append
  | SrMessage msg => l ++ [mkPiece "message" "message" (join_text (msg_parts msg))]
  end.
Definition chunk_status (c : StreamResponse) (current : node_status) : node_status :=
  match c with SrTask task => _REMOTE_STATE_MAP (t_state task) | SrStatus _ st _ => _REMOTE_STATE_MAP st | _ => current end.
Definition chunk_node (c : StreamResponse) (current : node_status) (n : NodeState) : NodeState :=
  match c with
  | SrTask task =>
      let n := set_a2a_task_id (if str_truthy (t_id task) then Some (t_id task) else n_a2a_task_id n) n in
      if bool_decide (_REMOTE_STATE_MAP (t_state task) = NodeStatus.SUBMITTED) then set_status NodeStatus.SUBMITTED n else n
  | SrStatus _ st (Some msg) =>
      if bool_decide (_REMOTE_STATE_MAP st = NodeStatus.INPUT_REQUIRED) && negb (bool_decide (current = NodeStatus.INPUT_REQUIRED))
      then set_question (Some (join_text (msg_parts msg))) n else n
  | _ => n
  end.

Definition chunk_acc (acc : list Piece * node_status * NodeState) (c : StreamResponse) : list Piece * node_status * NodeState :=
  let '(l, current, n) := acc in (chunk_artifacts c l, chunk_status c current, chunk_node c current n).

Section facts.
Context `{!Env}.

#[export] Instance quiet_relay n i nm t a l : Quiet (relay n i nm t a l).
Proof. unfold relay. quiet. Qed.

Lemma chunk_node_submits c current n : can_transition n NodeStatus.SUBMITTED = true -> can_transition (chunk_node c current n) NodeStatus.SUBMITTED = true.
Proof.
  intros Hn. destruct c as [t|m|tid st [m|]|art a l]; cbn; try done; by case_match.
Qed.

Lemma state_quiet w w' k n : quiet w w' -> get_node (w_state w) k = Some n -> get_node (w_state w') k = Some n.
Proof. intros Hq Hn. by rewrite (q_state _ _ Hq). Qed.

Lemma updated_node k f w n : get_node (w_state w) k = Some n -> get_node (w_state (set_state (upd_node k f (w_state w)) w)) k = Some (f n).
Proof. intros Hn. cbn [w_state set_state]. by rewrite get_upd_node, decide_True, Hn. Qed.

Lemma consume_task_run k l current t w n :
  get_node (w_state w) k = Some n -> can_transition n NodeStatus.SUBMITTED = true ->
  wp (consume_chunk k (l, current) (SrTask t)) w (fun w' r =>
    r = Ok (chunk_artifacts (SrTask t) l, chunk_status (SrTask t) current) /\ get_node (w_state w') k = Some (chunk_node (SrTask t) current n)).
Proof.
  intros Hn Hc. cbn [consume_chunk]. apply wp_update_node. pose proof (updated_node k (fun n => set_a2a_task_id (if str_truthy (t_id t) then Some (t_id t) else n_a2a_task_id n) n) w n Hn) as Hn1.
  cbn [chunk_node]. set (n1 := set_a2a_task_id _ n) in *. cbv beta in Hn1. fold n1 in Hn1.
  match goal with |- wp _ ?w1 _ => set (w1' := w1) in *; clearbody w1' end. cbv zeta.
  assert (forall w2 n2, get_node (w_state w2) k = Some n2 ->
    wp (n ← node_at k; (emit_state_delta [(n_id n, JObj [("status", JStr "submitted"); ("a2a_task_id", json_opt (n_a2a_task_id n))])] [] [] TaskState.WORKING ;;;
       mret (match t_artifacts t with [] => l | arts => (fun a => mkPiece (art_id a) (art_name a) (join_text (art_parts a))) <$> arts end,
             _REMOTE_STATE_MAP (t_state t)))%choir) w2
      (fun w' r => r = Ok (chunk_artifacts (SrTask t) l, chunk_status (SrTask t) current) /\ get_node (w_state w') k = Some n2)) as Hrest.
  { intros w2 n2 Hn2. eapply wp_node_at; [done|]. wp_quiet_as w3 u Hq E. apply wp_ret. split; [done|]. by eapply state_quiet. }
  destruct (bool_decide (_REMOTE_STATE_MAP (t_state t) = NodeStatus.SUBMITTED)); cbn [when].
  - eapply wp_transition_at; [exact Hn1 | done|]. apply Hrest. by apply updated_node.
  - by apply Hrest.
Qed.

Lemma consume_status_run k l current tid st message w n :
  get_node (w_state w) k = Some n ->
  wp (consume_chunk k (l, current) (SrStatus tid st message)) w (fun w' r =>
    r = Ok (l, _REMOTE_STATE_MAP st) /\ get_node (w_state w') k = Some (chunk_node (SrStatus tid st message) current n)).
Proof.
  intros Hn. cbn [consume_chunk chunk_node]. destruct (decide (_REMOTE_STATE_MAP st = current)) as [Es|Es].
  { rewrite (bool_decide_eq_false_2 (_ <> _)) by tauto. apply wp_ret. rewrite Es. split; [done|].
    destruct message; [|done]. by destruct (bool_decide (current = _)). }
  rewrite (bool_decide_eq_true_2 (_ <> _)) by done. destruct message as [m|]; [|by destruct (_REMOTE_STATE_MAP st)].
  destruct (decide (_REMOTE_STATE_MAP st = NodeStatus.INPUT_REQUIRED)) as [Ei|Ei].
  - rewrite Ei in *. rewrite (bool_decide_eq_true_2 (NodeStatus.INPUT_REQUIRED = _)), (bool_decide_eq_false_2 (current = _)) by done. cbn [andb negb].
    apply wp_update_node. pose proof (updated_node k (set_question (Some (join_text (msg_parts m)))) w n Hn) as Hn1.
    match goal with |- wp _ ?w1 _ => set (w1' := w1) in *; clearbody w1' end. cbv zeta.
    destruct (str_truthy _); cbn [when]; [|by apply wp_ret]. apply wp_bind. eapply wp_node_at; [done|]. wp_quiet_as w2 aid Hq E.
    pose proof (quiet_relay (set_question (Some (join_text (msg_parts m))) n) aid (n_name n) (join_text (msg_parts m)) false true w2) as (w3 & u & E3 & Hq3).
    eapply wp_exact; [exact E3|]. apply wp_ret. split; [done|]. by eapply state_quiet; [exact Hq3|]; eapply state_quiet.
  - rewrite bool_decide_eq_false_2 by done. cbn [andb]. destruct (_REMOTE_STATE_MAP st); try (by apply wp_ret). by destruct Ei.
Qed.

Lemma consume_chunk_run k l current c w n :
  get_node (w_state w) k = Some n -> can_transition n NodeStatus.SUBMITTED = true ->
  exists w', consume_chunk k (l, current) c w = (w', Ok (chunk_artifacts c l, chunk_status c current)) /\
    get_node (w_state w') k = Some (chunk_node c current n).
Proof.
  intros Hn Hc.
  enough (wp (consume_chunk k (l, current) c) w (fun w' r => r = Ok (chunk_artifacts c l, chunk_status c current) /\
    get_node (w_state w') k = Some (chunk_node c current n))) as Hwp.
  { apply wp_elim in Hwp as (w' & r & E & -> & Hw). eauto. }
  destruct c as [t|m|tid st message|art append last_chunk].
  - by apply consume_task_run.
  - cbn [consume_chunk]. eapply wp_node_at; [done|]. wp_quiet_as w1 aid Hq1 E1. wp_quiet_as w2 u Hq2 E2. apply wp_ret. split; [done|].
    by eapply state_quiet; [exact Hq2|]; eapply state_quiet.
  - by apply consume_status_run.
  - cbn [consume_chunk]. eapply wp_node_at; [done|]. wp_quiet_as w1 u Hq1 E1. apply wp_ret. split; [done|]. by eapply state_quiet.
Qed.

Lemma consume_all_run k chunks : forall l current w n,
  get_node (w_state w) k = Some n -> can_transition n NodeStatus.SUBMITTED = true ->
  exists w', foldM (consume_chunk k) (l, current) chunks w = (w', Ok (foldl chunk_acc (l, current, n) chunks).1) /\
    get_node (w_state w') k = Some (foldl chunk_acc (l, current, n) chunks).2.
Proof.
  induction chunks as [|c chunks IH]; intros l current w n Hn Hc; [by exists w|]. cbn [foldM foldl].
  destruct (consume_chunk_run k l current c w n Hn Hc) as (w1 & E1 & Hn1).
  destruct (IH (chunk_artifacts c l) (chunk_status c current) w1 _ Hn1 (chunk_node_submits _ _ _ Hc)) as (w2 & E2 & Hn2).
  exists w2. split; [|exact Hn2]. unfold mbind, M_bind. rewrite E1. exact E2.
Qed.

Lemma consume_chunks_run k chunks w n
    (Hnode : get_node (w_state w) k = Some n)
    (Hsubmits : can_transition n NodeStatus.SUBMITTED = true) :
  let '(pieces, current, n') := foldl chunk_acc ([], NodeStatus.WORKING, n) chunks in
  exists w', consume_chunks k (chunks, None) w = (w', Ok current) /\
    get_node (w_state w') k = Some (set_output (joined_output (pc_text <$> pieces)) n').
Proof.
  destruct (consume_all_run k chunks [] NodeStatus.WORKING w n Hnode Hsubmits) as (w1 & E1 & Hn1).
  destruct (foldl chunk_acc _ chunks) as [[pieces current] n']. cbn [fst snd] in *.
  eexists. split; [unfold consume_chunks, mbind, M_bind; cbn [fst snd]; by rewrite E1 | by apply updated_node].
Qed.

End facts.

(** ** What the artifacts come to *)

(** The ids of the artifacts that are updated; what an update does to the text of [id];
    the last status that is told. *)
Definition updated_ids (chunks : list StreamResponse) : list string := omap (fun c => match c with SrArtifact art _ _ => Some (art_id art) | _ => None end) chunks.
Definition piece_text (id text : string) (c : StreamResponse) : string :=
  match c with
  | SrArtifact art append _ => if decide (art_id art = id) then (if append then text else estr) +:+ join_text (art_parts art) else text
  | _ => text
  end.
Definition told_status (c : StreamResponse) : option node_status :=
  match c with SrTask t => Some (_REMOTE_STATE_MAP (t_state t)) | SrStatus _ st _ => Some (_REMOTE_STATE_MAP st) | _ => None end.
Definition text_in (id : string) (l : list Piece) : string := match find_first (fun p => bool_decide (pc_id p = id)) l with Some p => pc_text p | None => estr end.

(** No message, and no snapshot with artifacts of its own. *)
Definition only_updates (c : StreamResponse) : Prop := match c with SrMessage _ => False | SrTask t => t_artifacts t = [] | _ => True end.

Lemma fromkeys_nodup (l : list string) : NoDup l -> fromkeys l = l.
Proof.
  unfold fromkeys. assert (forall seen, NoDup l -> (forall x, x ∈ l -> x ∉ seen) -> dedup_from seen l = l) as H; [|intros Hl; apply H; [done | set_solver]].
  induction l as [|x l IH]; intros seen Hnd Hs; [done|]. apply NoDup_cons in Hnd as [Hx Hnd]. cbn [dedup_from].
  rewrite bool_decide_false by (apply Hs; by left). rewrite IH; [done | done|]. intros y Hy [->|Hn]%elem_of_cons; [done|]. by apply (Hs y); [right|].
Qed.

Lemma fromkeys_seen (a b : list string) x : x ∈ a -> fromkeys (a ++ x :: b) = fromkeys (a ++ b).
Proof.
  unfold fromkeys. generalize (@nil string). induction a as [|y a IH]; intros seen Hx; [by apply elem_of_nil in Hx|]. cbn [app dedup_from].
  assert (forall s, y ∈ s -> dedup_from s (a ++ x :: b) = dedup_from s (a ++ b)) as Hy.
  { intros s Hs. destruct (decide (x ∈ a)) as [Ha|Ha]; [by apply IH|]. assert (x = y) as -> by set_solver. clear -Hs Ha.
    revert s Hs. induction a as [|z a IHa]; intros s Hs; cbn [app dedup_from]; [by rewrite bool_decide_true|].
    case_bool_decide; [apply IHa; set_solver|]. f_equal. apply IHa; set_solver. }
  case_bool_decide; [by apply Hy|]. f_equal. apply Hy. by left.
Qed.

Lemma replace_ids id f l : (forall p, pc_id p = id -> pc_id (f p) = id) -> pc_id <$> replace_piece id f l = pc_id <$> l.
Proof. intros Hf. induction l as [|p l IH]; [done|]. cbn. case_bool_decide as E; cbn; [by rewrite Hf, E|]. by rewrite IH. Qed.

Lemma replace_text id f l p : find_first (fun p => bool_decide (pc_id p = id)) l = Some p -> (forall p, pc_id p = id -> pc_id (f p) = id) ->
  forall id', text_in id' (replace_piece id f l) = if decide (id = id') then pc_text (f p) else text_in id' l.
Proof.
  intros Hp Hf id'. induction l as [|q l IH]; [done|]. unfold text_in in *. cbn in *. case_bool_decide as E.
  - injection Hp as ->. cbn. rewrite Hf by done. rewrite E. case_decide as Hd; [subst id'; by rewrite bool_decide_true|]. by rewrite bool_decide_false.
  - cbn. case_bool_decide as E'; [|by apply IH]. rewrite decide_False by congruence. done.
Qed.

(** One update: the ids, and the texts. *)
Lemma merge_ids l id name piece append : pc_id <$> merge_piece l id name piece append = if decide (id ∈ pc_id <$> l) then pc_id <$> l else (pc_id <$> l) ++ [id].
Proof.
  unfold merge_piece. destruct (find_first _ l) as [p|] eqn:E.
  - apply find_first_some in E as [Hp Hid]. bool_prop. rewrite decide_True by (rewrite <- Hid; by apply list_elem_of_fmap_2).
    destruct append; by apply replace_ids.
  - rewrite find_first_none in E. rewrite decide_False; [by rewrite fmap_app|]. intros (p & -> & Hp)%list_elem_of_fmap.
    specialize (E p Hp). by rewrite bool_decide_true in E.
Qed.

Lemma merge_text art append last l id :
  text_in id (merge_piece l (art_id art) (art_name art) (join_text (art_parts art)) append) = piece_text id (text_in id l) (SrArtifact art append last).
Proof.
  unfold merge_piece. cbn [piece_text]. destruct (find_first _ l) as [p|] eqn:E.
  - destruct append; (erewrite replace_text; [|exact E | done]); cbn [pc_text]; case_decide as Hd; try done. subst id. unfold text_in. by rewrite E.
  - unfold text_in. rewrite find_first_app. case_decide as Hd.
    + subst id. rewrite E. cbn. rewrite bool_decide_true by done. by destruct append.
    + cbn. rewrite bool_decide_false by done. destruct (find_first (fun p => bool_decide (pc_id p = id)) l); done.
Qed.

Lemma pieces_assembled chunks : Forall only_updates chunks -> forall l, NoDup (pc_id <$> l) ->
  pc_text <$> foldl (fun l c => chunk_artifacts c l) l chunks =
  (fun id => foldl (piece_text id) (text_in id l) chunks) <$> fromkeys ((pc_id <$> l) ++ updated_ids chunks).
Proof.
  induction 1 as [|c chunks Hc _ IH]; intros l Hl.
  - cbn. rewrite app_nil_r, fromkeys_nodup by done. rewrite <- list_fmap_compose. apply list_fmap_ext. intros i p Hp. cbn. unfold text_in.
    destruct (find_first _ l) as [q|] eqn:E.
    + apply find_first_some in E as [Hq Hid]. bool_prop. apply list_elem_of_lookup in Hq as (j & Hj). f_equal.
      assert (i = j) as ->; [|congruence]. eapply (NoDup_lookup (pc_id <$> l)); [done | rewrite list_lookup_fmap, Hp; reflexivity | by rewrite list_lookup_fmap, Hj, <- Hid].
    + rewrite find_first_none in E. specialize (E p (list_elem_of_lookup_2 _ _ _ Hp)). by rewrite bool_decide_true in E.
  - cbn [foldl]. destruct c as [t|m|tid st msg|art append last]; [cbn in Hc | done | by apply IH |].
    { unfold chunk_artifacts. rewrite Hc. by apply IH. }
    cbn [chunk_artifacts]. rewrite IH.
    + rewrite merge_ids. change (updated_ids (SrArtifact art append last :: chunks)) with (art_id art :: updated_ids chunks).
      assert (forall ids, (fun id => foldl (piece_text id) (text_in id (merge_piece l (art_id art) (art_name art) (join_text (art_parts art)) append)) chunks) <$> ids =
        (fun id => foldl (piece_text id) (piece_text id (text_in id l) (SrArtifact art append last)) chunks) <$> ids) as ->.
      { intros ids. apply list_fmap_ext. intros _ id _. by rewrite (merge_text art append last). }
      f_equal. case_decide as Hin; [by rewrite fromkeys_seen | by rewrite <- app_assoc].
    + rewrite merge_ids. case_decide; [done|]. apply NoDup_app. split; [done|]. split; [|apply NoDup_singleton]. intros x Hx ->%list_elem_of_singleton. done.
Qed.

Lemma acc_parts chunks : forall l current n, (foldl chunk_acc (l, current, n) chunks).1 =
  (foldl (fun l c => chunk_artifacts c l) l chunks, default current (last (omap told_status chunks))).
Proof.
  induction chunks as [|c chunks IH]; intros l current n; [done|]. cbn [foldl chunk_acc]. rewrite IH. f_equal.
  destruct c; cbn [omap list_omap told_status chunk_status]; try done; by rewrite last_cons; destruct (last _).
Qed.

