(* ===== verification/Settlement.v ===== *)
(** * Settling input (orchestration/flows/settlement.py)

    A node that waits for input is answered by a helper that has finished, waits
    for one that has not, or is decided by the assistance subagent: another agent
    is asked, or the human. *)
From S2P Require Import Prelude PyStr Dict Json State StateFacts Transitions StateJson World Tool Events Evolution.
From S2P Require Import Prompts Helpers Hitl Dag Engine Llm Patch Tools RemoteCaller NodeExec NodeFacts.
From S2P Require Import ToolFacts.
Local Open Scope string_scope.
Local Open Scope list_scope.

Section settlement.
Context `{!Env, !Remote, !Llm}.

Record SettlementPayload := mkSettlement {
  sp_node : string; sp_decision : option AssistanceResult; sp_helper : option string }.

Inductive settlement_step := _inspect_helpers | _noop | _resolve_from_helper | _decide_assistance | _act.
#[export] Instance settlement_step_eq_dec : EqDecision settlement_step.
Proof. solve_decision. Defined.

Definition settlement_flow : Flow settlement_step := mkFlow "settlement_flow" _inspect_helpers
  [mkEdge _inspect_helpers _noop ["already_pending"; "helper_active"; "helper_blocked"];
   mkEdge _inspect_helpers _resolve_from_helper ["helper_completed"];
   mkEdge _inspect_helpers _decide_assistance ["decide"];
   mkEdge _decide_assistance _act ["act"]].

Definition settlement_hints (h : settlement_step) : option (option annotation) :=
  match h with
  | _inspect_helpers => returns ["already_pending"; "helper_completed"; "helper_active"; "helper_blocked"; "decide"]
  | _decide_assistance => returns ["act"]
  | _ => returns_other
  end.
Definition settlement_literal (h : settlement_step) : list string := _literal_routes (settlement_hints h).

(** The derived nodes that help [k], in a given set of statuses. *)
Definition helpers_of (s : OrchestrationState) (k : string) (p : NodeState -> bool) : list NodeState :=
  filterb (fun n => n_derived n && bool_decide (n_assist_requested_by n = Some k) && p n) (dvals (nodes s)).

(** The route, and the helper whose answer is taken. *)
Definition inspect_helpers (s : OrchestrationState) (node : NodeState) : string * option string :=
  match pending_intervention_for s (n_id node) with
  | Some _ => ("already_pending", None)
  | None =>
      match helpers_of s (n_id node) (fun n => bool_decide (n_status n = NodeStatus.COMPLETED) &&
              negb (bool_decide (n_id n ∈ n_adopted_helpers node))) with
      | helper :: _ => ("helper_completed", Some (n_id helper))
      | [] =>
          match helpers_of s (n_id node) (fun n => status_in (n_status n) (ACTIVE_NODE_STATUSES ++ PENDING_NODE_STATUSES)) with
          | _ :: _ => ("helper_active", None)
          | [] =>
              match helpers_of s (n_id node) (fun n => bool_decide (n_status n = NodeStatus.INPUT_REQUIRED)) with
              | _ :: _ => ("helper_blocked", None)
              | [] => ("decide", None)
              end
          end
      end
  end.

Definition run_inspect_helpers (p : SettlementPayload) : M (SettlementPayload * step_result) :=
  s ← get_state;
  node ← node_at (sp_node p);
  let '(route, helper) := inspect_helpers s node in
  mret (mkSettlement (sp_node p) (sp_decision p) (match helper with Some h => Some h | None => sp_helper p end),
        Route route).

Definition run_noop (p : SettlementPayload) : M (SettlementPayload * step_result) := mret (p, Exit END_).

Definition run_resolve_from_helper (p : SettlementPayload) : M (SettlementPayload * step_result) :=
  match sp_helper p with
  | None => mret (p, Exit END_)
  | Some h =>
      let k := sp_node p in
      (helper ← node_at h;
       update_node k (set_answer (n_output helper) (Some (n_agent_name helper))) ;;;
       update_node k (fun n => set_adopted_helpers (n_adopted_helpers n ++ [n_id helper]) n) ;;;
       transition_at k NodeStatus.READY ;;;
       expired ← run_state (fun s => expire_node_interventions s k);
       persist ;;;
       emit_state_delta [(k, JObj [("status", JStr "ready")])] [] [] TaskState.WORKING ;;;
       emit_interventions_expired expired ;;;
       mret (p, Exit EXIT_DONE))%choir
  end.

Definition _decide_assistance_impl (k : string) : M (option AssistanceResult) :=
  node ← node_at k;
  match n_question node with
  | None => mret None
  | Some question =>
      s ← get_state;
      let chain := assist_chain_agents s node in
      match filterb (fun a => negb (bool_decide (ag_name a ∈ chain))) agents with
      | [] => mret (Some default_assistance)
      | candidates =>
          let user := build_assistance_decision_user (n_agent_name node) (str_or question (n_input_text node)) candidates in
          catch
            (decision ← run_agent (assistance_agent chain) user;
             (record_decision ("[assistance:" +:+ n_id node +:+ "] target=" +:+
                ostr_or (as_target_agent decision) "human") ;;; mret (Some decision))%choir)
            (fun e => if is_exception e then
              Some (record_decision ("[assistance:" +:+ n_id node +:+ "] target=human") ;;;
                    mret (Some default_assistance))%choir else None)
      end
  end.

Definition run_decide_assistance (p : SettlementPayload) : M (SettlementPayload * step_result) :=
  decision ← _decide_assistance_impl (sp_node p);
  mret (mkSettlement (sp_node p) decision (sp_helper p), Route "act").

Definition request_human (k : string) (decision : option AssistanceResult) : M unit :=
  (node ← node_at k;
   _ ← execute_function ask_user_func
     (AskUserArgs (n_id node) (ostr_or (n_question node) (ostr_or (n_output node) estr))
        (match decision with Some d => as_question_type d | None => INPUT end)
        (match decision with Some d => as_options d | None => [] end)
        (match decision with Some d => as_multi d | None => false end)) estr;
   persist ;;;
   emit_pending_questions)%choir.

Definition run_act (p : SettlementPayload) : M (SettlementPayload * step_result) :=
  let k := sp_node p in
  s ← get_state;
  match pending_intervention_for s k with
  | Some _ => mret (p, Exit END_)
  | None =>
      spawned ← (match sp_decision p with
                 | Some d => if ostr_truthy (as_target_agent d) then spawn_assist k d else mret false
                 | None => mret false
                 end);
      if spawned : bool then mret (p, Exit EXIT_DONE)
      else (request_human k (sp_decision p) ;;; mret (p, Exit END_))%choir
  end.

Definition settlement_handler (h : settlement_step) : SettlementPayload -> M (SettlementPayload * step_result) :=
  match h with
  | _inspect_helpers => run_inspect_helpers
  | _noop => run_noop
  | _resolve_from_helper => run_resolve_from_helper
  | _decide_assistance => run_decide_assistance
  | _act => run_act
  end.

Definition settle_node_input (k : string) : M bool :=
  outcome ← flow_run settlement_handler settlement_flow (mkSettlement k None None);
  mret (bool_decide (outcome = EXIT_DONE)).

(** [settle_input]: all of them, one after the other. *)
Definition settle_input : M bool :=
  s ← get_state;
  foldM (fun progress node => b ← settle_node_input (n_id node); mret (progress || b)) false (input_required_nodes s).
End settlement.

Section settlement_keep.
Context `{!Env, !Remote, !Llm} (R : relation World) `{!Evolution R}.

#[export] Instance keeps_decide_impl k : Keeps R (_decide_assistance_impl k).
Proof. unfold _decide_assistance_impl. keeps. Qed.
#[export] Instance keeps_request_human k d : Keeps R (request_human k d).
Proof. unfold request_human. keeps. Qed.
Lemma keeps_settlement_handler h p : Keeps R (settlement_handler h p).
Proof.
  destruct h; cbn [settlement_handler];
    unfold run_inspect_helpers, run_noop, run_resolve_from_helper, run_decide_assistance, run_act; keeps.
Qed.
#[export] Instance keeps_settle_node k : Keeps R (settle_node_input k).
Proof. unfold settle_node_input. keeps. apply (keeps_flow_run R). apply keeps_settlement_handler. Qed.
#[export] Instance keeps_settle_input : Keeps R settle_input.
Proof. unfold settle_input. keeps. Qed.
End settlement_keep.

(** ** Facts *)
Section facts.
Context `{!Env, !Remote, !Llm}.

Lemma elem_helpers_of s k p h :
  h ∈ helpers_of s k p <-> h ∈ dvals (nodes s) /\ n_derived h = true /\ n_assist_requested_by h = Some k /\ p h = true.
Proof. unfold helpers_of. rewrite elem_of_filterb, !andb_true_iff, bool_decide_eq_true. naive_solver. Qed.

Lemma helpers_none s k p :
  helpers_of s k p = [] <->
  forall h, h ∈ dvals (nodes s) -> n_derived h = true -> n_assist_requested_by h = Some k -> p h = false.
Proof.
  unfold helpers_of. rewrite filterb_nil. split.
  - intros Hf h Hh Hd Hr. specialize (Hf h Hh). rewrite Hd, bool_decide_true in Hf by done. exact Hf.
  - intros Hf h Hh. destruct (n_derived h) eqn:Hd; [|done]. cbn. case_bool_decide as Hr; [|done]. cbn. by apply Hf.
Qed.

(** Who answers a blocked node. Someone is asked to decide only when no question
    about the node is open and each of its helpers has finished without being of
    use any more: its answer was taken, or it failed or was called off. A helper
    whose answer is taken has completed, helps this node, and was not taken
    before; while a helper is at work, waits to run or waits for input itself,
    the node waits for it. *)
Theorem inspect_helpers_spec s node :
  let helps h := h ∈ dvals (nodes s) /\ n_derived h = true /\ n_assist_requested_by h = Some (n_id node) in
  match inspect_helpers s node with
  | (r, Some k) => r = "helper_completed" /\ exists h, helps h /\ n_id h = k /\
      n_status h = NodeStatus.COMPLETED /\ n_id h ∉ n_adopted_helpers node
  | (r, None) =>
      (r = "decide" <-> pending_intervention_for s (n_id node) = None /\
        forall h, helps h -> n_status h ∈ [NodeStatus.FAILED; NodeStatus.CANCELED; NodeStatus.INVALIDATED] \/
          (n_status h = NodeStatus.COMPLETED /\ n_id h ∈ n_adopted_helpers node)) /\
      (r = "decide" \/ r = "already_pending" \/ r = "helper_active" \/ r = "helper_blocked")
  end.
Proof.
  cbv zeta. unfold inspect_helpers. destruct (pending_intervention_for s (n_id node)) as [iv|] eqn:Ep.
  { split; [|auto]. split; [done | by intros [? _]]. }
  destruct (helpers_of s (n_id node) (fun n => bool_decide (n_status n = NodeStatus.COMPLETED) && _)) as [|h l] eqn:E1.
  2: { split; [done|]. exists h. assert (h ∈ h :: l) as Hh by by left. rewrite <- E1 in Hh.
       apply elem_helpers_of in Hh as (? & ? & ? & Hp). apply andb_prop in Hp as [Hc Ha]. by bool_prop. }
  rewrite helpers_none in E1.
  destruct (helpers_of s (n_id node) (fun n => status_in _ _)) as [|h l] eqn:E2.
  2: { split; [|auto]. split; [done|]. intros [_ Hall]. assert (h ∈ h :: l) as Hh by by left. rewrite <- E2 in Hh.
       apply elem_helpers_of in Hh as (Hh & Hd & Hr & Hp). destruct (Hall h (conj Hh (conj Hd Hr))) as [Hs|[Hs _]].
       - destruct (n_status h); set_solver.
       - by rewrite Hs in Hp. }
  rewrite helpers_none in E2.
  destruct (helpers_of s (n_id node) (fun n => bool_decide _)) as [|h l] eqn:E3.
  2: { split; [|auto]. split; [done|]. intros [_ Hall]. assert (h ∈ h :: l) as Hh by by left. rewrite <- E3 in Hh.
       apply elem_helpers_of in Hh as (Hh & Hd & Hr & Hp). bool_prop. destruct (Hall h (conj Hh (conj Hd Hr))) as [Hs|[Hs _]].
       - rewrite Hp in Hs. set_solver.
       - congruence. }
  rewrite helpers_none in E3. split; [|auto]. split; [|done]. intros _. split; [done|]. intros h (Hh & Hd & Hr).
  specialize (E1 h Hh Hd Hr). specialize (E2 h Hh Hd Hr). specialize (E3 h Hh Hd Hr). bool_prop.
  destruct (n_status h) eqn:Es; try (left; set_solver); try (by exfalso); try discriminate.
  right. split; [done|]. apply andb_false_iff in E1 as [E1|E1]; bool_prop; done.
Qed.

(** The node after it took the answer of a helper. *)
Definition helped (h n : NodeState) : NodeState :=
  set_status NodeStatus.READY (set_adopted_helpers (n_adopted_helpers n ++ [n_id h])
    (set_answer (n_output h) (Some (n_agent_name h)) n)).

(** Taking a helper's answer. A node that waits for input, with no question
    open and a completed helper, is settled without asking anybody: it becomes
    ready with the helper's output as its answer, the helper is marked so that its
    answer is not taken twice, no other node changes, and the session is saved. *)
Theorem settle_from_helper w k n hk h :
  wf_state (w_state w) -> get_node (w_state w) k = Some n -> n_status n = NodeStatus.INPUT_REQUIRED ->
  inspect_helpers (w_state w) n = ("helper_completed", Some hk) -> get_node (w_state w) hk = Some h ->
  exists w', settle_node_input k w = (w', Ok true) /\ synced w' /\
    nodes (w_state w') = nodes (upd_node k (fun _ => helped h n) (w_state w)) /\ n_id h ∈ n_adopted_helpers (helped h n).
Proof.
  intros Hwf Hn Hst Hi Hh.
  enough (wp (settle_node_input k) w (fun w' r => r = Ok true /\ synced w' /\
    nodes (w_state w') = nodes (upd_node k (fun _ => helped h n) (w_state w)))) as Hwp.
  { apply wp_elim in Hwp as (w' & r & E & -> & ? & ?). exists w'. repeat split; try done.
    cbn. apply elem_of_app. right. by left. }
  unfold settle_node_input. apply wp_bind. unfold flow_run.
  change (f_start settlement_flow) with _inspect_helpers. change (length (_nodes settlement_flow)) with 5.
  unfold wp at 1.
  assert (settlement_handler _inspect_helpers (mkSettlement k None None) w =
    (w, Ok (mkSettlement k None (Some hk), Route "helper_completed"))) as E1.
  { cbn. unfold run_inspect_helpers, get_state, node_at, mbind, M_bind. cbn. rewrite Hn. cbn. by rewrite Hi. }
  rewrite (flow_loop_route settlement_handler settlement_flow _ _ _ _ _ _ _ _resolve_from_helper E1) by reflexivity.
  assert (wp (run_resolve_from_helper (mkSettlement k None (Some hk))) w (fun w' r =>
    r = Ok (mkSettlement k None (Some hk), Exit EXIT_DONE) /\ synced w' /\
    nodes (w_state w') = nodes (upd_node k (fun _ => helped h n) (w_state w)))) as Hres.
  { unfold run_resolve_from_helper. cbn [sp_helper sp_node]. eapply wp_node_at; [exact Hh|].
    apply wp_update_node, wp_update_node.
    eapply (wp_transition_at _ (set_adopted_helpers (n_adopted_helpers n ++ [n_id h])
      (set_answer (n_output h) (Some (n_agent_name h)) n))).
    - cbn [w_state set_state]. rewrite get_upd_node, decide_True by done. rewrite get_upd_node, decide_True by done.
      by rewrite Hn.
    - unfold can_transition. cbn. by rewrite Hst.
    - apply wp_run_state. apply wp_persist. intros w1 Hq1 Hs1. wp_quiet_as w2 u2 Hq2 E2. wp_quiet_as w3 u3 Hq3 E3.
      apply wp_ret. split; [done|]. split; [by eapply quiet_synced; [|eapply quiet_synced]|].
      rewrite (q_state _ _ Hq3), (q_state _ _ Hq2), (q_state _ _ Hq1). cbn [w_state set_state].
      unfold expire_node_interventions, expire_where. cbn [fst nodes set_interventions].
      rewrite !upd_node_upd_node. unfold upd_node, dupd, get_node in *. by rewrite Hn. }
  apply wp_elim in Hres as (w1 & r & E2 & -> & Hs & Hns).
  change run_resolve_from_helper with (settlement_handler _resolve_from_helper) in E2.
  rewrite (flow_loop_exit settlement_handler settlement_flow _ _ _ _ _ _ _ E2). cbn. done.
Qed.

(** A choice between no options. The assistance subagent may send a node to the
    human with a selection that offers nothing; [ask_user] creates the question,
    and no answer to it is ever accepted: only cancelling moves the node on. *)
Theorem empty_select_unanswerable :
  let w := world_of (set_nodes [node_with NodeStatus.INPUT_REQUIRED "n1" "a" []] empty_state) in
  let '(w', r) := ask_user_run (AskUserArgs "n1" "which one?" SELECT [] false) w in
  exists iid iv, (exists d, r = Ok (tool_ok d)) /\ interventions (w_state w') = [(iid, iv)] /\ iv_pending iv = true /\ iv_node_id iv = "n1" /\
    forall a, _validate_answer iv a <> None.
Proof.
  cbn. eexists _, _. split; [by eexists|]. split; [reflexivity|]. split; [done|]. split; [done|].
  intros a. unfold _validate_answer. cbn. destruct a; cbn; try done.
Qed.
End facts.
