(* ===== verification/PlanFlow.v ===== *)
(** * The end of a wave (orchestration/flows/plan.py, orchestration/planning/repair.py)

    When nothing runs any more the scheduler asks this flow what to do: retry,
    wait for input, finish, repair, or give up. *)
From S2P Require Import Prelude PyStr Dict Json State StateFacts Transitions StateJson World Tool Events Evolution.
From S2P Require Import Prompts Helpers Hitl Dag Engine Llm Patch Tools RemoteCaller NodeExec NodeFacts.
Local Open Scope string_scope.
Local Open Scope list_scope.

Section plan_flow.
Context `{!Env, !Remote, !Llm}.
(** [len(ctx.runtime.node_tasks)]. *)
Context (node_tasks : nat).

(** ** Repair *)

Definition repair_plan : M bool :=
  s ← get_state;
  let failed_ids := n_id <$> failed_nodes s in
  match agents with
  | [] => mret false
  | _ =>
      decision ← catch (run_agent repair_agent (build_repair_user (dvals (nodes s)) agents))
        (fun e => if is_exception e then Some (mret None) else None);
      match decision with
      | None => mret false
      | Some r =>
          let patch := rp_patch r in
          let patch := mkPatch (patch_add patch) (fromkeys (patch_invalidate patch ++ failed_ids)) (patch_reason patch) in
          result ← revise_plan patch;
          (record_decision ("[repair] added=" +:+ pretty (Z.of_nat (length (pr_added result))) +:+
             " invalidated=" +:+ pretty (Z.of_nat (length (pr_invalidated result)))) ;;;
           mret (match pr_added result, pr_invalidated result with [], [] => false | _, _ => true end))%choir
      end
  end.

(** ** The flow *)

Inductive plan_step :=
| _check_retryable | _backoff_continue | _check_input_required | _exit_wait | _check_all_completed
| _emit_completed | _check_repairable | _repair | _emit_failed | _stalled.
#[export] Instance plan_step_eq_dec : EqDecision plan_step.
Proof. solve_decision. Defined.

Definition plan_flow : Flow plan_step := mkFlow "plan_flow" _check_retryable
  [mkEdge _check_retryable _backoff_continue ["retry"];
   mkEdge _check_retryable _check_input_required ["next"];
   mkEdge _check_input_required _exit_wait ["wait_input"];
   mkEdge _check_input_required _check_all_completed ["next"];
   mkEdge _check_all_completed _emit_completed ["plan_completed"];
   mkEdge _check_all_completed _check_repairable ["next"];
   mkEdge _check_repairable _repair ["repair"];
   mkEdge _check_repairable _stalled ["next"];
   mkEdge _repair _backoff_continue ["repair_ok"];
   mkEdge _repair _emit_failed [DEFAULT]].

Definition plan_hints (h : plan_step) : option (option annotation) :=
  match h with
  | _check_retryable => returns ["retry"; "next"]
  | _check_input_required => returns ["wait_input"; "next"]
  | _check_all_completed => returns ["plan_completed"; "next"]
  | _check_repairable => returns ["repair"; "next"]
  | _repair => returns ["repair_ok"; DEFAULT]
  | _ => returns_other
  end.
Definition plan_literal (h : plan_step) : list string := _literal_routes (plan_hints h).

Definition route (r : string) : M (unit * step_result) := mret (tt, Route r).
Definition exit (o : FlowOutcome) : M (unit * step_result) := mret (tt, Exit o).

Definition any_retryable (s : OrchestrationState) : bool :=
  existsb (fun n => can_retry n (max_node_attempts config)) (dvals (nodes s)).

Definition run_check_retryable : M (unit * step_result) :=
  s ← get_state; if any_retryable s then route "retry" else route "next".
Definition run_backoff_continue : M (unit * step_result) := exit CONTINUE.
Definition run_check_input_required : M (unit * step_result) :=
  s ← get_state; match input_required_nodes s with [] => route "next" | _ => route "wait_input" end.
Definition run_exit_wait : M (unit * step_result) :=
  (persist ;;;
   s ← get_state;
   match pending_interventions s with
   | [] => emit_event TaskState.INPUT_REQUIRED [] None ;;; exit EXIT_WAIT
   | _ => emit_pending_questions ;;; exit EXIT_WAIT
   end)%choir.
Definition run_check_all_completed : M (unit * step_result) :=
  s ← get_state; if all_completed s then route "plan_completed" else route "next".
Definition run_emit_completed : M (unit * step_result) :=
  (emit_event TaskState.COMPLETED [] None ;;; evict_session ;;; exit EXIT_DONE)%choir.
Definition run_check_repairable : M (unit * step_result) :=
  s ← get_state; if has_failures s then route "repair" else route "next".
Definition run_repair : M (unit * step_result) :=
  s ← get_state;
  if replan_on_failure config && (revision_count s <? max_revisions config)%Z then
    repaired ← repair_plan; if repaired : bool then route "repair_ok" else route DEFAULT
  else route DEFAULT.
Definition run_emit_failed : M (unit * step_result) :=
  (emit_event TaskState.FAILED [] None ;;; evict_session ;;; exit EXIT_FAILED)%choir.
Definition run_stalled : M (unit * step_result) :=
  s ← get_state;
  if has_pending_work s && (match ready_nodes s with [] => false | _ => true end || (0 <? node_tasks)%nat)
  then exit CONTINUE
  else (emit_event TaskState.FAILED [] None ;;; evict_session ;;; exit EXIT_FAILED)%choir.

Definition plan_handler (h : plan_step) (_ : unit) : M (unit * step_result) :=
  match h with
  | _check_retryable => run_check_retryable
  | _backoff_continue => run_backoff_continue
  | _check_input_required => run_check_input_required
  | _exit_wait => run_exit_wait
  | _check_all_completed => run_check_all_completed
  | _emit_completed => run_emit_completed
  | _check_repairable => run_check_repairable
  | _repair => run_repair
  | _emit_failed => run_emit_failed
  | _stalled => run_stalled
  end.

Definition plan_flow_run : M FlowOutcome := flow_run plan_handler plan_flow tt.
End plan_flow.

Section plan_flow_keep.
Context `{!Env, !Remote, !Llm} (node_tasks : nat) (R : relation World) `{!Evolution R}.

#[export] Instance keeps_repair_plan : Keeps R repair_plan.
Proof. unfold repair_plan. keeps. Qed.
Lemma keeps_plan_handler h p : Keeps R (plan_handler node_tasks h p).
Proof.
  destruct h; cbn [plan_handler]; unfold run_check_retryable, run_backoff_continue, run_check_input_required,
    run_exit_wait, run_check_all_completed, run_emit_completed, run_check_repairable, run_repair, run_emit_failed,
    run_stalled, route, exit; keeps.
Qed.
#[export] Instance keeps_plan_flow_run : Keeps R (plan_flow_run node_tasks).
Proof. apply (keeps_flow_run R). apply keeps_plan_handler. Qed.
End plan_flow_keep.

(** ** What the flow decides *)

(** Revisions are only ever counted up. *)
Definition revises (w w' : World) : Prop := (revision_count (w_state w) <= revision_count (w_state w'))%Z.

#[export] Instance revises_preorder : PreOrder revises.
Proof. unfold revises. split; [by intros w | intros ?????; lia]. Qed.

#[export] Instance revises_evolution : Evolution revises.
Proof.
  unfold revises. split; cbn; try done.
  - split; [split; [apply _|]|].
    + by intros w w' ->.
    + intros w now name reason. unfold add_member. by destruct (dmem _ _).
  - intros. unfold request_user_input. by destruct (pending_intervention_for _ _).
  - intros w. lia.
Qed.

Section plan_facts.
Context `{!Env, !Remote, !Llm} (node_tasks : nat).

(** The turn is over: its final status is published and the session forgotten. *)
Definition ended (st : task_state) (w : World) : World :=
  fst (evict_session (fst (emit_event st [] None w))).

(** [r] has patched the plan. *)
Definition patched (r : PatchResult) : bool :=
  match pr_added r, pr_invalidated r with [], [] => false | _, _ => true end.

Lemma revise_plan_counts patch w w' r :
  revise_plan patch w = (w', Ok r) -> patched r = true ->
  (revision_count (w_state w) < revision_count (w_state w'))%Z.
Proof.
  enough (wp (revise_plan patch) w (fun w' r => forall x, r = Ok x -> patched x = true ->
    (revision_count (w_state w) < revision_count (w_state w'))%Z)) as Hwp.
  { apply wp_elim in Hwp as (w'' & r' & E & Hr). rewrite E. intros [= <- ->] Hp. by eapply Hr. }
  unfold revise_plan. eapply (wp_keeps revises); [apply _ | | done]. intros w1 fr Hk. cbv zeta.
  match goal with |- context [mret ?x] => generalize x end. intros res. unfold revises in Hk.
  change (match pr_added res with [] => _ | _ => _ end) with (patched res).
  destruct (patched res) eqn:Ep; cbn [when].
  - apply wp_mod_state, wp_ret. intros x [= <-] _. cbn. lia.
  - eapply wp_run; [reflexivity|]. apply wp_ret. intros x [= <-]. congruence.
Qed.

(** Every repair that reports success costs one revision. *)
Lemma repair_plan_counts w w' :
  repair_plan w = (w', Ok true) -> (revision_count (w_state w) < revision_count (w_state w'))%Z.
Proof.
  enough (wp repair_plan w (fun w' r => r = Ok true -> (revision_count (w_state w) < revision_count (w_state w'))%Z)) as Hwp.
  { apply wp_elim in Hwp as (w'' & r & E & Hr). intros E'. rewrite E in E'. simplify_eq. auto. }
  unfold repair_plan. apply wp_get_state. destruct agents as [|a l]; [by apply wp_ret|].
  eapply (wp_keeps revises); [keeps | | done]. intros w1 [r|] Hr; [|by apply wp_ret].
  apply wp_bind. unfold wp at 1.
  match goal with |- context [revise_plan ?p w1] => destruct (revise_plan p w1) as [w2 [res|e]] eqn:E end; [|done].
  cbn. wp_quiet_as w3 u Hq E3. apply wp_ret. intros [= Hp].
  apply revise_plan_counts in E; [|done]. unfold revises in Hr. rewrite (q_state _ _ Hq). lia.
Qed.

(** The flow computed by hand: what each state of the session leads to. *)
Definition plan_outcome (w : World) : World * res FlowOutcome :=
  let s := w_state w in
  if any_retryable s then (w, Ok CONTINUE)
  else match input_required_nodes s with
  | _ :: _ => let '(w', r) := run_exit_wait w in (w', match r with Ok _ => Ok EXIT_WAIT | Err e => Err e end)
  | [] =>
      if all_completed s then (ended TaskState.COMPLETED w, Ok EXIT_DONE)
      else if has_failures s then
        if replan_on_failure config && (revision_count s <? max_revisions config)%Z then
          match repair_plan w with
          | (w', Ok true) => (w', Ok CONTINUE)
          | (w', Ok false) => (ended TaskState.FAILED w', Ok EXIT_FAILED)
          | (w', Err e) => (w', Err e)
          end
        else (ended TaskState.FAILED w, Ok EXIT_FAILED)
      else if has_pending_work s && (match ready_nodes s with [] => false | _ => true end || (0 <? node_tasks)%nat)
      then (w, Ok CONTINUE)
      else (ended TaskState.FAILED w, Ok EXIT_FAILED)
  end.

Lemma exit_wait_run w :
  exists w', run_exit_wait w = (w', Ok (tt, Exit EXIT_WAIT)) /\ synced w' /\ nodes (w_state w') = nodes (w_state w).
Proof.
  enough (wp run_exit_wait w (fun w' r => r = Ok (tt, Exit EXIT_WAIT) /\ synced w' /\
    nodes (w_state w') = nodes (w_state w))) as Hwp.
  { apply wp_elim in Hwp as (w' & r & E & -> & ?). eauto. }
  unfold run_exit_wait. apply wp_persist. intros w1 Hq1 Hs1. apply wp_get_state.
  destruct (pending_interventions (w_state w1)).
  - wp_quiet_as w2 u Hq2 E2. apply wp_ret. split; [done|]. split; [by eapply quiet_synced|].
    by rewrite (q_state _ _ Hq2), (q_state _ _ Hq1).
  - destruct (emit_pending_run w1 Hs1) as (w2 & E2 & Hs2 & Hn2). eapply wp_run; [exact E2|]. apply wp_ret.
    split; [done|]. split; [done|]. by rewrite Hn2, (q_state _ _ Hq1).
Qed.

(** One handler of the flow, evaluated with the given facts. *)
Ltac eval_step := cbn; unfold run_check_retryable, run_check_input_required, run_check_all_completed,
  run_check_repairable, run_repair, run_stalled, get_state, mbind, M_bind.
Ltac route_by E := erewrite flow_loop_route; [| eval_step; rewrite E; reflexivity | reflexivity].

Lemma plan_flow_outcome w : plan_flow_run node_tasks w = plan_outcome w.
Proof.
  unfold plan_flow_run, flow_run, plan_outcome. change (length (_nodes plan_flow)) with 10.
  change (f_start plan_flow) with _check_retryable.
  destruct (any_retryable (w_state w)) eqn:E1.
  { route_by E1.
    by erewrite flow_loop_exit. }
  route_by E1.
  destruct (input_required_nodes (w_state w)) as [|n l] eqn:E2.
  2: { route_by E2.
       destruct (exit_wait_run w) as (w' & E & _). rewrite E. by erewrite flow_loop_exit. }
  route_by E2.
  destruct (all_completed (w_state w)) eqn:E3.
  { route_by E3.
    by erewrite flow_loop_exit. }
  route_by E3.
  destruct (has_failures (w_state w)) eqn:E4.
  - route_by E4.
    destruct (_ && _) eqn:E5.
    + destruct (repair_plan w) as [w' [[]|e]] eqn:E6.
      * (erewrite flow_loop_route; [| eval_step; rewrite E5, E6; reflexivity | reflexivity]).
        by erewrite flow_loop_exit.
      * (erewrite flow_loop_route; [| eval_step; rewrite E5, E6; reflexivity | reflexivity]).
        by erewrite flow_loop_exit.
      * erewrite flow_loop_raise; [done|]. cbn. unfold run_repair, get_state, mbind, M_bind. by rewrite E5, E6.
    + route_by E5.
      by erewrite flow_loop_exit.
  - route_by E4.
    destruct (_ && _) eqn:E5; (erewrite flow_loop_exit; [reflexivity|]; cbn; unfold run_stalled, get_state, mbind, M_bind; rewrite E5; reflexivity).
Qed.

(** [w'] is [w] with one more event, the final status [st], and without the session. *)
Definition announced (st : task_state) (w w' : World) : Prop :=
  w_state w' = w_state w /\ w_session w' = false /\
  w_queue w' = w_queue w ++ [status_event (w_task_id w) (w_context_id w) st [] None].

Lemma ended_announced st w : st ∈ _TERMINAL_TASK_STATES -> announced st w (ended st w).
Proof.
  intros Hst. unfold announced, ended, emit_event, get_world, mbind, M_bind, enqueue_event, modify, evict_session, _effective_state.
  cbn. by rewrite bool_decide_true.
Qed.

(** A repair is allowed: it is configured, and revisions are left. *)
Definition repairs_left (s : OrchestrationState) : Prop :=
  replan_on_failure config = true /\ (revision_count s < max_revisions config)%Z.

(** Why the scheduler goes on: a failed node has attempts left; or nothing has failed,
    and some node is ready or some task is running; or a repair of the failures has
    reported a change of the plan, at the cost of a revision. *)
Definition may_continue (w w' : World) : Prop :=
  (w' = w /\ exists n, n ∈ dvals (nodes (w_state w)) /\ n_status n = NodeStatus.FAILED /\ (n_attempt n < max_node_attempts config)%Z) \/
  (w' = w /\ has_failures (w_state w) = false /\ (ready_nodes (w_state w) <> [] \/ 0 < node_tasks)) \/
  (has_failures (w_state w) = true /\ repairs_left (w_state w) /\ repair_plan w = (w', Ok true) /\
   (revision_count (w_state w) < revision_count (w_state w'))%Z).

(** [n] times the flow goes on after failures with nothing left to retry; in
    between, the session evolves as the tasks of the plan make it. *)
Inductive repairs : World -> nat -> World -> Prop :=
| repairs_none w w' : revises w w' -> repairs w 0 w'
| repairs_once w w1 w2 n w' :
    revises w w1 -> any_retryable (w_state w1) = false -> has_failures (w_state w1) = true ->
    plan_flow_run node_tasks w1 = (w2, Ok CONTINUE) -> repairs w2 n w' -> repairs w (S n) w'.

(** C29: Repairing ends. However long a plan runs, the scheduler goes on after
    failures that cannot be retried at most as many times as the session has
    revisions left, because each time costs one; then the turn ends as failed. *)
Theorem repairs_bounded w n w' :
  repairs w n w' -> (Z.of_nat n <= Z.max 0 (max_revisions config - revision_count (w_state w)))%Z.
Proof.
  induction 1 as [w w' _|w w1 w2 n w' Hr Er Ef E _ IH]; [lia|].
  rewrite plan_flow_outcome in E. unfold plan_outcome in E. rewrite Er, Ef in E. unfold revises in Hr.
  destruct (input_required_nodes (w_state w1)); [|by destruct (run_exit_wait w1) as [? []]].
  destruct (all_completed (w_state w1)); [done|]. destruct (_ && _) eqn:Eg; [|done].
  destruct (repair_plan w1) as [w3 [[]|]] eqn:Ep; simplify_eq.
  apply repair_plan_counts in Ep. apply andb_prop in Eg as [_ Eg]. lia.
Qed.

(** C6: The scheduler never stops in silence. When it has nothing to wait for, the plan
    flow either goes on: because a failed node has attempts left; or, when nothing has
    failed, because a node is ready or a task is running; or because a repair of the
    failures, one of those still allowed, reported that it changed the plan, which costs
    a revision. Or it waits, with some node waiting for input and the session saved;
    or ends the turn as completed, when every node is settled; or ends it as failed,
    when nodes have failed and no repair is left or the repair changed nothing, or no
    pending node can ever run. An ended turn has published its final status as its
    last event and has given up the session. The only exception it can raise is one
    of the repair. *)
Theorem plan_flow_spec w :
  let s := w_state w in
  let '(w', r) := plan_flow_run node_tasks w in
  match r with
  | Ok CONTINUE => may_continue w w'
  | Ok EXIT_WAIT => input_required_nodes s <> [] /\ synced w' /\ nodes (w_state w') = nodes s
  | Ok EXIT_DONE => all_completed s = true /\ announced TaskState.COMPLETED w w'
  | Ok EXIT_FAILED =>
      input_required_nodes s = [] /\ all_completed s = false /\
      (if has_failures s
       then exists w1, announced TaskState.FAILED w1 w' /\ (w1 = w /\ ~ repairs_left s \/ repair_plan w = (w1, Ok false))
       else announced TaskState.FAILED w w' /\
         (has_pending_work s = false \/ ready_nodes s = [] /\ node_tasks = 0))
  | Ok END_ => False
  | Err e => has_failures s = true /\ repair_plan w = (w', Err e)
  end.
Proof.
  cbv zeta. rewrite plan_flow_outcome. unfold plan_outcome, may_continue, repairs_left.
  assert (forall st w, st ∈ [TaskState.COMPLETED; TaskState.FAILED] -> announced st w (ended st w)) as Hend.
  { intros st w0 Hst. apply ended_announced. unfold _TERMINAL_TASK_STATES. set_solver. }
  destruct (any_retryable (w_state w)) eqn:E1.
  { left. split; [done|]. apply existsb_elem in E1 as (n & Hn & Hr). exists n. unfold can_retry in Hr.
    apply andb_prop in Hr as [Hr Ha%Z.ltb_lt]. by bool_prop. }
  destruct (input_required_nodes (w_state w)) as [|n l] eqn:E2.
  2: { destruct (exit_wait_run w) as (w' & E & Hs & Hn). rewrite E. done. }
  destruct (all_completed (w_state w)) eqn:E3; [split; [done | apply Hend; set_solver]|].
  destruct (has_failures (w_state w)) eqn:E4.
  - destruct (_ && _) eqn:E5.
    + apply andb_prop in E5 as [E5 E5'%Z.ltb_lt]. destruct (repair_plan w) as [w1 [[]|e]] eqn:E6; [| |done].
      * right. right. split; [done|]. split; [done|]. split; [done | by apply repair_plan_counts].
      * do 2 (split; [done|]). exists w1. split; [apply Hend; set_solver | by right].
    + do 2 (split; [done|]). exists w. split; [apply Hend; set_solver|]. left. split; [done|]. intros [Ha Hb%Z.ltb_lt].
      by rewrite Ha, Hb in E5.
  - destruct (_ && _) eqn:E5.
    + right. left. do 2 (split; [done|]). apply andb_prop in E5 as [_ E5]. apply orb_prop in E5 as [E5|E5].
      * left. by destruct (ready_nodes (w_state w)).
      * right. by apply Nat.ltb_lt.
    + do 2 (split; [done|]). split; [apply Hend; set_solver|]. apply andb_false_iff in E5 as [E5|E5]; [by left|].
      right. apply orb_false_elim in E5 as [E5 E6]. apply Nat.ltb_ge in E6.
      split; [by destruct (ready_nodes (w_state w)) | lia].
Qed.
End plan_facts.
