(* ===== verification/Rewind.v ===== *)
(** * Rewinding a conversation (a2a/tasks.py, a2a/room.py, orchestration/rewind.py)

    A rewind is a task of its own that names the task before which the
    conversation continues. Listing streams the tasks newest first and hides what
    was rewound with a stack; the specification reads them oldest first and cuts. *)
From S2P Require Import Prelude PyStr Dict Json State StateFacts StateJson World Tool Events.
Local Open Scope string_scope.
Local Open Scope list_scope.

(** ** Room metadata (a2a/room.py) *)

Definition A2A_ROOM_URI : string := "https://github.com/Javey/choirworks/extensions/room/v1".

Definition room_options (message : option Message) : list (string * json) :=
  match message with
  | None => []
  | Some m => match dget A2A_ROOM_URI (msg_metadata m) with Some (JObj room) => room | _ => [] end
  end.

Definition message_text (m : Message) : string :=
  str_join nl (omap (fun p => match p_content p with CText s => Some s | _ => None end) (msg_parts m)).

(** ** Rewind markers (orchestration/rewind.py) *)

Definition REWIND_KEY : string := "choirworks.rewind".

Definition extract_rewind (t : Task) : option string :=
  match dget REWIND_KEY (t_metadata t) with
  | Some (JStr raw) => if str_truthy raw then Some raw else None
  | _ => None
  end.

(** Whether the task was started by a human room message. *)
Definition is_human_turn (t : Task) : bool :=
  match t_history t with
  | [] => false
  | message :: _ =>
      bool_decide (msg_role message = ROLE_USER) &&
      match dget "sender" (room_options (Some message)) with
      | None | Some JNull => true
      | Some (JStr s) => bool_decide (s = estr) || bool_decide (s = "user")
      | Some _ => false
      end
  end.

(** ** Listing (a2a/tasks.py) *)

(** One task of the stream: the stacks after it, and whether it is yielded. *)
Definition stream_task (skip : list (string * list string)) (t : Task) : list (string * list string) * bool :=
  let ctx := t_context_id t in
  match extract_rewind t with
  | Some before => (dset ctx (before :: default [] (dget ctx skip)) skip, false)
  | None =>
      match dget ctx skip with
      | Some (top :: stack) =>
          if bool_decide (t_id t = top) then (dset ctx stack skip, false) else (skip, false)
      | _ => (skip, true)
      end
  end.

Fixpoint stream_tasks (skip : list (string * list string)) (l : list Task) : list Task :=
  match l with
  | [] => []
  | t :: l' =>
      let '(skip', visible) := stream_task skip t in
      if visible : bool then t :: stream_tasks skip' l' else stream_tasks skip' l'
  end.

(** [pages]: what the task store lists, page by page, newest first. *)
Definition iter_all_tasks (pages : list (list Task)) : list Task := stream_tasks [] (mjoin pages).

Definition list_all_tasks (pages : list (list Task)) (reverse : bool) : list Task :=
  let tasks := iter_all_tasks pages in if reverse then rev tasks else tasks.

(** ** Restoring a snapshot *)

Section restore.
Context (py_repr : json -> string) (py_int : string -> option Z) (now : string) (loads : string -> option json).

(** [load_state(task)]. *)
Definition load_task (t : Task) : res (option OrchestrationState) :=
  load_state py_repr py_int now loads
    (match dget STATE_JSON_KEY (t_metadata t) with Some (JStr raw) => Some raw | _ => None end).

(** The last position of an id, as in [{task.id: position}]. *)
Fixpoint last_index (tasks : list Task) (id : string) : option nat :=
  match tasks with
  | [] => None
  | t :: tasks' =>
      match last_index tasks' id with
      | Some i => Some (S i)
      | None => if bool_decide (t_id t = id) then Some 0 else None
      end
  end.

Definition restore_state (visible_tasks_oldest_first : list Task) (before_task_id : string) : res OrchestrationState :=
  match last_index visible_tasks_oldest_first before_task_id with
  | None | Some 0 => Ok empty_state
  | Some (S pos) =>
      match visible_tasks_oldest_first !! pos with
      | None => Err Unmodelled
      | Some checkpoint =>
          s ← load_task checkpoint;
          match s with
          | Some s => Ok s
          | None => Err (RewindUnavailable ("no state snapshot for task " +:+ t_id checkpoint))
          end
      end
  end.
End restore.

(** ** The specification *)

(** The tasks before the one with an id. *)
Fixpoint before (id : string) (l : list Task) : list Task :=
  match l with
  | [] => []
  | t :: l' => if bool_decide (t_id t = id) then [] else t :: before id l'
  end.

(** Reading a conversation oldest first: a rewind cuts what is visible so far. *)
Definition apply_rewind (visible : list Task) (t : Task) : list Task :=
  match extract_rewind t with
  | Some id => before id visible
  | None => visible ++ [t]
  end.
Definition apply_rewinds (oldest_first : list Task) : list Task := foldl apply_rewind [] oldest_first.

(** Each rewind names a task that was visible when it was made (the rewind
    endpoint refuses others), ids are not reused, and all is one conversation. *)
Inductive conversation (c : string) : list Task -> Prop :=
| conv_nil : conversation c []
| conv_turn l t :
    conversation c l -> t_context_id t = c -> extract_rewind t = None -> t_id t ∉ t_id <$> l ->
    conversation c (l ++ [t])
| conv_rewind l t id :
    conversation c l -> t_context_id t = c -> extract_rewind t = Some id -> id ∈ t_id <$> apply_rewinds l ->
    t_id t ∉ t_id <$> l ->
    conversation c (l ++ [t]).

Lemma apply_rewinds_snoc l t : apply_rewinds (l ++ [t]) = apply_rewind (apply_rewinds l) t.
Proof. unfold apply_rewinds. by rewrite foldl_app. Qed.

Lemma before_app_in id l k : id ∈ t_id <$> l -> before id (l ++ k) = before id l.
Proof.
  induction l as [|t l IH]; cbn; [by intros ?%elem_of_nil|]. intros [->|Hin]%elem_of_cons.
  - by rewrite bool_decide_true.
  - case_bool_decide; [done|]. by rewrite IH.
Qed.

Lemma before_app_fresh id l t : id ∉ t_id <$> l -> t_id t = id -> before id (l ++ [t]) = l.
Proof.
  induction l as [|x l IH]; cbn; intros Hn Ht; [by rewrite bool_decide_true|].
  apply not_elem_of_cons in Hn as [Hx Hn]. rewrite bool_decide_false by congruence. by rewrite IH.
Qed.

Lemma before_sublist id l : sublist (before id l) l.
Proof. induction l as [|t l IH]; cbn; [done|]. case_bool_decide; [apply sublist_nil_l | by apply sublist_skip]. Qed.

Lemma visible_sublist l : sublist (apply_rewinds l) l.
Proof.
  induction l as [|t l IH] using rev_ind; [done|]. rewrite apply_rewinds_snoc. unfold apply_rewind.
  destruct (extract_rewind t).
  - etrans; [apply before_sublist|]. by apply sublist_inserts_r.
  - by apply sublist_app.
Qed.

(** Cutting at each id of a stack, the top first. *)
Definition cuts (stack : list string) (visible : list Task) : list Task := foldl (fun v id => before id v) visible stack.

(** Each id of the stack is visible when it is its turn to cut. *)
Fixpoint nested (stack : list string) (visible : list Task) : Prop :=
  match stack with
  | [] => True
  | id :: stack' => id ∈ t_id <$> visible /\ nested stack' (before id visible)
  end.

(** The stream on a conversation with a stack agrees with the cuts. *)
Lemma stream_cuts c l : conversation c l -> forall skip,
  nested (default [] (dget c skip)) (apply_rewinds l) ->
  stream_tasks skip (rev l) = rev (cuts (default [] (dget c skip)) (apply_rewinds l)).
Proof.
  induction 1 as [|l t Hl IH Hc He Hid|l t id Hl IH Hc He Hin Hid]; intros skip Hn.
  - cbn. assert (cuts (default [] (dget c skip)) [] = []) as ->; [|done].
    clear.
    generalize (default [] (dget c skip)). intros st. induction st; [done|]. cbn. done.
  - rewrite rev_unit. cbn [stream_tasks]. unfold stream_task. rewrite He, Hc.
    rewrite apply_rewinds_snoc in *. unfold apply_rewind in *. rewrite He in *.
    assert (Hfresh : t_id t ∉ t_id <$> apply_rewinds l).
    { intros Hx. apply Hid. apply list_elem_of_fmap in Hx as (y & -> & Hy). apply list_elem_of_fmap. exists y.
      split; [done|]. by eapply elem_of_sublist; [|apply visible_sublist]. }
    destruct (dget c skip) as [[|top st]|] eqn:Ed; cbn in Hn |- *; unfold id in *.
    + rewrite IH; rewrite Ed; cbn; [|done]. by rewrite rev_unit.
    + destruct Hn as [Htop Hn]. case_bool_decide as Ht.
      * subst top. rewrite before_app_fresh in Hn |- * by done. by rewrite IH; rewrite dget_dset_eq.
      * rewrite fmap_app, elem_of_app in Htop. destruct Htop as [Htop|Htop%list_elem_of_singleton]; [|done].
        rewrite before_app_in in Hn |- * by done. rewrite IH; rewrite Ed; cbn; [done|]. by split.
    + rewrite IH; rewrite Ed; cbn; [|done]. by rewrite rev_unit.
  - rewrite rev_unit. cbn [stream_tasks]. unfold stream_task. rewrite He, Hc.
    rewrite apply_rewinds_snoc in *. unfold apply_rewind in *. rewrite He in *.
    rewrite IH; rewrite dget_dset_eq; [done|]. by split.
Qed.

Lemma list_all_cuts c l pages :
  conversation c l -> mjoin pages = rev l -> list_all_tasks pages true = apply_rewinds l.
Proof.
  intros Hl Hp. unfold list_all_tasks, iter_all_tasks. rewrite Hp.
  rewrite (stream_cuts c l Hl []); [|done]. cbn. by rewrite rev_involutive.
Qed.

(** Listing a conversation applies its rewinds. However the newest-first list
    is cut into pages, the tasks listed are, oldest first, exactly those left when
    the conversation is read from its start and each rewind removes the task it
    names and everything after it; rewinds over rewinds included. *)
Theorem list_all_tasks_rewinds c l pages :
  conversation c l -> mjoin pages = rev l -> list_all_tasks pages true = apply_rewinds l.
Proof. apply list_all_cuts. Qed.

(** Conversations do not hide each other's tasks. Of the tasks of all
    conversations, listed together, those of one conversation are the ones that
    listing it alone shows. *)
Theorem stream_tasks_context c l : forall skip skip',
  dget c skip = dget c skip' ->
  filterb (fun t => bool_decide (t_context_id t = c)) (stream_tasks skip l) =
  stream_tasks skip' (filterb (fun t => bool_decide (t_context_id t = c)) l).
Proof.
  unfold filterb. induction l as [|t l IH]; intros skip skip' Hd; [done|]. cbn [List.filter stream_tasks].
  destruct (stream_task skip t) as [s1 v] eqn:E1. unfold stream_task in E1.
  case_bool_decide as Hc.
  - cbn [stream_tasks]. unfold stream_task. rewrite Hc in *. rewrite <- Hd.
    destruct (extract_rewind t); simplify_eq; [apply IH; by rewrite !dget_dset_eq|].
    destruct (dget (t_context_id t) skip) as [[|top st]|] eqn:Ed; [| case_bool_decide |]; simplify_eq;
      cbn [List.filter]; rewrite ?bool_decide_true by done; try (f_equal; apply IH; congruence); apply IH; try congruence.
    by rewrite !dget_dset_eq.
  - assert (dget c s1 = dget c skip') as Hs.
    { destruct (extract_rewind t); simplify_eq; [by rewrite dget_dset_ne|].
      destruct (dget (t_context_id t) skip) as [[|top st]|]; [| case_bool_decide |]; simplify_eq; try done.
      by rewrite dget_dset_ne. }
    destruct v; cbn [List.filter]; rewrite ?bool_decide_false by done; by apply IH.
Qed.

(** ** Restoring *)

Lemma before_split id l : id ∈ t_id <$> l -> exists t post, l = before id l ++ t :: post /\ t_id t = id.
Proof.
  induction l as [|t l IH]; cbn; [by intros ?%elem_of_nil|]. intros [->|Hin]%elem_of_cons.
  - rewrite bool_decide_true by done. by exists t, l.
  - case_bool_decide as Ht; [by exists t, l|]. destruct (IH Hin) as (t' & post & E & Ht').
    exists t', post. split; [|done]. cbn. by f_equal.
Qed.

Lemma last_index_none l id : id ∉ t_id <$> l -> last_index l id = None.
Proof.
  induction l as [|t l IH]; cbn; [done|]. intros [Ht Hl]%not_elem_of_cons. rewrite IH by done. by rewrite bool_decide_false.
Qed.

Lemma last_index_split l t post : t_id t ∉ t_id <$> post -> last_index (l ++ t :: post) (t_id t) = Some (length l).
Proof.
  intros Hp. induction l as [|x l IH]; cbn.
  - rewrite last_index_none by done. by rewrite bool_decide_true.
  - by rewrite IH.
Qed.

(** A rewind restores the state of the last turn it keeps. For a visible task,
    the snapshot restored is the one stored with the last task that stays visible,
    the empty state when none does, and an error when that task has no readable
    snapshot. *)
Theorem restore_state_spec py_repr py_int now loads l id :
  NoDup (t_id <$> l) -> id ∈ t_id <$> l ->
  restore_state py_repr py_int now loads l id =
    match last (before id l) with
    | None => Ok empty_state
    | Some checkpoint =>
        s ← load_task py_repr py_int now loads checkpoint;
        match s with
        | Some s => Ok s
        | None => Err (RewindUnavailable ("no state snapshot for task " +:+ t_id checkpoint))
        end
    end.
Proof.
  intros Hnd Hin. destruct (before_split id l Hin) as (t & post & E & Ht). unfold restore_state.
  set (b := before id l) in *. rewrite E in Hnd |- *. subst id.
  rewrite last_index_split.
  2: { rewrite fmap_app in Hnd. apply NoDup_app in Hnd as (_ & _ & Hnd). by apply NoDup_cons in Hnd as [? _]. }
  rewrite last_lookup. destruct b as [|x b]; [done|]. cbn [length Nat.pred].
  rewrite lookup_app_l by (cbn; lia).
  destruct ((x :: b) !! length b) eqn:El; [done|]. apply lookup_ge_None in El. cbn in El. lia.
Qed.
