(* ===== verification/History.v ===== *)
(** * Conversation history (orchestration/history.py)

    Rebuilding the messages of a conversation from the artifacts of its tasks, and
    folding its older messages into a summary. *)
From S2P Require Import Prelude SystemPrompts PyStr Dict Json State StateFacts StateJson World Tool Events.
From S2P Require Import Evolution Llm Rewind.
From S2P Require Import NodeFacts.
Local Open Scope string_scope.
Local Open Scope list_scope.

Class History := {
  (** [int(window * compaction_threshold)] *)
  scale_window : Z -> Z;
  retention : nat;
  (** the pages of tasks of the conversation, newest first, or the failure of the store *)
  stored_pages : nat -> res (list (list Task))
}.

Section history.
Context `{!Env, !Llm, !History}.

(** ** Texts *)

(** The lines one message contributes. *)
Definition message_lines (m : ChatMessage) : list string :=
  let said role content := if str_truthy content then ["[" +:+ role +:+ "] " +:+ content] else [] in
  match m with
  | MsgSystem c => said "system" c
  | MsgUser c => said "user" c
  | MsgAssistant c => said "assistant" c
  | MsgTool _ c => said "tool" c
  | MsgToolCall _ name arguments =>
      if str_truthy name || str_truthy arguments then ["[tool_call] " +:+ name +:+ " " +:+ arguments] else []
  end.
Definition _messages_text (l : list ChatMessage) : string := str_join nl (l ≫= message_lines).

Definition is_tool (m : ChatMessage) : bool := match m with MsgTool _ _ => true | _ => false end.

(** ** Compaction *)

(** [while 0 < split < len(messages) and messages[split] is a tool result]. *)
Fixpoint split_back (messages : list ChatMessage) (split : nat) : nat :=
  match split with
  | O => O
  | S split' =>
      match messages !! split with
      | Some m => if is_tool m then split_back messages split' else split
      | None => split
      end
  end.

Definition store_compaction (c : Z * string) : M unit := modify (fun w => set_compaction (Some c) w).

(** The messages kept, and the compaction to persist. *)
Definition compact (messages : list ChatMessage) : M (list ChatMessage * option (Z * string)) :=
  if (count_tokens (_messages_text messages) <=? scale_window get_context_window)%Z then mret (messages, None)
  else
    let split := split_back messages (length messages - retention) in
    match split with
    | O => mret (messages, None)
    | _ =>
        let old := take split messages in
        let recent := drop split messages in
        w ← get_world;
        r ← (match w_compaction w with
             | Some (count, previous) =>
                 let new_msgs := drop 1 old in
                 let new_text := _messages_text new_msgs in
                 summary ← (if str_truthy new_text then
                   text SUMMARIZE_PROMPT ("Previous summary:" +:+ nl +:+ previous +:+ nl +:+ nl +:+
                     "New messages:" +:+ nl +:+ new_text)
                 else mret previous);
                 mret ((count + Z.of_nat (length new_msgs))%Z, summary)
             | None =>
                 summary ← text SUMMARIZE_PROMPT (_messages_text old);
                 mret (Z.of_nat split, summary)
             end);
        (store_compaction r ;;; mret (MsgAssistant (snd r) :: recent, Some r))%choir
    end.

(** ** Rebuilding *)

(** [raw[count:]]. *)
Definition slice_from {A} (count : Z) (l : list A) : list A :=
  if (count <? 0)%Z then drop (length l - Z.to_nat (- count)) l else drop (Z.to_nat count) l.

(** [payload.get(key)] when it is a non-empty string. *)
Definition payload_text (payload : list (string * json)) (key : string) : option string :=
  match dget key payload with Some (JStr s) => if str_truthy s then Some s else None | _ => None end.

Definition payload_dump (payload : list (string * json)) (text_key value_key : string) : string :=
  match payload_text payload text_key with
  | Some s => s
  | None => dumps (default (JObj []) (dget value_key payload))
  end.

Definition _tool_exchange_from_data (data : json) : M (list ChatMessage) :=
  match data with
  | JObj payload =>
      let function_name := py_str py_repr (default (JStr estr) (dget "function_name" payload)) in
      if str_truthy function_name then
        call_id ← (match payload_text payload "call_id" with Some s => mret s | None => new_uuid end);
        mret (tool_exchange function_name call_id (payload_dump payload "args_json" "function_args")
                (payload_dump payload "result_json" "function_result"))
      else mret []
  | _ => raise Unmodelled
  end.

(** One part: the messages so far and the latest compaction. *)
Definition rebuild_part (acc : list ChatMessage * option (Z * string)) (p : Part)
    : M (list ChatMessage * option (Z * string)) :=
  let '(raw, latest) := acc in
  match meta_str "cw_type" (p_metadata p) with
  | None => mret acc
  | Some cw_type =>
      if bool_decide (cw_type = CwType_value COMPACTION) then
        match p_content p with
        | CText text =>
            let count := match dget "compacted_count" (p_metadata p) with Some (JNum z) => z | _ => 0%Z end in
            mret (raw, Some (count, text))
        | _ => mret acc
        end
      else if bool_decide (cw_type = CwType_value DECISION) || bool_decide (cw_type = CwType_value HISTORY) then
        match p_content p with
        | CText text =>
            let role := default "assistant" (meta_str "role" (p_metadata p)) in
            mret (raw ++ [if bool_decide (role = "user") then MsgUser text else MsgAssistant text], latest)
        | _ => mret acc
        end
      else if bool_decide (cw_type = CwType_value FUNCTION_CALL) then
        match p_content p with
        | CData data => exchange ← _tool_exchange_from_data data; mret (raw ++ exchange, latest)
        | _ => mret acc
        end
      else mret acc
  end.

Definition rebuild_tasks (exclude_task_id : string) (tasks : list Task) : M (list ChatMessage * option (Z * string)) :=
  foldM (fun acc task =>
    if str_truthy exclude_task_id && bool_decide (t_id task = exclude_task_id) then mret acc
    else foldM rebuild_part acc (t_artifacts task ≫= art_parts)) ([], None) tasks.

Definition rebuild (context_id exclude_task_id : string) : M (list ChatMessage) :=
  if negb (str_truthy context_id) then mret []
  else
    t ← draw;
    match stored_pages t with
    | Err _ => mret []
    | Ok pages =>
        '(raw, latest) ← rebuild_tasks exclude_task_id (list_all_tasks pages true);
        match latest with
        | Some (count, summary) =>
            (store_compaction (count, summary) ;;; mret (MsgAssistant summary :: slice_from count raw))%choir
        | None => mret raw
        end
    end.
End history.

Section history_keep.
Context `{!Env, !Llm, !History} (R : relation World) `{!Logging R}.

#[export] Instance keeps_store_compaction c : Keeps R (store_compaction c).
Proof. apply (keeps_compaction R (fun _ => Some c)). Qed.
#[export] Instance keeps_compact l : Keeps R (compact l).
Proof. unfold compact. keeps. Qed.
#[export] Instance keeps_exchange d : Keeps R (_tool_exchange_from_data d).
Proof. unfold _tool_exchange_from_data. keeps. Qed.
#[export] Instance keeps_rebuild_part acc p : Keeps R (rebuild_part acc p).
Proof. unfold rebuild_part. keeps. Qed.
#[export] Instance keeps_rebuild c e : Keeps R (rebuild c e).
Proof. unfold rebuild, rebuild_tasks. keeps. Qed.
End history_keep.

(** ** Facts *)
(** The messages kept in memory for a raw history and a compaction. *)
Definition live (c : option (Z * string)) (raw : list ChatMessage) : list ChatMessage :=
  match c with
  | None => raw
  | Some (count, summary) => MsgAssistant summary :: slice_from count raw
  end.

(** A compaction covers some of the raw history. *)
Definition covers (c : option (Z * string)) (raw : list ChatMessage) : Prop :=
  match c with None => True | Some (count, _) => (0 <= count <= Z.of_nat (length raw))%Z end.

Lemma slice_from_pos {A} count (l : list A) : (0 <= count)%Z -> slice_from count l = drop (Z.to_nat count) l.
Proof. intros Hc. unfold slice_from. destruct (Z.ltb_spec count 0); [lia | done]. Qed.

Lemma split_back_le messages n : split_back messages n <= n.
Proof.
  induction n as [|n IH]; cbn [split_back]; [done|]. destruct (messages !! S n) as [m|]; [|lia].
  destruct (is_tool m); lia.
Qed.

Lemma split_back_head messages n m :
  split_back messages n <> 0 -> messages !! split_back messages n = Some m -> is_tool m = false.
Proof.
  induction n as [|n IH]; cbn [split_back]; [done|]. destruct (messages !! S n) as [x|] eqn:E; [|congruence].
  destruct (is_tool x) eqn:Ex; [done|]. congruence.
Qed.

Section facts.
Context `{!Env, !Llm, !History}.

(** What compacting [messages] may produce. *)
Definition compacted (raw messages : list ChatMessage) (w w' : World) (l : list ChatMessage) (r : option (Z * string)) : Prop :=
  match r with
  | None => l = messages /\ w' = w
  | Some c =>
      w_compaction w' = Some c /\ w_state w' = w_state w /\ covers (Some c) raw /\ l = live (Some c) raw /\
      (forall m, head (drop 1 l) = Some m -> is_tool m = false)
  end.

Lemma head_drop_split (messages : list ChatMessage) s n m :
  split_back messages s = S n -> head (drop (S n) messages) = Some m -> is_tool m = false.
Proof.
  intros Es Hh. eapply (split_back_head messages s); rewrite Es; [done|].
  by rewrite head_lookup, lookup_drop, Nat.add_0_r in Hh.
Qed.

Lemma wp_text {A} sys user (f : string -> M A) w Q :
  (forall s, wp (f s) (next_tick w) Q) -> (forall e, Q (next_tick w) (Err e)) -> wp (text sys user ≫= f) w Q.
Proof.
  intros Hok Herr. apply wp_bind. unfold wp at 1, text, draw, lift, mbind, M_bind. cbn.
  destruct (completion_text _ _ _); cbn; auto.
Qed.

Lemma compact_run raw w :
  covers (w_compaction w) raw ->
  wp (compact (live (w_compaction w) raw)) w (fun w' r =>
    match r with Ok (l, c) => compacted raw (live (w_compaction w) raw) w w' l c | Err _ => True end).
Proof.
  intros Hc. unfold compact. destruct (_ <=? _)%Z; [by apply wp_ret|].
  set (messages := live (w_compaction w) raw) in *. cbv zeta.
  destruct (split_back messages (length messages - retention)) as [|n] eqn:Es; [by apply wp_ret|].
  assert (Hlen : S n <= length messages).
  { rewrite <- Es. pose proof (split_back_le messages (length messages - retention)). lia. }
  assert (forall w1 c summary, w_state w1 = w_state w -> covers (Some (c, summary)) raw ->
    slice_from c raw = drop (S n) messages ->
    wp (store_compaction (c, summary) ≫= fun _ => mret (MsgAssistant (c, summary).2 :: drop (S n) messages, Some (c, summary))) w1
      (fun w' r => match r with Ok (l, c) => compacted raw messages w w' l c | Err _ => True end)) as Hend.
  { intros w1 c summary Hs Hcov Hsl. eapply wp_run; [reflexivity|]. apply wp_ret. cbn -[slice_from drop].
    split; [done|]. split; [done|]. split; [done|]. rewrite Hsl. split; [done|].
    intros m. change (drop 1 (MsgAssistant summary :: drop (S n) messages)) with (drop (S n) messages).
    by eapply head_drop_split. }
  apply wp_bind. unfold wp at 1. cbn [get_world fst snd]. unfold messages, live in *.
  destruct (w_compaction w) as [[count previous]|] eqn:Ew.
  - cbn [covers] in Hc. rewrite slice_from_pos in * by lia. cbn [length] in Hlen. rewrite length_drop in Hlen.
    cbn [take drop]. rewrite drop_0.
    assert (Hn : length (take n (drop (Z.to_nat count) raw)) = n) by (rewrite length_take, length_drop; lia).
    assert (Hfin : forall w1 summary, w_state w1 = w_state w -> wp
      (store_compaction ((count + Z.of_nat (length (take n (drop (Z.to_nat count) raw))))%Z, summary) ≫= fun _ =>
        mret (MsgAssistant ((count + Z.of_nat (length (take n (drop (Z.to_nat count) raw))))%Z, summary).2 ::
          drop n (drop (Z.to_nat count) raw),
          Some ((count + Z.of_nat (length (take n (drop (Z.to_nat count) raw))))%Z, summary))) w1
      (fun w' r => match r with Ok (l, c) => compacted raw (MsgAssistant previous :: drop (Z.to_nat count) raw) w w' l c
                   | Err _ => True end)).
    { intros w1 summary Hs. rewrite Hn. apply Hend; [done | cbn; lia|].
      rewrite slice_from_pos by lia. cbn [drop]. rewrite drop_drop. f_equal. lia. }
    apply wp_bind. destruct (str_truthy _).
    + apply wp_text; [|done]. intros s. apply wp_ret. by apply Hfin.
    + eapply wp_run; [reflexivity|]. apply wp_ret. by apply Hfin.
  - apply wp_bind. apply wp_text; [|done]. intros s. apply wp_ret. apply Hend; [done | cbn; lia|].
    rewrite slice_from_pos by lia. f_equal. lia.
Qed.

(** Compaction agrees with rebuilding. While the messages in memory are those
    that a rebuild would produce from the raw history (all of it, or the last
    summary followed by what it does not cover), compacting them either changes
    nothing, or leaves exactly the messages that a rebuild with the new
    compaction produces: no message is lost or counted twice, and what remains
    does not begin with the result of a tool call that was folded away. *)
Theorem compact_spec raw w w' l c :
  covers (w_compaction w) raw ->
  compact (live (w_compaction w) raw) w = (w', Ok (l, c)) ->
  compacted raw (live (w_compaction w) raw) w w' l c.
Proof.
  intros Hc E. pose proof (compact_run raw w Hc) as Hwp. unfold wp in Hwp. by rewrite E in Hwp.
Qed.

(** ** Rebuilding *)

(** What a turn records, in order. *)
Inductive entry :=
| Said (decision : bool) (r : chat_role) (content : string)
| Called (name call_id args_json result_json : string) (args result : json)
| Compacted (count : Z) (summary : string).

(** The artifact of each (orchestration/events.py). *)
Definition entry_artifact (id : string) (e : entry) : Artifact :=
  match e with
  | Said d r content => message_artifact id content (if d then DECISION else HISTORY) r
  | Called name call_id args_json result_json args result =>
      match function_call_event id estr estr name args result call_id args_json result_json with
      | EvArtifact _ _ a _ _ => a
      | _ => mkArtifact id estr [] []
      end
  | Compacted count summary => compaction_artifact id count summary
  end.

Definition entry_messages (e : entry) : list ChatMessage :=
  match e with
  | Said _ r content => [chat_message r content]
  | Called name call_id args_json result_json _ _ => tool_exchange name call_id args_json result_json
  | Compacted _ _ => []
  end.

Definition last_compaction (c : option (Z * string)) (e : entry) : option (Z * string) :=
  match e with Compacted count summary => Some (count, summary) | _ => c end.

(** The names and texts of a recorded call are never empty. *)
Definition entry_ok (e : entry) : Prop :=
  match e with
  | Called name call_id args_json result_json _ _ =>
      name <> estr /\ call_id <> estr /\ args_json <> estr /\ result_json <> estr
  | _ => True
  end.

Lemma rebuild_entry raw c id e w :
  entry_ok e ->
  foldM rebuild_part (raw, c) (art_parts (entry_artifact id e)) w =
    (w, Ok (raw ++ entry_messages e, last_compaction c e)).
Proof.
  intros He. destruct e as [d r content|name call_id args_json result_json args result|count summary].
  - by destruct d, r.
  - destruct He as (? & ? & ? & ?).
    cbn [entry_artifact function_call_event art_parts foldM]. unfold mbind, M_bind.
    unfold rebuild_part. cbn [p_metadata p_content]. cbn -[_tool_exchange_from_data].
    unfold _tool_exchange_from_data, payload_dump, payload_text, mbind, M_bind. dget_literal. cbn [default py_str].
    assert (forall s, s <> estr -> str_truthy s = true) as Ht by (intros; by apply str_truthy_true).
    cbn. rewrite !Ht by done. done.
  - cbn. by rewrite app_nil_r.
Qed.

(** Replaying the artifacts of a turn rebuilds its messages. The messages that
    recording said, decided and called things added to the conversation are the
    ones a rebuild reads back from the artifacts, in the same order and without
    loss, together with the last compaction; reading draws nothing from the
    surroundings. *)
Theorem rebuild_entries ids entries w :
  length ids = length entries -> Forall entry_ok entries ->
  foldM rebuild_part ([], None) (zip_with entry_artifact ids entries ≫= art_parts) w =
    (w, Ok (entries ≫= entry_messages, foldl last_compaction None entries)).
Proof.
  enough (forall raw c, length ids = length entries -> Forall entry_ok entries ->
    foldM rebuild_part (raw, c) (zip_with entry_artifact ids entries ≫= art_parts) w =
      (w, Ok (raw ++ (entries ≫= entry_messages), foldl last_compaction c entries))) as Hg by apply Hg.
  revert ids. induction entries as [|e entries IH]; intros [|id ids] raw c Hl Hok; try done.
  - cbn. by rewrite app_nil_r.
  - inversion Hok as [|? ? He Hoks]; subst. injection Hl as Hl.
    assert (forall (l k : list Part) acc, foldM rebuild_part acc (l ++ k) w =
      (foldM rebuild_part acc l ≫= fun acc => foldM rebuild_part acc k) w) as Happ.
    { intros l k. unfold mbind, M_bind. generalize w. induction l as [|p l IHl]; intros w0 acc; [done|]. cbn.
      unfold mbind, M_bind. destruct (rebuild_part acc p w0) as [w1 [b|ex]]; [apply IHl | done]. }
    cbn [zip_with mbind list_bind]. rewrite Happ. unfold mbind at 1, M_bind. rewrite rebuild_entry by done.
    rewrite IH by done. cbn [mbind list_bind foldl]. by rewrite app_assoc.
Qed.

(** A rebuild does not forget. When the conversation has no compaction left in
    its tasks (its turns were rewound), the rebuilt messages hold no summary, but
    the builder keeps the old compaction: the next [compact] takes the first
    message of the rebuilt history for the old summary. *)
Theorem rebuild_keeps_stale w cid count summary :
  cid <> estr -> stored_pages (w_tick w) = Ok [] -> w_compaction w = Some (count, summary) ->
  exists w', rebuild cid estr w = (w', Ok []) /\ w_compaction w' = Some (count, summary) /\
    [] <> live (w_compaction w') [].
Proof.
  intros Hc Hp Hw. exists (next_tick w). unfold rebuild. apply str_truthy_true in Hc. rewrite Hc. cbn [negb].
  unfold draw, mbind, M_bind. rewrite Hp. cbn. by rewrite Hw.
Qed.
End facts.
