(* ===== verification/Planning.v ===== *)
(** * Planning a turn (core/planner.py, plan; orchestration/planning/planner.py)

    The planner asks the model for a plan until one is valid or the retries are
    used up; launching creates the nodes and starts the scheduler. *)
From S2P Require Import Prelude SystemPrompts PyStr Dict Json State StateFacts Transitions StateJson World Tool.
From S2P Require Import Events Evolution Prompts Helpers Hitl Dag Engine Llm Planner Patch Tools.
From S2P Require Import ToolFacts NodeFacts PlanFlow Rewind History.
Local Open Scope string_scope.
Local Open Scope list_scope.

Section planning.
Context `{!Env, !Remote, !Llm, !History}.

(** A plan the model proposed: the draft and the id of the call. *)
Definition planned : Type := PlanDraft * string.

(** How one attempt ended: with a valid plan; with an error to feed back, and
    the payload that caused it; or with an exception that is not caught. *)
Inductive verdict :=
| Accepted (p : planned)
| Refused (e : exn) (payload : string)
| Broken (e : exn).

Definition judge (ending : StreamEnd) (call_id : string) : verdict :=
  match ending with
  | StreamDone None => Refused (ValueError "model did not call the create_plan tool") estr
  | StreamDone (Some (_, args, _)) =>
      match args with
      | PlanDraftArgs draft =>
          match validate_plan draft (max_nodes config) with
          | Ok _ => Accepted (draft, call_id)
          | Err e => if is_value_error e then Refused e (dumps (args_dump args)) else Broken e
          end
      | _ => Refused (ValueError "model did not return a plan draft") (dumps (args_dump args))
      end
  | StreamFailed e payload => if is_value_error e then Refused e (default estr payload) else Broken e
  end.

(** [f"... {last_error}"]. *)
Definition out_of_attempts (attempts : nat) (e : exn) : string :=
  "planner failed after " +:+ pretty (Z.of_nat attempts) +:+ " attempts: " +:+ exn_str e.

(** One attempt: publish the deltas as they come. *)
Definition plan_attempt (messages : list ChatMessage) (thought_id text_id : string)
    : M ((list string * list string) * verdict) :=
  '(deltas, ending) ← stream SYSTEM_PROMPT messages [ft_name create_plan_func] (ag_name <$> agents);
  parts ← foldM (publish_delta "assistant" thought_id text_id) ([], []) deltas;
  call_id ← (match ending with StreamDone (Some (_, _, id)) => call_id_of id | _ => mret estr end);
  mret (parts, judge ending call_id).

(** [plan] and its consumer [stream_plan]: [left] attempts remain after this one. *)
Fixpoint plan_loop (left : nat) (messages : list ChatMessage) : M planned :=
  thought_id ← new_uuid;
  text_id ← new_uuid;
  '(parts, v) ← plan_attempt messages thought_id text_id;
  match v with
  | Accepted p => (_seal "assistant" thought_id text_id parts ;;; mret p)%choir
  | Broken e => raise e
  | Refused e payload =>
      (_seal "assistant" thought_id text_id parts ;;;
       match left with
       | O => raise (PlanningFailed (out_of_attempts (S (max_plan_retries config)) e) payload)
       | S left' =>
           emit_function_error create_plan_func (exn_str e) estr payload TaskState.WORKING ;;;
           plan_loop left' (messages ++ [feedback payload e])
       end)%choir
  end.

Definition stream_plan (history : list ChatMessage) : M planned :=
  match agents with
  | [] =>
      _ ← new_uuid; _ ← new_uuid;
      raise (PlanningFailed "no agents registered; register at least one A2A agent first" estr)
  | _ =>
      let user_msg := build_planner_user_message (build_planner_capabilities agents) None in
      plan_loop (max_plan_retries config) (history ++ [MsgUser user_msg])
  end.

(** ** Launching *)

Definition plan_summary (draft : PlanDraft) : string :=
  let s := str_join "; " ((fun n => pd_id n +:+ "→" +:+ pd_agent_name n) <$> pd_nodes draft) in
  if str_truthy s then s else "(empty)".

(** Fold the history and publish the compaction. *)
Definition compact_history : M unit :=
  w ← get_world;
  '(messages, compaction) ← compact (w_messages w);
  (modify (set_messages messages) ;;;
   match compaction with
   | Some (count, summary) => emit_compaction count summary
   | None => mret tt
   end)%choir.

(** The plan of the request, or [None] when planning failed and the turn is over. *)
Definition plan_or_fail : M (option planned) :=
  w ← get_world;
  catch (p ← stream_plan (w_messages w); mret (Some p))
    (fun e => match e with
     | PlanningFailed msg args_json => Some
         (persist ;;;
          emit_function_error create_plan_func msg estr args_json TaskState.FAILED ;;;
          evict_session ;;;
          mret None)%choir
     | _ => None
     end).

(** The mentioned names that are registered; an unhashable value is a [TypeError]. *)
Fixpoint mention_targets (mentions : list json) : res (list string) :=
  match mentions with
  | [] => Ok []
  | JStr name :: l => rest ← mention_targets l; Ok (if bool_decide (name ∈ ag_name <$> agents) then name :: rest else rest)
  | (JArr _ | JObj _) :: _ => Err (TypeError "unhashable type")
  | _ :: l => mention_targets l
  end.

(** [room.get("mentions", [])], read the same way. *)
Definition room_targets (room : list (string * json)) : res (list string) :=
  mentions ← py_iter (default (JArr []) (dget "mentions" room)); mention_targets mentions.

Definition launch (draft : PlanDraft) (call_id : string) (room : list (string * json)) : M unit :=
  (_ ← execute_function create_plan_func (PlanDraftArgs draft) call_id;
   targets ← lift (room_targets room);
   match targets with [] => mret tt | _ => join_members targets "human_mention" end ;;;
   persist ;;;
   start_runner)%choir.

(** [start_new_plan(state, f"plan-{uuid.uuid4().hex[:8]}")]. *)
Definition begin_plan : M unit :=
  id ← new_uuid; mod_state (fun s => start_new_plan s ("plan-" +:+ utake 8 id)).

Definition plan_and_launch (text : string) (room : list (string * json)) : M unit :=
  (begin_plan ;;;
   compact_history ;;;
   record_message text User ;;;
   planned ← plan_or_fail;
   match planned with
   | None => mret tt
   | Some (draft, call_id) =>
       record_decision ("[planner] " +:+ plan_summary draft) ;;;
       match pd_nodes draft with
       | [] => persist ;;; emit_event TaskState.COMPLETED [] None ;;; evict_session
       | _ => launch draft call_id room
       end
   end)%choir.
End planning.

(** ** What planning keeps *)

(** Evolutions that a new plan does not disturb. *)
Class PlanEvolution (R : relation World) : Prop := {
  pe_evolution :: Evolution R;
  pe_start w id : R w (set_state (start_new_plan (w_state w) id) w);
  pe_nodes w drafts : R w (set_state (add_plan_nodes drafts (w_state w)) w)
}.

Section planning_talk.
Context `{!Env, !Remote, !Llm, !History} (R : relation World) `{!Logging R}.

#[export] Instance keeps_plan_attempt m t x : Keeps R (plan_attempt m t x).
Proof. unfold plan_attempt. keeps. Qed.
#[export] Instance keeps_plan_loop n : forall m, Keeps R (plan_loop n m).
Proof. induction n as [|n IH]; intros m; cbn [plan_loop]; keeps; intros; apply IH. Qed.
#[export] Instance keeps_stream_plan h : Keeps R (stream_plan h).
Proof. unfold stream_plan. keeps. Qed.
#[export] Instance keeps_compact_history : Keeps R compact_history.
Proof. unfold compact_history. keeps. Qed.
#[export] Instance keeps_plan_or_fail : Keeps R plan_or_fail.
Proof. unfold plan_or_fail. keeps. Qed.
End planning_talk.

Section planning_keep.
Context `{!Env, !Remote, !Llm, !History} (R : relation World) `{!PlanEvolution R}.

#[export] Instance keeps_begin_plan : Keeps R begin_plan.
Proof. unfold begin_plan. apply (keeps_bind R); [apply _|]. intros id w. apply pe_start. Qed.
#[export] Instance keeps_create_run args : Keeps R (ft_run create_plan_func args).
Proof.
  change (Keeps R (create_plan_run args)). unfold create_plan_run. destruct args; try apply _.
  apply (keeps_bind R); [intros w; apply pe_nodes|]. keeps.
Qed.
#[export] Instance keeps_launch d c m : Keeps R (launch d c m).
Proof. unfold launch. keeps. apply (keeps_execute_function R). apply _. Qed.
#[export] Instance keeps_plan_and_launch t m : Keeps R (plan_and_launch t m).
Proof. unfold plan_and_launch. keeps. Qed.
End planning_keep.

#[export] Instance keeps_inv_plan : PlanEvolution keeps_inv.
Proof.
  split; [apply _ | |]; unfold keeps_inv; intros w.
  - intros id [H1 H2]. split.
    + destruct H1; split; cbn; try assumption; try constructor; intros ? ? ?%elem_of_nil; done.
    + intros k1 i1 k2 i2 Hk. by apply elem_of_nil in Hk.
  - intros drafts [H1 H2]. split; [|done]. cbn. unfold add_plan_nodes.
    enough (forall d, wf_state (set_nodes d (w_state w)) ->
      wf_state (set_nodes (foldl (fun d draft => dset (pd_id draft) (plan_node draft) d) d drafts) (w_state w))) as Hg.
    { apply Hg. by destruct (w_state w). }
    induction drafts as [|x l IH]; intros d Hd; cbn; [done|]. apply IH.
    apply (wf_add_node (set_nodes d (w_state w)) Hd (plan_node x)).
Qed.

#[export] Instance log_grows_plan : PlanEvolution log_grows.
Proof. split; [apply _ | |]; unfold log_grows; done. Qed.

(** ** Facts *)
(** Talking leaves the state alone. *)
Definition same_state (w w' : World) : Prop := w_state w' = w_state w.

#[export] Instance same_state_logging : Logging same_state.
Proof.
  unfold same_state. split; [split|]; [by intros w | by intros a b c -> -> | by intros w w' -> _].
Qed.

Section facts.
Context `{!Env, !Remote, !Llm, !History}.

Lemma judge_accepted ending call_id p :
  judge ending call_id = Accepted p -> validate_plan p.1 (max_nodes config) = Ok tt.
Proof.
  unfold judge. destruct ending as [[[[name args] id]|]|e payload]; [| done | by destruct (is_value_error e)].
  destruct args; try done. destruct (validate_plan _ _) as [[]|e] eqn:E; [by intros [= <-]|].
  by destruct (is_value_error e).
Qed.

(** [r] is a valid plan, if it is one. *)
Definition valid (r : res planned) : Prop :=
  match r with Ok p => validate_plan p.1 (max_nodes config) = Ok tt | Err _ => True end.

Lemma plan_loop_valid n : forall messages w, wp (plan_loop n messages) w (fun _ r => valid r).
Proof.
  assert (forall messages t x w, wp (plan_attempt messages t x) w (fun _ r =>
    match r with Ok (_, Accepted p) => valid (Ok p) | _ => True end)) as Hatt.
  { intros messages t x w. unfold plan_attempt.
    apply (wp_keeps same_state); [keeps | | done]. intros w1 [deltas ending] _.
    apply (wp_keeps same_state); [keeps | | done]. intros w2 parts _.
    apply (wp_keeps same_state); [keeps | | done]. intros w3 call_id _.
    apply wp_ret. destruct (judge ending call_id) eqn:E; [|done|done]. by eapply judge_accepted. }
  induction n as [|n IH]; intros messages w; cbn [plan_loop];
    (apply (wp_keeps same_state); [keeps | | done]; intros w1 t _);
    (apply (wp_keeps same_state); [keeps | | done]; intros w2 x _);
    apply wp_bind; (eapply wp_conseq; [apply Hatt|]); intros w3 [[parts [p|e payload|e]]|e] Hp; try done.
  1, 3: (apply (wp_keeps same_state); [keeps | | done]; intros w4 u _; by apply wp_ret).
  - apply (wp_keeps same_state); [keeps | | done]. intros w4 u _. by apply wp_raise.
  - apply (wp_keeps same_state); [keeps | | done]. intros w4 u _.
    apply (wp_keeps same_state); [keeps | | done]. intros w5 u5 _. apply IH.
Qed.

Lemma stream_plan_valid messages w :
  wp (stream_plan messages) w (fun w' r => same_state w w' /\ valid r).
Proof.
  split; [apply (keeps (R:=same_state))|].
  unfold stream_plan. destruct agents as [|a l]; [done|].
  match goal with |- context [plan_loop ?n ?m w] => exact (plan_loop_valid n m w) end.
Qed.

(** Planning either returns a valid plan, or ends the turn, or raises. *)
Lemma plan_or_fail_run w :
  wp plan_or_fail w (fun w' r => same_state w w' /\
    match r with
    | Ok (Some p) => validate_plan p.1 (max_nodes config) = Ok tt
    | Ok None => w_session w' = false
    | Err _ => True
    end).
Proof.
  unfold plan_or_fail. apply wp_bind. unfold wp at 1. cbn [get_world fst snd]. apply wp_catch, wp_bind.
  eapply wp_conseq; [apply stream_plan_valid|]. intros w1 [p|e] [S1 Hv]; [by apply wp_ret|].
  destruct e; try exact (conj S1 I).
  wp_quiet_as w2 u2 Hq2 E2. wp_quiet_as w3 u3 Hq3 E3. eapply wp_run; [reflexivity|]. apply wp_ret.
  split; [|done]. unfold same_state in *. cbn. by rewrite (q_state _ _ Hq3), (q_state _ _ Hq2).
Qed.

(** The world after a plan was launched. *)
Definition launched (w : World) : Prop :=
  let s := w_state w in
  w_runner w = true /\ synced w /\ plan_ok s /\ interventions s = [] /\
  (0 < length (nodes s))%nat /\ (Z.of_nat (length (nodes s)) <= max_nodes config)%Z /\
  (forall n, n ∈ dvals (nodes s) -> n_status n = NodeStatus.PENDING /\ n_attempt n = 0%Z) /\
  ready_nodes s <> [].

Lemma create_run draft call_id w :
  nodes (w_state w) = [] -> interventions (w_state w) = [] -> validate_plan draft (max_nodes config) = Ok tt ->
  wp (execute_function create_plan_func (PlanDraftArgs draft) call_id) w (fun w' r =>
    match r with
    | Ok _ =>
        dkeys (nodes (w_state w')) = pd_id <$> pd_nodes draft /\ interventions (w_state w') = [] /\
        (forall n, n ∈ dvals (nodes (w_state w')) -> n_status n = NodeStatus.PENDING /\ n_attempt n = 0%Z) /\
        plan_ok (w_state w') /\ (pd_nodes draft <> [] -> ready_nodes (w_state w') <> [])
    | Err _ => True
    end).
Proof.
  intros Hn Hi Hv. unfold execute_function. apply wp_bind. unfold wp at 1.
  change (ft_run create_plan_func (PlanDraftArgs draft)) with (create_plan_run (PlanDraftArgs draft)).
  destruct (create_plan_run (PlanDraftArgs draft) w) as [w1 [r|e]] eqn:E; [|done]. cbn [fst snd].
  destruct (create_plan_ok draft _ w w1 r Hv Hn E) as (C1 & C2 & C3 & C4).
  assert (interventions (w_state w1) = []) as Hi1.
  { enough (wp (create_plan_run (PlanDraftArgs draft)) w (fun w' _ => interventions (w_state w') = [])) as Hwp.
    { unfold wp in Hwp. by rewrite E in Hwp. }
    unfold create_plan_run. apply wp_mod_state.
    match goal with |- wp ?m ?w0 _ => assert (Hk : Keeps only_members m) by keeps; destruct (Hk w0) as [ms Hms] end.
    unfold wp. by rewrite Hms. }
  assert (forall w2, quiet w1 w2 -> wp (mret r : M FunctionResult) w2 (fun w' r => match r with Ok _ =>
      dkeys (nodes (w_state w')) = pd_id <$> pd_nodes draft /\ interventions (w_state w') = [] /\
        (forall n, n ∈ dvals (nodes (w_state w')) -> n_status n = NodeStatus.PENDING /\ n_attempt n = 0%Z) /\
        plan_ok (w_state w') /\ (pd_nodes draft <> [] -> ready_nodes (w_state w') <> []) | Err _ => True end)) as Hend.
  { intros w2 Hq. apply wp_ret. by rewrite (q_state _ _ Hq). }
  change (ft_emit_artifact create_plan_func) with true. cbn [when].
  destruct (quiet_function_call create_plan_func (PlanDraftArgs draft) r call_id TaskState.WORKING w1) as (w2 & u & E2 & Hq2).
  eapply wp_run; [exact E2|]. by apply Hend.
Qed.

Lemma only_members_plan w w' : only_members w w' ->
  nodes (w_state w') = nodes (w_state w) /\ interventions (w_state w') = interventions (w_state w) /\
  (plan_ok (w_state w) -> plan_ok (w_state w')) /\ ready_nodes (w_state w') = ready_nodes (w_state w).
Proof. intros [ms ->]. done. Qed.

Lemma launch_run draft call_id room w :
  nodes (w_state w) = [] -> interventions (w_state w) = [] -> validate_plan draft (max_nodes config) = Ok tt ->
  pd_nodes draft <> [] ->
  wp (launch draft call_id room) w (fun w' r => match r with Ok _ => launched w' | Err _ => True end).
Proof.
  intros Hn Hi Hv Hne. unfold launch. apply wp_bind. eapply wp_conseq; [by apply create_run|].
  intros w1 [r|e]; [|done]. intros (C1 & C2 & C3 & C4 & C5).
  assert (Hlen : length (nodes (w_state w1)) = length (pd_nodes draft)).
  { apply (f_equal length) in C1. unfold dkeys in C1. by rewrite !length_fmap in C1. }
  apply wp_bind. unfold wp at 1, lift. cbn. destruct (room_targets room) as [targets|e]; [|done].
  apply (wp_keeps only_members); [keeps | | done]. intros w2 u O2.
  apply wp_persist. intros w3 Hq3 Hs3. eapply wp_exact; [reflexivity|]. cbn.
  apply only_members_plan in O2 as (N2 & I2 & P2 & R2).
  pose proof (q_state _ _ Hq3) as E3. split; [done|]. cbn. split; [exact Hs3|]. rewrite E3.
  split; [auto|]. split; [congruence|]. rewrite N2, R2, Hlen.
  split; [destruct (pd_nodes draft); [done | cbn; lia]|].
  split; [by apply validate_plan_ok in Hv as [? _]|]. auto.
Qed.

(** C30: Launching a turn. When planning a request returns, the turn is either over,
    its session given up and no node left from before; or it has a sound plan: at
    least one and at most [max_nodes] nodes, all pending and not yet attempted,
    dependencies inside the plan and without a cycle, some node ready, no question
    open, the session saved and the scheduler started. *)
Theorem plan_and_launch_spec text room w w' :
  plan_and_launch text room w = (w', Ok tt) ->
  (w_session w' = false /\ nodes (w_state w') = []) \/ launched w'.
Proof.
  intros E.
  enough (wp (plan_and_launch text room) w (fun w' r => match r with
    | Ok _ => (w_session w' = false /\ nodes (w_state w') = []) \/ launched w' | Err _ => True end)) as Hwp.
  { unfold wp in Hwp. by rewrite E in Hwp. }
  clear E. unfold plan_and_launch, begin_plan. apply wp_bind. wp_quiet_as w1 uid Hq1 E1.
  eapply wp_exact; [reflexivity|]. cbn [snd].
  set (w2 := set_state _ w1). assert (nodes (w_state w2) = [] /\ interventions (w_state w2) = []) as [N2 I2] by done.
  clearbody w2. apply (wp_keeps same_state); [keeps | | done]. intros w3 u3 S3.
  wp_quiet_as w4 u4 Hq4 E4. apply wp_bind. eapply wp_conseq; [apply plan_or_fail_run|].
  intros w5 [[[draft call_id]|]|e] [S5 Hp]; [| | done].
  - wp_quiet_as w6 u6 Hq6 E6.
    assert (w_state w6 = w_state w2) as S6.
    { rewrite (q_state _ _ Hq6). unfold same_state in *. by rewrite S5, (q_state _ _ Hq4). }
    cbn in Hp. destruct (pd_nodes draft) as [|d l] eqn:Ed.
    + apply wp_persist. intros w7 Hq7 Hs7. wp_quiet_as w8 u8 Hq8 E8. eapply wp_exact; [reflexivity|].
      left. split; [done|]. cbn. by rewrite (q_state _ _ Hq8), (q_state _ _ Hq7), S6.
    + eapply wp_conseq; [apply launch_run; [by rewrite S6.. | done | by rewrite Ed]|].
      intros w7 [u7|e] Hl; [by right | done].
  - apply wp_ret. left. split; [done|]. unfold same_state in *. by rewrite S5, (q_state _ _ Hq4), S3.
Qed.
End facts.
