(* ===== verification/MessageFlow.v ===== *)
(** * Inbound messages (a2a/executor.py, a2a/recovery.py,
    orchestration/session.py, orchestration/flows/message.py)

    What the executor does with one message: it recovers a conversation after a
    restart, answers questions, plans, talks to running nodes, or interrupts them. *)
From S2P Require Import Prelude SystemPrompts PyStr Dict Json State StateFacts Transitions StateJson World Tool.
From S2P Require Import Events Evolution Prompts Helpers Hitl Dag Engine Llm Planner Patch Tools.
From S2P Require Import ToolFacts NodeFacts PlanFlow Rewind History Planning.
Local Open Scope string_scope.
Local Open Scope list_scope.

(** What the A2A SDK makes: the task of a first message, and the events of its
    task updater. *)
Class Sdk := {
  new_task : string -> string -> list Message -> Task;
  complete_events : string -> string -> list A2AEvent;
  start_work_events : string -> string -> list A2AEvent
}.

(** One request: its message, the text the SDK reads from it, whether its task
    exists already, and whether it is the internal recovery trigger. *)
Record Request := mkRequest {
  rq_message : option Message; rq_user_input : string; rq_has_task : bool; rq_recover : bool }.

Section message.
Context `{!Env, !Remote, !Llm, !History, !Sdk}.
(** [QuestionResponse.model_validate]; [int(str)]. *)
Context (validate_response : json -> option (string * answer)) (py_int : string -> option Z).

(** ** Sessions (orchestration/session.py) *)

(** [SessionManager.load_state]. *)
Definition load_session : M (option OrchestrationState) :=
  w ← get_world;
  match w_store w with
  | None => mret None
  | Some record => now ← new_time; lift (guarded_load (state_from_json py_repr py_int now record))
  end.

(** [SessionManager.ensure_session]: the session in memory, or the stored one. *)
Definition ensure_session (task_id : string) : M unit :=
  w ← get_world;
  (unless (w_session w)
     (state ← load_session;
      modify (fun w => set_flags true false false
        (set_messages [] (set_state (match state with Some s => s | None => empty_state end) w)))) ;;;
   modify (fun w => mkWorld (w_state w) task_id (w_context_id w) (w_messages w) (w_queue w) (w_store w) (w_session w)
     (w_runner w) (w_wake w) (w_calls w) (w_inbound w) (w_compaction w) (w_tick w)))%choir.

Definition session_is_active (w : World) : bool := w_session w && w_runner w.

(** ** Recovery (a2a/recovery.py) *)

Definition recover_node (n : NodeState) : M unit :=
  when (status_in (n_status n) ACTIVE_NODE_STATUSES)
    (transition_at (n_id n) (if ostr_truthy (n_a2a_task_id n) then NodeStatus.RECOVER else NodeStatus.PENDING)).

Definition recover_session : M unit :=
  (expired ← run_state normalize_interventions;
   emit_interventions_expired expired ;;;
   w ← get_world;
   messages ← rebuild (w_context_id w) (w_task_id w);
   modify (set_messages messages) ;;;
   s ← get_state;
   mapM_ recover_node (dvals (nodes s)) ;;;
   persist ;;;
   start_runner)%choir.

(** ** The message flow *)

Inductive message_step :=
| _prepare_inbound | _do_recover | _do_reject | _do_answers | _do_reemit_questions | _do_complete
| _do_plan_and_launch | _do_noop | _do_enqueue | _do_spawn_followup | _do_interrupt | _do_new_plan
| _classify_inbound | _classify_room.
#[export] Instance message_step_eq_dec : EqDecision message_step.
Proof. solve_decision. Defined.

Definition message_flow : Flow message_step := mkFlow "message_flow" _prepare_inbound
  [mkEdge _prepare_inbound _do_recover ["recover"];
   mkEdge _prepare_inbound _classify_inbound ["ready"];
   mkEdge _classify_inbound _do_reject ["malformed"];
   mkEdge _classify_inbound _do_answers ["answers"];
   mkEdge _classify_inbound _do_reemit_questions ["unanswered_pending"];
   mkEdge _classify_inbound _classify_room ["room"];
   mkEdge _classify_inbound _do_complete ["empty"];
   mkEdge _classify_inbound _do_plan_and_launch ["plan"];
   mkEdge _classify_room _do_noop ["noop"];
   mkEdge _classify_room _do_enqueue ["quote_active"; "target"];
   mkEdge _classify_room _do_spawn_followup ["quote_completed"];
   mkEdge _classify_room _do_interrupt ["interrupt"];
   mkEdge _classify_room _do_new_plan ["new_plan"]].

Definition message_hints (h : message_step) : option (option annotation) :=
  match h with
  | _prepare_inbound => returns ["recover"; "ready"]
  | _classify_inbound => returns ["malformed"; "answers"; "unanswered_pending"; "room"; "empty"; "plan"]
  | _classify_room => returns ["quote_active"; "quote_completed"; "interrupt"; "target"; "new_plan"; "noop"]
  | _ => returns_other
  end.
Definition message_literal (h : message_step) : list string := _literal_routes (message_hints h).

(** ** Preparing *)

(** [list(room.get("mentions") or [])]. *)
Definition given_mentions (room : list (string * json)) : res (list json) :=
  let raw := default JNull (dget "mentions" room) in
  if py_bool raw then py_iter raw else Ok [].

(** The mentions of the text are added to those of the room. *)
Definition with_mentions (text : string) (room : list (string * json)) : res (list (string * json)) :=
  given ← given_mentions room;
  let mentions := foldl (fun l name => if existsb (fun j => match j with JStr s => bool_decide (s = name) | _ => false end) l
                                       then l else l ++ [JStr name]) given (find_mentions text) in
  Ok (match mentions with [] => room | _ => dset "mentions" (JArr mentions) room end).

(** The responses of a message, or why they are malformed. *)
Definition read_responses (message : option Message) : res (list (string * answer) * option string) :=
  match message with
  | None => Ok ([], None)
  | Some m =>
      match parse_question_response validate_response py_repr m with
      | Ok responses => Ok (responses, None)
      | Err (ValueError msg) => Ok ([], Some msg)
      | Err e => Err e
      end
  end.

Definition prepare_inbound (request : Request) : M (unit * step_result) :=
  if rq_recover request then route "recover"
  else
    let text := ustrip (rq_user_input request) in
    '(responses, malformed) ← lift (read_responses (rq_message request));
    w ← get_world;
    (unless (rq_has_task request)
       (enqueue_event (EvTask (new_task (w_task_id w) (w_context_id w) (option_list (rq_message request))))) ;;;
     room ← lift (with_mentions text (room_options (rq_message request)));
     modify (fun w => set_inbound (mkInbound text room responses malformed false None None) w) ;;;
     route "ready")%choir.

(** ** Classifying *)

Definition update_inbound (f : Inbound -> Inbound) : M unit := modify (fun w => set_inbound (f (w_inbound w)) w).

(** [ctx.needs_runner = True]. *)
Definition set_needs_runner (i : Inbound) : Inbound :=
  mkInbound (in_text i) (in_room i) (in_responses i) (in_malformed i) true (in_quote_id i) (in_target i).
(** [ctx.target = node]; [ctx.quote_id = quote_id]. *)
Definition set_target (k : string) (i : Inbound) : Inbound :=
  mkInbound (in_text i) (in_room i) (in_responses i) (in_malformed i) (in_needs_runner i) (in_quote_id i) (Some k).
Definition set_quote (quote_id : option string) (i : Inbound) : Inbound :=
  mkInbound (in_text i) (in_room i) (in_responses i) (in_malformed i) (in_needs_runner i) quote_id (in_target i).

Definition classify_inbound : M (unit * step_result) :=
  w ← get_world;
  let i := w_inbound w in
  match in_malformed i with
  | Some _ => route "malformed"
  | None =>
      match in_responses i with
      | _ :: _ => route "answers"
      | [] =>
          match pending_interventions (w_state w) with
          | _ :: _ => route "unanswered_pending"
          | [] =>
              if w_runner w then route "room"
              else if has_pending_work (w_state w) then
                (update_inbound set_needs_runner ;;; route "room")%choir
              else if str_truthy (in_text i) then route "plan" else route "empty"
          end
      end
  end.

(** The node a quote names, by its id or by its full id. *)
Definition quoted_node (s : OrchestrationState) (task_id : string) (quote_id : json) : option NodeState :=
  match quote_id with
  | JStr q => find_first (fun n => bool_decide (n_id n = q) || bool_decide (task_id +:+ ":" +:+ n_id n = q)) (dvals (nodes s))
  | _ => None
  end.

(** Who else a room message goes to. *)
Definition room_target (s : OrchestrationState) : option NodeState :=
  match active_nodes s with
  | n :: _ => Some n
  | [] => find_first (fun n => status_in (n_status n) [NodeStatus.PENDING; NodeStatus.READY]) (dvals (nodes s))
  end.

Definition classify_room : M (unit * step_result) :=
  w ← get_world;
  let i := w_inbound w in
  if negb (str_truthy (in_text i)) then route "noop"
  else
    let s := w_state w in
    let quote_id := default JNull (dget "quote_id" (in_room i)) in
    let interrupt := py_bool (default JNull (dget "interrupt" (in_room i))) in
    let quoted := if py_bool quote_id && negb interrupt then quoted_node s (w_task_id w) quote_id else None in
    let rest : M (unit * step_result) :=
      match active_nodes s, interrupt with
      | n :: _, true => (update_inbound (set_target (n_id n)) ;;; route "interrupt")%choir
      | _, _ =>
          match room_target s with
          | Some n =>
              (update_inbound (set_quote (if py_bool quote_id then Some (py_str py_repr quote_id) else None)) ;;;
               update_inbound (set_target (n_id n)) ;;;
               route "target")%choir
          | None => route "new_plan"
          end
      end in
    match quoted with
    | Some n =>
        if status_in (n_status n) ACTIVE_NODE_STATUSES then
          (update_inbound (set_quote (Some (py_str py_repr quote_id))) ;;;
           update_inbound (set_target (n_id n)) ;;;
           route "quote_active")%choir
        else if bool_decide (n_status n = NodeStatus.COMPLETED) then
          (update_inbound (set_target (n_id n)) ;;; route "quote_completed")%choir
        else rest
    | None => rest
    end.

(** ** Acting *)

Definition do_recover : M (unit * step_result) := (recover_session ;;; exit END_)%choir.

Definition do_reject : M (unit * step_result) :=
  w ← get_world;
  (emit_intervention_rejected estr (ostr_or (in_malformed (w_inbound w)) estr) ;;; exit END_)%choir.

Definition do_answers : M (unit * step_result) :=
  w ← get_world;
  resolved ← foldM (fun resolved '(iid, a) => b ← answer_intervention iid a; mret (resolved || b)) false
               (in_responses (w_inbound w));
  (when resolved
     (s ← get_state;
      match pending_interventions s with [] => mret tt | _ => emit_pending_questions end ;;;
      wake_set ;;;
      start_runner) ;;;
   exit END_)%choir.

Definition do_reemit_questions : M (unit * step_result) :=
  w ← get_world;
  (when (str_truthy (in_text (w_inbound w))) (record_message (in_text (w_inbound w)) User) ;;;
   emit_pending_questions ;;;
   exit END_)%choir.

(** The events of the SDK's task updater. *)
Definition updater_events (events : string -> string -> list A2AEvent) : M unit :=
  w ← get_world; mapM_ enqueue_event (events (w_task_id w) (w_context_id w)).

Definition do_complete : M (unit * step_result) :=
  (updater_events complete_events ;;; evict_session ;;; exit END_)%choir.

Definition do_plan_and_launch : M (unit * step_result) :=
  w ← get_world;
  (updater_events start_work_events ;;;
   plan_and_launch (in_text (w_inbound w)) (in_room (w_inbound w)) ;;;
   exit END_)%choir.

Definition _finish : M (unit * step_result) :=
  w ← get_world;
  (when (in_needs_runner (w_inbound w)) start_runner ;;; exit END_)%choir.

(** [node = ctx.target]. *)
Definition with_target (f : string -> NodeState -> M unit) : M (unit * step_result) :=
  w ← get_world;
  match in_target (w_inbound w) with
  | None => _finish
  | Some k => node ← node_at k; (f k node ;;; _finish)%choir
  end.

Definition do_enqueue : M (unit * step_result) := with_target (fun k node =>
  (w ← get_world;
   now ← new_time;
   _ ← run_state (fun s => enqueue now s (n_id node) (in_text (w_inbound w)) "user" (in_quote_id (w_inbound w)));
   record_message (in_text (w_inbound w)) User ;;;
   persist)%choir).

Definition do_spawn_followup : M (unit * step_result) := with_target (fun k node =>
  (w ← get_world;
   record_message (in_text (w_inbound w)) User ;;;
   spawn_followup_node (in_text (w_inbound w)) node None)%choir).

Definition do_interrupt : M (unit * step_result) := with_target (fun k node =>
  (w ← get_world;
   record_message (in_text (w_inbound w)) User ;;;
   signal_cancel node ;;;
   transition_at k NodeStatus.CANCELED ;;;
   invalidated ← invalidate_blocked;
   emit_state_delta (cancel_delta node invalidated) [] [] TaskState.WORKING ;;;
   spawn_followup_node (in_text (w_inbound w)) node (Some []))%choir).

Definition do_new_plan : M (unit * step_result) :=
  w ← get_world;
  (plan_and_launch (in_text (w_inbound w)) [] ;;; _finish)%choir.

Definition message_handler (request : Request) (h : message_step) (_ : unit) : M (unit * step_result) :=
  match h with
  | _prepare_inbound => prepare_inbound request
  | _do_recover => do_recover
  | _do_reject => do_reject
  | _do_answers => do_answers
  | _do_reemit_questions => do_reemit_questions
  | _do_complete => do_complete
  | _do_plan_and_launch => do_plan_and_launch
  | _do_noop => _finish
  | _do_enqueue => do_enqueue
  | _do_spawn_followup => do_spawn_followup
  | _do_interrupt => do_interrupt
  | _do_new_plan => do_new_plan
  | _classify_inbound => classify_inbound
  | _classify_room => classify_room
  end.

Definition message_flow_run (request : Request) : M FlowOutcome :=
  flow_run (message_handler request) message_flow tt.

(** ** The executor (a2a/executor.py) *)

Definition execute (task_id : string) (request : Request) : M unit :=
  (ensure_session task_id ;;;
   w ← get_world;
   match w_messages w with
   | [] => messages ← rebuild (w_context_id w) task_id; modify (set_messages messages)
   | _ => mret tt
   end ;;;
   update_inbound (fun _ => no_inbound) ;;;
   _ ← message_flow_run request;
   mret tt)%choir.

(** Cancel the nodes at work. *)
Definition cancel_active (n : NodeState) : M unit :=
  when (status_in (n_status n) (ACTIVE_NODE_STATUSES ++ [NodeStatus.READY])) (transition_at (n_id n) NodeStatus.CANCELED).

(** Tell the agent of a canceled node; an unregistered agent is skipped. *)
Definition cancel_remote (k : string) : M unit :=
  n ← node_at k; if bool_decide (n_status n = NodeStatus.CANCELED) then signal_cancel n else mret tt.

Definition cancel (task_id : string) : M unit :=
  w ← get_world;
  (enqueue_event (status_update task_id (w_context_id w) TaskState.CANCELED [] None) ;;;
   when (w_session w)
     (modify (fun w => set_flags (w_session w) false (w_wake w) w) ;;;
      s ← get_state;
      mapM_ cancel_active (dvals (nodes s)) ;;;
      persist ;;;
      mapM_ cancel_remote (n_id <$> dvals (nodes s)) ;;;
      evict_session))%choir.
End message.
