(* ===== verification/Samples.v ===== *)
(** * Concrete surroundings

    One simple instance of every parameter of the model, on which the witnesses
    and the examples are evaluated: four registered agents, a remote agent that
    completes at once, and a model that always proposes the same two-node plan. *)
From S2P Require Import Prelude SystemPrompts PyStr Dict Json State StateFacts Transitions StateJson World Tool.
From S2P Require Import Events Evolution Prompts Helpers Hitl Dag Engine Llm Planner Patch Tools.
From S2P Require Import ToolFacts RemoteCaller NodeExec NodeFacts Settlement PlanFlow Rewind History Planning.
From S2P Require Import MessageFlow.
Local Open Scope string_scope.
Local Open Scope list_scope.

Definition sample_agents : list AgentRecord :=
  (fun name => mkAgent name ("http://" +:+ name) [("description", JStr ("agent " +:+ name))]) <$> ["a"; "b"; "c"; "d"].

#[export] Instance sample_env : Env := {|
  config := default_config; agents := sample_agents; uuid_hex t := "u" +:+ pretty (Z.of_nat t); now_iso t := "now";
  dumps _ := "{}"; py_repr _ := "?" |}.

(** The remote task that every message starts: it is done, with one artifact. *)
Definition sample_task : Task :=
  mkTask "r1" "ctx" TaskState.COMPLETED None [mkArtifact "x1" "result" [mkPart (CText "the result") []] []] [] [].

#[export] Instance sample_remote : Remote := {|
  client_error _ _ := None; send_chunks _ _ _ _ := ([SrTask sample_task], None);
  subscribe_chunks _ _ _ := ([SrTask sample_task], None); remote_task _ _ _ := Some sample_task |}.

Definition sample_draft : PlanDraft :=
  mkPlanDraft [mkDraft "n1" "first" "a" [("text", "do this")] []; mkDraft "n2" "second" "b" [("text", "do that")] ["n1"]].

#[export] Instance sample_llm : Llm := {|
  completion _ _ _ tools := ([Some (mkDelta None (Some "thinking")
    [mkCallDelta 0 (Some (match tools with t :: _ => t | [] => estr end)) (Some "{}") (Some "call1")])], None);
  parse_args name _ _ :=
    if bool_decide (name = "create_plan") then inl (PlanDraftArgs sample_draft)
    else if bool_decide (name = "OutcomeDecision") then inl (OutcomeArgs (mkOutcome Deliver estr None))
    else if bool_decide (name = "AssistanceDecision") then inl (AssistanceArgs default_assistance)
    else if bool_decide (name = "RepairDecision") then inl (RepairArgs (mkRepair (mkPatch [] [] estr)))
    else inr "no such tool";
  completion_text _ _ _ := Ok "a summary"; token_counter _ := Some 10%Z; context_window := Some 5%Z; max_input_tokens := None |}.

#[export] Instance sample_history : History := {|
  scale_window z := z; retention := 1; stored_pages _ := Ok [] |}.

#[export] Instance sample_sdk : Sdk := {|
  new_task id ctx history := mkTask id ctx TaskState.SUBMITTED None [] history [];
  complete_events id ctx := [EvStatus id ctx TaskState.COMPLETED None None];
  start_work_events id ctx := [EvStatus id ctx TaskState.WORKING None None] |}.

(** A message that says [text]. *)
Definition say (text : string) : Request :=
  mkRequest (Some (mkMessage "m1" ROLE_USER "task" "ctx" [mkPart (CText text) []] [])) text false false.

(** No value is a response. *)
Definition no_response (_ : json) : option (string * answer) := None.

(** A conversation that starts now. *)
Definition empty_world : World := world_of empty_state.

(** Asking for a plan launches it, and running the first node completes it. *)
Example sample_launch :
  let w := fst (message_flow_run no_response (say "please") empty_world) in
  dkeys (nodes (w_state w)) = ["n1"; "n2"] /\ w_runner w = true /\
  (n_status <$> get_node (w_state (fst (execute_node 3 "n1" Dispatch w))) "n1") = Some NodeStatus.COMPLETED.
Proof. by vm_compute. Qed.
