(* ===== verification/MessageFacts.v ===== *)
(** * Facts about inbound messages

    What every message keeps, what recovery and cancellation do to the nodes, and
    where a message goes. *)
From S2P Require Import Prelude SystemPrompts PyStr Dict Json State StateFacts Transitions StateJson World Tool.
From S2P Require Import Events Evolution Prompts Helpers Hitl Dag Engine Llm Planner Patch Tools.
From S2P Require Import ToolFacts RemoteCaller NodeExec NodeFacts Settlement PlanFlow Rewind History Planning.
From S2P Require Import MessageFlow.
Local Open Scope string_scope.
Local Open Scope list_scope.

(** ** What messages keep *)

Section message_logging.
Context `{!Env, !Remote, !Llm, !History, !Sdk} (R : relation World) `{!Logging R}.

#[export] Instance keeps_update_inbound f : Keeps R (update_inbound f).
Proof. apply (keeps_inbound R). Qed.
#[export] Instance keeps_route r : Keeps R (route r).
Proof. unfold route. keeps. Qed.
#[export] Instance keeps_exit o : Keeps R (exit o).
Proof. unfold exit. keeps. Qed.
#[export] Instance keeps_updater e : Keeps R (updater_events e).
Proof. unfold updater_events. keeps. Qed.
#[export] Instance keeps_finish_message : Keeps R _finish.
Proof. unfold _finish. keeps. Qed.
#[export] Instance keeps_classify_inbound : Keeps R classify_inbound.
Proof. unfold classify_inbound. keeps. Qed.
#[export] Instance keeps_classify_room : Keeps R classify_room.
Proof. unfold classify_room. keeps. Qed.
#[export] Instance keeps_prepare v req : Keeps R (prepare_inbound v req).
Proof. unfold prepare_inbound. keeps. Qed.
End message_logging.

Section message_keep.
Context `{!Env, !Remote, !Llm, !History, !Sdk} (R : relation World) `{!PlanEvolution R}.

#[export] Instance keeps_recover_session : Keeps R recover_session.
Proof. unfold recover_session, recover_node, normalize_interventions. keeps. Qed.
Lemma keeps_message_handler v req h p : Keeps R (message_handler v req h p).
Proof.
  destruct h; cbn [message_handler]; unfold do_recover, do_reject, do_answers, do_reemit_questions, do_complete,
    do_plan_and_launch, do_enqueue, do_spawn_followup, do_interrupt, do_new_plan, with_target; keeps.
Qed.
#[export] Instance keeps_message_flow v req : Keeps R (message_flow_run v req).
Proof. apply (keeps_flow_run R). apply keeps_message_handler. Qed.
#[export] Instance keeps_cancel t : Keeps R (cancel t).
Proof. unfold cancel, cancel_active, cancel_remote. keeps. Qed.
End message_keep.

(** ** All flows *)

(** The four flows are well formed. Each passes every check of [Flow.validate]:
    no edge twice, no second default, no handler unreachable, and each route that a
    handler declares leads somewhere. *)
Theorem flows_validate :
  validate outcome_literal outcome_flow = Ok tt /\ validate settlement_literal settlement_flow = Ok tt /\
  validate plan_literal plan_flow = Ok tt /\ validate message_literal message_flow = Ok tt.
Proof. repeat split; vm_compute; reflexivity. Qed.

(** How many handlers can still follow. *)
Definition outcome_rank (h : outcome_step) : nat :=
  match h with _interpret => 4 | _revise => 3 | _mark_delivered => 2 | _arbitrate => 1 | _ => 0 end.
Definition settlement_rank (h : settlement_step) : nat :=
  match h with _inspect_helpers => 2 | _decide_assistance => 1 | _ => 0 end.
Definition plan_rank (h : plan_step) : nat :=
  match h with
  | _check_retryable => 5 | _check_input_required => 4 | _check_all_completed => 3 | _check_repairable => 2 | _repair => 1
  | _ => 0
  end.
Definition message_rank (h : message_step) : nat :=
  match h with _prepare_inbound => 3 | _classify_inbound => 2 | _classify_room => 1 | _ => 0 end.

(** Every edge of the flow goes down in the rank. *)
Definition ranked {H} (rank : H -> nat) (f : Flow H) : bool :=
  forallb (fun e => (rank (e_target e) <? rank (e_source e))%nat) (f_edges f).

Lemma ranked_runs {H} `{!EqDecision H} {P} (rank : H -> nat) (f : Flow H) (handler : H -> P -> M (P * step_result)) fuel p w :
  ranked rank f = true -> rank (f_start f) < fuel -> rank (f_start f) <= length (_nodes f) ->
  flow_loop handler f fuel (f_start f) p w = flow_run handler f p w.
Proof.
  intros Hr Hf Hl. unfold flow_run. apply (flow_run_fuel handler f rank); [|done|lia].
  intros e He. unfold ranked in Hr. rewrite forallb_elem in Hr. by apply Nat.ltb_lt, Hr.
Qed.

Section flows.
Context `{!Env, !Remote, !Llm, !History, !Sdk}.

(** Every flow ends. The loop of the engine visits at most six handlers of any
    flow: a run with more fuel is the run of the model, whatever the handlers
    return, so that no message and no node hangs in a flow. *)
Theorem flows_end v req node_tasks fuel w :
  5 < fuel ->
  (forall p, flow_loop outcome_handler outcome_flow fuel (f_start outcome_flow) p w = flow_run outcome_handler outcome_flow p w) /\
  (forall p, flow_loop settlement_handler settlement_flow fuel (f_start settlement_flow) p w = flow_run settlement_handler settlement_flow p w) /\
  flow_loop (plan_handler node_tasks) plan_flow fuel (f_start plan_flow) tt w = plan_flow_run node_tasks w /\
  flow_loop (message_handler v req) message_flow fuel (f_start message_flow) tt w = message_flow_run v req w.
Proof.
  intros Hf. repeat split; intros.
  - apply (ranked_runs outcome_rank); [reflexivity | cbn; lia | vm_compute; lia].
  - apply (ranked_runs settlement_rank); [reflexivity | cbn; lia | vm_compute; lia].
  - apply (ranked_runs plan_rank); [reflexivity | cbn; lia | vm_compute; lia].
  - apply (ranked_runs message_rank); [reflexivity | cbn; lia | vm_compute; lia].
Qed.

(** C2: Nothing that can happen to a session breaks it. Running a node, settling
    its input, the end of a wave, an inbound message (planning and recovery
    included) and a cancellation, whether they return or raise, and whatever
    agents and models answer, keep the invariant: unique ids, every object under
    its own id, at most one pending question per node. *)
Theorem session_invariant budget k mode node_tasks v req task_id w :
  session_inv (w_state w) ->
  session_inv (w_state (fst (execute_node budget k mode w))) /\
  session_inv (w_state (fst (settle_node_input k w))) /\
  session_inv (w_state (fst (plan_flow_run node_tasks w))) /\
  session_inv (w_state (fst (message_flow_run v req w))) /\
  session_inv (w_state (fst (cancel task_id w))).
Proof.
  intros Hw. assert (forall A (m : M A), Keeps keeps_inv m -> session_inv (w_state (fst (m w)))) as Hk.
  { intros A m Hm. by apply Hm. }
  do 4 (split; [apply Hk; apply _|]). apply Hk. apply _.
Qed.

(** Work that is settled stays settled. While nodes run, input is settled and
    the scheduler repairs, a node that was completed, canceled or invalidated
    keeps its status, its agent and its dependencies; only a node whose id
    [spawn_derived_node] may still make is not covered (see
    [derived_id_collides]). *)
Theorem settled_nodes_stay budget k mode node_tasks w j n :
  get_node (w_state w) j = Some n -> settled (n_status n) -> ~ derived_id (derived_count (w_state w)) j ->
  forall w', w' ∈ [fst (execute_node budget k mode w); fst (settle_node_input k w); fst (plan_flow_run node_tasks w)] ->
  exists n', get_node (w_state w') j = Some n' /\ n_status n' = n_status n /\ n_agent_name n' = n_agent_name n /\
    n_deps n' = n_deps n.
Proof.
  intros Hn Hs Hd w' Hw'. assert (lives w w') as [_ Hl].
  { rewrite !elem_of_cons in Hw'. destruct Hw' as [->|[->|[->|[]%elem_of_nil]]]; apply (keeps (R:=lives)). }
  destruct (Hl j n Hn Hd) as (n' & Hn' & Hlater). exists n'. split; [done|].
  destruct Hlater as (_ & Ha & Hdeps & _ & _ & tr & Htr). split; [|done].
  by eapply settled_steps.
Qed.
End flows.

(** ** Moving all nodes at once *)

(** A status change of the nodes that satisfy [p]. *)
Definition move (p : NodeState -> bool) (to : NodeState -> node_status) (n : NodeState) : NodeState :=
  if p n then set_status (to n) n else n.
Definition move_all p to (s : OrchestrationState) : OrchestrationState :=
  set_nodes (map (fun '(k, n) => (k, move p to n)) (nodes s)) s.

Lemma get_move_all p to s k : get_node (move_all p to s) k = move p to <$> get_node s k.
Proof.
  unfold get_node, move_all. cbn. induction (nodes s) as [|[k' n] d IH]; cbn; [done|]. by case_decide.
Qed.

Lemma dkeys_move p to (d : list (string * NodeState)) : dkeys (map (fun '(k, n) => (k, move p to n)) d) = dkeys d.
Proof. unfold dkeys. induction d as [|[k n] d IH]; cbn; [done|]. by rewrite IH. Qed.

Lemma move_id p to n : n_id (move p to n) = n_id n.
Proof. unfold move. by destruct (p n). Qed.

Lemma move_nodes_run p to : (forall n, p n = true -> can_transition n (to n) = true) ->
  forall l pre w, wf_state (w_state w) -> nodes (w_state w) = pre ++ l ->
    mapM_ (fun n => when (p n) (transition_at (n_id n) (to n))) (dvals l) w =
      (set_state (set_nodes (pre ++ map (fun '(k, n) => (k, move p to n)) l) (w_state w)) w, Ok tt).
Proof.
  intros Hto. induction l as [|[k n] l IH]; intros pre w Hwf Hn.
  { rewrite app_nil_r in *. cbn. rewrite <- Hn. by destruct w as [[]]. }
  assert (n_id n = k) as Hk.
  { eapply wf_nodes_id; [exact Hwf|]. rewrite Hn. apply elem_of_app. right. by left. }
  assert (Hnd : NoDup (dkeys (pre ++ (k, n) :: l))) by (rewrite <- Hn; apply Hwf).
  assert (Hget : get_node (w_state w) k = Some n).
  { unfold get_node. rewrite Hn. apply elem_dget; [done|]. apply elem_of_app. right. by left. }
  set (w1 := set_state (set_nodes (pre ++ (k, move p to n) :: l) (w_state w)) w).
  assert (when (p n) (transition_at (n_id n) (to n)) w = (w1, Ok tt)) as Hstep.
  { unfold w1, move. destruct (p n) eqn:Ep; cbn [when].
    - enough (wp (transition_at (n_id n) (to n) ≫= fun u => mret u) w (fun w' r => w' = set_state (upd_node k (set_status (to n)) (w_state w)) w /\ r = Ok tt)) as Hwp.
      { apply wp_elim in Hwp as (w' & r & E & -> & ->). unfold mbind, M_bind in E.
        destruct (transition_at (n_id n) (to n) w) as [w2 [[]|e]]; [|done]. injection E as ->. do 2 f_equal.
        unfold upd_node. rewrite Hn, dupd_map by done. rewrite map_app. cbn. rewrite decide_True by done.
        unfold dkeys in Hnd. rewrite fmap_app in Hnd. cbn in Hnd. apply NoDup_app in Hnd as (_ & Hpre & Hpost).
        apply NoDup_cons in Hpost as [Hpost _]. do 3 f_equal.
        + rewrite <- (map_id pre) at 2. apply map_ext_in. intros [k' n'] Hin%list_elem_of_In. rewrite decide_False; [done|].
          intros ->. eapply Hpre; [by apply (list_elem_of_fmap_2 fst) in Hin | by left].
        + rewrite <- (map_id l) at 2. apply map_ext_in. intros [k' n'] Hin%list_elem_of_In. rewrite decide_False; [done|].
          intros ->. apply Hpost. by apply (list_elem_of_fmap_2 fst) in Hin. }
      rewrite Hk. eapply wp_transition_at; [exact Hget | by apply Hto |]. by apply wp_ret.
    - rewrite <- Hn. by destruct w as [[]]. }
  cbn [dvals fmap list_fmap mapM_ snd]. unfold mbind, M_bind. rewrite Hstep.
  fold (dvals l). rewrite (IH (pre ++ [(k, move p to n)]) w1); cbn [w_state set_state w1 nodes set_nodes].
  - f_equal. unfold w1, set_nodes, set_state. cbn. by rewrite <- app_assoc.
  - apply wf_set_nodes; [done | |].
    + unfold dkeys in *. rewrite fmap_app in *. done.
    + intros k' n' Hin. apply elem_of_app in Hin as [Hin|[[= -> ->]|Hin]%elem_of_cons];
        [| rewrite move_id; done |]; (eapply wf_nodes_id; [exact Hwf|]; rewrite Hn; apply elem_of_app).
      * by left.
      * right. by right.
  - by rewrite <- app_assoc.
Qed.

Lemma move_all_run p to w : (forall n, p n = true -> can_transition n (to n) = true) -> wf_state (w_state w) ->
  mapM_ (fun n => when (p n) (transition_at (n_id n) (to n))) (dvals (nodes (w_state w))) w =
    (set_state (move_all p to (w_state w)) w, Ok tt).
Proof. intros Hto Hwf. by apply (move_nodes_run p to Hto (nodes (w_state w)) [] w). Qed.

Section messages.
Context `{!Env, !Remote, !Llm, !History, !Sdk}.

(** Recovery leaves no node in limbo. After recovering a conversation, every
    node that was at work when the process stopped is to be recovered if its
    remote task is known and to be dispatched again otherwise; no other node has
    changed, none is at work, and the session is saved with its scheduler
    started. *)
Theorem recover_session_spec w w' :
  wf_state (w_state w) -> recover_session w = (w', Ok tt) ->
  w_runner w' = true /\ synced w' /\ active_nodes (w_state w') = [] /\
  forall k, get_node (w_state w') k =
    (fun n => if status_in (n_status n) ACTIVE_NODE_STATUSES
              then set_status (if ostr_truthy (n_a2a_task_id n) then NodeStatus.RECOVER else NodeStatus.PENDING) n
              else n) <$> get_node (w_state w) k.
Proof.
  intros Hwf E.
  set (to := fun n => if ostr_truthy (n_a2a_task_id n) then NodeStatus.RECOVER else NodeStatus.PENDING).
  set (p := fun n : NodeState => status_in (n_status n) ACTIVE_NODE_STATUSES).
  enough (wp recover_session w (fun w' r => r = Ok tt -> w_runner w' = true /\ synced w' /\
    nodes (w_state w') = nodes (move_all p to (w_state w)))) as Hwp.
  { unfold wp in Hwp. rewrite E in Hwp. cbn in Hwp. destruct (Hwp eq_refl) as (Hr & Hs & Hn). split; [done|]. split; [done|].
    assert (forall k, get_node (w_state w') k = move p to <$> get_node (w_state w) k) as Hget.
    { intros k. rewrite <- get_move_all. unfold get_node. by rewrite Hn. }
    split; [|exact Hget]. unfold active_nodes. rewrite Hn. apply filterb_nil.
    unfold move_all. cbn. intros n Hin. apply elem_dvals in Hin as (k & Hin).
    apply list_elem_of_In, in_map_iff in Hin as ([k' m] & [= <- <-] & _). unfold move.
    destruct (p m) eqn:Ep; [cbn; unfold to; by destruct (ostr_truthy _) | exact Ep]. }
  assert (forall n, p n = true -> can_transition n (to n) = true) as Hto.
  { intros n Hp. unfold can_transition, to. unfold p in Hp.
    destruct (n_status n); try discriminate Hp; by destruct (ostr_truthy _). }
  unfold recover_session, normalize_interventions. apply wp_run_state. wp_quiet_as w1 u1 Hq1 E1.
  apply wp_bind. unfold wp at 1. cbn [get_world fst snd].
  apply (wp_keeps same_state); [keeps | | done]. intros w2 messages S2.
  eapply wp_run; [reflexivity|]. apply wp_get_state. cbn [w_state set_messages].
  assert (w_state w2 = fst (expire_where (fun _ => true) (w_state w))) as Hs2.
  { unfold same_state in S2. rewrite S2, (q_state _ _ Hq1). done. }
  eapply wp_run.
  { refine (move_all_run p to (set_messages messages w2) Hto _). cbn. rewrite Hs2. by apply wf_expire_where. }
  apply wp_persist. intros w3 Hq3 Hs3. eapply wp_exact; [reflexivity|]. intros _. split; [done|]. split; [exact Hs3|].
  cbn. rewrite (q_state _ _ Hq3). cbn. by rewrite Hs2.
Qed.

(** Cancelling a task stops what runs. When a cancellation of a live session
    returns, the session is given up, the final status was published first, every
    node that was dispatched, at work or ready is canceled, and no other node has
    changed. *)
Theorem cancel_spec task_id w w' :
  wf_state (w_state w) -> w_session w = true -> cancel task_id w = (w', Ok tt) ->
  w_session w' = false /\
  w_queue w ++ [status_update task_id (w_context_id w) TaskState.CANCELED [] None] `prefix_of` w_queue w' /\
  forall k, get_node (w_state w') k =
    (fun n => if status_in (n_status n) (ACTIVE_NODE_STATUSES ++ [NodeStatus.READY])
              then set_status NodeStatus.CANCELED n else n) <$> get_node (w_state w) k.
Proof.
  intros Hwf Hsess E.
  set (p := fun n : NodeState => status_in (n_status n) (ACTIVE_NODE_STATUSES ++ [NodeStatus.READY])).
  set (to := fun _ : NodeState => NodeStatus.CANCELED).
  set (ev := status_update task_id (w_context_id w) TaskState.CANCELED [] None).
  enough (wp (cancel task_id) w (fun w' r => r = Ok tt -> w_session w' = false /\
    w_queue w ++ [ev] `prefix_of` w_queue w' /\ w_state w' = move_all p to (w_state w))) as Hwp.
  { unfold wp in Hwp. rewrite E in Hwp. cbn in Hwp. destruct (Hwp eq_refl) as (Hs & Hq & Hst). split; [done|]. split; [done|].
    intros k. by rewrite Hst, get_move_all. }
  assert (forall n, p n = true -> can_transition n (to n) = true) as Hto.
  { intros n Hp. unfold can_transition, to. unfold p in Hp. by destruct (n_status n). }
  unfold cancel. apply wp_bind. unfold wp at 1. cbn [get_world fst snd]. eapply wp_run; [reflexivity|].
  rewrite Hsess. cbn [when]. eapply wp_run; [reflexivity|]. apply wp_get_state.
  set (w1 := set_flags _ _ _ _). assert (w_state w1 = w_state w /\ w_queue w1 = w_queue w ++ [ev]) as [Hs1 Hq1] by done.
  clearbody w1. eapply wp_run.
  { apply (move_all_run p to w1 Hto). by rewrite Hs1. }
  apply wp_persist. intros w2 Hq2 _.
  set (later := fun w w' => same_state w w' /\ log_grows w w').
  assert (Logging later) as Hlog.
  { split.
    - split; [intros x; split; reflexivity | intros x y z [??] [??]; split; by etrans].
    - intros x y Hs Hq. by split. }
  apply (wp_keeps later); [unfold cancel_remote; keeps | | done]. intros w3 u3 [S3 L3].
  eapply wp_exact; [reflexivity|]. intros _. split; [done|]. cbn. unfold same_state, log_grows in *.
  split.
  - etrans; [|exact L3]. etrans; [|exact (q_log _ _ Hq2)]. cbn. by rewrite Hq1.
  - rewrite S3, (q_state _ _ Hq2). cbn. by rewrite Hs1.
Qed.

(** A node whose remote task is about to be followed again, and two that wait. *)
Definition recovered_nodes : OrchestrationState :=
  set_nodes [node_with NodeStatus.WORKING "n1" "a" [];
             ("n2", set_a2a_task_id (Some "t2") (node_with NodeStatus.RECOVER "n2" "b" []).2);
             node_with NodeStatus.PENDING "n3" "c" []; node_with NodeStatus.INPUT_REQUIRED "n4" "d" []] empty_state.

(** A message as [execute] sees it after the inbound was parsed. *)
Definition inbound_text (text : string) : Inbound := mkInbound text [] [] None false None None.

(** A cancelled task is not over. [cancel] leaves the nodes alone that were
    recovered but not yet followed again, that are pending or that wait for
    input: the remote task of the first is never told, and when the user then
    sends a new request, it is not planned but queued for a node of the cancelled
    plan, which the message also restarts. *)
Theorem cancel_leaves_work :
  let '(w, r) := cancel "task" (world_of recovered_nodes) in
  r = Ok tt /\ w_calls w = [] /\
  (n_status <$> get_node (w_state w) "n2") = Some NodeStatus.RECOVER /\
  (n_status <$> get_node (w_state w) "n3") = Some NodeStatus.PENDING /\
  (n_status <$> get_node (w_state w) "n4") = Some NodeStatus.INPUT_REQUIRED /\
  has_pending_work (w_state w) = true /\
  (let '(w1, r1) := classify_inbound (set_inbound (inbound_text "a new request") w) in
   r1 = Ok (tt, Route "room") /\ in_needs_runner (w_inbound w1) = true /\
   let '(w2, r2) := classify_room w1 in r2 = Ok (tt, Route "target") /\ in_target (w_inbound w2) = Some "n3").
Proof. vm_compute. repeat split. Qed.

(** Queued messages can be lost. When a node with queued messages is delivered
    after the budget of derived nodes is used up, its queue is emptied but no
    follow-up node is created: the texts are gone, and nothing is reported. *)
Theorem queued_messages_lost w k d n messages :
  wf_state (w_state w) -> get_node (w_state w) k = Some n ->
  dget k (queue (w_state w)) = Some messages -> messages <> [] ->
  (max_derived_nodes config <= derived_count (w_state w))%Z ->
  exists w', run_deliver_queued (mkOutcomePayload k d) w = (w', Ok (mkOutcomePayload k d, Exit END_)) /\
    nodes (w_state w') = nodes (w_state w) /\ w_queue w' = w_queue w /\
    snd (take_queued (w_state w') k) = [].
Proof.
  intros Hwf Hn Hq Hne Hmax. pose proof (wf_get_id _ Hwf k n Hn) as Hid.
  enough (wp (run_deliver_queued (mkOutcomePayload k d)) w (fun w' r => r = Ok (mkOutcomePayload k d, Exit END_) /\
    nodes (w_state w') = nodes (w_state w) /\ w_queue w' = w_queue w /\ snd (take_queued (w_state w') k) = [])) as Hwp.
  { apply wp_elim in Hwp as (w' & r & E & -> & ?). eauto. }
  unfold run_deliver_queued. cbn [op_node]. eapply wp_node_at; [exact Hn|]. apply wp_run_state.
  rewrite Hid. unfold take_queued at 1 2. rewrite Hq. cbn [fst snd default]. unfold id.
  destruct messages as [|m l]; [done|]. apply wp_bind. unfold spawn_followup_node, spawn_derived_node.
  apply wp_bind. apply wp_run_state. unfold derive. cbn [w_state set_state derived_count set_queue].
  replace (max_derived_nodes config <=? _)%Z with true by (symmetry; by apply Z.leb_le).
  unfold wp. cbn. split; [done|]. split; [done|]. split; [done|]. by rewrite dget_ddel_eq; [|apply Hwf].
Qed.

(** A room that says null mentions stops a launch half way. When the room
    metadata of a request has an explicit null for its mentions, launching the
    plan creates its nodes but raises before it saves the session or starts the
    scheduler. *)
Theorem null_mentions_break_launch draft call_id w :
  with_mentions "a request" [("mentions", JNull)] = Ok [("mentions", JNull)] /\
  exists msg, launch draft call_id [("mentions", JNull)] w =
    (execute_function create_plan_func (PlanDraftArgs draft) call_id ≫= fun _ => raise (TypeError msg) : M unit) w.
Proof.
  split; [by vm_compute|]. exists "object is not iterable". unfold launch.
  generalize (execute_function create_plan_func (PlanDraftArgs draft) call_id). intros m.
  unfold mbind, M_bind. by destruct (m w) as [w1 [r|e]].
Qed.
End messages.
