(* ===== verification/Db.v ===== *)
(** * The database (choirworks/store/db.py)

    One connection that all coroutines share, and transactions that hold a lock. What
    a statement does, and what the connection does with BEGIN, COMMIT and ROLLBACK,
    is SQLite's and the driver's: a class with the laws their documentation states.
    Another connection may write to the same file. No coroutine is cancelled while it
    waits for the connection. *)
From S2P Require Import Prelude PyStr Dict Json.
Local Open Scope string_scope.
Local Open Scope list_scope.

(** ** The connection *)

(** What may keep a statement from doing what it does (a full disk, an I/O error, a lock):
    it fails and leaves nothing, or the whole transaction is rolled back with it. *)
Inductive trouble := BackedOut (e : exn) | RolledBack (e : exn).

(** What the connection shows ([seen]), what is in the file ([committed]), and whether
    a transaction is open on it. [effect]: what a statement makes of the rows it sees,
    when it meets no trouble. Statements do not control transactions. *)
Class Connection (C Rows Stmt Out : Type) := {
  seen : C -> Rows;
  committed : C -> Rows;
  in_tx : C -> bool;
  effect : Stmt -> Rows -> Rows * res Out;
  troubled : Stmt -> C -> option trouble;
  execute : Stmt -> C -> C * res Out;
  begin_immediate : C -> C * res unit;
  commit : C -> C * res unit;
  rollback : C -> C;
  (** autocommit: outside a transaction nothing is left uncommitted *)
  autocommit : forall c, in_tx c = false -> seen c = committed c;
  execute_ok : forall s c, troubled s c = None ->
    in_tx (execute s c).1 = in_tx c /\ (seen (execute s c).1, (execute s c).2) = effect s (seen c);
  execute_backed_out : forall s c e, troubled s c = Some (BackedOut e) ->
    in_tx (execute s c).1 = in_tx c /\ seen (execute s c).1 = seen c /\ (execute s c).2 = Err e;
  execute_rolled_back : forall s c e, troubled s c = Some (RolledBack e) ->
    in_tx (execute s c).1 = false /\ committed (execute s c).1 = committed c /\ (execute s c).2 = Err e;
  execute_uncommitted : forall s c, in_tx c = true -> committed (execute s c).1 = committed c;
  begin_ok : forall c, (begin_immediate c).2 = Ok tt ->
    in_tx c = false /\ in_tx (begin_immediate c).1 = true /\
    seen (begin_immediate c).1 = committed c /\ committed (begin_immediate c).1 = committed c;
  (** a BEGIN that fails opens nothing and closes nothing; one inside a transaction does fail *)
  begin_err : forall c e, (begin_immediate c).2 = Err e ->
    in_tx (begin_immediate c).1 = in_tx c /\ committed (begin_immediate c).1 = committed c;
  begin_nested : forall c, in_tx c = true -> is_ok (begin_immediate c).2 = false;
  (** outside a transaction COMMIT and ROLLBACK of the driver do nothing *)
  commit_ok : forall c, (commit c).2 = Ok tt -> in_tx (commit c).1 = false /\ committed (commit c).1 = seen c;
  commit_idle : forall c, in_tx c = false -> (commit c).2 = Ok tt;
  (** a COMMIT that fails writes nothing; the transaction may be rolled back, or be open still *)
  commit_err : forall c e, (commit c).2 = Err e -> committed (commit c).1 = committed c;
  rollback_closes : forall c, in_tx (rollback c) = false /\ committed (rollback c) = committed c
}.

Section database.
Context {C Rows Stmt Out : Type} `{!Connection C Rows Stmt Out}.

(** ** Opening and closing *)

(** [connect]: what opening the file gives, with [isolation_level=None]; the pragmas
    change no rows. *)
Context (open_file : C) (schema : list Stmt).

Record Database := mkDatabase { db_conn : option C }.
Definition new_database : Database := mkDatabase None.

Definition connect (db : Database) : Database := mkDatabase (Some open_file).

(** [conn.executescript(SCHEMA)]: the statements in order, up to the first that fails. *)
Fixpoint executescript (l : list Stmt) (c : C) : C * res unit :=
  match l with
  | [] => (c, Ok tt)
  | s :: l' => match execute s c with (c', Ok _) => executescript l' c' | (c', Err e) => (c', Err e) end
  end.

(** [if self._conn is None: connect]. *)
Definition connected (db : Database) : C := match db_conn db with Some c => c | None => open_file end.
Definition initialize (db : Database) : Database * res unit :=
  let '(c, r) := executescript schema (connected db) in
  match r with
  | Err e => (mkDatabase (Some c), Err e)
  | Ok _ => let '(c, r) := commit c in (mkDatabase (Some c), r)
  end.

Definition close (db : Database) : Database := mkDatabase None.

Definition NOT_CONNECTED : exn := RuntimeError "database is not connected; call initialize() first".
Definition conn (db : Database) : res C := match db_conn db with Some c => Ok c | None => Err NOT_CONNECTED end.

(** ** Transactions *)

(** What stands in [async with db.transaction() as conn]: statements, each of which
    decides with its result, or its exception, how to go on. *)
Inductive Body (V : Type) :=
| Return (v : V)
| Raise (e : exn)
| Execute (s : Stmt) (next : res Out -> Body V).
Arguments Return {V}. Arguments Raise {V}. Arguments Execute {V}.

(** A body on rows of its own, when its statements meet these troubles, one entry for each
    ([None]: no trouble). [None] when the entries do not fit its statements, or one
    of them would end the transaction. *)
Fixpoint run_body {V} (b : Body V) (troubles : list (option trouble)) (rows : Rows) : option (Rows * res V) :=
  match b, troubles with
  | Return v, [] => Some (rows, Ok v)
  | Raise e, [] => Some (rows, Err e)
  | Execute s next, None :: troubles => let '(rows', r) := effect s rows in run_body (next r) troubles rows'
  | Execute s next, Some (BackedOut e) :: troubles => run_body (next (Err e)) troubles rows
  | _, _ => None
  end.

(** A transaction as one step: its rows if it returns, and nothing otherwise. *)
Definition atomically {V} (b : Body V) (troubles : list (option trouble)) (rows : Rows) : option (Rows * res V) :=
  match run_body b troubles rows with
  | Some (rows', Ok v) => Some (rows', Ok v)
  | Some (_, Err e) => Some (rows, Err e)
  | None => None
  end.

(** ** Coroutines *)

(** Where a coroutine stands: at the lock, inside its block, or past it. *)
Inductive Co (V : Type) := Waiting (b : Body V) | Inside (b : Body V) | Ended (r : res V).
Arguments Waiting {V}. Arguments Inside {V}. Arguments Ended {V}.

(** The connection, the lock, and the coroutines by number. *)
Record Pool (V : Type) := mkPool { pl_conn : C; pl_holder : option nat; pl_cos : gmap nat (Co V) }.
Arguments mkPool {V}. Arguments pl_conn {V}. Arguments pl_holder {V}. Arguments pl_cos {V}.

(** What happens: a transaction begins, or cannot; a statement of a block runs in its
    transaction, or on its own after the transaction was rolled back under it; a
    block ends with its transaction, or without one; a COMMIT fails; another connection
    leaves other rows in the file; or somebody reads outside any block. *)
Inductive db_event (V : Type) :=
| Begun (i : nat)
| Refused (i : nat) (e : exn)
| Executed (i : nat) (t : option trouble)
| Stray (i : nat) (s : Stmt) (t : option trouble)
| Done (i : nat) (r : res V)
| Gone (i : nat) (r : res V)
| Uncommitted (i : nat) (e : exn)
| Elsewhere (rows : Rows)
| Reads (rows : Rows).
Arguments Begun {V}. Arguments Refused {V}. Arguments Executed {V}. Arguments Stray {V}. Arguments Done {V}.
Arguments Gone {V}. Arguments Uncommitted {V}. Arguments Elsewhere {V}. Arguments Reads {V}.

(** The end of a block: with its transaction, or when none is open any more. *)
Definition ended_as {V} (open : bool) (i : nat) (r : res V) : db_event V := if open then Done i r else Gone i r.

(** [transaction()], one await at a time: [async with self._tx_lock], BEGIN IMMEDIATE,
    the block, then ROLLBACK and the exception again, or COMMIT. An exception of BEGIN or
    of COMMIT is outside the [try]. Statements outside a block only read. Another
    connection cannot write while a transaction is open, which holds the write lock. *)
Inductive db_step {V} : Pool V -> db_event V -> Pool V -> Prop :=
| db_begin c cos i b c' :
    cos !! i = Some (Waiting b) -> begin_immediate c = (c', Ok tt) ->
    db_step (mkPool c None cos) (Begun i) (mkPool c' (Some i) (<[i := Inside b]> cos))
| db_begin_fails c cos i b c' e :
    cos !! i = Some (Waiting b) -> begin_immediate c = (c', Err e) ->
    db_step (mkPool c None cos) (Refused i e) (mkPool c' None (<[i := Ended (Err e)]> cos))
| db_execute c cos i s next c' r :
    cos !! i = Some (Inside (Execute s next)) -> execute s c = (c', r) ->
    db_step (mkPool c (Some i) cos) (if in_tx c then Executed i (troubled s c) else Stray i s (troubled s c))
      (mkPool c' (Some i) (<[i := Inside (next r)]> cos))
| db_rollback c cos i e :
    cos !! i = Some (Inside (Raise e)) ->
    db_step (mkPool c (Some i) cos) (ended_as (in_tx c) i (Err e)) (mkPool (rollback c) None (<[i := Ended (Err e)]> cos))
| db_commit c cos i v c' :
    cos !! i = Some (Inside (Return v)) -> commit c = (c', Ok tt) ->
    db_step (mkPool c (Some i) cos) (ended_as (in_tx c) i (Ok v)) (mkPool c' None (<[i := Ended (Ok v)]> cos))
| db_commit_fails c cos i v c' e :
    cos !! i = Some (Inside (Return v)) -> commit c = (c', Err e) ->
    db_step (mkPool c (Some i) cos) (Uncommitted i e) (mkPool c' None (<[i := Ended (Err e)]> cos))
| db_elsewhere c c' holder cos :
    in_tx c = false -> in_tx c' = false ->
    db_step (mkPool c holder cos) (Elsewhere (committed c')) (mkPool c' holder cos)
| db_read p :
    db_step p (Reads (seen (pl_conn p))) p.

(** The pool at the start: every coroutine waits, no transaction is open. *)
Definition start_pool {V} (c : C) (bodies : gmap nat (Body V)) : Pool V := mkPool c None (Waiting <$> bodies).

(** ** Serializability *)

(** What the statements of a transaction met. *)
Definition met {V} (i : nat) (past : list (db_event V)) : list (option trouble) :=
  omap (fun x => match x with Executed j t => if decide (j = i) then Some t else None | _ => None end) past.

(** Its transaction was rolled back under it. *)
Definition torn {V} (i : nat) (past : list (db_event V)) : Prop := exists e, Executed i (Some (RolledBack e)) ∈ past.

(** What the file comes to hold, event by event ([past]: those before): a transaction that
    ended leaves what it leaves alone and at once, and ends as it does alone, its
    statements meeting what they met; a statement on its own, only of a block whose
    transaction was rolled back, leaves what it leaves; another connection, what it
    wrote; and nothing else changes anything. *)
Inductive serial {V} (bodies : gmap nat (Body V)) : list (db_event V) -> Rows -> list (db_event V) -> Rows -> Prop :=
| serial_nil past rows : serial bodies past rows [] rows
| serial_done past rows i b r rows' tr rows'' :
    bodies !! i = Some b -> atomically b (met i past) rows = Some (rows', r) ->
    serial bodies (past ++ [Done i r]) rows' tr rows'' -> serial bodies past rows (Done i r :: tr) rows''
| serial_stray past rows i s t tr rows'' :
    torn i past -> serial bodies (past ++ [Stray i s t]) (match t with None => (effect s rows).1 | Some _ => rows end) tr rows'' ->
    serial bodies past rows (Stray i s t :: tr) rows''
| serial_gone past rows i r tr rows'' :
    torn i past -> serial bodies (past ++ [Gone i r]) rows tr rows'' -> serial bodies past rows (Gone i r :: tr) rows''
| serial_elsewhere past rows rows' tr rows'' :
    serial bodies (past ++ [Elsewhere rows']) rows' tr rows'' -> serial bodies past rows (Elsewhere rows' :: tr) rows''
| serial_quiet past rows x tr rows'' :
    match x with Begun _ | Refused _ _ | Executed _ _ | Uncommitted _ _ | Reads _ => True | _ => False end ->
    serial bodies (past ++ [x]) rows tr rows'' -> serial bodies past rows (x :: tr) rows''.

Lemma serial_app {V} (bodies : gmap nat (Body V)) past rows tr rows' tr' rows'' :
  serial bodies past rows tr rows' -> serial bodies (past ++ tr) rows' tr' rows'' -> serial bodies past rows (tr ++ tr') rows''.
Proof.
  induction 1; cbn; intros H'; [by rewrite app_nil_r in H'|..]; rewrite cons_middle, app_assoc in H'; eauto using @serial.
Qed.

Lemma serial_one {V} (bodies : gmap nat (Body V)) past rows x :
  match x with Begun _ | Refused _ _ | Executed _ _ | Uncommitted _ _ | Reads _ => True | _ => False end -> serial bodies past rows [x] rows.
Proof. intros. by repeat constructor. Qed.

Lemma met_app {V} i (past past' : list (db_event V)) : met i (past ++ past') = met i past ++ met i past'.
Proof. apply omap_app. Qed.

Lemma met_other {V} i (past : list (db_event V)) x : (forall t, x <> Executed i t) -> met i (past ++ [x]) = met i past.
Proof.
  intros Hx. rewrite met_app. destruct x as [| |j t| | | | | |]; cbn; try apply app_nil_r.
  rewrite decide_False by (intros ->; by apply (Hx t)). apply app_nil_r.
Qed.

Lemma torn_app {V} i (past past' : list (db_event V)) : torn i past -> torn i (past ++ past').
Proof. intros (e & H'). exists e. apply elem_of_app. by left. Qed.

(** Between two steps: the holder of the lock has come to the rest of its body, on the
    rows it began with, or its transaction was rolled back; the others have not begun,
    or are past it. *)
Definition holder_ok {V} (bodies : gmap nat (Body V)) (past : list (db_event V)) (c : C) (i : nat) (b : Body V) : Prop :=
  if in_tx c
  then exists b0, bodies !! i = Some b0 /\
    forall more, run_body b0 (met i past ++ more) (committed c) = run_body b more (seen c)
  else torn i past.
Definition pool_ok {V} (bodies : gmap nat (Body V)) (past : list (db_event V)) (p : Pool V) : Prop :=
  (forall i b, pl_cos p !! i = Some (Waiting b) -> bodies !! i = Some b /\ met i past = []) /\
  (forall i b, pl_cos p !! i = Some (Inside b) -> pl_holder p = Some i /\ holder_ok bodies past (pl_conn p) i b).

Lemma start_pool_ok {V} c (bodies : gmap nat (Body V)) : pool_ok bodies [] (start_pool c bodies).
Proof. split; cbn; intros i b; rewrite lookup_fmap; destruct (bodies !! i); cbn; [naive_solver congruence | done..]. Qed.

Lemma co_insert {V} (cos : gmap nat (Co V)) i x j y :
  <[i := x]> cos !! j = Some y -> (j = i /\ x = y) \/ (j <> i /\ cos !! j = Some y).
Proof.
  destruct (decide (j = i)) as [->|Hne]; [rewrite lookup_insert_eq; intros [= ->]; by left | rewrite lookup_insert_ne by done; by right].
Qed.

(** The lock is let go: what is left to show. *)
Lemma released_ok {V} (bodies : gmap nat (Body V)) past x c c' cos h i (r : res V) :
  pool_ok bodies past (mkPool c h cos) -> (h = None \/ h = Some i) -> (forall j t, x <> Executed j t) ->
  pool_ok bodies (past ++ [x]) (mkPool c' None (<[i := Ended r]> cos)).
Proof.
  intros [Hw Hi] Hh Hx. split; cbn in *.
  - intros j b [[_ [=]]|[_ Hj]]%co_insert. rewrite met_other by done. by apply Hw.
  - intros j b [[_ [=]]|[Hne Hj]]%co_insert. apply Hi in Hj as [E _]. destruct Hh; congruence.
Qed.

Lemma met_snoc {V} i j (past : list (db_event V)) t : met i (past ++ [Executed j t]) = met i past ++ (if decide (j = i) then [t] else []).
Proof. rewrite met_app. cbn. by destruct (decide (j = i)). Qed.

Lemma begin_step {V} (bodies : gmap nat (Body V)) past c cos i b c' :
  pool_ok bodies past (mkPool c None cos) -> cos !! i = Some (Waiting b) -> begin_immediate c = (c', Ok tt) ->
  pool_ok bodies (past ++ [Begun i]) (mkPool c' (Some i) (<[i := Inside b]> cos)) /\ committed c' = committed c.
Proof.
  intros [Hw Hi] Hc E. destruct (begin_ok c) as (_ & Ho & Hs & Hcm); [by rewrite E|]. rewrite E in Ho, Hs, Hcm. cbn in *.
  split; [|done]. split; cbn.
  - intros j b' [[_ [=]]|[_ Hj]]%co_insert. rewrite met_other by done. by apply Hw.
  - intros j b' [[-> [= <-]]|[_ Hj]]%co_insert; [|by apply Hi in Hj as [? _]]. split; [done|]. unfold holder_ok. rewrite Ho.
    destruct (Hw i b Hc) as [Hb Hm]. exists b. rewrite met_other, Hm, Hs, Hcm by done. by split.
Qed.

Lemma execute_step {V} (bodies : gmap nat (Body V)) past c cos i s next :
  pool_ok bodies past (mkPool c (Some i) cos) -> cos !! i = Some (Inside (Execute s next)) -> in_tx c = true ->
  pool_ok bodies (past ++ [Executed i (troubled s c)]) (mkPool (execute s c).1 (Some i) (<[i := Inside (next (execute s c).2)]> cos)).
Proof.
  intros [Hw Hi] Hc Ho. destruct (Hi i _ Hc) as [_ Hh]. cbn in *. unfold holder_ok in Hh. rewrite Ho in Hh. destruct Hh as (b0 & Hb0 & Hrun). split; cbn.
  - intros j b' [[_ [=]]|[Hne Hj]]%co_insert. rewrite met_snoc, decide_False, app_nil_r by congruence. by apply Hw.
  - intros j b' [[-> [= <-]]|[Hne Hj]]%co_insert; [|apply Hi in Hj as [[= ->] _]; done]. split; [done|]. unfold holder_ok.
    pose proof (execute_uncommitted s c Ho) as Hcm. destruct (troubled s c) as [[e|e]|] eqn:Et.
    + destruct (execute_backed_out s c e Et) as (Ho' & Hs & ->). rewrite Ho', Ho. exists b0. split; [done|]. intros more.
      rewrite met_snoc, decide_True, <- app_assoc, Hcm, Hrun, Hs by done. done.
    + destruct (execute_rolled_back s c e Et) as (-> & _ & _). exists e. apply elem_of_app. right. by apply list_elem_of_singleton.
    + destruct (execute_ok s c Et) as [Ho' He]. rewrite Ho', Ho. exists b0. split; [done|]. intros more.
      rewrite met_snoc, decide_True, <- app_assoc, Hcm, Hrun by done. cbn. by rewrite <- He.
Qed.

Lemma stray_step {V} (bodies : gmap nat (Body V)) past c cos i s next :
  pool_ok bodies past (mkPool c (Some i) cos) -> cos !! i = Some (Inside (Execute s next)) -> in_tx c = false ->
  torn i past /\ committed (execute s c).1 = (match troubled s c with None => (effect s (committed c)).1 | Some _ => committed c end) /\
  pool_ok bodies (past ++ [Stray i s (troubled s c)]) (mkPool (execute s c).1 (Some i) (<[i := Inside (next (execute s c).2)]> cos)).
Proof.
  intros [Hw Hi] Hc Ho. destruct (Hi i _ Hc) as [_ Hh]. cbn in *. unfold holder_ok in Hh. rewrite Ho in Hh. pose proof (autocommit c Ho) as Ha.
  assert (in_tx (execute s c).1 = false /\ committed (execute s c).1 = (match troubled s c with None => (effect s (committed c)).1 | Some _ => committed c end)) as [Ho' Hcm].
  { destruct (troubled s c) as [[e|e]|] eqn:Et.
    - destruct (execute_backed_out s c e Et) as (E & Hs & _). rewrite Ho in E. pose proof (autocommit _ E). split; [done | congruence].
    - by destruct (execute_rolled_back s c e Et) as (E & Hs & _).
    - destruct (execute_ok s c Et) as [E He]. rewrite Ho in E. pose proof (autocommit _ E). split; [done|]. rewrite <- Ha, <- He. cbn. congruence. }
  split; [done|]. split; [done|]. split; cbn.
  - intros j b' [[_ [=]]|[Hne Hj]]%co_insert. rewrite met_other by done. by apply Hw.
  - intros j b' [[-> [= <-]]|[Hne Hj]]%co_insert; [|apply Hi in Hj as [[= ->] _]; done]. split; [done|]. unfold holder_ok. rewrite Ho'. by apply torn_app.
Qed.

(** The end of a block: the file holds what the transaction left, if it was open. *)
Lemma end_serial {V} (bodies : gmap nat (Body V)) past c c' i b (r : res V) :
  holder_ok bodies past c i b -> (forall rows, run_body b [] rows = Some (rows, r)) ->
  committed c' = (if is_ok r then seen c else committed c) ->
  serial bodies past (committed c) [ended_as (in_tx c) i r] (committed c').
Proof.
  unfold holder_ok. intros Hh Hb Hc'. destruct (in_tx c) eqn:Ho; cbn.
  - destruct Hh as (b0 & Hb0 & Hrun). eapply serial_done; [exact Hb0 | | constructor]. specialize (Hrun []). rewrite app_nil_r, Hb in Hrun.
    unfold atomically. rewrite Hrun. by destruct r; cbn in Hc'; rewrite Hc'.
  - apply serial_gone; [done|]. rewrite Hc', (autocommit c Ho). destruct (is_ok r); constructor.
Qed.

Lemma db_step_serial {V} (bodies : gmap nat (Body V)) past p x p' :
  pool_ok bodies past p -> db_step p x p' ->
  pool_ok bodies (past ++ [x]) p' /\ serial bodies past (committed (pl_conn p)) [x] (committed (pl_conn p')).
Proof.
  intros Hok Hstep.
  destruct Hstep as [c cos i b c' Hi E | c cos i b c' e Hi E | c cos i s next c' r Hi E | c cos i e Hi | c cos i v c' Hi E | c cos i v c' e Hi E | c c' h cos Ho Ho' | p];
    cbn [pl_conn] in *.
  - destruct (begin_step _ _ _ _ _ _ _ Hok Hi E) as [H1 ->]. split; [done | by apply serial_one].
  - destruct (begin_err c e) as [_ Hc]; [by rewrite E|]. rewrite E in Hc. cbn in Hc. rewrite Hc. split; [|by apply serial_one].
    eapply released_ok; eauto.
  - replace c' with (execute s c).1 by (by rewrite E). replace r with (execute s c).2 by (by rewrite E). destruct (in_tx c) eqn:Ho.
    + split; [by apply execute_step|]. rewrite (execute_uncommitted s c Ho). by apply serial_one.
    + destruct (stray_step _ _ _ _ _ _ _ Hok Hi Ho) as (Ht & -> & H1). split; [done|]. apply serial_stray; [done | constructor].
  - destruct (rollback_closes c) as [_ Hc]. split; [eapply released_ok; eauto; intros j t; by destruct (in_tx c)|].
    destruct Hok as [_ Hh]. eapply end_serial; [by apply Hh | done | done].
  - destruct (commit_ok c) as [_ Hc]; [by rewrite E|]. rewrite E in Hc. split; [eapply released_ok; eauto; intros j t; by destruct (in_tx c)|].
    destruct Hok as [_ Hh]. eapply end_serial; [by apply Hh | done | done].
  - pose proof (commit_err c e) as Hc. rewrite E in Hc. cbn in Hc. rewrite Hc by done. split; [eapply released_ok; eauto | by apply serial_one].
  - split; [|apply serial_elsewhere; constructor]. destruct Hok as [Hw Hh]. split; cbn in *.
    + intros j b Hj. rewrite met_other by done. by apply Hw.
    + intros j b Hj. destruct (Hh j b Hj) as [E H1]. split; [done|]. unfold holder_ok in *. rewrite Ho in H1. rewrite Ho'. by apply torn_app.
  - split; [|by apply serial_one]. destruct p as [c h cos], Hok as [Hw Hh]. split; cbn in *.
    + intros j b Hj. rewrite met_other by done. by apply Hw.
    + intros j b Hj. destruct (Hh j b Hj) as [E H1]. split; [done|]. unfold holder_ok in *. destruct (in_tx c); [by rewrite met_other | by apply torn_app].
Qed.

Lemma db_steps_serial {V} (bodies : gmap nat (Body V)) p tr p' :
  steps db_step p tr p' -> forall past, pool_ok bodies past p -> serial bodies past (committed (pl_conn p)) tr (committed (pl_conn p')).
Proof.
  induction 1 as [p|p x p1 tr p2 Hstep _ IH]; intros past Hok; [constructor|].
  destruct (db_step_serial _ _ _ _ _ Hok Hstep) as [H1 Hs]. eapply (serial_app _ _ _ [x]); [exact Hs | by apply IH].
Qed.

(** ** A commit that fails *)

(** A transaction is open and the lock is free. *)
Definition wedged {V} (p : Pool V) : Prop := pl_holder p = None /\ in_tx (pl_conn p) = true.

(** What can happen then. *)
Definition idle_event {V} (x : db_event V) : Prop := match x with Refused _ _ | Reads _ => True | _ => False end.

Lemma wedged_step {V} (p : Pool V) x p' : wedged p -> db_step p x p' -> wedged p' /\ idle_event x.
Proof.
  intros [Hh Ho] Hstep. destruct Hstep as [c cos i b c' Hi E | c cos i b c' e Hi E | | | | | c c' h cos Hc | p]; cbn [pl_conn pl_holder] in *; try done.
  - pose proof (begin_nested c Ho) as Hn. by rewrite E in Hn.
  - destruct (begin_err c e) as [Hc _]; [by rewrite E|]. rewrite E in Hc. cbn in Hc. unfold wedged. cbn. by rewrite Hc.
  - congruence.
Qed.

Lemma wedged_steps {V} (p : Pool V) tr p' : steps db_step p tr p' -> wedged p -> Forall idle_event tr.
Proof.
  induction 1 as [p|p x p1 tr p2 Hstep _ IH]; intros Hw; [constructor|].
  destruct (wedged_step _ _ _ Hw Hstep) as [Hw1 Hx]. constructor; [done | by apply IH].
Qed.

(** When the lock is free no transaction is open, or a COMMIT has failed. *)
Definition settled_conn {V} (p : Pool V) : Prop := pl_holder p = None -> in_tx (pl_conn p) = false.

Lemma db_step_settled {V} (p : Pool V) x p' : settled_conn p -> db_step p x p' ->
  settled_conn p' \/ (wedged p' /\ exists i e, x = Uncommitted i e).
Proof.
  intros Hs Hstep. destruct Hstep as [c cos i b c' Hi E | c cos i b c' e Hi E | c cos i s next c' r Hi E | c cos i e Hi | c cos i v c' Hi E | c cos i v c' e Hi E | c c' h cos Ho Ho' | p];
    unfold settled_conn, wedged in *; cbn [pl_conn pl_holder pl_cos] in *; try (by left).
  - left. destruct (begin_err c e) as [Hb _]; [by rewrite E|]. rewrite E in Hb. cbn in Hb. by rewrite Hb.
  - left. intros _. apply rollback_closes.
  - left. intros _. pose proof (commit_ok c) as Ho. rewrite E in Ho. by apply Ho.
  - destruct (in_tx c'); [right; split; [done | by eexists _, _] | by left].
Qed.

Lemma db_steps_settled {V} (p : Pool V) tr p' : steps db_step p tr p' -> settled_conn p ->
  settled_conn p' \/ exists tr1 i e tr2, tr = tr1 ++ Uncommitted i e :: tr2 /\ Forall idle_event tr2.
Proof.
  induction 1 as [p|p x p1 tr p2 Hstep Hrun IH]; intros Hs; [by left|].
  destruct (db_step_settled _ _ _ Hs Hstep) as [Hs1|(Hw & i & e & ->)].
  - destruct (IH Hs1) as [?|(tr1 & i & e & tr2 & -> & Hd)]; [by left|]. right. by exists (x :: tr1), i, e, tr2.
  - right. exists [], i, e, tr. split; [done | by eapply wedged_steps].
Qed.

(** C38: However the transactions of the coroutines interleave, with another connection
    writing between them: the file holds what those that ended leave when each runs
    alone and at once, in the order in which they ended, each with the result it has
    alone when its statements meet the same troubles; one that raises leaves no
    trace. Only in a block whose transaction was rolled back under it do statements
    count one by one. And whenever the lock is free, what is read is what is
    committed; unless a COMMIT failed and left its transaction open, after which every
    BEGIN is refused and nothing is written any more. *)
Theorem transactions_serialize {V} (bodies : gmap nat (Body V)) c tr p :
  in_tx c = false -> steps db_step (start_pool c bodies) tr p ->
  serial bodies [] (committed c) tr (committed (pl_conn p)) /\
  (pl_holder p = None -> seen (pl_conn p) = committed (pl_conn p) \/
   exists tr1 i e tr2, tr = tr1 ++ Uncommitted i e :: tr2 /\ Forall idle_event tr2).
Proof.
  intros Hc Hrun. split; [by apply (db_steps_serial bodies _ _ _ Hrun), start_pool_ok|]. intros Hh.
  destruct (db_steps_settled _ _ _ Hrun) as [Hs|Hu]; [by intros _ | | by right]. left. apply autocommit. by apply Hs.
Qed.

End database.

Arguments Return {Stmt Out V}. Arguments Raise {Stmt Out V}. Arguments Execute {Stmt Out V}.
Arguments Waiting {Stmt Out V}. Arguments Inside {Stmt Out V}. Arguments Ended {Stmt Out V}.
Arguments mkPool {C Stmt Out V}. Arguments pl_conn {C Stmt Out V}. Arguments pl_holder {C Stmt Out V}. Arguments pl_cos {C Stmt Out V}.
Arguments Begun {Rows Stmt V}. Arguments Refused {Rows Stmt V}. Arguments Executed {Rows Stmt V}. Arguments Stray {Rows Stmt V}.
Arguments Done {Rows Stmt V}. Arguments Gone {Rows Stmt V}. Arguments Uncommitted {Rows Stmt V}. Arguments Elsewhere {Rows Stmt V}.
Arguments Reads {Rows Stmt V}.
