(* ===== verification/AgentTree.v ===== *)
(** * The tree of agents (choirworks/core/agents/base.py)

    Agents are objects that know their sub-agents and their parent: a store of objects,
    and the constructor as the code runs it, sub-agent by sub-agent. *)
From S2P Require Import Prelude PyStr Dict Json.
Local Open Scope string_scope.
Local Open Scope list_scope.

(** ** The objects *)

Record AgentObj := mkAgentObj { ag_name : string; ag_description : string; ag_subs : list nat; ag_parent : option nat }.
Abbreviation agent_store := (gmap nat AgentObj).

Definition set_parent (p : nat) (a : AgentObj) : AgentObj := mkAgentObj (ag_name a) (ag_description a) (ag_subs a) (Some p).

Definition name_of (st : agent_store) (i : nat) : string := match st !! i with Some a => ag_name a | None => estr end.

(** [for sub_agent in self.sub_agents]: each is checked and adopted before the next is
    looked at. *)
Fixpoint adopt (self : nat) (self_name : string) (subs : list nat) (st : agent_store) : agent_store * res unit :=
  match subs with
  | [] => (st, Ok tt)
  | i :: subs' =>
      match st !! i with
      | None => (st, Err Unmodelled)
      | Some a =>
          match ag_parent a with
          | Some p => (st, Err (ValueError ("agent `" +:+ ag_name a +:+ "` already has a parent agent `" +:+ name_of st p
                                            +:+ "`, trying to add: `" +:+ self_name +:+ "`")))
          | None => adopt self self_name subs' (<[i := set_parent self a]> st)
          end
      end
  end.

(** [BaseAgent.__init__]: the name given, or that of the class; [self] is a new object,
    which is there for its sub-agents also when the constructor raises. *)
Definition make_agent (cls : string) (cls_name : option string) (cls_description : string)
    (name description : option string) (subs : list nat) (self : nat) (st : agent_store) : agent_store * res nat :=
  match match name with Some n => Some n | None => cls_name end with
  | None => (st, Err (TypeError (cls +:+ " requires a 'name'")))
  | Some n =>
      let '(st, r) := adopt self n subs (<[self := mkAgentObj n (default cls_description description) subs None]> st) in
      (st, _ ← r; Ok self)
  end.

(** ** A forest *)

(** The agents that constructors have returned, in a store of objects. *)
Record Agents := mkAgents { as_store : agent_store; as_made : gset nat }.

(** A call: of any class with any names, on agents made before. *)
Inductive makes : Agents -> res nat -> Agents -> Prop :=
| makes_one cls cls_name cls_description name description subs self st made st' r :
    (forall i, i ∈ subs -> i ∈ made) -> st !! self = None -> (forall j, is_Some (st !! j) -> j < self) ->
    make_agent cls cls_name cls_description name description subs self st = (st', r) ->
    makes (mkAgents st made) r (mkAgents st' (match r with Ok i => {[i]} ∪ made | Err _ => made end)).

(** What the constructor promises of the agents it has returned. *)
Record forest (s : Agents) : Prop := {
  (** parents and sub-agents agree, and no agent stands twice among the latter *)
  fo_sub : forall i a j, i ∈ as_made s -> as_store s !! i = Some a -> j ∈ ag_subs a ->
    exists b, as_store s !! j = Some b /\ ag_parent b = Some i;
  fo_parent : forall j b i, as_store s !! j = Some b -> ag_parent b = Some i -> i ∈ as_made s ->
    exists a, as_store s !! i = Some a /\ j ∈ ag_subs a;
  fo_once : forall i a, i ∈ as_made s -> as_store s !! i = Some a -> NoDup (ag_subs a);
  (** a parent is made after its sub-agents: no agent is below itself *)
  fo_younger : forall j b i, as_store s !! j = Some b -> ag_parent b = Some i -> j < i /\ is_Some (as_store s !! i);
  fo_made : forall i, i ∈ as_made s -> is_Some (as_store s !! i)
}.

Lemma adopt_other self n subs : forall st st' r i, adopt self n subs st = (st', r) -> (i ∉ subs) -> st' !! i = st !! i.
Proof.
  induction subs as [|k subs IH]; intros st st' r i; cbn; [by intros [= <- _]|]. intros E Hi. apply not_elem_of_cons in Hi as [Hne Hi].
  destruct (st !! k) as [a|]; [|by injection E as <- _]. destruct (ag_parent a); [by injection E as <- _|].
  rewrite (IH _ _ _ _ E Hi). by rewrite lookup_insert_ne.
Qed.

(** A sub-agent after the loop: as it was, or adopted, which it can be only once. *)
Lemma adopt_sub self n subs : forall st st' r i a, adopt self n subs st = (st', r) -> st !! i = Some a ->
  exists a', st' !! i = Some a' /\ (a' = a \/ (ag_parent a = None /\ i ∈ subs /\ a' = set_parent self a)).
Proof.
  induction subs as [|k subs IH]; intros st st' r i a; cbn; [intros [= <- _]; eauto|]. intros E Hi.
  destruct (st !! k) as [b|] eqn:Hk; [|injection E as <- _; eauto]. destruct (ag_parent b) eqn:Hb; [injection E as <- _; eauto|].
  destruct (decide (i = k)) as [->|Hne].
  - rewrite Hk in Hi. injection Hi as ->. destruct (IH _ _ _ k (set_parent self a) E) as (a' & Ha' & [->|([=] & _)]); [by rewrite lookup_insert_eq|].
    exists (set_parent self a). split; [done|]. right. split; [done|]. split; [by left | done].
  - destruct (IH _ _ _ i a E) as (a' & Ha' & H); [by rewrite lookup_insert_ne|]. exists a'. split; [done|].
    destruct H as [?|(? & ? & ?)]; [by left|]. right. split; [done|]. split; [by right | done].
Qed.

(** The loop ends well exactly when the sub-agents are distinct and none has a parent. *)
Lemma adopt_ok self n subs : forall st, (forall i, i ∈ subs -> is_Some (st !! i)) ->
  (exists st', adopt self n subs st = (st', Ok tt)) <->
  NoDup subs /\ forall i a, i ∈ subs -> st !! i = Some a -> ag_parent a = None.
Proof.
  induction subs as [|k subs IH]; intros st Hst; cbn [adopt].
  - split; [intros _; split; [apply NoDup_nil_2 | by intros i a ?%elem_of_nil] | intros _; by exists st].
  - destruct (Hst k) as [a Ha]; [by left|]. rewrite Ha. destruct (ag_parent a) as [p|] eqn:Hp.
    { split; [by intros [st' ?]|]. intros [_ H]. rewrite (H k a) in Hp; [done | by left | done]. }
    rewrite IH by (intros i Hi; destruct (decide (i = k)) as [->|]; [rewrite lookup_insert_eq; by eexists | rewrite lookup_insert_ne by done; apply Hst; by right]).
    rewrite NoDup_cons. split.
    + intros [Hnd H]. assert (k ∉ subs) as Hk.
      { intros Hk. assert (ag_parent (set_parent self a) = None) as [=]. apply (H k); [done | by rewrite lookup_insert_eq]. }
      split; [done|]. intros i b [->|Hi]%elem_of_cons Hb; [congruence|]. apply (H i b Hi). rewrite lookup_insert_ne by (intros ->; done). done.
    + intros [[Hk Hnd] H]. split; [done|]. intros i b Hi. rewrite lookup_insert_ne by (intros ->; done). apply H. by right.
Qed.

Lemma adopt_all self n subs : forall st st', adopt self n subs st = (st', Ok tt) ->
  forall i, i ∈ subs -> exists b, st' !! i = Some b /\ ag_parent b = Some self.
Proof.
  induction subs as [|k subs IH]; intros st st'; cbn; [by intros _ i ?%elem_of_nil|]. intros E i Hi.
  destruct (st !! k) as [b|] eqn:Hk; [|done]. destruct (ag_parent b) eqn:Hb; [done|].
  apply elem_of_cons in Hi as [->|Hi]; [|by eapply IH].
  destruct (adopt_sub _ _ _ _ _ _ k (set_parent self b) E) as (a' & Ha' & [->|([=] & _)]); [by rewrite lookup_insert_eq|].
  by exists (set_parent self b).
Qed.

(** What a call makes of an object that was there. *)
Definition adopted (self : nat) (subs : list nat) (i : nat) (a b : AgentObj) : Prop :=
  b = a \/ (ag_parent a = None /\ i ∈ subs /\ b = set_parent self a).

Lemma adopted_subs self subs i a b : adopted self subs i a b -> ag_subs b = ag_subs a.
Proof. by intros [->|(_ & _ & ->)]. Qed.

(** The store after a call that got as far as its sub-agents: the new object, the old
    ones, and, if it returns, all sub-agents adopted. *)
Record after_make (self : nat) (subs : list nat) (st st' : agent_store) (r : res nat) : Prop := {
  am_self : exists o, st' !! self = Some o /\ ag_subs o = subs /\ ag_parent o = None;
  am_old : forall i a, st !! i = Some a -> exists b, st' !! i = Some b /\ adopted self subs i a b;
  am_new : forall i b, i <> self -> st' !! i = Some b -> exists a, st !! i = Some a /\ adopted self subs i a b;
  am_result : forall i, r = Ok i -> i = self /\ NoDup subs /\ forall j, j ∈ subs -> exists b, st' !! j = Some b /\ ag_parent b = Some self
}.

Lemma make_agent_after cls cn cd name desc subs self st st' r :
  (forall i, i ∈ subs -> is_Some (st !! i)) -> st !! self = None ->
  make_agent cls cn cd name desc subs self st = (st', r) ->
  (st' = st /\ exists e, r = Err e) \/ after_make self subs st st' r.
Proof.
  intros Hsubs Hnew. unfold make_agent. destruct (match name with Some n => Some n | None => cn end) as [n|]; [|intros [= <- <-]; left; eauto].
  set (o := mkAgentObj n (default cd desc) subs None). destruct (adopt self n subs (<[self := o]> st)) as [st1 r1] eqn:Ea.
  intros [= <- <-]. right. assert (self ∉ subs) as Hns by (intros Hin; destruct (Hsubs self Hin); congruence).
  assert (forall i a, st !! i = Some a -> exists b, st1 !! i = Some b /\ adopted self subs i a b) as Hold.
  { intros i a Hi. apply (adopt_sub _ _ _ _ _ _ i a Ea). rewrite lookup_insert_ne; [done|]. intros ->. congruence. }
  split.
  - exists o. rewrite (adopt_other _ _ _ _ _ _ _ Ea Hns), lookup_insert_eq. done.
  - exact Hold.
  - intros i b Hne Hi. destruct (st !! i) as [a|] eqn:Hsi.
    + destruct (Hold i a Hsi) as (b2 & Hb2 & Hor). rewrite Hi in Hb2. injection Hb2 as <-. by exists a.
    + exfalso. assert (i ∉ subs) as Hni by (intros Hin; destruct (Hsubs i Hin); congruence).
      rewrite (adopt_other _ _ _ _ _ _ _ Ea Hni), lookup_insert_ne in Hi by done. congruence.
  - intros i Hr. destruct r1 as [[]|e]; [|done]. injection Hr as <-. split; [done|]. split; [|by eapply adopt_all].
    apply (adopt_ok self n subs (<[self := o]> st)); [|by exists st1]. intros i Hi. rewrite lookup_insert_ne by (intros ->; done). by apply Hsubs.
Qed.

(** An object after a call is the new one, or an old one, adopted or not. *)
Lemma after_cases self subs st st' r j b : after_make self subs st st' r -> st' !! j = Some b ->
  (j = self /\ ag_subs b = subs /\ ag_parent b = None) \/
  exists a, st !! j = Some a /\ ag_subs b = ag_subs a /\ (ag_parent b = ag_parent a \/ (j ∈ subs /\ ag_parent b = Some self /\ ag_parent a = None)).
Proof.
  intros H Hb. destruct (decide (j = self)) as [->|Hne].
  - left. destruct (am_self _ _ _ _ _ H) as (o & Ho & H1 & H2). rewrite Hb in Ho. by injection Ho as ->.
  - right. destruct (am_new _ _ _ _ _ H j b Hne Hb) as (a & Ha & Had). exists a. split; [done|]. split; [by eapply adopted_subs|].
    destruct Had as [->|(Hn & Hj & ->)]; [by left | right; done].
Qed.

Lemma makes_forest s r s' : forest s -> makes s r s' -> forest s'.
Proof.
  intros [Hsub Hpar Honce Hyoung Hmade] Hm. destruct Hm as [cls cn cd name desc subs self st made st' r Hsubs Hnew Hlt E]. cbn [as_store as_made] in *.
  destruct (make_agent_after _ _ _ _ _ _ _ _ _ _ (fun i Hi => Hmade i (Hsubs i Hi)) Hnew E) as [[-> [e ->]]|H]; [done|].
  pose proof (after_cases self subs st st' r) as Hcase.
  assert (forall i, i ∈ match r with Ok i => {[i]} ∪ made | Err _ => made end -> (i ∈ made /\ i <> self) \/ (i = self /\ r = Ok self)) as Hin.
  { intros i Hi. assert (i ∈ made -> i <> self) as Hne by (intros Him ->; destruct (Hmade self Him); congruence).
    destruct r as [k|e]; [|by left; auto]. destruct (am_result _ _ _ _ _ H k eq_refl) as [-> _].
    apply elem_of_union in Hi as [->%elem_of_singleton|]; [by right | by left; auto]. }
  split; cbn [as_store as_made].
  - intros i a j Hi Ha Hj. destruct (Hcase i a H Ha) as [(-> & Es & _)|(a0 & Ha0 & Es & _)]; rewrite Es in Hj.
    + destruct (Hin self Hi) as [[_ ?]|[_ Hr]]; [done|]. by apply (am_result _ _ _ _ _ H self Hr).
    + destruct (Hin i Hi) as [[Him _]|[-> _]]; [|congruence]. destruct (Hsub i a0 j Him Ha0 Hj) as (b & Hb & Hbp).
      destruct (am_old _ _ _ _ _ H j b Hb) as (b' & Hb' & [->|(Hno & _)]); [by exists b | congruence].
  - intros j b i Hb Hbp Hi. destruct (Hcase j b H Hb) as [(_ & _ & ?)|(b0 & Hb0 & _ & [Ep|(Hj & Ep & _)])]; [congruence| |].
    + rewrite Ep in Hbp. destruct (Hin i Hi) as [[Him _]|[-> _]]; [|by destruct (Hyoung j b0 self Hb0 Hbp) as [_ [? ?]]; congruence].
      destruct (Hpar j b0 i Hb0 Hbp Him) as (a & Ha & Hja). destruct (am_old _ _ _ _ _ H i a Ha) as (a' & Ha' & Had).
      exists a'. split; [done|]. by rewrite (adopted_subs _ _ _ _ _ Had).
    + rewrite Ep in Hbp. injection Hbp as <-. destruct (am_self _ _ _ _ _ H) as (o & Ho & <- & _). by exists o.
  - intros i a Hi Ha. destruct (Hcase i a H Ha) as [(-> & -> & _)|(a0 & Ha0 & -> & _)].
    + destruct (Hin self Hi) as [[_ ?]|[_ Hr]]; [done|]. by apply (am_result _ _ _ _ _ H self Hr).
    + destruct (Hin i Hi) as [[Him _]|[-> _]]; [|congruence]. by apply (Honce i a0).
  - intros j b i Hb Hbp. destruct (Hcase j b H Hb) as [(_ & _ & ?)|(b0 & Hb0 & _ & [Ep|(Hj & Ep & _)])]; [congruence| |]; rewrite Ep in Hbp.
    + destruct (Hyoung j b0 i Hb0 Hbp) as [Hji [a Ha]]. split; [done|]. destruct (am_old _ _ _ _ _ H i a Ha) as (a' & Ha' & _). by exists a'.
    + injection Hbp as <-. split; [apply Hlt; by eexists|]. destruct (am_self _ _ _ _ _ H) as (o & Ho & _). by exists o.
  - intros i Hi. destruct (Hin i Hi) as [[Him _]|[-> _]].
    + destruct (Hmade i Him) as [a Ha]. destruct (am_old _ _ _ _ _ H i a Ha) as (a' & Ha' & _). by exists a'.
    + destruct (am_self _ _ _ _ _ H) as (o & Ho & _). by exists o.
Qed.

(** C39: Agents form a forest, whatever is constructed and whichever constructors raise:
    the sub-agents of an agent that was made are distinct and have it as parent, an
    agent with a parent that was made is one of its sub-agents, and parents are made
    after their sub-agents, so that no agent is below itself. A constructor returns
    exactly when there is a name, the sub-agents are distinct and none has a parent. *)
Theorem agents_form_a_forest tr s :
  steps makes (mkAgents ∅ ∅) tr s ->
  forest s /\
  forall cls cls_name cls_description name description subs self st' r,
    (forall i, i ∈ subs -> i ∈ as_made s) -> as_store s !! self = None ->
    make_agent cls cls_name cls_description name description subs self (as_store s) = (st', r) ->
    ((exists i, r = Ok i) <->
     (is_Some name \/ is_Some cls_name) /\ NoDup subs /\ forall i a, i ∈ subs -> as_store s !! i = Some a -> ag_parent a = None).
Proof.
  intros Hrun. assert (forest s) as H.
  { apply (steps_invariant makes forest) in Hrun; [done | intros s1 r s2 Hm Hf; by eapply makes_forest |]. split; cbn; intros; set_solver. }
  split; [done|]. intros cls cn cd name desc subs self st' r Hsubs Hnew E. unfold make_agent in E.
  assert (forall i, i ∈ subs -> i <> self) as Hns by (intros i Hi ->; destruct (fo_made _ H self (Hsubs self Hi)); congruence).
  destruct (match name with Some n => Some n | None => cn end) as [n|] eqn:En.
  - set (o := mkAgentObj n (default cd desc) subs None) in *. destruct (adopt self n subs (<[self := o]> (as_store s))) as [st1 r1] eqn:Ea.
    injection E as <- <-. assert (is_Some name \/ is_Some cn) as Hnm by (destruct name; [left; by eexists | right; by eexists]).
    assert ((exists st'', adopt self n subs (<[self := o]> (as_store s)) = (st'', Ok tt)) <-> exists i, (_ ← r1; Ok self) = Ok i) as <-.
    { rewrite Ea. destruct r1 as [[]|e]; cbn; split; intros [x E]; try done; by eexists. }
    rewrite adopt_ok by (intros i Hi; rewrite lookup_insert_ne by (intros E; by apply (Hns i)); by apply (fo_made _ H), Hsubs).
    split; [intros [Hnd Hp]; split; [done|]; split; [done|] | intros (_ & Hnd & Hp); split; [done|]]; intros i a Hi Ha; apply (Hp i a Hi);
      rewrite lookup_insert_ne in * by (intros E; by apply (Hns i)); done.
  - injection E as <- <-. split; [by intros [i ?]|]. intros [[[n ->]|[n ->]] _]; [done|]. by destruct name.
Qed.

(** A constructor that raises has already adopted the sub-agents it came to first:
    their parent is an agent that was never made, and no agent can have them later. *)
Example failed_parent_keeps_agents :
  let two := (make_agent "A" (Some "b") estr None None [] 1 (make_agent "A" (Some "a") estr None None [] 0 ∅).1).1 in
  let taken := (make_agent "A" (Some "c") estr None None [1] 2 two).1 in
  let '(st, r) := make_agent "A" (Some "d") estr None None [0; 1] 3 taken in
  is_ok r = false /\ (ag_parent <$> (st !! 0)) = Some (Some 3) /\
  is_ok (make_agent "A" (Some "e") estr None None [0] 4 st).2 = false.
Proof. vm_compute. done. Qed.
