(* ===== verification/Registry.v ===== *)
(** * The registry of agents (choirworks/orchestration/registry.py, models/domain.py,
    api/agents.py, a2a/client.py: the cache of cards)

    The rows of the table, whose ids and names the database keeps unique, and the
    cards the client has cached. Registering and refreshing wait for the agent's card:
    other calls may change the registry meanwhile. *)
From S2P Require Import Prelude PyStr Dict Json.
From Stdlib Require Import Ascii.
Local Open Scope string_scope.
Local Open Scope list_scope.

Record AgentRecord := mkAgentRecord {
  ar_id : string; ar_name : string; ar_card_url : string; ar_card : json;
  ar_health : string; ar_last_seen : option string; ar_created_at : string }.

(** The table, and of the client the cached cards, the clients in use by url and the
    clients set aside. *)
Record Registry := mkRegistry {
  rg_rows : list AgentRecord; rg_cards : list (string * json); rg_clients : list string; rg_retired : list string }.

(** What a call raises. *)
Inductive registry_error :=
| ValidationError | DuplicateAgentName (msg : string) | AgentCardResolutionError (msg : string)
| NotFound (msg : string) | IntegrityError.

(** ** Registrations *)

(** What [AnyHttpUrl] makes of a url. *)
Record HttpUrl := mkHttpUrl {
  hu_username : option string; hu_password : option string; hu_query : option string; hu_fragment : option string; hu_text : string }.

Definition is_alnum (c : ascii) : bool :=
  let n := nat_of_ascii c in
  ((48 <=? n) && (n <=? 57) || (65 <=? n) && (n <=? 90) || (97 <=? n) && (n <=? 122))%nat.
Definition is_name_char (c : ascii) : bool := is_alnum c || Ascii.eqb c "_" || Ascii.eqb c "-".
Fixpoint all_chars (p : ascii -> bool) (s : string) : bool :=
  match s with EmptyString => true | String c s' => p c && all_chars p s' end.

(** The pattern and the lengths; a name that matches is ASCII. *)
Definition valid_name (s : string) : bool :=
  match s with
  | EmptyString => false
  | String c s' => is_alnum c && all_chars is_name_char s' && (String.length s <=? 64)%nat
  end.

(** [s.rstrip("/")]. *)
Fixpoint rstrip_slash (s : string) : string :=
  match s with
  | EmptyString => EmptyString
  | String c s' =>
      match rstrip_slash s' with
      | EmptyString => if Ascii.eqb c "/" then EmptyString else String c EmptyString
      | t => String c t
      end
  end.

Section registry.
Context (any_http_url : string -> option HttpUrl).
(** The answer of the agent at a url when it is asked for its card: the card, or
    the text of the error. *)
Context (resolve_card : string -> json + string).

Definition normalize_url (value : string) : option string :=
  match any_http_url value with
  | None => None
  | Some url =>
      if ostr_truthy (hu_username url) || ostr_truthy (hu_password url)
         || (match hu_query url with Some _ => true | None => false end) || (match hu_fragment url with Some _ => true | None => false end)
      then None else Some (rstrip_slash (hu_text url))
  end.

Definition AgentRegistration (name card_url : string) : registry_error + (string * string) :=
  let name := ustrip name in
  if negb (valid_name name) then inl ValidationError
  else match normalize_url card_url with None => inl ValidationError | Some url => inr (name, url) end.

(** ** The cache *)

Definition invalidate (url : string) (rg : Registry) : Registry :=
  mkRegistry (rg_rows rg) (ddel url (rg_cards rg)) (filterb (fun u => negb (bool_decide (u = url))) (rg_clients rg))
    (rg_retired rg ++ filterb (fun u => bool_decide (u = url)) (rg_clients rg)).
Definition cache_card (url : string) (card : json) (rg : Registry) : Registry :=
  let rg := invalidate url rg in mkRegistry (rg_rows rg) (dset url card (rg_cards rg)) (rg_clients rg) (rg_retired rg).

(** ** The table *)

Definition set_rows (rows : list AgentRecord) (rg : Registry) : Registry := mkRegistry rows (rg_cards rg) (rg_clients rg) (rg_retired rg).
Definition get (agent_id : string) (rg : Registry) : option AgentRecord := find_first (fun r => bool_decide (ar_id r = agent_id)) (rg_rows rg).
Definition get_by_name (name : string) (rg : Registry) : option AgentRecord := find_first (fun r => bool_decide (ar_name r = name)) (rg_rows rg).

(** [ORDER BY name]. *)
Fixpoint insert_by_name (r : AgentRecord) (l : list AgentRecord) : list AgentRecord :=
  match l with
  | [] => [r]
  | x :: l' => if String.leb (ar_name r) (ar_name x) then r :: l else x :: insert_by_name r l'
  end.
Definition list_agents (rg : Registry) : list AgentRecord := foldr insert_by_name [] (rg_rows rg).

Definition duplicate (name : string) : registry_error := DuplicateAgentName ("agent name already registered: " +:+ name).

(** [INSERT]: refused when the id or the name is taken. *)
Definition insert_agent (r : AgentRecord) (rg : Registry) : option Registry :=
  if existsb (fun x => bool_decide (ar_id x = ar_id r) || bool_decide (ar_name x = ar_name r)) (rg_rows rg) then None
  else Some (set_rows (rg_rows rg ++ [r]) rg).

(** [meanwhile]: what other calls do while the card is awaited. *)
Definition register (id now name card_url : string) (meanwhile : Registry -> Registry) (rg : Registry) : Registry * (registry_error + AgentRecord) :=
  match AgentRegistration name card_url with
  | inl e => (rg, inl e)
  | inr (name, url) =>
      match get_by_name name rg with
      | Some _ => (rg, inl (duplicate name))
      | None =>
          let rg := meanwhile rg in
          match resolve_card url with
          | inr msg => (rg, inl (AgentCardResolutionError msg))
          | inl card =>
              let record := mkAgentRecord id name url card "ok" (Some now) now in
              match insert_agent record rg with
              | Some rg => (cache_card url card rg, inr record)
              | None => (rg, inl (match get_by_name name rg with Some _ => duplicate name | None => IntegrityError end))
              end
          end
      end
  end.

(** Whether a row was deleted. *)
Definition delete (agent_id : string) (rg : Registry) : Registry * bool :=
  let rest := filterb (fun r => negb (bool_decide (ar_id r = agent_id))) (rg_rows rg) in
  match get agent_id rg with
  | Some r => (invalidate (ar_card_url r) (set_rows rest rg), true)
  | None => (set_rows rest rg, false)
  end.

(** [UPDATE ... WHERE id = ?]. *)
Definition update_agent (agent_id : string) (f : AgentRecord -> AgentRecord) (rg : Registry) : Registry :=
  set_rows ((fun r => if bool_decide (ar_id r = agent_id) then f r else r) <$> rg_rows rg) rg.
Definition set_health (h : string) (r : AgentRecord) : AgentRecord :=
  mkAgentRecord (ar_id r) (ar_name r) (ar_card_url r) (ar_card r) h (ar_last_seen r) (ar_created_at r).
Definition set_seen (card : json) (now : string) (r : AgentRecord) : AgentRecord :=
  mkAgentRecord (ar_id r) (ar_name r) (ar_card_url r) card "ok" (Some now) (ar_created_at r).

Definition not_found (agent_id : string) : registry_error := NotFound ("agent not found: " +:+ agent_id).

Definition refresh (agent_id now : string) (meanwhile : Registry -> Registry) (rg : Registry) : Registry * (registry_error + AgentRecord) :=
  match get agent_id rg with
  | None => (rg, inl (not_found agent_id))
  | Some record =>
      let rg := meanwhile rg in
      match resolve_card (ar_card_url record) with
      | inr msg => (update_agent agent_id (set_health "unavailable") rg, inl (AgentCardResolutionError msg))
      | inl card =>
          match get agent_id rg with
          | None => (rg, inl (not_found agent_id))
          | Some _ => (cache_card (ar_card_url record) card (update_agent agent_id (set_seen card now) rg), inr (set_seen card now record))
          end
      end
  end.

(** ** The endpoints (api/agents.py) *)

(** The status code and detail of the exception an error becomes ([None]: it is not
    caught; the body of a request is validated before). *)
Definition register_status (e : registry_error) : option (Z * string) :=
  match e with
  | DuplicateAgentName m => Some (409%Z, m)
  | AgentCardResolutionError m => Some (400%Z, "failed to resolve agent card: " +:+ m)
  | _ => None
  end.
Definition delete_status (agent_id : string) (deleted : bool) : option (Z * string) :=
  if deleted then None else Some (404%Z, "agent not found: " +:+ agent_id).
Definition refresh_status (e : registry_error) : option (Z * string) :=
  match e with
  | NotFound m => Some (404%Z, m)
  | AgentCardResolutionError m => Some (502%Z, "failed to refresh agent card: " +:+ m)
  | _ => None
  end.

(** ** Facts *)

Definition registry_inv (rg : Registry) : Prop := NoDup (ar_id <$> rg_rows rg) /\ NoDup (ar_name <$> rg_rows rg).

(** The calls, each waiting while others run. *)
Inductive call := Register (id now name card_url : string) | Delete (agent_id : string) | Refresh (agent_id now : string).
Definition run_call (meanwhile : Registry -> Registry) (c : call) (rg : Registry) : Registry :=
  match c with
  | Register id now name card_url => (register id now name card_url meanwhile rg).1
  | Delete agent_id => (delete agent_id rg).1
  | Refresh agent_id now => (refresh agent_id now meanwhile rg).1
  end.
(** A call during whose wait others run, and so on; then more calls. *)
Inductive calls := NoCall | Calls (c : call) (during after : calls).
Fixpoint run_calls (cs : calls) (rg : Registry) : Registry :=
  match cs with
  | NoCall => rg
  | Calls c during after => run_calls after (run_call (run_calls during) c rg)
  end.

Lemma insert_inv r rg rg' : registry_inv rg -> insert_agent r rg = Some rg' -> registry_inv rg'.
Proof.
  unfold insert_agent, registry_inv. destruct (existsb _ _) eqn:E; [done|]. intros [Hi Hn] [= <-]. cbn [rg_rows set_rows].
  rewrite !fmap_app. rewrite existsb_false in E.
  split; apply NoDup_app; (split; [done|]; split; [|apply NoDup_singleton]); intros x (y & -> & Hy)%list_elem_of_fmap Hx;
    apply list_elem_of_singleton in Hx; pose proof (E y Hy) as Ey; apply orb_false_iff in Ey as [E1 E2];
    apply bool_decide_eq_false in E1, E2; congruence.
Qed.

Lemma cache_inv url card rg : registry_inv rg -> registry_inv (cache_card url card rg).
Proof. done. Qed.

Lemma update_inv id f rg : (forall r, ar_id (f r) = ar_id r /\ ar_name (f r) = ar_name r) -> registry_inv rg -> registry_inv (update_agent id f rg).
Proof.
  intros Hf. unfold registry_inv, update_agent. cbn [rg_rows set_rows]. rewrite <- !list_fmap_compose.
  rewrite (list_fmap_ext (ar_id ∘ _) ar_id), (list_fmap_ext (ar_name ∘ _) ar_name); [done|..];
    intros _ r _; unfold compose; destruct (bool_decide _); [apply Hf | done | apply Hf | done].
Qed.

Lemma call_inv meanwhile c rg : (forall rg, registry_inv rg -> registry_inv (meanwhile rg)) -> registry_inv rg -> registry_inv (run_call meanwhile c rg).
Proof.
  intros Hm Hrg. destruct c as [id now name url|id|id now]; cbn [run_call].
  - unfold register. destruct (AgentRegistration _ _) as [e|[n u]]; [done|]. destruct (get_by_name n rg); [done|].
    destruct (resolve_card u) as [card|msg]; [|by apply Hm]. destruct (insert_agent _ _) as [rg'|] eqn:Ei; [|by apply Hm].
    apply cache_inv. eapply insert_inv; [|done]. by apply Hm.
  - unfold delete. assert (registry_inv (set_rows (filterb (fun r => negb (bool_decide (ar_id r = id))) (rg_rows rg)) rg)) as H.
    { destruct Hrg as [Hi Hn]. split; cbn [rg_rows set_rows]; (eapply sublist_NoDup; [|apply fmap_sublist, filterb_sublist]; done). }
    by destruct (get id rg).
  - unfold refresh. destruct (get id rg) as [r|]; [|done]. destruct (resolve_card _) as [card|msg].
    + destruct (get id (meanwhile rg)); [|by apply Hm]. apply cache_inv, update_inv; [done|]. by apply Hm.
    + apply update_inv; [done|]. by apply Hm.
Qed.

(** Whatever calls are made, and however they overlap, no two agents have the same id
    or the same name. *)
Theorem registry_names_unique cs rg : registry_inv rg -> registry_inv (run_calls cs rg).
Proof. revert rg. induction cs as [|c d IHd a IHa]; intros rg Hrg; [done|]. cbn [run_calls]. by apply IHa, call_inv. Qed.

(** Registering: it succeeds exactly when the registration is valid, the name is free
    before the card is fetched and still when it has come, the card can be fetched
    and the id is new; then the agent can be found by its name, and its card is
    cached. Otherwise nothing is added, and a name that is taken, at once or
    meanwhile, is reported as a duplicate. *)
Theorem register_spec id now name card_url meanwhile rg n u
    (Hvalid : AgentRegistration name card_url = inr (n, u)) :
  let '(rg', answer) := register id now name card_url meanwhile rg in
  let later := meanwhile rg in
  match answer with
  | inr r => get_by_name n rg = None /\ get_by_name n later = None /\ get id later = None /\
      resolve_card u = inl (ar_card r) /\ rg_rows rg' = rg_rows later ++ [r] /\ get_by_name n rg' = Some r /\
      dget u (rg_cards rg') = Some (ar_card r)
  | inl e => (rg' = rg /\ is_Some (get_by_name n rg) /\ e = duplicate n) \/
      (rg' = later /\ get_by_name n rg = None /\
       ((exists msg, resolve_card u = inr msg /\ e = AgentCardResolutionError msg) \/
        (is_Some (get_by_name n later) /\ e = duplicate n) \/
        (get_by_name n later = None /\ is_Some (get id later) /\ e = IntegrityError)))
  end.
Proof.
  unfold register. rewrite Hvalid. destruct (get_by_name n rg) as [x|] eqn:Eg; [left; by rewrite is_Some_alt|].
  destruct (resolve_card u) as [card|msg] eqn:Er; [|right; eauto 8]. unfold insert_agent. cbn [ar_id ar_name].
  destruct (existsb _ _) eqn:E.
  - right. do 2 (split; [done|]). right. destruct (get_by_name n (meanwhile rg)) as [x|] eqn:Em; [left; by rewrite is_Some_alt|right].
    split; [done|]. split; [|done]. apply existsb_elem in E as (x & Hx & Hp).
    unfold get_by_name in Em. rewrite find_first_none in Em. specialize (Em x Hx). cbn in Em. rewrite Em, orb_false_r in Hp.
    unfold get. destruct (find_first _ _) eqn:Ef; [done|]. rewrite find_first_none in Ef. by rewrite (Ef x Hx) in Hp.
  - rewrite existsb_false in E. assert (get_by_name n (meanwhile rg) = None) as Em.
    { unfold get_by_name. apply find_first_none. intros x Hx. specialize (E x Hx). by apply orb_false_iff in E as [_ ?]. }
    split_and!; try done.
    + unfold get. apply find_first_none. intros x Hx. specialize (E x Hx). by apply orb_false_iff in E as [? _].
    + unfold get_by_name, cache_card. cbn [rg_rows invalidate set_rows]. rewrite find_first_app. unfold get_by_name in Em. rewrite Em.
      cbn. by rewrite bool_decide_eq_true_2.
    + unfold cache_card. cbn [rg_cards]. by rewrite dget_dset_eq.
Qed.
End registry.
