(* ===== verification/Cards.v ===== *)
(** * Agent cards and the client that reads them (choirworks/a2a/card.py, a2a/client.py:
    resolve_card, _client_for, cache_card, invalidate, close; new_choirworks/a2a/card.py)

    What a server publishes about itself, what a client accepts, and the clients that
    are made of cards and kept by url. Making a client waits, for the card and for the
    connection; other calls may change the cards meanwhile. *)
From S2P Require Import Prelude PyStr Dict Json Rewind Registry.
Local Open Scope string_scope.
Local Open Scope list_scope.

(** ** Cards *)

Record AgentInterface := mkInterface { if_binding : string; if_url : string; if_version : string }.
Record AgentSkill := mkSkill { sk_id : string; sk_name : string; sk_description : string; sk_tags : list string }.
Record AgentExtension := mkExtension { ex_uri : string; ex_description : string; ex_required : bool }.
Record AgentCard := mkAgentCard {
  ac_name : string; ac_description : string; ac_version : string; ac_streaming : bool; ac_extensions : list AgentExtension;
  ac_input_modes : list string; ac_output_modes : list string; ac_skills : list AgentSkill; ac_interfaces : list AgentInterface }.

Definition A2A_CW_EVENTS_URI : string := "https://github.com/Javey/choirworks/extensions/cw-events/v1".
Definition _ROOM_DESCRIPTION : string := "Group-chat fields (mentions, quote, interrupt) in message metadata".
Definition _EVENTS_DESCRIPTION : string :=
  "Custom content kinds in part metadata (cw_type: thought | text | function_call | question | decision | history | compaction); plan state deltas ride on status event metadata (cw_delta)".

(** The two interfaces of a server. *)
Definition own_interfaces (public_url : string) : list AgentInterface :=
  let base := rstrip_slash public_url in
  [mkInterface "HTTP+JSON" (base +:+ "/v1") "1.0"; mkInterface "JSONRPC" (base +:+ "/v1/a2a") "1.0"].

(** A2a/card.py of choirworks, and of new_choirworks. *)
Definition build_agent_card (public_url : string) : AgentCard :=
  mkAgentCard "ChoirWorks" "多 Agent 协作工作群（A2A SDK）" "0.1.0" true
    [mkExtension A2A_ROOM_URI _ROOM_DESCRIPTION false; mkExtension A2A_CW_EVENTS_URI _EVENTS_DESCRIPTION false]
    ["text/plain"] ["text/plain"]
    [mkSkill "orchestrate" "多 Agent 编排" "规划、调度并协调多个 A2A agent 完成复杂任务" ["orchestration"]]
    (own_interfaces public_url).
Definition build_agent_card_new (public_url : string) : AgentCard :=
  mkAgentCard "ChoirWorks Agent" "An LLM agent with tool calling and structured output." "1.0.0" true []
    ["text/plain"] ["text/plain"] [] (own_interfaces public_url).

(** ** Accepting a card *)

(** What asking for a card comes to: the card; an answer that cannot be read (an
    exception that [resolve_card] reports as a bad card), or another exception. *)
Inductive fetched := Fetched (card : AgentCard) | Unreadable (msg : string) | Raised (e : exn).

Section client.
Context (any_http_url : string -> option HttpUrl) (url_error : string -> string).

Definition is_rpc (i : AgentInterface) : bool := bool_decide (if_binding i = "JSONRPC") && bool_decide (if_version i = "1.0").
Definition valid_url (i : AgentInterface) : bool := match any_http_url (if_url i) with Some _ => true | None => false end.

(** The message of the error, when the card is refused. *)
Definition refused (card : AgentCard) : option string :=
  if negb (str_truthy (ustrip (ac_name card))) || bool_decide (ac_interfaces card = [])
  then Some "Agent Card requires a name and supported interfaces"
  else let interfaces := filterb is_rpc (ac_interfaces card) in
    match interfaces with
    | [] => Some "Agent Card must support JSONRPC with A2A version 1.0"
    | _ => url_error ∘ if_url <$> find_first (fun i => negb (valid_url i)) interfaces
    end.

Definition resolve_card (f : fetched) : res AgentCard :=
  let invalid msg := Err (Json.AgentCardResolutionError ("invalid agent card: " +:+ msg)) in
  match f with
  | Raised e => Err e
  | Unreadable msg => invalid msg
  | Fetched card => match refused card with Some msg => invalid msg | None => Ok card end
  end.

(** ** Clients *)

(** A client: its number, and the card it was made of. [cp_pending]: the calls that
    wait, with what they wait for. *)
Inductive stage := Resolving | Creating (card : AgentCard).
Record ClientPool := mkPool {
  cp_cards : list (string * AgentCard); cp_clients : list (string * (nat * AgentCard)); cp_retired : list (nat * AgentCard);
  cp_pending : list (nat * (string * stage)); cp_closed : list nat; cp_next : nat }.
Definition new_pool : ClientPool := mkPool [] [] [] [] [] 0.

Definition set_pending (p : list (nat * (string * stage))) (s : ClientPool) : ClientPool :=
  mkPool (cp_cards s) (cp_clients s) (cp_retired s) p (cp_closed s) (cp_next s).
Definition set_cards (c : list (string * AgentCard)) (s : ClientPool) : ClientPool :=
  mkPool c (cp_clients s) (cp_retired s) (cp_pending s) (cp_closed s) (cp_next s).

(** The client of a url is set aside, its card forgotten. *)
Definition invalidate_client (url : string) (s : ClientPool) : ClientPool :=
  mkPool (ddel url (cp_cards s)) (ddel url (cp_clients s))
    (cp_retired s ++ match dget url (cp_clients s) with Some c => [c] | None => [] end)
    (cp_pending s) (cp_closed s) (cp_next s).
Definition cache_client_card (url : string) (card : AgentCard) (s : ClientPool) : ClientPool :=
  let s := invalidate_client url s in set_cards (dset url card (cp_cards s)) s.

(** [_client_for], up to where it first waits; [None]: it returns the client there is. *)
Definition ask_client (url : string) (s : ClientPool) : option (nat * stage * ClientPool) :=
  if dmem url (cp_clients s) then None else
  let n := cp_next s in
  let st := match dget url (cp_cards s) with Some card => Creating card | None => Resolving end in
  let s := mkPool (cp_cards s) (cp_clients s) (cp_retired s) (dset n (url, st) (cp_pending s)) (cp_closed s) (S n) in
  Some (n, st, s).
(** The client has been made: it takes the place of any other. *)
Definition keep_client (n : nat) (url : string) (card : AgentCard) (s : ClientPool) : ClientPool :=
  mkPool (cp_cards s) (dset url (n, card) (cp_clients s)) (cp_retired s) (ddel n (cp_pending s)) (cp_closed s) (cp_next s).
Definition close_pool (s : ClientPool) : ClientPool :=
  mkPool [] [] [] (cp_pending s) (cp_closed s ++ (fst <$> dvals (cp_clients s)) ++ (fst <$> cp_retired s)) (cp_next s).

Inductive pool_call :=
| Ask (url : string) | Resolved (n : nat) (f : fetched) | Created (n : nat) | NotCreated (n : nat)
| Cache (url : string) (card : AgentCard) | Invalidate (url : string) | Close.

Inductive pool_step : ClientPool -> pool_call -> ClientPool -> Prop :=
| pool_ask_known s url : ask_client url s = None -> pool_step s (Ask url) s
| pool_ask s url n st s' : ask_client url s = Some (n, st, s') -> pool_step s (Ask url) s'
| pool_resolved s n url f card :
    dget n (cp_pending s) = Some (url, Resolving) -> resolve_card f = Ok card ->
    pool_step s (Resolved n f) (set_pending (dset n (url, Creating card) (cp_pending s)) (set_cards (dset url card (cp_cards s)) s))
| pool_unresolved s n url f e :
    dget n (cp_pending s) = Some (url, Resolving) -> resolve_card f = Err e ->
    pool_step s (Resolved n f) (set_pending (ddel n (cp_pending s)) s)
| pool_created s n url card :
    dget n (cp_pending s) = Some (url, Creating card) -> pool_step s (Created n) (keep_client n url card s)
| pool_not_created s n url card :
    dget n (cp_pending s) = Some (url, Creating card) -> pool_step s (NotCreated n) (set_pending (ddel n (cp_pending s)) s)
| pool_cache s url card : pool_step s (Cache url card) (cache_client_card url card s)
| pool_invalidate s url : pool_step s (Invalidate url) (invalidate_client url s)
| pool_close s : pool_step s Close (close_pool s).

(** ** Facts: cards *)

(** A card is accepted when it has a name that is not blank, speaks JSON-RPC in version
    1.0, and gives a proper url wherever it does; it is then taken as it is. *)
Lemma resolve_card_ok f card : resolve_card f = Ok card <->
  f = Fetched card /\ str_truthy (ustrip (ac_name card)) = true /\
  (exists i, i ∈ ac_interfaces card /\ is_rpc i = true) /\ (forall i, i ∈ ac_interfaces card -> is_rpc i = true -> valid_url i = true).
Proof.
  unfold resolve_card. split.
  - destruct f as [c| |]; [|done..]. destruct (refused c) eqn:E; [done|]. intros [= <-]. split; [done|].
    unfold refused in E. destruct (str_truthy (ustrip (ac_name c))); [|done]. split; [done|]. cbn [negb orb] in E.
    case_bool_decide; [done|]. destruct (filterb is_rpc (ac_interfaces c)) as [|i l] eqn:El; [done|].
    destruct (find_first _ _) eqn:Ef in E; [done|]. rewrite find_first_none in Ef. rewrite <- El in Ef. split.
    + exists i. apply elem_of_filterb. rewrite El. by left.
    + intros j Hj Hr. specialize (Ef j). rewrite elem_of_filterb, negb_false_iff in Ef. by apply Ef.
  - intros (-> & Hn & (i & Hi & Hr) & Hu). assert (refused card = None) as ->; [|done]. unfold refused. rewrite Hn. cbn [negb orb].
    rewrite bool_decide_false by (intros E; rewrite E in Hi; by apply elem_of_nil in Hi).
    assert (i ∈ filterb is_rpc (ac_interfaces card)) as Hin by by apply elem_of_filterb.
    destruct (find_first (fun i => negb (valid_url i)) (filterb is_rpc (ac_interfaces card))) as [j|] eqn:Ef.
    + apply find_first_some in Ef as [[Hj Hjr]%elem_of_filterb Hv]. by rewrite Hu in Hv.
    + destruct (filterb is_rpc (ac_interfaces card)) eqn:El; [by apply elem_of_nil in Hin | done].
Qed.

(** The card that a server of the program publishes is one that the program accepts,
    when the url it is given makes a proper url. *)
Lemma own_card_ok card public_url : card = build_agent_card public_url \/ card = build_agent_card_new public_url ->
  resolve_card (Fetched card) = Ok card <-> any_http_url (rstrip_slash public_url +:+ "/v1/a2a") <> None.
Proof.
  intros Hc. assert (ac_interfaces card = own_interfaces public_url) as Hi by by destruct Hc as [-> | ->].
  rewrite resolve_card_ok, Hi. split.
  - intros (_ & _ & _ & Hu). specialize (Hu (mkInterface "JSONRPC" (rstrip_slash public_url +:+ "/v1/a2a") "1.0")).
    cbv [own_interfaces] in Hu. unfold valid_url in Hu. cbn [if_url] in Hu. intros E. rewrite E in Hu. by discriminate Hu; [right; left|].
  - intros Hu. split; [done|]. split; [by destruct Hc as [-> | ->]; vm_compute|]. split.
    + eexists. split; [right; by left | done].
    + intros i [->|[->|[]%elem_of_nil]%elem_of_cons]%elem_of_cons; [done|]. intros _. unfold valid_url. cbn [if_url]. by destruct (any_http_url _).
Qed.

(** ** Facts: clients *)

Definition url_of (s : ClientPool) (l : pool_call) : option string :=
  match l with
  | Ask url | Cache url _ | Invalidate url => Some url
  | Resolved n _ | Created n | NotCreated n => fst <$> dget n (cp_pending s)
  | Close => None
  end.
Definition own_call (l : pool_call) : option nat := match l with Resolved n _ | Created n | NotCreated n => Some n | _ => None end.

(** Nothing else is under way for the url of the call; nothing at all when all is closed. *)
Definition alone (s : ClientPool) (l : pool_call) : Prop :=
  forall m url st, dget m (cp_pending s) = Some (url, st) -> match url_of s l with Some u => u = url -> own_call l = Some m | None => False end.
Definition alone_step (s : ClientPool) (l : pool_call) (s' : ClientPool) : Prop := pool_step s l s' /\ alone s l.

Definition made (s : ClientPool) : list nat := (fst <$> dvals (cp_clients s)) ++ (fst <$> cp_retired s) ++ cp_closed s.

Record pool_inv (s : ClientPool) : Prop := mkPoolInv {
  pi_clients : NoDup (dkeys (cp_clients s));
  pi_pending : NoDup (dkeys (cp_pending s));
  pi_next : forall n, n ∈ dkeys (cp_pending s) -> n < cp_next s;
  pi_match : forall url n card, dget url (cp_clients s) = Some (n, card) -> dget url (cp_cards s) = Some card;
  pi_create : forall n url card, dget n (cp_pending s) = Some (url, Creating card) -> dget url (cp_cards s) = Some card;
  pi_free : forall n url st, dget n (cp_pending s) = Some (url, st) -> dget url (cp_clients s) = None
}.

Lemma new_pool_inv : pool_inv new_pool.
Proof. split; cbn; try done; try constructor. intros n Hn. by apply elem_of_nil in Hn. Qed.

(** A call alone on its url is the only one that waits for it. *)
Lemma alone_other s l u m url st : alone s l -> url_of s l = Some u -> dget m (cp_pending s) = Some (url, st) -> own_call l <> Some m -> url <> u.
Proof. intros Ha Hu Hm Ho ->. specialize (Ha m u st Hm). rewrite Hu in Ha. by apply Ho, Ha. Qed.

Section inv.
Context (s : ClientPool) (Hs : pool_inv s).

Lemma invalidate_inv url : (forall m st, dget m (cp_pending s) <> Some (url, st)) -> pool_inv (invalidate_client url s).
Proof.
  intros Hfree. destruct Hs. split; cbn; try done.
  - by apply NoDup_ddel.
  - intros u n card. rewrite dget_ddel by done. case_decide as Hu; [done|]. rewrite dget_ddel_ne by done. apply pi_match0.
  - intros n u card Hn. rewrite dget_ddel_ne; [by eapply pi_create0|]. intros ->. by eapply Hfree.
  - intros n u st Hn. rewrite dget_ddel by done. case_decide; [done|]. by eapply pi_free0.
Qed.

Lemma set_card_inv url card : (forall m st, dget m (cp_pending s) <> Some (url, Creating st)) -> dget url (cp_clients s) = None ->
  pool_inv (set_cards (dset url card (cp_cards s)) s).
Proof.
  intros Hfree Hc. destruct Hs. split; cbn; try done.
  - intros u n c Hu. rewrite dget_dset_ne; [by eapply pi_match0|]. intros ->. by rewrite Hc in Hu.
  - intros n u c Hn. rewrite dget_dset_ne; [by eapply pi_create0|]. intros ->. by eapply Hfree.
Qed.

Lemma drop_pending_inv n : pool_inv (set_pending (ddel n (cp_pending s)) s).
Proof.
  destruct Hs. assert (forall m x, dget m (ddel n (cp_pending s)) = Some x -> dget m (cp_pending s) = Some x) as Hd.
  { intros m x. rewrite dget_ddel by done. by case_decide. }
  split; cbn; try done; [by apply NoDup_ddel | | eauto | eauto].
  intros m Hm. apply pi_next0. by eapply elem_of_sublist, dkeys_ddel_sublist.
Qed.

Lemma ask_inv url n st s' : (forall m st, dget m (cp_pending s) <> Some (url, st)) -> ask_client url s = Some (n, st, s') -> pool_inv s'.
Proof.
  unfold ask_client. intros Hfree. destruct (dmem url (cp_clients s)) eqn:Em; [done|]. intros [= <- _ <-].
  destruct Hs. split; cbn; try done.
  - by apply NoDup_dset.
  - intros m [->|Hm]%elem_of_dkeys_dset; [lia|]. apply pi_next0 in Hm. lia.
  - intros m u c. rewrite dget_dset. case_decide; [|apply pi_create0]. intros [= -> Hc]. by destruct (dget u (cp_cards s)); simplify_eq.
  - intros m u st'. rewrite dget_dset. case_decide; [|apply pi_free0]. intros [= -> _]. by apply dget_None, dmem_false.
Qed.

Lemma start_creating_inv n url card : dget n (cp_pending s) <> None -> dget url (cp_cards s) = Some card -> dget url (cp_clients s) = None ->
  pool_inv (set_pending (dset n (url, Creating card) (cp_pending s)) s).
Proof.
  intros Hn Hc Hf. destruct Hs. split; cbn; try done.
  - by apply NoDup_dset.
  - intros m [->|Hm]%elem_of_dkeys_dset; [|by apply pi_next0]. apply pi_next0. destruct (dget n (cp_pending s)) eqn:E; [|done]. by eapply dget_Some_key.
  - intros m u c. rewrite dget_dset. case_decide; [by intros [= -> ->] | apply pi_create0].
  - intros m u st. rewrite dget_dset. case_decide; [by intros [= -> _] | apply pi_free0].
Qed.

Lemma keep_inv n url card : dget n (cp_pending s) = Some (url, Creating card) -> (forall m st, m <> n -> dget m (cp_pending s) <> Some (url, st)) ->
  pool_inv (keep_client n url card s).
Proof.
  intros Hn Hfree. pose proof (drop_pending_inv n) as Hd. destruct Hs, Hd. split; cbn in *; try done.
  - by apply NoDup_dset.
  - intros u m c. rewrite dget_dset. case_decide; [|apply pi_match0]. intros [= _ <-]. subst. by eapply pi_create0.
  - intros m u st Hm. rewrite dget_dset_ne; [by eapply pi_free1|]. intros ->. rewrite dget_ddel in Hm by done.
    case_decide; [done|]. by eapply Hfree.
Qed.
End inv.

Lemma alone_step_inv s l s' : pool_inv s -> alone_step s l s' -> pool_inv s'.
Proof.
  intros Hs [Hstep Ha]. destruct Hstep as [s url Ek|s url n st s' Ek|s n url f card Hn Hr|s n url f e Hn Hr|s n url card Hn|s n url card Hn|s url card|s url|s].
  - done.
  - eapply ask_inv; [done| |exact Ek]. intros m st' Hm. by eapply alone_other.
  - pose proof (pi_free _ Hs _ _ _ Hn) as Hf.
    assert (pool_inv (set_cards (dset url card (cp_cards s)) s)) as Hc.
    { apply set_card_inv; [done | | done]. intros m c Hm. destruct (decide (m = n)) as [->|Hne]; [by rewrite Hn in Hm|].
      eapply (alone_other s (Resolved n f) url m url); [done | cbn; by rewrite Hn | done | cbn; congruence | done]. }
    apply (start_creating_inv _ Hc n url card); cbn; [by rewrite Hn | apply dget_dset_eq | done].
  - by apply drop_pending_inv.
  - apply keep_inv; [done | done|]. intros m st Hne Hm.
    eapply (alone_other s (Created n) url m url); [done | cbn; by rewrite Hn | done | cbn; congruence | done].
  - by apply drop_pending_inv.
  - assert (pool_inv (invalidate_client url s)) as Hi by (apply invalidate_inv; [done|]; intros m st Hm; by eapply alone_other).
    apply set_card_inv; [done | | cbn; apply dget_ddel_eq, (pi_clients _ Hs)]. intros m c Hm. by eapply alone_other.
  - apply invalidate_inv; [done|]. intros m st Hm. by eapply alone_other.
  - assert (forall n x, dget n (cp_pending s) <> Some x) as Hnone by (intros n [u st] Hn; by apply (Ha n u st)).
    split; cbn; try done; [constructor | apply Hs | apply Hs | by intros n u c Hn%Hnone].
Qed.

Lemma ddel_keeps (url : string) (x : nat * AgentCard) d : x ∈ dvals d -> x ∈ dvals (ddel url d) \/ dget url d = Some x.
Proof.
  induction d as [|[u y] d IH]; cbn; [by left|]. intros Hx. destruct (decide (url = u)).
  - apply elem_of_cons in Hx as [->|Hx]; [by right | by left].
  - apply elem_of_cons in Hx as [->|Hx]; [left; by left|]. destruct (IH Hx); [left; by right | by right].
Qed.

Lemma invalidate_made url s n : n ∈ made s -> n ∈ made (invalidate_client url s).
Proof.
  unfold made, invalidate_client. cbn. rewrite !elem_of_app. intros [(x & -> & Hx)%list_elem_of_fmap|[Hr|Hc]]; [|set_solver..].
  rewrite fmap_app, elem_of_app. destruct (ddel_keeps url x _ Hx) as [Hd| ->]; [left; by apply list_elem_of_fmap_2|].
  right; left; right. cbn. by left.
Qed.

Lemma step_made s l s' n : pool_inv s -> pool_step s l s' -> n ∈ made s \/ l = Created n -> n ∈ made s'.
Proof.
  intros Hs Hstep Hn. destruct Hstep as [s url Ek|s url m st s' Ek|s m url f card Hm Hr|s m url f e Hm Hr|s m url card Hm|s m url card Hm|s url card|s url|s];
    try (destruct Hn as [Hn|[=]]; done).
  - destruct Hn as [Hn|[=]]. unfold ask_client in Ek. destruct (dmem url _); [done|]. by injection Ek as _ _ <-.
  - unfold made in *. cbn. rewrite dset_fresh by by apply dget_None, (pi_free _ Hs _ _ _ Hm). unfold dvals in *. rewrite !fmap_app, !elem_of_app in *.
    destruct Hn as [Hn|[= ->]]; [tauto|]. left; right. cbn. by left.
  - destruct Hn as [Hn|[=]]. by apply (invalidate_made url) in Hn.
  - destruct Hn as [Hn|[=]]. by apply invalidate_made.
  - destruct Hn as [Hn|[=]]. unfold made in *. cbn. rewrite !elem_of_app in *. tauto.
Qed.

(** The clients of the agents, when the calls about each url come one after the other:
    the client in use for a url was made of the card that is cached for it, and no
    client is lost: each one that was made is in use, set aside to be closed later,
    or closed. *)
Theorem client_pool_spec tr s : steps alone_step new_pool tr s ->
  (forall url n card, dget url (cp_clients s) = Some (n, card) -> dget url (cp_cards s) = Some card) /\
  (forall n, Created n ∈ tr -> n ∈ (fst <$> dvals (cp_clients s)) ++ (fst <$> cp_retired s) ++ cp_closed s).
Proof.
  assert (forall s0, steps alone_step s0 tr s -> pool_inv s0 -> pool_inv s /\ forall n, n ∈ made s0 \/ Created n ∈ tr -> n ∈ made s) as H.
  { induction 1 as [s0|s0 l s1 tr' s2 Hstep _ IH]; intros Hs.
    - split; [done|]. intros n [Hn|Hn]; [done | by apply elem_of_nil in Hn].
    - destruct (IH (alone_step_inv _ _ _ Hs Hstep)) as [Hi Hm]. split; [done|]. intros n Hn. destruct Hstep as [Hstep _]. apply Hm.
      destruct Hn as [Hn|[Hn|Hn]%elem_of_cons]; [left..|by right]; (eapply step_made; [exact Hs | exact Hstep | auto]). }
  intros Hr. destruct (H new_pool Hr new_pool_inv) as [Hi Hm]. split; [apply Hi|]. intros n Hn. by apply Hm; right.
Qed.

(** ** Overlapping calls *)

(** A card that is refreshed while a client is made of the old one: the client of the
    old card is then the one in use. *)
Example refresh_leaves_old_client (old new : AgentCard) : old <> new ->
  exists s, steps pool_step new_pool [Cache "u" old; Ask "u"; Cache "u" new; Created 0] s /\
    dget "u" (cp_cards s) = Some new /\ dget "u" (cp_clients s) = Some (0, old).
Proof.
  intros Hne. eexists. split; [|shelve]. econstructor; [apply pool_cache|]. econstructor; [eapply pool_ask; reflexivity|].
  econstructor; [apply pool_cache|]. econstructor; [by eapply (pool_created _ 0 "u" old)|]. constructor.
  Unshelve. done.
Qed.

(** Two calls for one url at once make two clients, of which the first is neither in
    use nor ever closed. *)
Example overlapping_calls_lose_a_client (card : AgentCard) :
  exists s, steps pool_step new_pool [Cache "u" card; Ask "u"; Ask "u"; Created 0; Created 1; Close] s /\ cp_closed s = [1].
Proof.
  eexists. split; [|shelve]. econstructor; [apply pool_cache|]. econstructor; [eapply pool_ask; reflexivity|].
  econstructor; [eapply pool_ask; reflexivity|]. econstructor; [by eapply (pool_created _ 0 "u" card)|].
  econstructor; [by eapply (pool_created _ 1 "u" card)|]. econstructor; [apply pool_close|]. constructor.
  Unshelve. done.
Qed.
End client.
