(* ===== verification/SimAgent.v ===== *)
(** * The scripted agents of the simulator (choirworks/sim/fake_agent.py, sim/runner.py)

    An agent that follows a script: by its behaviour it delivers a text, asks, or
    fails. Its text goes out in chunks. What it does is a list of calls on the
    updater of the SDK. *)
From S2P Require Import Prelude PyStr Dict Json State StateFacts Transitions StateJson World Tool Events Evolution.
From S2P Require Import Helpers RemoteCaller NodeFacts RemoteCallerFacts Cards.
Local Open Scope string_scope.
Local Open Scope list_scope.

(** ** The executor *)

(** What the executor asks of its queue and of the [TaskUpdater]. *)
Inductive updater_call :=
| EnqueueTask (message : list string)
| StartWork
| AddArtifact (id : option string) (name text : string) (append last_chunk : bool)
| RequiresInput (text : string)
| TaskFailed (text : string)
| TaskComplete
| TaskCancel.

Record ScriptedExecutor := mkScripted { se_behavior : string; se_name : string; se_calls : Z; se_chunk_size : Z }.

Section executor.
(** The id of an artifact that goes out in chunks. *)
Context (uuid : string).

(** [text[i:i+size] for i in range(0, len(text), size)]. *)
Fixpoint slices (fuel : nat) (size : nat) (l : list string) : list string :=
  match fuel, l with
  | S fuel', _ :: _ => uconcat (take size l) :: slices fuel' size (drop size l)
  | _, _ => []
  end.
Definition text_slices (text : string) (size : nat) : list string := slices (ulen text) size (uchars text).

Fixpoint emit_chunks (first : bool) (chunks : list string) : list updater_call :=
  match chunks with
  | [] => []
  | piece :: rest =>
      AddArtifact (Some uuid) "response" piece (negb first) (match rest with [] => true | _ => false end) :: emit_chunks false rest
  end.

Definition _emit_artifact (e : ScriptedExecutor) (text : string) : list updater_call :=
  if (se_chunk_size e <=? 0)%Z then [AddArtifact None "response" text false true]
  else emit_chunks true (match text_slices text (Z.to_nat (se_chunk_size e)) with [] => [estr] | l => l end).

Definition behaves (e : ScriptedExecutor) (behavior : string) : bool := bool_decide (se_behavior e = behavior).

Definition _question_text (e : ScriptedExecutor) : string :=
  if behaves e "review" then "请确认是否采用该方案？"
  else if behaves e "collaborate" then "需要 qa-engineer 协助确认技术细节，请协助。"
  else if behaves e "inquire" then "缺少关键信息：请 product-manager 提供需求文档。"
  else "who are you?".

Definition _success_text (e : ScriptedExecutor) (text : string) : string :=
  if behaves e "research" then "调研结果：关于「" +:+ text +:+ "」的要点分析。"
  else if behaves e "write" then "已基于「" +:+ text +:+ "」完成接口实现和单元测试。"
  else if behaves e "collaborate" then
    if str_contains "请补充信息" text then "调研补充：结合 qa-engineer 的反馈，补充了技术可行性分析。"
    else "调研结果：关于「" +:+ text +:+ "」的要点分析。"
  else if behaves e "inquire" then "已基于「" +:+ text +:+ "」完成接口实现和单元测试。"
  else if behaves e "assist" then "分析结论：测试通过，功能符合预期。"
  else if behaves e "needs_info_text" then "已获得补充信息并交付：" +:+ text
  else "echo:" +:+ text.

(** The answer to a message that continues a task. *)
Definition _answer_text (e : ScriptedExecutor) (instruction : string) : string :=
  if behaves e "review" then "已按你的意见定稿：" +:+ instruction
  else if behaves e "needs_info_text" then "已获得补充信息并交付：" +:+ instruction
  else if behaves e "collaborate" then "协作完成：已结合 qa-engineer 的协助，方案确认可行。"
  else if behaves e "inquire" then "已获得需求信息并完成开发：" +:+ instruction
  else "answered:" +:+ instruction.

Definition asks_first (e : ScriptedExecutor) (instruction : string) : bool :=
  behaves e "ask" || behaves e "review"
  || ((behaves e "collaborate" || behaves e "inquire") && str_contains "协作" instruction
      && negb (str_contains "请补充信息" instruction) && (se_calls e =? 1)%Z).
Definition fails_now (e : ScriptedExecutor) : bool :=
  behaves e "fail" || behaves e "flaky_always" || ((behaves e "fail_once" || behaves e "flaky_once") && (se_calls e =? 1)%Z).

Definition count_call (e : ScriptedExecutor) : ScriptedExecutor := mkScripted (se_behavior e) (se_name e) (se_calls e + 1) (se_chunk_size e).

(** [execute]: the parts of the message, when there is one, and whether it continues a
    task. The waits only delay. *)
Definition execute (e : ScriptedExecutor) (message : option (list string)) (continues : bool) : ScriptedExecutor * list updater_call :=
  let instruction := ustrip (match message with Some (p :: _) => p | _ => estr end) in
  if negb continues then
    match message with
    | None => (e, [])
    | Some parts =>
        let e := count_call e in
        (e, [EnqueueTask parts; StartWork]
            ++ if asks_first e instruction then [RequiresInput (_question_text e)]
               else if behaves e "needs_info_text" && (se_calls e =? 1)%Z then _emit_artifact e "[cw:need_info] 需要补充需求信息。" ++ [TaskComplete]
               else if fails_now e then [TaskFailed "boom"]
               else _emit_artifact e (_success_text e instruction) ++ [TaskComplete])
    end
  else (e, _emit_artifact e (_answer_text e instruction) ++ [TaskComplete]).
Definition cancel_calls : list updater_call := [TaskCancel].
End executor.

(** ** The cards and the team *)

Definition BEHAVIOR_DESCRIPTIONS : list (string * string) :=
  [("collaborate", "负责需求分析、产品规划，协调团队成员推进项目"); ("inquire", "负责后端服务开发，实现 API 和业务逻辑");
   ("review", "负责代码审查，确保代码质量和安全性"); ("assist", "负责测试和验证，确保功能符合需求");
   ("echo", "负责财务数据分析，生成财务报告和预算建议"); ("flaky_once", "负责审批流程管理，处理报销和采购审批");
   ("flaky_always", "负责合规审计，检查财务记录和流程合规性"); ("research", "负责需求分析、产品规划，协调团队成员推进项目");
   ("write", "负责后端服务开发，实现 API 和业务逻辑")].
Definition BEHAVIOR_SKILL_DESCRIPTIONS : list (string * string) :=
  [("collaborate", "需求分析与产品规划"); ("inquire", "后端开发与接口实现"); ("review", "代码审查与质量把控"); ("assist", "软件测试与质量验证");
   ("echo", "财务分析与报告生成"); ("flaky_once", "审批流程管理"); ("flaky_always", "合规审计与风险检查"); ("research", "需求分析与产品规划");
   ("write", "后端开发与接口实现")].

Definition _make_card (behavior url name : string) : AgentCard :=
  let skill_name := str_or name behavior in
  mkAgentCard (str_or name behavior) (default (behavior +:+ " agent") (dget behavior BEHAVIOR_DESCRIPTIONS)) "1.0.0" true []
    ["text/plain"] ["text/plain"] [mkSkill skill_name skill_name (default behavior (dget behavior BEHAVIOR_SKILL_DESCRIPTIONS)) []]
    [mkInterface "JSONRPC" url "1.0"].

(** The agents of the simulation, with their behaviours. *)
Definition SIM_AGENTS : list (string * string) :=
  [("product-manager", "collaborate"); ("developer", "inquire"); ("code-reviewer", "review"); ("qa-engineer", "assist");
   ("finance-analyst", "echo"); ("approval-manager", "flaky_once"); ("auditor", "flaky_always")].
Definition start_sim_agents (chunk_size : Z) : list (string * ScriptedExecutor) :=
  (fun p => (fst p, mkScripted (snd p) (fst p) 0 chunk_size)) <$> SIM_AGENTS.

(** ** Facts: slices *)

Lemma slices_spec size fuel : 0 < size -> forall l, length l <= fuel ->
  uconcat (slices fuel size l) = uconcat l /\ (slices fuel size l = [] <-> l = []).
Proof.
  intros Hs. induction fuel as [|fuel IH]; intros l Hl; [by destruct l; [|cbn in Hl; lia]|]. destruct l as [|c l]; [done|].
  cbn [slices]. split; [|done]. cbn [uconcat foldr]. destruct (IH (drop size (c :: l))) as [E _]; [rewrite length_drop; cbn in *; lia|].
  fold (uconcat (slices fuel size (drop size (c :: l)))). rewrite E, <- uconcat_app, take_drop. done.
Qed.

(** The slices of a text, one after the other, are the text. *)
Lemma text_slices_spec text size : 0 < size -> uconcat (text_slices text size) = text /\ (text_slices text size = [] <-> text = estr).
Proof.
  intros Hs. destruct (slices_spec size (ulen text) Hs (uchars text)) as [E1 E2]; [done|]. unfold text_slices. split.
  - by rewrite E1, uconcat_uchars.
  - rewrite E2. split; [intros E; by rewrite <- (uconcat_uchars text), E | by intros ->].
Qed.

(** ** Facts: the caller of a scripted agent *)

(** What the SDK sends for each call. *)
Class Sdk := {
  respond : updater_call -> StreamResponse;
  respond_task parts : exists t, respond (EnqueueTask parts) = SrTask t /\ t_state t = TaskState.SUBMITTED /\ t_artifacts t = [];
  respond_start : exists tid, respond StartWork = SrStatus tid TaskState.WORKING None;
  respond_artifact id name text append last_chunk : exists aid md,
    respond (AddArtifact id name text append last_chunk) = SrArtifact (mkArtifact aid name [mkPart (CText text) []] md) append last_chunk /\
    forall i, id = Some i -> aid = i;
  respond_input text : exists tid m, respond (RequiresInput text) = SrStatus tid TaskState.INPUT_REQUIRED (Some m) /\ msg_parts m = [mkPart (CText text) []];
  respond_failed text : exists tid m, respond (TaskFailed text) = SrStatus tid TaskState.FAILED m;
  respond_complete : exists tid, respond TaskComplete = SrStatus tid TaskState.COMPLETED None
}.

(** The script: what a turn of the agent is meant to come to. *)
Inductive verdict := Delivers (text : string) | Asks (question : string) | Fails.
Definition script (e : ScriptedExecutor) (instruction : string) (continues : bool) : verdict :=
  if continues then Delivers (_answer_text e instruction)
  else let e := count_call e in
       if asks_first e instruction then Asks (_question_text e)
       else if behaves e "needs_info_text" && (se_calls e =? 1)%Z then Delivers "[cw:need_info] 需要补充需求信息。"
       else if fails_now e then Fails
       else Delivers (_success_text e instruction).

Definition verdict_status (v : verdict) : node_status :=
  match v with Delivers _ => NodeStatus.COMPLETED | Asks _ => NodeStatus.INPUT_REQUIRED | Fails => NodeStatus.FAILED end.
Definition verdict_output (v : verdict) : option string :=
  match v with Delivers t => let s := ustrip t in if str_truthy s then Some s else None | _ => None end.

Section caller.
Context `{!Sdk} (uuid : string).

Lemma chunks_merge chunks : forall t current n,
  foldl chunk_acc ([mkPiece uuid "response" t], current, n) (respond <$> emit_chunks uuid false chunks) =
  ([mkPiece uuid "response" (t +:+ uconcat chunks)], current, n).
Proof.
  induction chunks as [|c chunks IH]; intros t current n; [cbn; by rewrite sapp_nil_r|]. cbn [emit_chunks negb]. rewrite fmap_cons. cbn [foldl].
  destruct (respond_artifact (Some uuid) "response" c true (match chunks with [] => true | _ => false end)) as (aid & md & -> & Ha).
  rewrite (Ha uuid eq_refl). unfold chunk_acc at 2. cbn [chunk_artifacts chunk_status chunk_node art_id art_name art_parts].
  unfold merge_piece. cbn [find_first replace_piece pc_id]. rewrite bool_decide_eq_true_2 by done. change (join_text [mkPart (CText c) []]) with c.
  cbn [pc_name pc_text].
  match goal with |- context [find_first ?f ?l] => assert (is_Some (find_first f l)) as [x ->] by (cbn; rewrite bool_decide_eq_true_2 by done; by eexists) end.
  rewrite IH. cbn [uconcat foldr]. fold (uconcat chunks). by rewrite <- sapp_assoc.
Qed.

(** However a text is cut, it arrives whole. *)
Lemma artifact_arrives e text current n :
  exists aid, foldl chunk_acc ([], current, n) (respond <$> _emit_artifact uuid e text) = ([mkPiece aid "response" text], current, n).
Proof.
  unfold _emit_artifact. destruct (_ <=? _)%Z eqn:El.
  - destruct (respond_artifact None "response" text false true) as (aid & md & E & _). exists aid. rewrite list_fmap_singleton. cbn [foldl]. by rewrite E.
  - exists uuid. destruct (text_slices_spec text (Z.to_nat (se_chunk_size e))) as [Ec En]; [lia|].
    destruct (text_slices text _) as [|c chunks] eqn:Es.
    + rewrite (proj1 En eq_refl). cbn [emit_chunks negb]. rewrite list_fmap_singleton. cbn [foldl].
      destruct (respond_artifact (Some uuid) "response" estr false true) as (aid & md & E & Ha). by rewrite E, (Ha uuid eq_refl).
    + cbn [emit_chunks negb]. rewrite fmap_cons. cbn [foldl].
      destruct (respond_artifact (Some uuid) "response" c false (match chunks with [] => true | _ => false end)) as (aid & md & -> & Ha).
      rewrite (Ha uuid eq_refl). rewrite <- Ec. apply (chunks_merge chunks c).
Qed.

(** The chunks of the answer, then the end of the task. *)
Lemma delivery_arrives e text current n :
  exists aid, foldl chunk_acc ([], current, n) (respond <$> _emit_artifact uuid e text ++ [TaskComplete]) =
    ([mkPiece aid "response" text], NodeStatus.COMPLETED, n).
Proof.
  destruct (artifact_arrives e text current n) as (aid & E). exists aid. rewrite fmap_app, foldl_app, E. cbn.
  by destruct respond_complete as (tid & ->).
Qed.

Lemma joined_one text : joined_output [text] = let s := ustrip text in if str_truthy s then Some s else None.
Proof. unfold joined_output. cbn. destruct (str_truthy text) eqn:E; cbn; [done|]. by destruct text. Qed.

Lemma script_runs e parts continues n :
  let instruction := ustrip (match parts with p :: _ => p | [] => estr end) in
  let v := script e instruction continues in
  exists pieces n', foldl chunk_acc ([], NodeStatus.WORKING, n) (respond <$> (execute uuid e (Some parts) continues).2) = (pieces, verdict_status v, n') /\
    joined_output (pc_text <$> pieces) = verdict_output v /\ (forall q, v = Asks q -> n_question n' = Some q).
Proof.
  cbn zeta. unfold script, execute. set (i := ustrip (match parts with p :: _ => p | [] => estr end)).
  replace (ustrip match parts with [] => estr | p :: _ => p end) with i by (by destruct parts).
  destruct continues; cbn [negb].
  - destruct (delivery_arrives e (_answer_text e i) NodeStatus.WORKING n) as (aid & E). cbn [snd]. do 2 eexists. split; [exact E|].
    split; [apply joined_one | done].
  - cbn [snd]. rewrite fmap_app, foldl_app. rewrite fmap_cons, list_fmap_singleton. cbn [foldl].
    destruct (respond_task parts) as (t & -> & Hst & Har). destruct respond_start as (tid & ->).
    unfold chunk_acc at 2. unfold chunk_acc at 2. cbn [chunk_artifacts chunk_status]. rewrite Har.
    match goal with |- context [foldl chunk_acc ([], _, ?n1)] => generalize n1 end. clear n. intros n.
    change (_REMOTE_STATE_MAP TaskState.WORKING) with NodeStatus.WORKING.
    destruct (asks_first _ _).
    { rewrite list_fmap_singleton. cbn [foldl]. destruct (respond_input (_question_text (count_call e))) as (tid' & m & -> & Hm).
      unfold chunk_acc. cbn [chunk_artifacts chunk_status chunk_node]. do 2 eexists. split; [done|]. split; [done|]. intros q [= <-].
      rewrite Hm. done. }
    destruct (behaves _ "needs_info_text" && _).
    { destruct (delivery_arrives (count_call e) "[cw:need_info] 需要补充需求信息。" NodeStatus.WORKING n) as (aid & E). do 2 eexists.
      split; [exact E|]. split; [apply joined_one | done]. }
    destruct (fails_now _).
    { rewrite list_fmap_singleton. cbn [foldl]. destruct (respond_failed "boom") as (tid' & m & ->). unfold chunk_acc.
      cbn [chunk_artifacts chunk_status]. do 2 eexists. split; [done|]. by split. }
    destruct (delivery_arrives (count_call e) (_success_text (count_call e) i) NodeStatus.WORKING n) as (aid & E). do 2 eexists.
    split; [exact E|]. split; [apply joined_one | done].
Qed.
End caller.

(** A turn of a scripted agent, as the node that called it sees it: it ends as the
    script says, with the text delivered whole, however it was cut in chunks, or the
    question, or in failure. *)
Theorem scripted_turn_spec `{!Env, !Sdk} uuid e parts continues k w n
    (Hnode : get_node (w_state w) k = Some n)
    (Hsubmits : can_transition n NodeStatus.SUBMITTED = true) :
  let v := script e (ustrip (match parts with p :: _ => p | [] => estr end)) continues in
  exists w' n', consume_chunks k (respond <$> (execute uuid e (Some parts) continues).2, None) w = (w', Ok (verdict_status v)) /\
    get_node (w_state w') k = Some n' /\ n_output n' = verdict_output v /\ (forall q, v = Asks q -> n_question n' = Some q).
Proof.
  cbn zeta. destruct (script_runs uuid e parts continues n) as (pieces & n' & E & Ho & Hq).
  pose proof (consume_chunks_run k (respond <$> (execute uuid e (Some parts) continues).2) w n Hnode Hsubmits) as Hc. rewrite E in Hc.
  destruct Hc as (w' & Hc & Hn). exists w', (set_output (joined_output (pc_text <$> pieces)) n'). split_and!; [done|done|exact Ho|].
  intros q Hv. by rewrite <- (Hq q Hv).
Qed.
