(* ===== verification/SimModel.v ===== *)
(** * The scripted model of the simulator (choirworks/sim/litellm_mock.py)

    It reads the prompts of the planner and of the subagents with patterns, chooses
    a canned answer, and streams it: the reasoning in chunks, then the arguments of
    one tool call in fragments. *)
From S2P Require Import Prelude SystemPrompts PyStr Dict Json State World Tool Events Evolution Prompts Dag Llm.
From S2P Require Import Planner SimAgent.
From Stdlib Require Import Ascii.
Local Open Scope string_scope.
Local Open Scope list_scope.

Definition FLAKY_AGENTS : list string := ["auditor"].
Definition PEER_ROUTES : list (string * list string) := [("developer", ["product-manager"]); ("product-manager", ["qa-engineer"])].
Definition HUMAN_AGENTS : list string := ["code-reviewer"].

(** ** The stream *)

Definition chunk_size : nat := 12.
Fixpoint argument_deltas (tool_name : string) (first : bool) (pieces : list string) : list Delta :=
  match pieces with
  | [] => []
  | piece :: rest =>
      mkDelta None None [mkCallDelta 0 (if first then Some tool_name else None) (Some piece) (if first then Some "call_1" else None)]
        :: argument_deltas tool_name false rest
  end.
Definition _stream_structured_response (reasoning arguments tool_name : string) : list Delta :=
  ((fun piece => mkDelta (Some piece) None []) <$> text_slices reasoning chunk_size)
  ++ argument_deltas tool_name true (text_slices arguments chunk_size)
  ++ [mkDelta None None []].

(** ** Patterns *)

(** What stands before the first occurrence of [p], and after it. *)
Fixpoint find_at (p s : string) : option (string * string) :=
  match strip_prefix p s with
  | Some r => Some (estr, r)
  | None => match s with String a s' => (fun br => (String a (fst br), snd br)) <$> find_at p s' | EmptyString => None end
  end.
(** [(.*?)(?:d1|d2|\Z)]: up to the first delimiter, or the end. *)
Fixpoint until_any (ds : list string) (s : string) : string :=
  if existsb (fun d => starts_with d s) ds then estr
  else match s with String a s' => String a (until_any ds s') | EmptyString => estr end.

(** [(\S+)], as code points, and the rest. *)
Fixpoint span_nonspace (l : list string) : list string * list string :=
  match l with
  | c :: l' => if is_space c then ([], l) else let '(a, b) := span_nonspace l' in (c :: a, b)
  | [] => ([], [])
  end.

(** [REQUEST_PATTERN.search]. *)
Definition request_group (user : string) : option string :=
  (fun br => until_any [nl2 +:+ "For context:"; nl2 +:+ "Available agents:"] (snd br)) <$> find_at ("User request:" +:+ nl) user.

(** [^- (\S+):] on one line: up to the last colon of the run, which has at least one
    character before it. *)
Fixpoint before_last_colon (l : list string) : option (list string) :=
  match l with
  | [] => None
  | c :: l' =>
      match before_last_colon l' with
      | Some a => Some (c :: a)
      | None => if bool_decide (c = ":") then Some [] else None
      end
  end.
Definition agent_of_line (line : string) : option string :=
  match strip_prefix "- " line with
  | Some r =>
      match before_last_colon (span_nonspace (uchars r)).1 with
      | Some (c :: l) => Some (uconcat (c :: l))
      | _ => None
      end
  | None => None
  end.
(** [set(AGENT_PATTERN.findall(user))]. *)
Definition _registered (user : string) : list string := fromkeys (omap agent_of_line (split_on "010"%char user)).

(** [WORKER_PATTERN.search]: who asks, and what. *)
Fixpoint worker_match (user : string) : option (string * string) :=
  match (r ← strip_prefix "Requester: " user;
         let '(run, rest) := span_nonspace (uchars r) in
         q ← strip_prefix (nl +:+ "Question / blocked work:" +:+ nl) (uconcat rest);
         match run with [] => None | _ => Some (uconcat run, until_any [nl2 +:+ "For context:"] q) end) with
  | Some m => Some m
  | None => match user with String _ user' => worker_match user' | EmptyString => None end
  end.

Definition or_task (s : string) : string := str_or s "任务".
Definition _request (user : string) : string :=
  match request_group user with
  | Some g => or_task (ustrip g)
  | None => or_task (ustrip (until_any [nl2] user))
  end.

(** ** Plans *)

Definition _node (node_id agent_name text : string) (deps : list string) : PlanNodeDraft :=
  mkDraft node_id agent_name agent_name [("text", text)] deps.
Definition mentions (request : string) (words : list string) : bool := existsb (fun k => str_contains k request) words.

Definition draft_for (user request : string) : list PlanNodeDraft :=
  if str_contains "Reason for replanning:" user then [_node "n1" "developer" request []]
  else if mentions request ["重试"; "偶发"] then
    [_node "n1" "approval-manager" request []; _node "n2" "finance-analyst" ("根据审批结果生成报告：" +:+ request) ["n1"]]
  else if mentions request ["失败"; "降级"; "替换"] then
    [_node "n1" "auditor" request []; _node "n2" "finance-analyst" ("根据审计结果生成报告：" +:+ request) ["n1"]]
  else if mentions request ["审计"; "合规"; "风险"] then
    [_node "n1" "finance-analyst" request []; _node "n2" "auditor" ("请审计上一步的财务数据：" +:+ request) ["n1"]]
  else if mentions request ["审批"; "报销"; "采购"] then [_node "n1" "finance-analyst" request []]
  else if mentions request ["评审"; "审查"; "确认"] then
    [_node "n1" "developer" request []; _node "n2" "code-reviewer" ("请审查上一步的代码：" +:+ request) ["n1"]]
  else if mentions request ["协作"; "协调"; "配合"] then
    [_node "n1" "product-manager" request []; _node "n2" "developer" request []]
  else [_node "n1" "product-manager" request []; _node "n2" "developer" ("基于需求分析结果进行开发：" +:+ request) ["n1"]].

Definition plan_line (n : PlanNodeDraft) : string :=
  "  • " +:+ pd_id n +:+ " → @" +:+ pd_agent_name n +:+ " 执行「" +:+ pd_name n +:+ "」"
  +:+ match pd_deps n with [] => estr | deps => "（依赖 " +:+ str_join ", " deps +:+ "）" end.

(** The reasoning, and the plan. *)
Definition _make_plan (user : string) : string * PlanDraft :=
  let request := _request user in
  let agents := py_sorted (_registered user) in
  if bool_decide (request ∈ ["你好"; "hello"; "hi"; "嗨"; "在吗"]) then ("用户只是打了个招呼，直接回复即可。", mkPlanDraft [])
  else
    let draft := draft_for user request in
    (str_join nl (["收到请求：「" +:+ request +:+ "」";
                   "已注册的 agent 有：" +:+ (match agents with [] => "(无)" | _ => str_join ", " agents end);
                   "分析需求后，制定以下计划："] ++ (plan_line <$> draft)),
     mkPlanDraft draft).

(** ** Assistance and outcomes *)

Definition to_human (question_type : string) : json :=
  JObj [("target_agent", JStr "human"); ("instruction", JStr estr); ("question_type", JStr question_type); ("options", JArr []); ("multi", JBool false)].
Definition to_peer (name question : string) : json :=
  JObj [("target_agent", JStr name); ("instruction", JStr ("请补充信息：" +:+ question))].

Definition _make_assistance_decision (user : string) : string * json :=
  let agents := _registered user in
  let no_peer := ("无可用 peer agent，转人工处理。", to_human "input") in
  match worker_match user with
  | None => no_peer
  | Some (asking, q) =>
      let question := ustrip q in
      if bool_decide (asking ∈ HUMAN_AGENTS) then ("Agent " +:+ asking +:+ " 的求助需要人工介入。", to_human "confirm")
      else
        let preferred := default ["product-manager"; "developer"; "qa-engineer"] (dget asking PEER_ROUTES) in
        match find_first (fun name => bool_decide (name ∈ agents) && negb (bool_decide (name = asking))) preferred with
        | Some name => ("Agent " +:+ asking +:+ " 提出了问题，最适合回答的是 @" +:+ name +:+ "。", to_peer name question)
        | None =>
            match py_sorted (filterb (fun a => negb (bool_decide (a ∈ FLAKY_AGENTS)) && negb (bool_decide (a = asking))) agents) with
            | name :: _ => ("Agent " +:+ asking +:+ " 提出了问题，安排 @" +:+ name +:+ " 回答。", to_peer name question)
            | [] => no_peer
            end
        end
  end.

Definition _make_outcome_decision : string * json :=
  ("产出为交付内容。", JObj [("intent", JStr "deliver"); ("question", JStr estr)]).

(** ** The completion *)

Section completion.
(** [json.dumps(x, ensure_ascii=False)]; [draft.model_dump_json()]. *)
Context (dumps_text : json -> string) (dump_draft : PlanDraft -> string).

Definition user_texts (messages : list ChatMessage) : list string := omap (fun m => match m with MsgUser c => Some c | _ => None end) messages.

(** The reasoning and the arguments for a tool. *)
Definition sim_answer (tool_name : string) (messages : list ChatMessage) : string * string :=
  let users := user_texts messages in
  if bool_decide (tool_name = "create_plan") then let '(r, d) := _make_plan (str_join nl2 users) in (r, dump_draft d)
  else if bool_decide (tool_name = "OutcomeDecision") then let '(r, d) := _make_outcome_decision in (r, dumps_text d)
  else if bool_decide (tool_name = "AssistanceDecision") then let '(r, d) := _make_assistance_decision (default estr (last users)) in (r, dumps_text d)
  else ("已收到你的问题，这里给出示例回答。", estr).

(** [sim_acompletion], streaming, and not. *)
Definition sim_acompletion (messages : list ChatMessage) (tools : list string) : list (option Delta) :=
  let tool_name := default estr (head tools) in
  let '(reasoning, arguments) := sim_answer tool_name messages in
  Some <$> _stream_structured_response reasoning arguments tool_name.
Definition sim_text : string := "已收到你的问题，这里给出示例回答。".
End completion.

(** ** Facts: the stream *)

Definition collect_delta (f : Fragments) (d : Delta) : Fragments := foldl add_call_delta f (d_calls d).

Lemma arguments_collected tool pieces : forall l names ids,
  foldl collect_delta (mkFragments [(0%Z, l)] names ids) (argument_deltas tool false pieces) = mkFragments [(0%Z, l ++ pieces)] names ids.
Proof.
  induction pieces as [|p pieces IH]; intros l names ids; [by rewrite app_nil_r|]. cbn [argument_deltas foldl].
  change (collect_delta (mkFragments [(0%Z, l)] names ids) (mkDelta None None [mkCallDelta 0 None (Some p) None]))
    with (mkFragments [(0%Z, l ++ [p])] names ids). rewrite IH. by rewrite <- app_assoc.
Qed.

Lemma sim_collected reasoning arguments tool : str_truthy tool = true ->
  collect (_stream_structured_response reasoning arguments tool) =
  match text_slices arguments chunk_size with
  | [] => mkFragments [] [] []
  | pieces => mkFragments [(0%Z, pieces)] [(0%Z, tool)] [(0%Z, "call_1")]
  end.
Proof.
  intros Ht. unfold collect, _stream_structured_response. fold collect_delta. rewrite !foldl_app.
  assert (forall pieces f, foldl (fun f d => foldl add_call_delta f (d_calls d)) f ((fun piece => mkDelta (Some piece) None []) <$> pieces) = f) as ->
    by (induction pieces as [|p pieces IH]; intros f; [done|]; rewrite fmap_cons; apply IH).
  destruct (text_slices arguments chunk_size) as [|p pieces]; [done|]. cbn [argument_deltas foldl].
  assert (collect_delta (mkFragments [] [] []) (mkDelta None None [mkCallDelta 0 (Some tool) (Some p) (Some "call_1")]) =
    mkFragments [(0%Z, [p])] [(0%Z, tool)] [(0%Z, "call_1")]) as E by (unfold collect_delta, add_call_delta; cbn; by rewrite Ht).
  change (fun f d => foldl add_call_delta f (d_calls d)) with collect_delta. rewrite E, arguments_collected. done.
Qed.

Section stream_facts.
Context `{!Llm}.

(** The answer of the scripted model reaches the client whole: the reasoning, and the
    call of the tool with its arguments, which are read as they were written. *)
Theorem sim_stream_spec reasoning arguments tool tools candidates
    (Htool : str_truthy tool = true) (Hin : tool ∈ tools) :
  uconcat (omap d_reasoning (_stream_structured_response reasoning arguments tool)) = reasoning /\
  finish_stream tools candidates (collect (_stream_structured_response reasoning arguments tool)) =
    if str_truthy arguments then
      match parse_args tool candidates arguments with
      | inr msg => StreamFailed (ValueError msg) (Some arguments)
      | inl args => StreamDone (Some (tool, args, Some "call_1"))
      end
    else StreamDone None.
Proof.
  split.
  - unfold _stream_structured_response. rewrite !omap_app.
    assert (forall first pieces, omap d_reasoning (argument_deltas tool first pieces) = []) as ->
      by (intros first pieces; revert first; induction pieces as [|p pieces IH]; intros first; [done|]; apply IH).
    assert (forall pieces, omap d_reasoning ((fun piece => mkDelta (Some piece) None []) <$> pieces) = pieces) as ->
      by (induction pieces as [|p pieces IH]; [done|]; rewrite fmap_cons; cbn [omap list_omap d_reasoning]; f_equal; exact IH).
    cbn [app omap list_omap d_reasoning]. rewrite app_nil_r. apply text_slices_spec. unfold chunk_size. lia.
  - rewrite sim_collected by done. destruct (text_slices_spec arguments chunk_size) as [Ec En]; [unfold chunk_size; lia|].
    destruct (text_slices arguments chunk_size) as [|p pieces].
    + rewrite (proj1 En eq_refl). done.
    + assert (str_truthy arguments = true) as -> by (destruct arguments; [by destruct En as [_ Hn]; specialize (Hn eq_refl) | done]).
      unfold finish_stream. cbn [fg_args fg_names fg_ids].
      change (dget 0%Z [(0%Z, tool)]) with (Some tool). change (dget 0%Z [(0%Z, "call_1")]) with (Some "call_1"). cbn [default]. cbv zeta.
      unfold default, id. rewrite Htool.
      rewrite bool_decide_eq_false_2 by tauto. cbn [negb orb]. by rewrite Ec.
Qed.
End stream_facts.

(** ** Facts: plans *)

Lemma draft_shape user request : exists a t, (draft_for user request = [_node "n1" a t []] \/
    exists b t' deps, draft_for user request = [_node "n1" a t []; _node "n2" b t' deps] /\ (deps = [] \/ deps = ["n1"]) /\ b ∈ SIM_AGENTS.*1) /\
  a ∈ SIM_AGENTS.*1 /\ t = request.
Proof.
  unfold draft_for. repeat case_match; do 2 eexists; (split; [first [by left | right; do 3 eexists; split; [done|]; split;
    [first [by left | by right] | apply (bool_decide_unpack _); by vm_compute]]|]; split; [apply (bool_decide_unpack _); by vm_compute | done]).
Qed.

(** Every plan of the scripted model passes the validation of the planner, and gives
    its work to agents of the simulation; the first task is the request. *)
Theorem sim_plan_spec user max_nodes (Hmax : (2 <= max_nodes)%Z) :
  let plan := (_make_plan user).2 in
  validate_plan plan max_nodes = Ok tt /\
  (forall n, n ∈ pd_nodes plan -> pd_agent_name n ∈ SIM_AGENTS.*1) /\
  (forall n, head (pd_nodes plan) = Some n -> pd_id n = "n1" /\ pd_input n = [("text", _request user)]).
Proof.
  cbn zeta. unfold _make_plan. destruct (bool_decide _).
  { cbn [snd pd_nodes]. split_and!; [|by intros n ?%elem_of_nil | done]. unfold validate_plan. cbn [pd_nodes length].
    destruct (Z.ltb_spec max_nodes (Z.of_nat 0)); [lia|]. by vm_compute. }
  cbn [snd pd_nodes]. destruct (draft_shape user (_request user)) as (a & t & Hshape & Ha & Ht).
  destruct Hshape as [->|(b & t' & deps & -> & Hdeps & Hb)]; (split; [|split]).
  - unfold validate_plan. cbn [pd_nodes length]. destruct (Z.ltb_spec max_nodes (Z.of_nat 1)); [lia|]. by vm_compute.
  - intros n ->%list_elem_of_singleton. done.
  - intros n [= <-]. by rewrite Ht.
  - unfold validate_plan. cbn [pd_nodes length]. destruct (Z.ltb_spec max_nodes (Z.of_nat 2)); [lia|]. by destruct Hdeps as [->| ->]; vm_compute.
  - intros n [->|Hn]%elem_of_cons; [done|]. by apply list_elem_of_singleton in Hn as ->.
  - intros n [= <-]. by rewrite Ht.
Qed.

(** ** Facts: assistance *)

Definition target_of (decision : json) : option string :=
  match decision with JObj kvs => match dget "target_agent" kvs with Some (JStr s) => Some s | _ => None end | _ => None end.

(** The scripted model refers a question to the user, or to another agent that the
    prompt lists, never to the one that asks. *)
Theorem sim_assistance_spec user :
  exists target, target_of (_make_assistance_decision user).2 = Some target /\
    (target = "human" \/ (target ∈ _registered user /\ forall asking q, worker_match user = Some (asking, q) -> target <> asking)).
Proof.
  unfold _make_assistance_decision. destruct (worker_match user) as [[asking q]|]; [|by exists "human"; split; [|left]].
  case_bool_decide; [by exists "human"; split; [|left]|].
  destruct (find_first _ _) as [name|] eqn:Ef.
  - apply find_first_some in Ef as [_ Hp]. apply andb_prop in Hp as [H1%bool_decide_eq_true H2]. apply negb_true_iff, bool_decide_eq_false in H2.
    exists name. split; [done|]. right. split; [done|]. by intros ? ? [= <- <-].
  - destruct (py_sorted _) as [|name l] eqn:Es; [by exists "human"; split; [|left]|]. exists name. split; [done|]. right.
    assert (name ∈ py_sorted (filterb (fun a => negb (bool_decide (a ∈ FLAKY_AGENTS)) && negb (bool_decide (a = asking))) (_registered user))) as Hin
      by (rewrite Es; by left).
    rewrite (proj1 (py_sorted_spec _)) in Hin. apply elem_of_filterb in Hin as [Hin Hp]. split; [done|].
    apply andb_prop in Hp as [_ Hp]. apply negb_true_iff, bool_decide_eq_false in Hp. by intros ? ? [= <- <-].
Qed.

(** ** The patterns and the prompts

    The patterns look for headings that the prompts do not have, or not where they
    have them. *)

(** The prompts of the planner have no "User request:": the request is then the first
    paragraph of the first message of the conversation, not the message that is
    being planned. *)
Lemma request_is_the_first_paragraph first rest :
  find_at ("User request:" +:+ nl) (first +:+ (nl2 +:+ rest)) = None -> (forall d, d ∈ suffixes first -> starts_with nl2 (d +:+ (nl2 +:+ rest)) = true -> d = estr) ->
  _request (first +:+ (nl2 +:+ rest)) = or_task (ustrip first).
Proof.
  intros Hn Hd. unfold _request, request_group. rewrite Hn. cbn [fmap option_fmap option_map]. do 2 f_equal.
  clear Hn. induction first as [|a first IH].
  - rewrite sapp_nil. by destruct rest.
  - rewrite sapp_cons. cbn [until_any existsb]. destruct (starts_with nl2 (String a (first +:+ (nl2 +:+ rest)))) eqn:E.
    { exfalso. specialize (Hd (String a first)). assert (String a first = estr); [|done]. apply Hd; [by left | exact E]. }
    cbn [orb]. f_equal. apply IH. intros d Hin. apply Hd. by right.
Qed.

Definition developer_record : AgentRecord := mkAgent "developer" "http://dev" [("description", JStr "builds")].
Definition qa_record : AgentRecord := mkAgent "product-manager" "http://pm" [("description", JStr "plans")].

(** Planning the second message of a conversation. *)
Example second_request_is_planned_as_the_first `{!Env} :
  _request (str_join nl2 (user_texts
    [MsgUser "write the report"; MsgAssistant "done"; MsgUser "fix the typo";
     MsgUser (build_planner_user_message (build_planner_capabilities [developer_record]) None)])) = "write the report".
Proof. by vm_compute. Qed.

(** What is passed on of a question runs to the end of the prompt. *)
Example question_runs_to_the_end `{!Env} :
  match (_make_assistance_decision (build_assistance_decision_user "developer" "which port?" [qa_record])).2 with
  | JObj kvs => dget "target_agent" kvs = Some (JStr "product-manager") /\
      exists t, dget "instruction" kvs = Some (JStr ("请补充信息：which port?" +:+ nl2 +:+ "The requester and agents already involved in this help chain" +:+ t))
  | _ => False
  end.
Proof. split; [by vm_compute|]. eexists. by vm_compute. Qed.
