(* ===== verification/Runner.v ===== *)
(** * The scheduler (orchestration/execution/runner.py)

    [run_plan] is a loop: it retries, spawns settlements, dispatches a wave of
    ready nodes, and sleeps until a task ends or somebody wakes it. The tasks run
    beside it and beside inbound messages: [step] is one of them acting. A task is
    one step here, from its dispatch to its end; what else happens meanwhile is
    ordered before or after it. *)
From S2P Require Import Prelude PyStr Dict Json State StateFacts Transitions StateJson World Tool Events Evolution.
From S2P Require Import Prompts Helpers Hitl Dag Engine Llm Planner Patch Tools ToolFacts RemoteCaller.
From S2P Require Import NodeExec NodeFacts Settlement PlanFlow Rewind History Planning MessageFlow.
From S2P Require Import MessageFacts.
Local Open Scope string_scope.
Local Open Scope list_scope.

Section runner.
Context `{!Env, !Remote, !Llm, !History, !Sdk}.
Context (poll_budget : nat) (validate_response : json -> option (string * answer)).

(** ** One iteration *)

(** Failed nodes with attempts left become pending. *)
Definition retry_failed : M unit :=
  s ← get_state;
  mapM_ (fun n => when (can_retry n (max_node_attempts config))
    (transition (n_id n) NodeStatus.PENDING false [] [] ;;; update_node (n_id n) (set_error None))%choir) (failed_nodes s).

(** True when the node has an unsettled helper (including a blocked one). *)
Definition _has_active_helper (s : OrchestrationState) (node_id : string) : bool :=
  existsb (fun n => n_derived n && bool_decide (n_assist_requested_by n = Some node_id) &&
    status_in (n_status n) (ACTIVE_NODE_STATUSES ++ PENDING_NODE_STATUSES ++ [NodeStatus.INPUT_REQUIRED])) (dvals (nodes s)).

(** The nodes a settlement is spawned for, [settling] being those that have one. *)
Definition _spawn_settlements (settling : list string) (s : OrchestrationState) : list string :=
  n_id <$> filterb (fun node =>
    negb (bool_decide (n_id node ∈ settling)) &&
    negb (match pending_intervention_for s (n_id node) with Some _ => true | None => false end) &&
    negb (_has_active_helper s (n_id node))) (input_required_nodes s).

Definition mode_of (n : NodeState) : exec_mode :=
  match n_status n with NodeStatus.RECOVER => Recover | NodeStatus.READY => Continue | _ => Dispatch end.

(** [slots]: how many tasks may still start. *)
Definition slots (running : nat) : nat := Z.to_nat (Z.max 0 (max_parallel config - Z.of_nat running)).

Definition choose_batch (running : nat) (s : OrchestrationState) : list (string * exec_mode) :=
  (fun n => (n_id n, mode_of n)) <$> take (slots running) (ready_nodes s).

Definition submit (t : string * exec_mode) : M unit :=
  match t.2 with Recover => mret tt | _ => transition t.1 NodeStatus.SUBMITTED false [] [] end.

(** The first dispatch of a planned node is announced as a call of its agent. *)
Definition announce_one (t : string * exec_mode) : M unit :=
  match t.2 with
  | Dispatch =>
      node ← node_at t.1;
      if n_derived node || negb (n_attempt node =? 0)%Z then mret tt
      else emit_function_call call_subagent_func
             (CallSubagentArgs "assistant" (n_agent_name node) (str_or (n_input_text node) (n_name node)))
             (mkResult true None None) estr TaskState.WORKING
  | _ => mret tt
  end.
Definition _announce_dispatch (batch : list (string * exec_mode)) : M unit := mapM_ announce_one batch.

(** [runtime.runner = None]. *)
Definition runner_done : M unit := modify (fun w => set_flags (w_session w) false (w_wake w) w).

Definition wake_clear : M unit := modify (fun w => set_flags (w_session w) (w_runner w) false w).

(** An exception of the loop itself: a session that is still there is saved and its task
    reported as failed, if that succeeds; the session is forgotten. *)
Definition runner_failed : M unit :=
  (w ← get_world;
   when (w_session w)
     (catch (persist ;;; emit_event TaskState.FAILED [] None) (fun e => if is_exception e then Some (mret tt) else None) ;;; evict_session) ;;;
   runner_done)%choir.

(** The part of the loop that holds the lock: the tasks to start. *)
Definition dispatch_phase (running : nat) (settling : list string) : M (list (string * exec_mode) * list string) :=
  (wake_clear ;;;
   retry_failed ;;;
   s ← get_state;
   let settles := _spawn_settlements settling s in
   let batch := choose_batch running s in
   mapM_ submit batch ;;;
   _announce_dispatch batch ;;;
   when (match batch with [] => false | _ => true end) persist ;;;
   mret (batch, settles))%choir.

(** ** The end of a task *)

(** A node task that raised fails its node, if it still can. *)
Definition node_raised (k : string) (e : exn) : M unit :=
  (n ← node_at k;
   when (can_transition n NodeStatus.FAILED) (transition k NodeStatus.FAILED false [] []) ;;;
   update_node k (set_error (Some (exn_str e))) ;;;
   emit_state_delta [(k, JObj [("status", JStr "failed"); ("error", JStr (exn_str e))])] [] [] TaskState.WORKING)%choir.

Definition node_task (k : string) (mode : exec_mode) : M unit :=
  catch (execute_node poll_budget k mode) (fun e => Some (node_raised k e)).

(** A settlement that raised is only logged. *)
Definition settle_task (k : string) : M unit :=
  catch (_ ← settle_node_input k; mret tt) (fun _ => Some (mret tt)).

(** ** The scheduler and its tasks *)

Inductive phase := Top | Waiting | Finished.

Record Scheduler := mkScheduler {
  r_world : World;
  (** [runtime.node_tasks] and [runtime.settle_tasks] *)
  r_nodes : list (string * exec_mode);
  r_settles : list string;
  r_phase : phase
}.

(** [ChoirWorksAgentExecutor.shutdown]: every session's scheduler and tasks are
    cancelled, none is saved, and the sessions are forgotten. *)
Definition shutdown_session (s : Scheduler) : Scheduler :=
  mkScheduler (set_flags false false (w_wake (r_world s)) (r_world s)) [] [] Finished.
Definition shutdown (sessions : list Scheduler) : list Scheduler := shutdown_session <$> sessions.

Inductive step : Scheduler -> Scheduler -> Prop :=
(** An iteration that leaves somebody to wait for *)
| step_dispatch w w' ns ss batch new :
    dispatch_phase (length ns) ss w = (w', Ok (batch, new)) -> ns ++ batch <> [] \/ ss ++ new <> [] ->
    step (mkScheduler w ns ss Top) (mkScheduler w' (ns ++ batch) (ss ++ new) Waiting)
(** An iteration with nothing to wait for: ask the plan flow *)
| step_plan w w1 w' o :
    dispatch_phase 0 [] w = (w1, Ok ([], [])) -> plan_flow_run 0 w1 = (w', Ok o) ->
    step (mkScheduler w [] [] Top)
      (if bool_decide (o = CONTINUE) then mkScheduler w' [] [] Top else mkScheduler (fst (runner_done w')) [] [] Finished)
(** A node task runs to its end *)
| step_node w w' ns1 ns2 ss k mode ph :
    ph <> Finished -> node_task k mode w = (w', Ok tt) ->
    step (mkScheduler w (ns1 ++ (k, mode) :: ns2) ss ph) (mkScheduler w' (ns1 ++ ns2) ss Top)
(** A settlement runs to its end *)
| step_settle w w' ns ss1 ss2 k ph :
    ph <> Finished -> settle_task k w = (w', Ok tt) ->
    step (mkScheduler w ns (ss1 ++ k :: ss2) ph) (mkScheduler w' ns (ss1 ++ ss2) Top)
(** The loop fails, in an iteration or in the plan flow; the tasks are cancelled *)
| step_crash w w1 w' ns ss e u :
    dispatch_phase (length ns) ss w = (w1, Err e) -> is_exception e = true -> runner_failed w1 = (w', Ok u) ->
    step (mkScheduler w ns ss Top) (mkScheduler w' [] [] Finished)
| step_plan_crash w w1 w2 w' e u :
    dispatch_phase 0 [] w = (w1, Ok ([], [])) -> plan_flow_run 0 w1 = (w2, Err e) -> is_exception e = true -> runner_failed w2 = (w', Ok u) ->
    step (mkScheduler w [] [] Top) (mkScheduler w' [] [] Finished)
(** The scheduler is cancelled, and its tasks with it: those in flight end here *)
| step_cancel w ns ss ph :
    ph <> Finished -> step (mkScheduler w ns ss ph) (mkScheduler (fst (runner_done w)) [] [] Finished)
(** The process shuts down *)
| step_shutdown w ns ss ph :
    step (mkScheduler w ns ss ph) (shutdown_session (mkScheduler w ns ss ph))
(** Somebody woke the scheduler *)
| step_wake w ns ss :
    w_wake w = true -> step (mkScheduler w ns ss Waiting) (mkScheduler (fst (wake_clear w)) ns ss Top)
(** An inbound message *)
| step_message w w' ns ss ph req r :
    message_flow_run validate_response req w = (w', r) ->
    step (mkScheduler w ns ss ph) (mkScheduler w' ns ss ph).

(** Starting the scheduler (start_runner); any number of steps later. *)
Definition started (w : World) : Scheduler := mkScheduler w [] [] Top.
Definition reachable (w : World) (s : Scheduler) : Prop := rtc step (started w) s.

(** ** What the steps keep *)

Context (R : relation World).

Section evolution.
Context `{!Evolution R}.
#[export] Instance keeps_retry : Keeps R retry_failed.
Proof. unfold retry_failed. keeps. Qed.
#[export] Instance keeps_submit t : Keeps R (submit t).
Proof. unfold submit. keeps. Qed.
#[export] Instance keeps_announce_one t : Keeps R (announce_one t).
Proof. unfold announce_one. keeps. Qed.
#[export] Instance keeps_wake_clear : Keeps R wake_clear.
Proof. apply (keeps_flags R w_session w_runner (fun _ => false)). Qed.
#[export] Instance keeps_runner_done : Keeps R runner_done.
Proof. apply (keeps_flags R w_session (fun _ => false) w_wake). Qed.
#[export] Instance keeps_runner_failed : Keeps R runner_failed.
Proof. unfold runner_failed. keeps. Qed.
#[export] Instance keeps_dispatch n l : Keeps R (dispatch_phase n l).
Proof. unfold dispatch_phase, _announce_dispatch. keeps. Qed.
#[export] Instance keeps_node_raised k e : Keeps R (node_raised k e).
Proof. unfold node_raised. keeps. Qed.
#[export] Instance keeps_node_task k m : Keeps R (node_task k m).
Proof. unfold node_task. keeps. Qed.
#[export] Instance keeps_settle_task k : Keeps R (settle_task k).
Proof. unfold settle_task. keeps. Qed.
End evolution.

Lemma step_keeps `{!PlanEvolution R} a b : step a b -> R (r_world a) (r_world b).
Proof.
  assert (forall A (m : M A) w w' r, Keeps R m -> m w = (w', r) -> R w w') as Hk.
  { intros A m w w' r Hm E. specialize (Hm w). by rewrite E in Hm. }
  destruct 1; cbn.
  - eapply Hk; [|eassumption]. apply _.
  - assert (R w w') as Hw by (etrans; (eapply Hk; [|eassumption]); apply _).
    case_bool_decide; [done|]. etrans; [exact Hw|]. apply (keeps (R:=R) (m:=runner_done)).
  - eapply Hk; [|eassumption]. apply _.
  - eapply Hk; [|eassumption]. apply _.
  - etrans; (eapply Hk; [|eassumption]); apply _.
  - etrans; [|eapply Hk; [|eassumption]; apply _]. etrans; (eapply Hk; [|eassumption]); apply _.
  - apply (keeps (R:=R) (m:=runner_done)).
  - apply (keeps (R:=R) (m:=modify (fun w => set_flags false false (w_wake w) w))).
  - apply (keeps (R:=R) (m:=wake_clear)).
  - eapply Hk; [|eassumption]. apply _.
Qed.
End runner.
