(* ===== verification/RunnerFacts.v ===== *)
(** * Facts about the scheduler *)
From S2P Require Import Prelude PyStr Dict Json State StateFacts Transitions StateJson World Tool Events Evolution.
From S2P Require Import Prompts Helpers Hitl Dag Engine Llm Planner Patch Tools ToolFacts RemoteCaller.
From S2P Require Import NodeExec NodeFacts Settlement PlanFlow Rewind History Planning MessageFlow.
From S2P Require Import Samples MessageFacts Runner.
Local Open Scope string_scope.
Local Open Scope list_scope.

Section facts.
Context `{!Env, !Remote, !Llm, !History, !Sdk}.
Context (poll_budget : nat) (validate_response : json -> option (string * answer)).

Lemma slots_bound running : running <= Z.to_nat (Z.max 0 (max_parallel config)) ->
  running + slots running <= Z.to_nat (Z.max 0 (max_parallel config)).
Proof. unfold slots. lia. Qed.

(** What an iteration decides to start. *)
Lemma dispatch_run running settling w :
  wp (dispatch_phase running settling) w (fun w' r =>
    match r with
    | Ok (batch, new) => exists w1, lives w w1 /\ lives w1 w' /\
        batch = choose_batch running (w_state w1) /\ new = _spawn_settlements settling (w_state w1)
    | Err _ => True
    end).
Proof.
  unfold dispatch_phase.
  apply (wp_keeps lives); [keeps | | done]. intros w1 u1 L1.
  apply (wp_keeps lives); [keeps | | done]. intros w2 u2 L2.
  apply wp_get_state. set (batch := choose_batch running (w_state w2)).
  apply (wp_keeps lives); [keeps | | done]. intros w3 u3 L3.
  apply (wp_keeps lives); [unfold _announce_dispatch; keeps | | done]. intros w4 u4 L4.
  apply (wp_keeps lives); [keeps | | done]. intros w5 u5 L5.
  apply wp_ret. exists w2. split; [by etrans|]. split; [etrans; [exact L3|]; by etrans | done].
Qed.

Lemma choose_batch_length running s : length (choose_batch running s) <= slots running.
Proof. unfold choose_batch. rewrite length_fmap, length_take. lia. Qed.

(** The number of tasks and the session invariant, step by step. *)
Definition bounded (s : Scheduler) : Prop := length (r_nodes s) <= Z.to_nat (Z.max 0 (max_parallel config)).

Lemma step_bounded a b : step poll_budget validate_response a b -> bounded a -> bounded b.
Proof.
  destruct 1 as [w w' ns ss batch new E _|w w1 w' o _ _|w w' ns1 ns2 ss k mode ph _ _|w w' ns ss1 ss2 k ph _ _|
    w w1 w' ns ss e u _ _ _|w w1 w2 w' e u _ _ _ _|w ns ss ph _|w ns ss ph|w ns ss _|w w' ns ss ph req r _]; unfold bounded; cbn; intros Hb; try done; try lia.
  - pose proof (dispatch_run (length ns) ss w) as Hwp. unfold wp in Hwp. rewrite E in Hwp.
    destruct Hwp as (w1 & _ & _ & -> & _). rewrite length_app.
    pose proof (choose_batch_length (length ns) (w_state w1)). pose proof (slots_bound (length ns) Hb). lia.
  - case_bool_decide; cbn; lia.
  - rewrite length_app in *. cbn in Hb. lia.
Qed.

(** C5: The scheduler keeps its bounds under every interleaving. Whatever tasks
    end, messages arrive and wake-ups happen in whatever order, at most
    [max_parallel] node tasks run at a time, the session keeps its invariant, and
    no published event is taken back. *)
Theorem scheduler_invariant w s :
  session_inv (w_state w) -> reachable poll_budget validate_response w s ->
  length (r_nodes s) <= Z.to_nat (Z.max 0 (max_parallel config)) /\
  session_inv (w_state (r_world s)) /\ w_queue w `prefix_of` w_queue (r_world s).
Proof.
  intros Hw Hr.
  assert (forall a b, rtc (step poll_budget validate_response) a b ->
    bounded a /\ session_inv (w_state (r_world a)) /\ w_queue w `prefix_of` w_queue (r_world a) ->
    bounded b /\ session_inv (w_state (r_world b)) /\ w_queue w `prefix_of` w_queue (r_world b)) as Hinv.
  { induction 1 as [a|a b c Hstep _ IH]; [done|]. intros (Hb & Hi & Hq). apply IH. split; [by eapply step_bounded|].
    split.
    - by apply (step_keeps poll_budget validate_response keeps_inv a b).
    - etrans; [exact Hq|]. by apply (step_keeps poll_budget validate_response log_grows a b). }
  apply (Hinv _ _ Hr). split; [unfold bounded; cbn; lia|]. by split.
Qed.

(** ** A wave *)

(** The update that the first matching element of [l] makes to the node [k]. *)
Definition update_at {A} (key : A -> string) (f : A -> NodeState -> NodeState) (l : list A) (k : string) (n : NodeState)
    : NodeState :=
  match find_first (fun x => bool_decide (key x = k)) l with Some x => f x n | None => n end.

(** Neither the nodes there are, and their order, nor the questions change. *)
Definition same_frame (s s' : OrchestrationState) : Prop :=
  dkeys (nodes s') = dkeys (nodes s) /\ interventions s' = interventions s.

#[export] Instance same_frame_preorder : PreOrder same_frame.
Proof. split; [by intros s|]. intros a b c [Ha Hb] [Ka Kb]. unfold same_frame. by rewrite Ka, Kb. Qed.

Lemma upd_node_frame k f s : same_frame s (upd_node k f s).
Proof. split; [apply dkeys_dupd | done]. Qed.

Lemma each_run {A} (act : A -> M unit) (key : A -> string) (f : A -> NodeState -> NodeState) (pre : A -> NodeState -> Prop) :
  (forall x w n, get_node (w_state w) (key x) = Some n -> pre x n -> exists w', act x w = (w', Ok tt) /\
    w_state w' = upd_node (key x) (f x) (w_state w)) ->
  forall l w, NoDup (key <$> l) -> (forall x, x ∈ l -> exists n, get_node (w_state w) (key x) = Some n /\ pre x n) ->
  exists w', mapM_ act l w = (w', Ok tt) /\ same_frame (w_state w) (w_state w') /\
    forall k, get_node (w_state w') k = update_at key f l k <$> get_node (w_state w) k.
Proof.
  intros Hact. induction l as [|x l IH]; intros w Hnd Hpre.
  { exists w. split; [done|]. split; [done|]. intros k. unfold update_at. cbn. by destruct (get_node _ k). }
  cbn in Hnd. apply NoDup_cons in Hnd as [Hx Hnd].
  destruct (Hpre x (list_elem_of_here _ _)) as (n & Hn & Hp). destruct (Hact x w n Hn Hp) as (w1 & E1 & S1).
  destruct (IH w1 Hnd) as (w2 & E2 & F2 & G2).
  { intros y Hy. destruct (Hpre y (list_elem_of_further _ _ _ Hy)) as (m & Hm & Hpm). exists m. split; [|done].
    rewrite S1, get_upd_node, decide_False; [done|]. intros E. apply Hx. rewrite <- E. by apply list_elem_of_fmap_2. }
  exists w2. split.
  - cbn. unfold mbind, M_bind. by rewrite E1.
  - split; [etrans; [|exact F2]; rewrite S1; apply upd_node_frame|].
    intros k. rewrite G2, S1, get_upd_node. unfold update_at. cbn. destruct (decide (k = key x)) as [->|Hne].
    + rewrite bool_decide_true by done. rewrite Hn. cbn. f_equal.
      assert (find_first (fun y => bool_decide (key y = key x)) l = None) as ->; [|done].
      apply find_first_none. intros y Hy. apply bool_decide_eq_false. intros E. apply Hx. rewrite <- E. by apply list_elem_of_fmap_2.
    + rewrite bool_decide_false by congruence. done.
Qed.

(** A failed node with attempts left, given back to the scheduler. *)
Definition retried (n : NodeState) : NodeState :=
  if can_retry n (max_node_attempts config) then set_error None (set_status NodeStatus.PENDING n) else n.

(** [n], submitted unless it is being recovered. *)
Definition submitted (t : string * exec_mode) (n : NodeState) : NodeState :=
  match t.2 with Recover => n | _ => set_status NodeStatus.SUBMITTED n end.

Lemma sublist_ids (p : NodeState -> bool) (d : list (string * NodeState)) :
  NoDup (dkeys d) -> (forall k n, (k, n) ∈ d -> n_id n = k) -> NoDup (n_id <$> filterb p (dvals d)).
Proof.
  intros Hnd Hid. eapply sublist_NoDup; [|apply fmap_sublist, filterb_sublist].
  enough (n_id <$> dvals d = dkeys d) as -> by done.
  clear Hnd. unfold dvals, dkeys. induction d as [|[k n] d IH]; [done|]. cbn.
  rewrite (Hid k n) by by left. f_equal. apply IH. intros k' n' Hin. apply Hid. by right.
Qed.

Lemma retry_run w : session_inv (w_state w) ->
  exists w', retry_failed w = (w', Ok tt) /\ session_inv (w_state w') /\ same_frame (w_state w) (w_state w') /\
    forall k, get_node (w_state w') k = retried <$> get_node (w_state w) k.
Proof.
  intros Hinv. pose proof (proj1 Hinv) as Hwf.
  destruct (each_run (fun n => when (can_retry n (max_node_attempts config))
      (transition (n_id n) NodeStatus.PENDING false [] [] ;;; update_node (n_id n) (set_error None))%choir)
    n_id (fun x n => if can_retry x (max_node_attempts config) then set_error None (set_status NodeStatus.PENDING n) else n)
    (fun x n => x = n)) with (l := failed_nodes (w_state w)) (w := w) as (w' & E & F & G).
  - intros x w0 n Hn ->. destruct (can_retry n (max_node_attempts config)) eqn:Er; cbn [when].
    + assert (can_transition n NodeStatus.PENDING = true) as Hc.
      { unfold can_retry in Er. apply andb_prop in Er as [Er _]. bool_prop. unfold can_transition. by rewrite Er. }
      destruct (transition_run w0 (n_id n) n NodeStatus.PENDING false [] [] Hn Hc) as (w1 & E1 & Hq1).
      exists (set_state (upd_node (n_id n) (set_error None) (w_state w1)) w1).
      split; [unfold mbind, M_bind; by rewrite E1|]. cbn [w_state set_state].
      rewrite (q_state _ _ Hq1). cbn [w_state set_state]. by rewrite upd_node_upd_node.
    + exists w0. split; [done|]. unfold upd_node, dupd, get_node in *. rewrite Hn.
      assert (forall d, dget (n_id n) d = Some n -> dset (n_id n) n d = d) as Hsame.
      { induction d as [|[k' n'] d IH]; cbn; [done|]. case_decide as Hk; [by intros [= ->]; subst|]. intros Hd. by rewrite IH. }
      rewrite Hsame by done. by destruct (w_state w0).
  - apply sublist_ids; [apply Hwf|]. intros k n. by apply (wf_nodes_id _ Hwf).
  - intros n Hn. exists n. split; [|done]. apply wf_elem_get; [done|]. by eapply elem_of_filterb.
  - exists w'. split; [exact E|]. split.
    + assert (retry_failed w = (w', Ok tt)) as Er by exact E.
      pose proof (keeps (R:=keeps_inv) (m:=retry_failed) w) as Hk. rewrite Er in Hk. by apply Hk.
    + split; [exact F|]. intros k. rewrite G. destruct (get_node (w_state w) k) as [n|] eqn:Hn; [|done]. cbn. f_equal. unfold update_at.
      pose proof (wf_get_id _ Hwf k n Hn) as Hid. destruct (find_first _ _) as [x|] eqn:Ef.
      * apply find_first_some in Ef as [Hx Hk]. bool_prop. apply elem_of_filterb in Hx as [Hx _].
        pose proof (wf_elem_get _ Hwf x Hx) as Hx'. rewrite Hk, Hn in Hx'. by injection Hx' as ->.
      * unfold retried, can_retry. case_bool_decide as Hs; [|done]. exfalso.
        rewrite find_first_none in Ef. specialize (Ef n). rewrite bool_decide_true in Ef by done.
        enough (true = false) by done. apply Ef. apply elem_of_filterb. split; [by eapply dget_dvals|]. by rewrite bool_decide_true.
Qed.

(** The batch: ready nodes of the plan, each once. *)
Lemma choose_batch_ready running s k m :
  wf_state s -> (k, m) ∈ choose_batch running s -> exists n, get_node s k = Some n /\ is_ready s n = true /\ m = mode_of n.
Proof.
  intros Hwf Hin. unfold choose_batch in Hin. apply list_elem_of_fmap in Hin as (n & [= -> ->] & Hn). exists n.
  assert (n ∈ ready_nodes s) as Hr by (eapply elem_of_sublist; [exact Hn | apply sublist_take]).
  apply elem_of_filterb in Hr as [Hn' Hr]. split; [by apply wf_elem_get | done].
Qed.

Lemma choose_batch_nodup running s : wf_state s -> NoDup (fst <$> choose_batch running s).
Proof.
  intros Hwf. unfold choose_batch. rewrite <- list_fmap_compose. cbn. eapply sublist_NoDup.
  2: { apply fmap_sublist, sublist_take. }
  apply (sublist_ids (is_ready s)); [apply Hwf|]. intros k n. by apply (wf_nodes_id _ Hwf).
Qed.

(** Submitting one node of the batch. *)
Lemma submit_run k m w n :
  get_node (w_state w) k = Some n -> status_in (n_status n) PENDING_NODE_STATUSES = true ->
  exists w', submit (k, m) w = (w', Ok tt) /\ w_state w' = upd_node k (submitted (k, m)) (w_state w).
Proof.
  intros Hn Hp. unfold submit, submitted. cbn [fst snd].
  assert (can_transition n NodeStatus.SUBMITTED = true) as Hc by (unfold can_transition; by destruct (n_status n)).
  destruct m.
  1, 2: destruct (transition_run w k n NodeStatus.SUBMITTED false [] [] Hn Hc) as (w3 & E3 & Hq3);
    exists w3; split; [exact E3 | exact (q_state _ _ Hq3)].
  exists w. split; [done|]. unfold upd_node, dupd. unfold get_node in Hn. rewrite Hn.
  assert (forall d, dget k d = Some n -> dset k n d = d) as Hsame.
  { induction d as [|[k' n'] d IH]; cbn; [done|]. case_decide as Hk; [by intros [= ->]; subst|]. intros Hd. by rewrite IH. }
  rewrite Hsame by done. by destruct (w_state w).
Qed.

(** What a node is after the batch has been submitted. *)
Lemma update_at_batch (l : list (string * exec_mode)) k m n :
  (k, m) ∈ l -> (forall m', (k, m') ∈ l -> m' = m) -> update_at fst submitted l k n = submitted (k, m) n.
Proof.
  intros Hin Huniq. unfold update_at. destruct (find_first _ _) as [[k' m']|] eqn:Ef.
  - apply find_first_some in Ef as [Hin' Hk]. bool_prop. cbn in Hk. subst k'. by rewrite (Huniq _ Hin').
  - rewrite find_first_none in Ef. specialize (Ef (k, m) Hin). by rewrite bool_decide_true in Ef.
Qed.

Lemma update_at_outside (l : list (string * exec_mode)) k n : k ∉ fst <$> l -> update_at fst submitted l k n = n.
Proof.
  intros Hk. unfold update_at. destruct (find_first _ _) as [[k' m']|] eqn:Ef; [|done].
  apply find_first_some in Ef as [Hin' Hk']. bool_prop. cbn in Hk'. subst k'. destruct Hk.
  by apply (list_elem_of_fmap_2 fst) in Hin'.
Qed.

(** What an iteration picks, from the state that the retries leave. *)
Lemma dispatch_picks running settling w w1 w2 w' batch new :
  retry_failed (fst (wake_clear w)) = (w1, Ok tt) -> mapM_ submit (choose_batch running (w_state w1)) w1 = (w2, Ok tt) ->
  dispatch_phase running settling w = (w', Ok (batch, new)) ->
  batch = choose_batch running (w_state w1) /\ new = _spawn_settlements settling (w_state w1) /\ w_state w' = w_state w2.
Proof.
  intros E1 E2 E. enough (wp (dispatch_phase running settling) w (fun w' r => match r with
    | Ok (b, n) => b = choose_batch running (w_state w1) /\ n = _spawn_settlements settling (w_state w1) /\ w_state w' = w_state w2
    | Err _ => True end)) as Hwp by (unfold wp in Hwp; by rewrite E in Hwp).
  unfold dispatch_phase. eapply wp_run; [reflexivity|]. eapply wp_run; [exact E1|]. apply wp_get_state.
  eapply wp_run; [exact E2|].
  apply (wp_keeps same_state); [unfold _announce_dispatch, announce_one; keeps | | done]. intros w3 u3 S3.
  apply (wp_keeps same_state); [keeps | | done]. intros w4 u4 S4. apply wp_ret. unfold same_state in *.
  split; [done|]. split; [done|]. congruence.
Qed.

(** A node that may start: it waits to run, and all it depends on is completed. *)
Definition may_start (s : OrchestrationState) (k : string) : Prop :=
  exists n, get_node s k = Some n /\ n_status n ∈ [NodeStatus.PENDING; NodeStatus.READY; NodeStatus.RECOVER] /\
    forall d, d ∈ n_deps n -> exists m, get_node s d = Some m /\ n_status m = NodeStatus.COMPLETED.

(** A node whose question nobody is working on: no settlement, no question asked of
    the user, and no helper node for it that is still to end. *)
Definition undecided (settling : list string) (s : OrchestrationState) (k : string) : Prop :=
  (exists n, get_node s k = Some n /\ n_status n = NodeStatus.INPUT_REQUIRED) /\ (k ∉ settling) /\
  (forall i iv, (i, iv) ∈ interventions s -> iv_node_id iv = k -> iv_status iv <> InterventionStatus.PENDING) /\
  (forall i h, get_node s i = Some h -> n_derived h = true -> n_assist_requested_by h = Some k ->
     n_status h ∈ [NodeStatus.COMPLETED; NodeStatus.FAILED; NodeStatus.CANCELED; NodeStatus.INVALIDATED]).

Lemma busy_or_ended st :
  bool_decide (st ∈ ACTIVE_NODE_STATUSES ++ PENDING_NODE_STATUSES ++ [NodeStatus.INPUT_REQUIRED]) =
  negb (bool_decide (st ∈ [NodeStatus.COMPLETED; NodeStatus.FAILED; NodeStatus.CANCELED; NodeStatus.INVALIDATED])).
Proof. by destruct st; vm_compute. Qed.

Lemma filter_keys (p : NodeState -> bool) s :
  wf_state s -> sublist (n_id <$> filterb p (dvals (nodes s))) (dkeys (nodes s)) /\
  forall k, k ∈ (n_id <$> filterb p (dvals (nodes s))) <-> exists n, get_node s k = Some n /\ p n = true.
Proof.
  intros Hwf. assert (n_id <$> dvals (nodes s) = dkeys (nodes s)) as Hids.
  { pose proof (wf_nodes_id _ Hwf) as Hid. revert Hid. unfold dvals, dkeys. generalize (nodes s). intros d Hid.
    induction d as [|[k n] d IH]; [done|]. cbn. rewrite (Hid k n) by by left. f_equal. apply IH. intros k' n' Hin. apply Hid. by right. }
  split; [rewrite <- Hids; apply fmap_sublist, filterb_sublist|]. intros k. split.
  - intros (n & -> & [Hn Hp]%elem_of_filterb)%list_elem_of_fmap. exists n. split; [by apply wf_elem_get | done].
  - intros (n & Hn & Hp). rewrite <- (wf_get_id _ Hwf k n Hn). apply list_elem_of_fmap_2, elem_of_filterb.
    split; [by eapply dget_dvals | done].
Qed.

Lemma is_ready_iff s n : is_ready s n = true <-> n_status n ∈ [NodeStatus.PENDING; NodeStatus.READY; NodeStatus.RECOVER] /\
  forall d, d ∈ n_deps n -> exists m, get_node s d = Some m /\ n_status m = NodeStatus.COMPLETED.
Proof.
  unfold is_ready, status_in, PENDING_NODE_STATUSES. rewrite andb_true_iff, bool_decide_eq_true, forallb_elem.
  assert (forall d, dep_completed s d = true <-> exists m, get_node s d = Some m /\ n_status m = NodeStatus.COMPLETED) as Hdc; [|by setoid_rewrite Hdc].
  intros d. unfold dep_completed, get_node. destruct (dget d (nodes s)) as [m|]; [rewrite bool_decide_eq_true|]; naive_solver.
Qed.

Lemma settlements_iff settling s :
  wf_state s -> sublist (_spawn_settlements settling s) (dkeys (nodes s)) /\
  forall k, k ∈ _spawn_settlements settling s <-> undecided settling s k.
Proof.
  intros Hwf. unfold _spawn_settlements, input_required_nodes. rewrite filterb_filterb.
  set (p := fun n : NodeState => _). destruct (filter_keys p s Hwf) as [Hsub Hel]. split; [exact Hsub|]. intros k. rewrite Hel.
  unfold undecided, p. split.
  - intros (n & Hn & Hb). rewrite (wf_get_id _ Hwf k n Hn) in Hb. apply andb_prop in Hb as [Hb Hs]. apply andb_prop in Hb as [Hb Hh].
    apply andb_prop in Hb as [Hset Hq]. unfold status_in, INPUT_NODE_STATUSES in Hs. bool_prop. apply list_elem_of_singleton in Hs.
    split; [by exists n|]. split; [done|]. split.
    + intros i iv Hiv Hk Hp. destruct (pending_intervention_for s k) eqn:Eq; [done|]. unfold pending_intervention_for in Eq.
      rewrite find_first_none in Eq. specialize (Eq iv). rewrite bool_decide_true in Eq by done. unfold iv_pending in Eq.
      rewrite Hp in Eq. assert (iv ∈ dvals (interventions s)) as Hv by (unfold dvals; apply list_elem_of_fmap; by exists (i, iv)).
      by specialize (Eq Hv).
    + intros i h Hi Hd Hr. destruct (bool_decide (n_status h ∈ ACTIVE_NODE_STATUSES ++ PENDING_NODE_STATUSES ++ [NodeStatus.INPUT_REQUIRED])) eqn:Ea.
      * assert (_has_active_helper s k = true) as Hx; [|by rewrite Hx in Hh]. unfold _has_active_helper. apply existsb_elem. exists h.
        split; [by eapply dget_dvals|]. unfold status_in. by rewrite Hd, Hr, Ea, bool_decide_true.
      * by rewrite busy_or_ended in Ea; bool_prop.
  - intros ((n & Hn & Hs) & Hset & Hq & Hh). exists n. split; [done|]. rewrite (wf_get_id _ Hwf k n Hn).
    rewrite (bool_decide_false (k ∈ settling)) by done. unfold status_in, INPUT_NODE_STATUSES. rewrite Hs, (bool_decide_true (_ ∈ _)) by by left.
    rewrite andb_true_r. cbn [negb andb]. apply andb_true_iff. split.
    + destruct (pending_intervention_for s k) as [iv|] eqn:Eq; [|done]. apply find_first_some in Eq as [Hin Hb]. bool_prop.
      unfold dvals in Hin. apply list_elem_of_fmap in Hin as ([i iv'] & -> & Hin). destruct (Hq i iv' Hin); [done|]. unfold iv_pending in *. by bool_prop.
    + apply negb_true_iff, not_true_iff_false. unfold _has_active_helper. intros (h & Hin & Hb)%existsb_elem. unfold status_in in Hb.
      rewrite busy_or_ended in Hb. bool_prop. pose proof (wf_elem_get _ Hwf h Hin) as Hg. specialize (Hh _ _ Hg). tauto.
Qed.

(** C1: What a wave starts. An iteration of the scheduler first gives failed nodes with
    attempts left another try: they become pending, without their error, and every other
    node stays as it was. Then, of the nodes that may start (they are pending, ready or to
    be recovered, and all they depend on is completed), in the order of the plan, it takes
    as many as there are slots free. A node to be recovered is followed up as it is; a
    ready one is continued and a pending one dispatched, and both are submitted; no other
    node changes. A settlement is started, in the order of the plan, for exactly the
    input-required nodes that have none, about which no question to the user is pending,
    and for which no helper node is still at work. *)
Theorem dispatch_phase_spec running settling w w' batch new :
  session_inv (w_state w) -> dispatch_phase running settling w = (w', Ok (batch, new)) ->
  exists s ready, same_frame (w_state w) s /\
    (forall k, get_node s k = (fun n =>
       if bool_decide (n_status n = NodeStatus.FAILED /\ (n_attempt n < max_node_attempts config)%Z)
       then set_error None (set_status NodeStatus.PENDING n) else n) <$> get_node (w_state w) k) /\
    sublist ready (dkeys (nodes s)) /\ (forall k, k ∈ ready <-> may_start s k) /\
    batch.*1 = take (Z.to_nat (max_parallel config - Z.of_nat running)) ready /\
    (forall k m, (k, m) ∈ batch -> exists n, get_node s k = Some n /\
       match n_status n with
       | NodeStatus.RECOVER => m = Recover /\ get_node (w_state w') k = Some n
       | NodeStatus.READY => m = Continue /\ get_node (w_state w') k = Some (set_status NodeStatus.SUBMITTED n)
       | _ => m = Dispatch /\ get_node (w_state w') k = Some (set_status NodeStatus.SUBMITTED n)
       end) /\
    (forall k, k ∉ batch.*1 -> get_node (w_state w') k = get_node s k) /\
    sublist new (dkeys (nodes s)) /\ (forall k, k ∈ new <-> undecided settling s k).
Proof.
  intros Hinv E. destruct (retry_run (fst (wake_clear w)) Hinv) as (w1 & E1 & Hinv1 & F1 & G1). pose proof (proj1 Hinv1) as Hwf1.
  set (s := w_state w1) in *. pose proof (fun k m => choose_batch_ready running s k m Hwf1) as Hb.
  destruct (each_run submit fst submitted (fun _ n => status_in (n_status n) PENDING_NODE_STATUSES = true))
    with (l := choose_batch running s) (w := w1) as (w2 & E2 & _ & G2).
  - intros [k m] w0 n. apply submit_run.
  - by apply choose_batch_nodup.
  - intros [k m] Hin. destruct (Hb k m Hin) as (n & Hn & Hr & _). exists n. split; [done|].
    unfold is_ready in Hr. by apply andb_prop in Hr as [? _].
  - destruct (dispatch_picks _ _ _ _ _ _ _ _ E1 E2 E) as (-> & -> & Hs). fold s.
    destruct (filter_keys (is_ready s) s Hwf1) as [R1 R2]. destruct (settlements_iff settling s Hwf1) as [S1 S2].
    exists s, (n_id <$> ready_nodes s). split; [exact F1|]. split.
    { intros k. rewrite G1. destruct (get_node (w_state w) k) as [n|] eqn:En; change (w_state (wake_clear w).1) with (w_state w); rewrite En; [|done].
      cbn. f_equal. unfold retried, can_retry. rewrite bool_decide_and.
      destruct (Z.ltb_spec (n_attempt n) (max_node_attempts config)) as [Hl|Hl].
      - by rewrite (bool_decide_true (_ < _)%Z).
      - by rewrite (bool_decide_false (_ < _)%Z) by lia. }
    split; [exact R1|]. split; [intros k; unfold ready_nodes; rewrite R2; unfold may_start; by setoid_rewrite is_ready_iff|].
    split. { unfold choose_batch. rewrite <- list_fmap_compose, fmap_take. f_equal. unfold slots. lia. }
    split; [|split; [|by split]].
    + intros k m Hin. destruct (Hb k m Hin) as (n & Hn & Hr & Hm). exists n. split; [done|].
      assert (get_node (w_state w') k = Some (submitted (k, m) n)) as ->.
      { rewrite Hs, G2. fold s. rewrite Hn. cbn. f_equal. apply update_at_batch; [done|].
        intros m' (n' & Hn' & _ & Hm')%Hb. by simplify_eq. }
      subst m. unfold mode_of, submitted. cbn [snd]. by destruct (n_status n).
    + intros k Hk. rewrite Hs, G2. fold s. destruct (get_node s k) as [n|]; [|done]. cbn. f_equal. by apply update_at_outside.
Qed.
End facts.

(** ** Recovering twice *)

(** After a restart: one node whose remote task is known, and one to dispatch. *)
Definition restarted : OrchestrationState :=
  set_nodes [("n1", set_a2a_task_id (Some "r1") (node_with NodeStatus.RECOVER "n1" "a" []).2);
             node_with NodeStatus.PENDING "n2" "nobody" []] empty_state.

(** A recovering node is dispatched again and again. Following a remote task
    does not move a node out of its recover status, which counts as ready, and the
    scheduler does not look at the tasks it has running: when any other task ends,
    the next iteration starts a second task for the same node, and both then
    interpret its result. *)
Theorem recover_dispatched_twice :
  exists s, reachable 3 no_response (world_of restarted) s /\
    r_nodes s = [("n1", Recover); ("n1", Recover); ("n2", Dispatch)].
Proof.
  destruct (dispatch_phase 0 [] (world_of restarted)) as [w1 r1] eqn:E1.
  assert (r1 = Ok ([("n1", Recover); ("n2", Dispatch)], [])) as -> by (apply (f_equal snd) in E1; by vm_compute in E1).
  destruct (node_task 3 "n2" Dispatch w1) as [w2 r2] eqn:E2.
  destruct (dispatch_phase 1 [] w2) as [w3 r3] eqn:E3.
  assert (r2 = Ok tt) as ->.
  { apply (f_equal fst) in E1. apply (f_equal snd) in E2. cbn in E1. subst w1. by vm_compute in E2. }
  assert (r3 = Ok ([("n1", Recover); ("n2", Dispatch)], [])) as ->.
  { apply (f_equal fst) in E1, E2. apply (f_equal snd) in E3. cbn in E1, E2. subst w1 w2. vm_compute in E3. done. }
  eexists. split; [|shelve].
  eapply rtc_l; [apply step_dispatch with (batch := [("n1", Recover); ("n2", Dispatch)]) (new := []); [exact E1 | by left]|].
  eapply rtc_l; [apply (step_node 3 no_response w1 w2 [("n1", Recover)] []); [done | exact E2]|].
  eapply rtc_l; [apply step_dispatch with (batch := [("n1", Recover); ("n2", Dispatch)]) (new := []); [exact E3 | by left]|].
  apply rtc_refl.
  Unshelve. done.
Qed.

(** ** Progress *)

Section progress.
Context `{!Env, !Remote, !Llm, !History, !Sdk}.
Context (poll_budget : nat) (validate_response : json -> option (string * answer)).

(** ** An iteration returns *)

Lemma announce_one_run t w n : get_node (w_state w) t.1 = Some n -> exists w', announce_one t w = (w', Ok tt) /\ w_state w' = w_state w.
Proof.
  intros Hn. enough (wp (announce_one t) w (fun w' r => r = Ok tt /\ w_state w' = w_state w)) as Hwp.
  { unfold wp in Hwp. destruct (announce_one t w) as [w' r]. cbn in Hwp. destruct Hwp as [-> Hs]. by exists w'. }
  unfold announce_one. destruct t.2; try by apply wp_ret. eapply wp_node_at; [exact Hn|]. case_match; [by apply wp_ret|].
  destruct (quiet_function_call call_subagent_func (CallSubagentArgs "assistant" (n_agent_name n) (str_or (n_input_text n) (n_name n)))
    (mkResult true None None) estr TaskState.WORKING w) as (w' & [] & E & Hq).
  eapply wp_exact; [exact E|]. split; [done | apply (q_state _ _ Hq)].
Qed.

Lemma announce_all_run l : forall w, (forall t, t ∈ l -> exists n, get_node (w_state w) t.1 = Some n) ->
  exists w', _announce_dispatch l w = (w', Ok tt) /\ w_state w' = w_state w.
Proof.
  unfold _announce_dispatch. induction l as [|t l IH]; intros w Hl; [by exists w|].
  destruct (Hl t (list_elem_of_here _ _)) as (n & Hn). destruct (announce_one_run t w n Hn) as (w1 & E1 & S1).
  destruct (IH w1) as (w2 & E2 & S2); [intros t' Ht'; rewrite S1; apply Hl; by right|].
  exists w2. split; [cbn; unfold mbind, M_bind; by rewrite E1 | congruence].
Qed.

Lemma dispatch_returns running settling w : session_inv (w_state w) ->
  exists w' batch new, dispatch_phase running settling w = (w', Ok (batch, new)).
Proof.
  intros Hinv. destruct (retry_run (fst (wake_clear w)) Hinv) as (w1 & E1 & Hinv1 & _ & _). pose proof (proj1 Hinv1) as Hwf.
  set (batch := choose_batch running (w_state w1)).
  destruct (each_run submit fst submitted (fun _ n => status_in (n_status n) PENDING_NODE_STATUSES = true)) with (l := batch) (w := w1)
    as (w2 & E2 & _ & G2).
  - intros [k m] w0 n. apply submit_run.
  - by apply choose_batch_nodup.
  - intros [k m] (n & Hn & Hr & _)%choose_batch_ready; [|done]. exists n. split; [done|]. unfold is_ready in Hr. by apply andb_prop in Hr as [? _].
  - destruct (announce_all_run batch w2) as (w3 & E3 & _).
    { intros [k m] (n & Hn & _)%choose_batch_ready; [|done]. cbn [fst]. rewrite G2, Hn. by eexists. }
    assert (Quiet (when (match batch with [] => false | _ => true end) persist)) as Hq by (destruct batch; cbn [when]; apply _).
    destruct (Hq w3) as (w4 & [] & E4 & _).
    exists w4, batch, (_spawn_settlements settling (w_state w1)).
    unfold dispatch_phase, mbind, M_bind, wake_clear, modify, get_state. unfold wake_clear, modify in E1. cbn [fst] in E1. rewrite E1.
    fold batch. by rewrite E2, E3, E4.
Qed.

(** An exception of the loop is dealt with. *)
Lemma runner_failed_returns w : exists w', runner_failed w = (w', Ok tt) /\ w_session w' = false.
Proof.
  unfold runner_failed, mbind, M_bind, get_world. destruct (w_session w) eqn:Es; cbn [when].
  - assert (Quiet (persist ;;; emit_event TaskState.FAILED [] None)%choir) as Hq by quiet. destruct (Hq w) as (w1 & [] & E1 & _).
    unfold catch. unfold mbind, M_bind in E1. rewrite E1. by eexists.
  - by eexists.
Qed.

(** ** Who the scheduler waits for *)

Definition waits_for_somebody (s : Scheduler) : Prop :=
  match r_phase s with
  | Waiting => r_nodes s <> [] \/ r_settles s <> []
  | Finished => r_nodes s = [] /\ r_settles s = []
  | Top => True
  end.

Lemma step_waits a b : step poll_budget validate_response a b -> waits_for_somebody a -> waits_for_somebody b.
Proof.
  destruct 1; unfold waits_for_somebody; cbn; intros Hw; try done. by case_bool_decide.
Qed.

Lemma reachable_waits w s : reachable poll_budget validate_response w s -> waits_for_somebody s.
Proof.
  intros Hr. unfold reachable in Hr. assert (waits_for_somebody (started w)) as Hs by done. revert Hs.
  induction Hr as [|a b c Hstep _ IH]; [done|]. intros Ha. apply IH. by eapply step_waits.
Qed.

Lemma reachable_inv w s : session_inv (w_state w) -> reachable poll_budget validate_response w s -> session_inv (w_state (r_world s)).
Proof.
  intros Hw Hr. unfold reachable in Hr. assert (session_inv (w_state (r_world (started w)))) as Hs by done. revert Hs.
  induction Hr as [|a b c Hstep _ IH]; [done|]. intros Ha. apply IH. by apply (step_keeps poll_budget validate_response keeps_inv a b).
Qed.

(** C22: The scheduler is never stuck and never waits for nobody. However tasks,
    messages, wake-ups and cancellations have interleaved: while it waits, some task
    is in flight; at the top of its loop the next iteration returns, and it goes on
    to wait for the tasks there are, or with none asks the plan flow and does what
    that says; an exception the plan flow raises ends it with the session forgotten;
    and when it has ended no task is left behind. *)
Theorem scheduler_progress w s :
  session_inv (w_state w) -> reachable poll_budget validate_response w s ->
  match r_phase s with
  | Waiting => r_nodes s <> [] \/ r_settles s <> []
  | Finished => r_nodes s = [] /\ r_settles s = []
  | Top => exists w1 batch new,
      dispatch_phase (length (r_nodes s)) (r_settles s) (r_world s) = (w1, Ok (batch, new)) /\
      if decide (r_nodes s ++ batch = [] /\ r_settles s ++ new = []) then
        match plan_flow_run 0 w1 with
        | (w2, Ok CONTINUE) => step poll_budget validate_response s (mkScheduler w2 [] [] Top)
        | (w2, Ok _) => step poll_budget validate_response s (mkScheduler (fst (runner_done w2)) [] [] Finished)
        | (_, Err e) => is_exception e = true ->
            exists w3, step poll_budget validate_response s (mkScheduler w3 [] [] Finished) /\ w_session w3 = false
        end
      else step poll_budget validate_response s (mkScheduler w1 (r_nodes s ++ batch) (r_settles s ++ new) Waiting)
  end.
Proof.
  intros Hw Hr. pose proof (reachable_waits _ _ Hr) as Hwait. pose proof (reachable_inv _ _ Hw Hr) as Hinv. clear Hr Hw.
  destruct s as [v ns ss ph]. unfold waits_for_somebody in Hwait. cbn [r_world r_nodes r_settles r_phase] in *. destruct ph; [|done..].
  destruct (dispatch_returns (length ns) ss v Hinv) as (w1 & batch & new & E). exists w1, batch, new. split; [exact E|].
  case_decide as Hnone; [|apply step_dispatch; [exact E|]; destruct (ns ++ batch); [right; intros E'; by apply Hnone | by left]].
  destruct Hnone as [[-> ->]%app_nil [-> ->]%app_nil]. destruct (plan_flow_run 0 w1) as [w2 [o|e]] eqn:Ep.
  - pose proof (step_plan poll_budget validate_response v w1 w2 o E Ep) as Hs. destruct o; exact Hs.
  - intros He. destruct (runner_failed_returns w2) as (w3 & E3 & Hs3). exists w3. split; [|done]. by eapply step_plan_crash.
Qed.
End progress.
