(* ===== verification/DagPlan.v ===== *)
(** * Plans of the workflow orchestrator (new_choirworks/orchestrator/plan.py)

    A plan is a list of nodes with dependencies; an instruction may refer to the
    outputs of other nodes. *)
From S2P Require Import Prelude PyStr Dict Json State StateFacts World Tool Dag Planner.
From Stdlib Require Import Ascii.
Local Open Scope string_scope.
Local Open Scope list_scope.

Record PlanNode := mkPlanNode {
  dn_id : string; dn_name : string; dn_agent_name : string; dn_instruction : string;
  dn_deps : list string; dn_assist_for : option string }.

Record DagPlan := mkDagPlan { dp_nodes : list PlanNode }.

Definition set_deps (deps : list string) (n : PlanNode) : PlanNode :=
  mkPlanNode (dn_id n) (dn_name n) (dn_agent_name n) (dn_instruction n) deps (dn_assist_for n).
Definition set_instruction (i : string) (n : PlanNode) : PlanNode :=
  mkPlanNode (dn_id n) (dn_name n) (dn_agent_name n) i (dn_deps n) (dn_assist_for n).
Definition set_assist_for (a : option string) (n : PlanNode) : PlanNode :=
  mkPlanNode (dn_id n) (dn_name n) (dn_agent_name n) (dn_instruction n) (dn_deps n) a.

(** ** Structure *)

(** What the checks look at. *)
Definition node_shape (n : PlanNode) : PlanNodeDraft := mkDraft (dn_id n) estr estr [] (dn_deps n).
Definition plan_shape (l : list PlanNode) : PlanDraft := mkPlanDraft (node_shape <$> l).

(** The statements of [validate_plan] are those of core/planner.py, line by line,
    on the ids and dependencies. *)
Definition validate_dag (plan : DagPlan) (max_nodes : Z) : res unit :=
  validate_plan (plan_shape (dp_nodes plan)) max_nodes.

(** The graph of a plan. *)
Definition dag_graph (l : list PlanNode) (k : string) : option (list string) :=
  dn_deps <$> find_first (fun n => bool_decide (dn_id n = k)) l.

(** ** References to outputs *)

Definition ref_open : string := "{{output:".
Definition ref_close : string := "}}".

(** [output_ref]. *)
Definition output_ref (node_id : string) : string := ref_open +:+ node_id +:+ ref_close.

(** The characters of [[A-Za-z0-9_.\-]]. *)
Definition is_ref (a : ascii) : bool := is_word a || Ascii.eqb a "." .

(** The longest run of them at the start, and the rest. *)
Fixpoint span_ref (s : string) : string * string :=
  match s with
  | String a s' => if is_ref a then let '(x, r) := span_ref s' in (String a x, r) else (estr, s)
  | estr => (estr, estr)
  end.

(** [REF_RE.match] at the start of [s]: the id and what follows. The closing
    braces are not among the characters of the id, so there is one way to match. *)
Definition match_ref (s : string) : option (string * string) :=
  match strip_prefix ref_open s with
  | None => None
  | Some s1 =>
      let '(id, s2) := span_ref s1 in
      if str_truthy id then (fun r => (id, r)) <$> strip_prefix ref_close s2 else None
  end.

(** [REF_RE.sub(lambda m: outputs.get(m.group(1), ""), s)]: from left to right,
    each match replaced, the replacement not read again. *)
Fixpoint resolve_fuel (fuel : nat) (outputs : list (string * string)) (s : string) : string :=
  match fuel with
  | O => estr
  | S fuel' =>
      match match_ref s with
      | Some (id, r) => default estr (dget id outputs) +:+ resolve_fuel fuel' outputs r
      | None => match s with String a s' => String a (resolve_fuel fuel' outputs s') | estr => estr end
      end
  end.
Definition resolve_instruction (instruction : string) (outputs : list (string * string)) : string :=
  resolve_fuel (S (String.length instruction)) outputs instruction.

(** ** Structure, proved *)

Lemma find_shape k l :
  find_first (fun n => bool_decide (pd_id n = k)) (node_shape <$> l) =
  node_shape <$> find_first (fun n => bool_decide (dn_id n = k)) l.
Proof. induction l as [|n l IH]; cbn; [done|]. by destruct (bool_decide _). Qed.

Lemma dag_graph_shape l k : draft_graph (plan_shape l) k = dag_graph l k.
Proof.
  unfold draft_graph, dag_graph, plan_shape. cbn [pd_nodes]. rewrite find_shape.
  by destruct (find_first _ l).
Qed.

Lemma validate_dag_ok plan max_nodes :
  validate_dag plan max_nodes = Ok tt <->
    (Z.of_nat (length (dp_nodes plan)) <= max_nodes)%Z /\
    NoDup (dn_id <$> dp_nodes plan) /\
    closed (dag_graph (dp_nodes plan)) /\ acyclic (dag_graph (dp_nodes plan)).
Proof.
  unfold validate_dag. rewrite validate_plan_ok. unfold plan_shape. cbn [pd_nodes]. rewrite length_fmap.
  rewrite <- list_fmap_compose. change (pd_id ∘ node_shape) with dn_id.
  assert (acyclic (draft_graph (mkPlanDraft (node_shape <$> dp_nodes plan))) <-> acyclic (dag_graph (dp_nodes plan))) as Ha.
  { split; apply acyclic_ext; intros k; [|symmetry]; apply dag_graph_shape. }
  rewrite Ha. unfold dag_graph at 2. split.
  - intros (Hl & Hnd & Hd & Hac). do 2 (split; [done|]). split; [|done]. intros k ds d Hk Hin.
    destruct (find_first _ _) as [n|] eqn:E in Hk; [|done]. injection Hk as <-. apply find_first_some in E as [Hn _].
    destruct (Hd (node_shape n) d) as [Hid _]; [by apply list_elem_of_fmap_2 | done |].
    apply list_elem_of_fmap in Hid as (m & -> & Hm).
    destruct (find_first (fun n => bool_decide (dn_id n = dn_id m)) (dp_nodes plan)) as [x|] eqn:E; [by eexists|].
    rewrite find_first_none in E. specialize (E m Hm). by rewrite bool_decide_true in E.
  - intros (Hl & Hnd & Hcl & Hac). do 2 (split; [done|]). split; [|done].
    intros n d (m & -> & Hm)%list_elem_of_fmap Hd. cbn in Hd.
    assert (dag_graph (dp_nodes plan) (dn_id m) = Some (dn_deps m)) as Hg.
    { rewrite <- dag_graph_shape. apply (draft_graph_node (plan_shape (dp_nodes plan)) (node_shape m)).
      - unfold plan_shape. cbn. by rewrite <- list_fmap_compose.
      - by apply list_elem_of_fmap_2. }
    pose proof (Hcl _ _ _ Hg Hd) as [ds Hds]. split.
    + unfold dag_graph in Hds. destruct (find_first _ _) as [x|] eqn:E; [|done].
      apply find_first_some in E as [Hx Hid]. bool_prop. subst d. by apply list_elem_of_fmap_2.
    + cbn. intros ->. destruct Hac as (rank & Hr). assert (rank (dn_id m) < rank (dn_id m)); [|lia].
      eapply Hr; [exact Hg | exact Hd | by exists ds].
Qed.

(** ** References, proved *)

Lemma span_ref_spec s id r :
  span_ref s = (id, r) -> s = id +:+ r /\ (match r with estr => True | String a _ => is_ref a = false end).
Proof.
  revert id r. induction s as [|a s IH]; intros id r; cbn.
  - intros [= <- <-]. done.
  - destruct (is_ref a) eqn:Ea.
    + destruct (span_ref s) as [x r'] eqn:E. intros [= <- <-]. destruct (IH _ _ eq_refl) as [-> Hr]. by rewrite sapp_cons.
    + intros [= <- <-]. by rewrite sapp_nil.
Qed.

Definition ref_chars (s : string) : bool := forallb is_ref (String.list_ascii_of_string s).

Lemma span_ref_app id r :
  ref_chars id = true -> (match r with estr => True | String a _ => is_ref a = false end) -> span_ref (id +:+ r) = (id, r).
Proof.
  unfold ref_chars. induction id as [|a id IH]; rewrite ?sapp_nil, ?sapp_cons; cbn.
  - intros _ Hr. destruct r as [|b r]; [done|]. cbn. by rewrite Hr.
  - intros [Ha Hid]%andb_prop Hr. by rewrite Ha, IH.
Qed.

(** A reference is matched where it stands. *)
Lemma match_ref_here id r : id <> estr -> ref_chars id = true -> match_ref (output_ref id +:+ r) = Some (id, r).
Proof.
  intros Hne Hid. unfold match_ref, output_ref. rewrite <- sapp_assoc.
  rewrite (proj2 (strip_prefix_Some ref_open _ _) eq_refl). rewrite <- sapp_assoc, span_ref_app by done.
  apply str_truthy_true in Hne. rewrite Hne. by rewrite (proj2 (strip_prefix_Some ref_close _ _) eq_refl).
Qed.

(** A match consumes an opening and a closing mark. *)
Lemma match_ref_shape s id r : match_ref s = Some (id, r) -> s = output_ref id +:+ r.
Proof.
  unfold match_ref, output_ref. destruct (strip_prefix ref_open s) as [s1|] eqn:E1; [|done].
  destruct (span_ref s1) as [x s2] eqn:E2. destruct (str_truthy x); [|done].
  destruct (strip_prefix ref_close s2) as [s3|] eqn:E3; [|done]. intros [= <- <-].
  apply strip_prefix_Some in E1, E3. apply span_ref_spec in E2 as [-> _]. rewrite E1, E3. by rewrite <- !sapp_assoc.
Qed.

Lemma resolve_fuel_enough outputs : forall n m s, String.length s < n -> String.length s < m ->
  resolve_fuel n outputs s = resolve_fuel m outputs s.
Proof.
  induction n as [|n IH]; intros m s Hn Hm; [lia|]. destruct m as [|m]; [lia|]. cbn [resolve_fuel].
  destruct (match_ref s) as [[id r]|] eqn:E.
  - f_equal. apply match_ref_shape in E. unfold output_ref in E. rewrite E, !slength_app in Hn, Hm. cbn in Hn, Hm.
    apply IH; lia.
  - destruct s as [|a s]; [done|]. f_equal. cbn in Hn, Hm. apply IH; lia.
Qed.

Lemma resolve_ref outputs id r :
  id <> estr -> ref_chars id = true ->
  resolve_instruction (output_ref id +:+ r) outputs = default estr (dget id outputs) +:+ resolve_instruction r outputs.
Proof.
  intros Hne Hid. unfold resolve_instruction at 1. cbn [resolve_fuel]. rewrite match_ref_here by done. f_equal.
  apply resolve_fuel_enough; [|lia]. unfold output_ref. rewrite !slength_app. cbn. lia.
Qed.

Lemma not_occurs_cons m a s : ~ occurs m (String a s) -> ~ occurs m s.
Proof. intros H Ho. apply H. apply (occurs_app_l m (String a estr)) in Ho. by rewrite sapp_cons, sapp_nil in Ho. Qed.

Lemma match_ref_opens s : strip_prefix ref_open s = None -> match_ref s = None.
Proof. unfold match_ref. by intros ->. Qed.

(** A text without the opening mark forms none with a mark that follows it,
    because no proper end of the mark begins another one. *)
Lemma plain_then_open t x :
  t <> estr -> ~ occurs ref_open t -> strip_prefix ref_open (t +:+ (ref_open +:+ x)) = None.
Proof.
  intros Hne Ho. destruct (strip_prefix ref_open _) as [r|] eqn:E; [|done]. exfalso.
  apply strip_prefix_Some in E. destruct (sapp_split _ _ _ _ E) as [[e He]|[e ->]].
  2: { apply Ho. exists estr, e. by rewrite sapp_nil. }
  assert (ref_open +:+ x = e +:+ r) as E2.
  { rewrite He in E at 2. rewrite <- sapp_assoc in E. clear -E. induction t as [|a t IH]; [exact E|].
    rewrite !sapp_cons in E. injection E as E. by apply IH. }
  assert (e ∈ suffixes ref_open) as Hs by (rewrite He; apply suffixes_app). clear E.
  cbn in Hs. repeat (apply elem_of_cons in Hs as [->|Hs]; [| ]); [..| by apply elem_of_nil in Hs];
    try (rewrite !sapp_cons in E2; discriminate).
  - destruct t as [|a t]; [done|]. apply (f_equal String.length) in He. rewrite slength_app in He. cbn in He. lia.
  - rewrite sapp_nil_r in He. apply Ho. exists estr, estr. by rewrite sapp_nil, sapp_nil_r, He.
Qed.

Lemma resolve_plain outputs s : ~ occurs ref_open s -> resolve_instruction s outputs = s.
Proof.
  unfold resolve_instruction. induction s as [|a s IH]; intros Ho; [done|].
  cbn [String.length]. cbn [resolve_fuel]. rewrite match_ref_opens.
  - f_equal. apply IH. by apply not_occurs_cons in Ho.
  - destruct (strip_prefix _ _) as [r|] eqn:E; [|done]. apply strip_prefix_Some in E. destruct Ho.
    exists estr, r. by rewrite sapp_nil.
Qed.

Lemma resolve_plain_ref outputs t id r :
  ~ occurs ref_open t -> id <> estr -> ref_chars id = true ->
  resolve_instruction (t +:+ (output_ref id +:+ r)) outputs =
    t +:+ (default estr (dget id outputs) +:+ resolve_instruction r outputs).
Proof.
  intros Ho Hne Hid. induction t as [|a t IH].
  - rewrite !sapp_nil. by apply resolve_ref.
  - rewrite !sapp_cons. rewrite <- IH by (by apply not_occurs_cons in Ho).
    unfold resolve_instruction at 1. cbn [resolve_fuel]. rewrite match_ref_opens; [done|].
    pose proof (plain_then_open (String a t) (id +:+ ref_close +:+ r)) as Hp.
    rewrite sapp_cons in Hp. unfold output_ref. rewrite <- !sapp_assoc. by apply Hp.
Qed.

(** A text as plain pieces, each followed by a reference, and a last piece. *)
Definition refs_text (l : list (string * string)) (t : string) : string :=
  foldr (fun p s => fst p +:+ (output_ref (snd p) +:+ s)) t l.

(** Resolving an instruction fills in every reference with the output of its node,
    or with nothing when there is none, and leaves the text around them as it was;
    an output that looks like a reference is not read again. *)
Theorem resolve_instruction_spec outputs l t :
  (forall p, p ∈ l -> ~ occurs ref_open (fst p) /\ snd p <> estr /\ ref_chars (snd p) = true) -> ~ occurs ref_open t ->
  resolve_instruction (refs_text l t) outputs =
    foldr (fun p s => fst p +:+ (default estr (dget (snd p) outputs) +:+ s)) t l.
Proof.
  intros Hl Ht. unfold refs_text. induction l as [|[u id] l IH]; cbn [foldr fst snd]; [by apply resolve_plain|].
  destruct (Hl (u, id)) as (Hu & Hne & Hid); [by left|]. cbn [fst snd] in *.
  rewrite resolve_plain_ref by done. rewrite IH; [done|]. intros p Hp. apply Hl. by right.
Qed.
