(* ===== verification/DagRuntime.v ===== *)
(** * The state of one orchestration (new_choirworks/orchestrator/runtime.py, catalog.py)

    A plan, the status and output of every node, the tasks in flight and the queue
    of completions to be judged. Replanning is a diff by id; an assist extends the
    plan in place. *)
From S2P Require Import Prelude PyStr Dict Json DagPlan.
Local Open Scope string_scope.
Local Open Scope list_scope.

Definition MAX_ASSIST_DEPTH : Z := 3.
Definition MAX_PLAN_NODES : Z := 20.

Module DagStatus.
Inductive dag_status := PENDING | RUNNING | WAITING_ASSIST | COMPLETED | FAILED | CANCELLED.

#[export] Instance dag_status_eq_dec : EqDecision dag_status.
Proof. solve_decision. Defined.

Definition dag_status_value (s : dag_status) : string :=
  match s with
  | PENDING => "pending" | RUNNING => "running" | WAITING_ASSIST => "waiting_assist"
  | COMPLETED => "completed" | FAILED => "failed" | CANCELLED => "cancelled"
  end.
End DagStatus.
Export (hints) DagStatus.
Abbreviation dag_status := DagStatus.dag_status.

Record AgentInfo := mkAgentInfo { ai_name : string; ai_url : string; ai_description : string }.

Record CompletionRecord := mkRecord { cr_node_id : string; cr_output : string; cr_error : option string }.
Definition cr_ok (r : CompletionRecord) : bool := match cr_error r with None => true | Some _ => false end.

Record DagRuntime := mkRuntime {
  rt_agents : list (string * AgentInfo);
  rt_user_task : string;
  rt_plan : list PlanNode;
  rt_status : list (string * dag_status);
  (** the registry of outputs: entries are only added or replaced *)
  rt_outputs : list (string * string);
  (** the ids with a task in flight, in the order of the dict *)
  rt_running : list string;
  rt_completions : list CompletionRecord;
  rt_done_requested : bool;
  rt_assist_seq : Z;
  rt_assist_depth : list (string * Z)
}.

Definition new_runtime (agents : list (string * AgentInfo)) (user_task : string) : DagRuntime :=
  mkRuntime agents user_task [] [] [] [] [] false 0 [].

Definition set_plan (l : list PlanNode) (rt : DagRuntime) : DagRuntime :=
  mkRuntime (rt_agents rt) (rt_user_task rt) l (rt_status rt) (rt_outputs rt) (rt_running rt) (rt_completions rt)
    (rt_done_requested rt) (rt_assist_seq rt) (rt_assist_depth rt).
Definition set_node_status (k : string) (s : dag_status) (rt : DagRuntime) : DagRuntime :=
  mkRuntime (rt_agents rt) (rt_user_task rt) (rt_plan rt) (dset k s (rt_status rt)) (rt_outputs rt) (rt_running rt)
    (rt_completions rt) (rt_done_requested rt) (rt_assist_seq rt) (rt_assist_depth rt).
Definition set_node_output (k o : string) (rt : DagRuntime) : DagRuntime :=
  mkRuntime (rt_agents rt) (rt_user_task rt) (rt_plan rt) (rt_status rt) (dset k o (rt_outputs rt)) (rt_running rt)
    (rt_completions rt) (rt_done_requested rt) (rt_assist_seq rt) (rt_assist_depth rt).
Definition set_running (l : list string) (rt : DagRuntime) : DagRuntime :=
  mkRuntime (rt_agents rt) (rt_user_task rt) (rt_plan rt) (rt_status rt) (rt_outputs rt) l
    (rt_completions rt) (rt_done_requested rt) (rt_assist_seq rt) (rt_assist_depth rt).
Definition set_completions (l : list CompletionRecord) (rt : DagRuntime) : DagRuntime :=
  mkRuntime (rt_agents rt) (rt_user_task rt) (rt_plan rt) (rt_status rt) (rt_outputs rt) (rt_running rt)
    l (rt_done_requested rt) (rt_assist_seq rt) (rt_assist_depth rt).
Definition set_done (b : bool) (rt : DagRuntime) : DagRuntime :=
  mkRuntime (rt_agents rt) (rt_user_task rt) (rt_plan rt) (rt_status rt) (rt_outputs rt) (rt_running rt)
    (rt_completions rt) b (rt_assist_seq rt) (rt_assist_depth rt).
Definition set_assists (seq : Z) (depth : list (string * Z)) (rt : DagRuntime) : DagRuntime :=
  mkRuntime (rt_agents rt) (rt_user_task rt) (rt_plan rt) (rt_status rt) (rt_outputs rt) (rt_running rt)
    (rt_completions rt) (rt_done_requested rt) seq depth.

Definition status_of (rt : DagRuntime) (k : string) : option dag_status := dget k (rt_status rt).

(** ** Plan *)

Definition plan_node_of (l : list PlanNode) (k : string) : option PlanNode :=
  find_first (fun n => bool_decide (dn_id n = k)) l.

Definition get_plan_node (rt : DagRuntime) (k : string) : res PlanNode :=
  match plan_node_of (rt_plan rt) k with
  | Some n => Ok n
  | None => Err (KeyError ("node " +:+ k +:+ " not found in plan"))
  end.

Definition in_plan (rt : DagRuntime) (k : string) : bool := existsb (fun n => bool_decide (dn_id n = k)) (rt_plan rt).

Definition init_plan (plan : DagPlan) (rt : DagRuntime) : res DagRuntime :=
  _ ← validate_dag plan MAX_PLAN_NODES;
  Ok (foldl (fun rt n => set_node_status (dn_id n) DagStatus.PENDING rt) (set_plan (dp_nodes plan) rt) (dp_nodes plan)).

(** [for dep in deps: if dep not in merged and (dep in new or dep in outputs): merged.append(dep)]. *)
Definition merge_deps (reachable : string -> bool) (deps : list string) : list string :=
  foldl (fun merged dep => if bool_decide (dep ∉ merged) && reachable dep then merged ++ [dep] else merged) [] deps.

(** A kept node: the planner's version, with the assist wiring of the old one. *)
Definition keep_node (rt : DagRuntime) (new_ids : list string) (old node : PlanNode) : PlanNode :=
  let node := match dn_assist_for old, dn_assist_for node with
              | Some a, None => set_assist_for (Some a) node
              | _, _ => node
              end in
  if bool_decide (status_of rt (dn_id node) = Some DagStatus.WAITING_ASSIST) then
    set_deps (merge_deps (fun dep => bool_decide (dep ∈ new_ids) || dmem dep (rt_outputs rt)) (dn_deps node ++ dn_deps old)) node
  else node.

(** One node of the new plan: its final form, and its status. *)
Definition diff_node (rt : DagRuntime) (new_ids : list string) (node : PlanNode) : PlanNode :=
  match plan_node_of (rt_plan rt) (dn_id node) with
  | Some old => keep_node rt new_ids old node
  | None => node
  end.
Definition diff_status (rt : DagRuntime) (st : list (string * dag_status)) (node : PlanNode) : list (string * dag_status) :=
  match plan_node_of (rt_plan rt) (dn_id node) with
  | Some _ => st
  | None =>
      match dget (dn_id node) st with
      | None | Some DagStatus.PENDING | Some DagStatus.CANCELLED => dset (dn_id node) DagStatus.PENDING st
      | _ => st
      end
  end.

(** The new plan replaces the old one, node by node; an empty plan asks to finish. *)
Definition apply_plan (plan : DagPlan) (rt : DagRuntime) : res DagRuntime :=
  _ ← validate_dag plan MAX_PLAN_NODES;
  let nodes := dp_nodes plan in
  let finish := match nodes with [] => true | _ => false end in
  Ok (mkRuntime (rt_agents rt) (rt_user_task rt) (diff_node rt (dn_id <$> nodes) <$> nodes)
        (foldl (diff_status rt) (rt_status rt) nodes) (rt_outputs rt) (rt_running rt)
        (if finish then [] else rt_completions rt) finish (rt_assist_seq rt) (rt_assist_depth rt)).

(** ** Scheduling *)

Definition can_start (s : option dag_status) : bool :=
  match s with Some DagStatus.PENDING | Some DagStatus.WAITING_ASSIST => true | _ => false end.

Definition node_ready (rt : DagRuntime) (n : PlanNode) : bool :=
  can_start (status_of rt (dn_id n)) && forallb (fun dep => dmem dep (rt_outputs rt)) (dn_deps n).
Definition dispatchable (rt : DagRuntime) : list string := dn_id <$> filterb (node_ready rt) (rt_plan rt).

Definition has_work (rt : DagRuntime) : bool :=
  match rt_running rt with
  | _ :: _ => true
  | [] => existsb (fun n => can_start (status_of rt (dn_id n))) (rt_plan rt)
  end.

(** ** Completions *)

Definition _judgable (rt : DagRuntime) (k : string) : bool := negb (rt_done_requested rt) && in_plan rt k.

Definition push_record (r : CompletionRecord) (rt : DagRuntime) : DagRuntime :=
  if _judgable rt (cr_node_id r) then set_completions (rt_completions rt ++ [r]) rt else rt.

Definition record_completion (k output : string) (rt : DagRuntime) : DagRuntime :=
  push_record (mkRecord k output None) (set_node_output k output (set_node_status k DagStatus.COMPLETED rt)).
Definition record_failure (k error : string) (rt : DagRuntime) : DagRuntime :=
  push_record (mkRecord k estr (Some error)) (set_node_status k DagStatus.FAILED rt).

Fixpoint pop_records (rt : DagRuntime) (l : list CompletionRecord) : option CompletionRecord * list CompletionRecord :=
  match l with
  | [] => (None, [])
  | r :: l' => if _judgable rt (cr_node_id r) then (Some r, l') else pop_records rt l'
  end.
Definition pop_completion (rt : DagRuntime) : DagRuntime * option CompletionRecord :=
  let '(r, l) := pop_records rt (rt_completions rt) in (set_completions l rt, r).

Definition failed_completion (rt : DagRuntime) : option CompletionRecord :=
  find_first (fun r => negb (cr_ok r) && _judgable rt (cr_node_id r)) (rt_completions rt).

(** ** Assists *)

Definition has_assist_for (rt : DagRuntime) (parent_id agent_name : string) : bool :=
  existsb (fun n => bool_decide (dn_assist_for n = Some parent_id) && bool_decide (dn_agent_name n = agent_name)) (rt_plan rt).

Definition depth_of (rt : DagRuntime) (k : string) : Z := default 0%Z (dget k (rt_assist_depth rt)).

Definition can_add_assists (rt : DagRuntime) (parent_id : string) (count : Z) : bool :=
  ((depth_of rt parent_id + 1 <=? MAX_ASSIST_DEPTH) && (Z.of_nat (length (rt_plan rt)) + count <=? MAX_PLAN_NODES))%Z.

Definition assist_id_of (parent_id : string) (seq : Z) : string := parent_id +:+ "-assist" +:+ pretty seq.

(** The waiting node: it depends on the assist and quotes its output. *)
Definition wire_parent (assist_id : string) (n : PlanNode) : PlanNode :=
  set_instruction (dn_instruction n +:+ nl +:+ nl +:+ "[" +:+ assist_id +:+ " output]" +:+ nl +:+ output_ref assist_id)
    (if bool_decide (assist_id ∈ dn_deps n) then n else set_deps (dn_deps n ++ [assist_id]) n).

(** The first node with that id, changed in place. *)
Fixpoint update_first (k : string) (f : PlanNode -> PlanNode) (l : list PlanNode) : list PlanNode :=
  match l with
  | [] => []
  | n :: l' => if bool_decide (dn_id n = k) then f n :: l' else n :: update_first k f l'
  end.

Definition add_assist (parent_id agent_name instruction : string) (rt : DagRuntime) : res (DagRuntime * string) :=
  let seq := (rt_assist_seq rt + 1)%Z in
  let assist_id := assist_id_of parent_id seq in
  _ ← get_plan_node rt parent_id;
  let assist := mkPlanNode assist_id ("assist:" +:+ agent_name) agent_name
    (instruction +:+ nl +:+ nl +:+ "[" +:+ parent_id +:+ " output]" +:+ nl +:+ output_ref parent_id) [] (Some parent_id) in
  let rt' := set_assists seq (dset assist_id (depth_of rt parent_id + 1)%Z (rt_assist_depth rt))
    (set_plan (update_first parent_id (wire_parent assist_id) (rt_plan rt) ++ [assist]) rt) in
  Ok (set_node_status parent_id DagStatus.WAITING_ASSIST (set_node_status assist_id DagStatus.PENDING rt'), assist_id).

(** ** Shutdown *)

(** The tasks in flight are cancelled and forgotten. *)
Definition shutdown (rt : DagRuntime) : DagRuntime := set_running [] rt.
Definition abort {A} (cause : string) (rt : DagRuntime) : DagRuntime * res A := (shutdown rt, Err (WorkflowError cause)).
