(* ===== verification/Orchestrator.v ===== *)
(** * The executor, the helper and the loop of the workflow orchestrator
    (new_choirworks/orchestrator/executor_node.py, helper.py, planner.py, orchestrator.py)

    The executor dispatches the ready nodes of the plan and waits for one to end;
    each end is judged by the helper, which either adds assists or hands over to
    the planner. The tasks run elsewhere: an environment says which of them have
    ended, and how, each time the executor looks. *)
From S2P Require Import Prelude PyStr Dict Json DagPlan DagRuntime.
From Stdlib Require Import Ascii.
Local Open Scope string_scope.
Local Open Scope list_scope.

(** How a task ended: its result, or the text of the exception it raised. *)
Inductive task_end := Returned (output : string) | Raised (msg : string).

(** At the [i]-th look, with the tasks [l] in flight: the end of each task that
    has ended. *)
Abbreviation environment := (nat -> list string -> string -> option task_end).

(** [asyncio.wait(tasks, return_when=FIRST_COMPLETED)] with tasks in flight returns
    when one of them has ended: at every look that follows a wait, one has. *)
Definition wait_ok (env : environment) : Prop :=
  forall i l, l <> [] -> exists k, k ∈ l /\ is_Some (env (S i) l k).

(** ** Executor *)

Record Launch := mkLaunch { la_node : PlanNode; la_agent : AgentInfo; la_message : string }.
Definition la_id (l : Launch) : string := dn_id (la_node l).

Definition dep_output (rt : DagRuntime) (dep : string) : option string :=
  (fun o => "[" +:+ dep +:+ " output]" +:+ nl +:+ o) <$> dget dep (rt_outputs rt).

Definition build_node_message (rt : DagRuntime) (node : PlanNode) : string :=
  str_join (nl +:+ nl) (resolve_instruction (dn_instruction node) (rt_outputs rt) :: omap (dep_output rt) (dn_deps node)).

Definition drop_running (k : string) (rt : DagRuntime) : DagRuntime :=
  set_running (filterb (fun x => negb (bool_decide (x = k))) (rt_running rt)) rt.

(** One task of the snapshot: if it has ended it leaves the tasks in flight and
    its end is recorded. *)
Definition collect_one (ended : string -> option task_end) (rt : DagRuntime) (k : string) : DagRuntime :=
  match ended k with
  | None => rt
  | Some (Returned o) => record_completion k o (drop_running k rt)
  | Some (Raised msg) => record_failure k msg (drop_running k rt)
  end.
Definition _collect_done (ended : string -> option task_end) (rt : DagRuntime) : DagRuntime :=
  foldl (collect_one ended) rt (rt_running rt).

Definition look (env : environment) (i : nat) (rt : DagRuntime) : DagRuntime := _collect_done (env i (rt_running rt)) rt.

(** [while running_tasks: await _wait_one(); _collect_done()]; [None]: not within the fuel. *)
Fixpoint drain (fuel : nat) (env : environment) (i : nat) (rt : DagRuntime) : option DagRuntime :=
  match rt_running rt with
  | [] => Some rt
  | _ => match fuel with O => None | S fuel' => drain fuel' env (S i) (look env i rt) end
  end.

Definition start_running (k : string) (l : list string) : list string := if bool_decide (k ∈ l) then l else l ++ [k].

Definition dispatch_one (rt : DagRuntime) (k : string) : res (DagRuntime * Launch) :=
  node ← get_plan_node rt k;
  info ← match dget (dn_agent_name node) (rt_agents rt) with
         | Some info => Ok info
         | None => Err (KeyError (dn_agent_name node))
         end;
  let rt' := set_node_status k DagStatus.RUNNING rt in
  Ok (set_running (start_running k (rt_running rt')) rt', mkLaunch node info (build_node_message rt node)).

Fixpoint dispatch_list (ks : list string) (rt : DagRuntime) : DagRuntime * list Launch * res unit :=
  match ks with
  | [] => (rt, [], Ok tt)
  | k :: ks' =>
      match dispatch_one rt k with
      | Err e => (rt, [], Err e)
      | Ok (rt', l) => let '(rt'', ls, r) := dispatch_list ks' rt' in (rt'', l :: ls, r)
      end
  end.
Definition _dispatch_ready (rt : DagRuntime) : DagRuntime * list Launch * res unit := dispatch_list (dispatchable rt) rt.

Definition _abort_if_failed (rt : DagRuntime) : DagRuntime * res unit :=
  match failed_completion rt with
  | Some r => abort ("node " +:+ cr_node_id r +:+ " failed: " +:+ default "None" (cr_error r)) rt
  | None => (rt, Ok tt)
  end.

Definition _apply_plan_input (input : option DagPlan) (rt : DagRuntime) : res DagRuntime :=
  match input with Some plan => apply_plan plan rt | None => Ok rt end.

(** What a call of the executor ends in: the id to judge, the end of the job, an
    exception, or a drain for which the fuel was too little. *)
Inductive exec_outcome := ToJudge (node_id : string) | ToDone | Raises (e : exn) | Draining.

Definition NO_PROGRESS : exn := WorkflowError "Executor executor: dispatch made no progress".

(** After a dispatch: wait for one end (with nothing in flight there is nothing to
    wait for), and judge it. *)
Definition executor_wait (env : environment) (rt : DagRuntime) : DagRuntime * exec_outcome :=
  let rt := look env 1 rt in
  match _abort_if_failed rt with
  | (rt, Err e) => (rt, Raises e)
  | (rt, Ok _) =>
      match pop_completion rt with
      | (rt, Some r) => (rt, ToJudge (cr_node_id r))
      | (rt, None) => (rt, Raises NO_PROGRESS)
      end
  end.

(** The queue of completions first, then a dispatch. *)
Definition executor_judge (env : environment) (rt : DagRuntime) : DagRuntime * list Launch * exec_outcome :=
  match _abort_if_failed rt with
  | (rt, Err e) => (rt, [], Raises e)
  | (rt, Ok _) =>
      match pop_completion rt with
      | (rt, Some r) => (rt, [], ToJudge (cr_node_id r))
      | (rt, None) =>
          match _dispatch_ready rt with
          | (rt, ls, Err e) => (rt, ls, Raises e)
          | (rt, ls, Ok _) =>
              if has_work rt then let '(rt, o) := executor_wait env rt in (rt, ls, o)
              else (rt, ls, ToDone)
          end
      end
  end.

Definition executor_run (env : environment) (input : option DagPlan) (rt : DagRuntime) : DagRuntime * list Launch * exec_outcome :=
  match _apply_plan_input input rt with
  | Err e => (rt, [], Raises e)
  | Ok rt =>
      let rt := look env 0 rt in
      if rt_done_requested rt then
        match drain (length (rt_running rt)) env 1 rt with
        | Some rt => (rt, [], ToDone)
        | None => (rt, [], Draining)
        end
      else executor_judge env rt
  end.

(** ** Helper *)

(** [part[:i], part[i + 1:]] for [i = part.find(" ")]. *)
Fixpoint split_space (s : string) : option (string * string) :=
  match s with
  | estr => None
  | String a s' =>
      if Ascii.eqb a " " then Some (estr, s')
      else (fun p => (String a (fst p), snd p)) <$> split_space s'
  end.

Definition mention_of (agent_names : list string) (part : string) : option (string * string) :=
  match split_space part with
  | None => None
  | Some (agent_name, rest) =>
      let instruction := ustrip rest in
      if bool_decide (agent_name ∈ agent_names) && str_truthy instruction then Some (agent_name, instruction) else None
  end.
Definition parse_mentions (text : string) (agent_names : list string) : list (string * string) :=
  omap (mention_of agent_names) (tail (split_on "@" text)).

(** [seen] and [candidates] after each mention. *)
Definition helper_candidate (rt : DagRuntime) (parent : PlanNode)
    (acc : list string * list (string * string)) (m : string * string) : list string * list (string * string) :=
  let '(seen, candidates) := acc in
  let '(agent_name, instruction) := m in
  if bool_decide (agent_name = dn_agent_name parent) || bool_decide (agent_name ∈ seen) then acc
  else if has_assist_for rt (dn_id parent) agent_name then (seen ++ [agent_name], candidates)
  else (seen ++ [agent_name], candidates ++ [m]).
Definition helper_candidates (rt : DagRuntime) (parent : PlanNode) (mentions : list (string * string)) : list (string * string) :=
  snd (foldl (helper_candidate rt parent) ([], []) mentions).

Fixpoint add_assists (parent_id : string) (l : list (string * string)) (rt : DagRuntime) : res DagRuntime :=
  match l with
  | [] => Ok rt
  | (agent_name, instruction) :: l' =>
      p ← add_assist parent_id agent_name instruction rt;
      add_assists parent_id l' (fst p)
  end.

Inductive helper_outcome := ToExecute | ToPlanner | HelperRaises (e : exn).

Definition helper_run (node_id : string) (rt : DagRuntime) : DagRuntime * helper_outcome :=
  if negb (in_plan rt node_id) then (rt, ToPlanner)
  else
    match get_plan_node rt node_id with
    | Err e => (rt, HelperRaises e)
    | Ok parent =>
        let mentions := parse_mentions (default estr (dget node_id (rt_outputs rt))) (dkeys (rt_agents rt)) in
        let candidates := helper_candidates rt parent mentions in
        match candidates with
        | [] => (rt, ToPlanner)
        | _ =>
            if negb (can_add_assists rt node_id (Z.of_nat (length candidates))) then (rt, ToPlanner)
            else match add_assists node_id candidates rt with
                 | Ok rt' => (rt', ToExecute)
                 | Err e => (rt, HelperRaises e)
                 end
        end
    end.

(** ** Planner *)

Definition brief_node (rt : DagRuntime) (node : PlanNode) : string :=
  let deps := match dn_deps node with [] => "-" | l => str_join "," l end in
  let state := match status_of rt (dn_id node) with Some s => DagStatus.dag_status_value s | None => "?" end in
  let assist := match dn_assist_for node with
                | Some a => if str_truthy a then ", assist_for=" +:+ a else estr
                | None => estr
                end in
  "- " +:+ dn_id node +:+ " (agent=" +:+ dn_agent_name node +:+ ", status=" +:+ state +:+ ", deps=" +:+ deps +:+ assist +:+ ")"
    +:+ nl +:+ "  instruction: " +:+ dn_instruction node.

(** The whole state, in words. *)
Definition build_planner_brief (rt : DagRuntime) : string :=
  str_join nl
    (["## User task" +:+ nl +:+ rt_user_task rt; nl +:+ "## Current plan"]
     ++ (brief_node rt <$> rt_plan rt)
     ++ match rt_plan rt with [] => ["(empty)"] | _ => [] end
     ++ [nl +:+ "## Node outputs"]
     ++ match rt_outputs rt with
        | [] => ["(none)"]
        | l => (fun p => "[" +:+ fst p +:+ " output]" +:+ nl +:+ snd p) <$> l
        end).

(** The [Literal] of agent names in the schema of the answer: a plan outside the
    catalog does not validate; an empty catalog has no schema. *)
Definition constrained_plan_schema (agent_names : list string) : res (DagPlan -> bool) :=
  match agent_names with
  | [] => Err (ValueError "agent catalog is empty: at least one agent is required")
  | _ => Ok (fun plan => forallb (fun n => bool_decide (dn_agent_name n ∈ agent_names)) (dp_nodes plan))
  end.

(** ** The loop *)

(** The node of the workflow that runs next, with its input. *)
Inductive position :=
| AtPlanner
| AtExecutor (input : option DagPlan)
| AtHelper (node_id : string)
| AtDone (output : list (string * string))
| Failed (e : exn).

(** The edges out of the executor and out of the helper. *)
Definition executor_next (o : exec_outcome) (rt : DagRuntime) : position :=
  match o with
  | ToJudge id => AtHelper id
  | ToDone => AtDone (rt_outputs rt)
  | Raises e => Failed e
  | Draining => AtExecutor None
  end.
Definition helper_next (o : helper_outcome) : position :=
  match o with ToExecute => AtExecutor None | ToPlanner => AtPlanner | HelperRaises e => Failed e end.

(** [finally: await runtime.shutdown()] when the run has ended. *)
Definition settle (p : position) (rt : DagRuntime) : DagRuntime :=
  match p with AtDone _ | Failed _ => shutdown rt | _ => rt end.

(** An answer of the planner fits the schema made from the catalog, or it is none at all. *)
Definition answer_fits (rt : DagRuntime) (input : option DagPlan) : Prop :=
  forall plan, input = Some plan ->
    exists schema, constrained_plan_schema (dkeys (rt_agents rt)) = Ok schema /\ schema plan = true.

(** The ids an assist may get later are not used for anything else. *)
Definition issued (seq : Z) (k : string) : Prop := forall p m, k = assist_id_of p m -> (m <= seq)%Z.

(** An answer that moreover uses no id [X-assistN] of an assist still to come.
    Nothing in the program asks this of the planner. *)
Definition plan_allowed (rt : DagRuntime) (input : option DagPlan) : Prop :=
  forall plan, input = Some plan ->
    (exists schema, constrained_plan_schema (dkeys (rt_agents rt)) = Ok schema /\ schema plan = true) /\
    forall n, n ∈ dp_nodes plan -> issued (rt_assist_seq rt) (dn_id n).

Record Orch := mkOrch { or_pos : position; or_rt : DagRuntime }.

(** One node of the workflow, labelled with what it launches, when the answers of the
    planner are those [allowed]. *)
Inductive orch_step_by (allowed : DagRuntime -> option DagPlan -> Prop) : Orch -> list Launch -> Orch -> Prop :=
| step_planner rt input :
    allowed rt input ->
    orch_step_by allowed (mkOrch AtPlanner rt) [] (mkOrch (AtExecutor input) rt)
| step_planner_raises rt e :
    orch_step_by allowed (mkOrch AtPlanner rt) [] (mkOrch (Failed e) (shutdown rt))
| step_executor rt input env rt' ls o :
    wait_ok env -> executor_run env input rt = (rt', ls, o) ->
    orch_step_by allowed (mkOrch (AtExecutor input) rt) ls (mkOrch (executor_next o rt') (settle (executor_next o rt') rt'))
| step_helper rt id rt' o :
    helper_run id rt = (rt', o) ->
    orch_step_by allowed (mkOrch (AtHelper id) rt) [] (mkOrch (helper_next o) (settle (helper_next o) rt')).

(** A step of the program: any answer that fits the schema. *)
Definition orch_step : Orch -> list Launch -> Orch -> Prop := orch_step_by answer_fits.

(** A step in which the planner, if it answers, does not use the id of an assist still
    to come ([assist_id_clash] shows what happens when it does). *)
Definition careful_step : Orch -> list Launch -> Orch -> Prop := orch_step_by plan_allowed.

Definition orch_start (agents : list (string * AgentInfo)) (user_task : string) : Orch :=
  mkOrch AtPlanner (new_runtime agents user_task).

(** The careful steps are the steps of the program but for those answers. *)
Lemma careful_step_iff s ls s' :
  careful_step s ls s' <-> orch_step s ls s' /\
    forall plan n, or_pos s = AtPlanner -> or_pos s' = AtExecutor (Some plan) -> n ∈ dp_nodes plan ->
      issued (rt_assist_seq (or_rt s)) (dn_id n).
Proof.
  split.
  - intros [rt input Hal | rt e | rt input env rt' ls' o Hw E | rt id rt' o E]; (split; [try by econstructor | try by intros ??]).
    + constructor. intros plan Hp. by apply Hal.
    + intros plan n _ [= ->] Hn. by apply (Hal plan).
  - intros [[rt input Hal | rt e | rt input env rt' ls' o Hw E | rt id rt' o E] H]; try by econstructor.
    constructor. intros plan ->. split; [by apply Hal|]. intros n Hn. by apply (H plan).
Qed.
