(* ===== verification/OrchestratorFacts.v ===== *)
(** * The workflow orchestrator, proved

    The invariant of a run, and what each operation does to it. *)
From S2P Require Import Prelude PyStr Dict Json Dag DagPlan DagRuntime Orchestrator.
From Stdlib Require Import Ascii.
Local Open Scope string_scope.
Local Open Scope list_scope.

(** ** Ids of assists *)

Lemma digits_only (n : N) (s : string) :
  PyStr.has_char "-"%char s = false -> PyStr.has_char "-"%char (pretty_N_go n s) = false.
Proof.
  revert s. induction (N.lt_wf_0 n) as [n _ IH]. intros s Hs.
  destruct (decide (0 < n)%N) as [Hn|Hn].
  - rewrite pretty_N_go_step by done. apply IH; [by apply N.div_lt|].
    cbn. rewrite Hs, orb_false_r. unfold pretty_N_char.
    by repeat match goal with |- context [match ?x with _ => _ end] => destruct x end.
  - assert (n = 0%N) as -> by lia. by rewrite pretty_N_go_0.
Qed.

Lemma pretty_no_dash (z : Z) : (0 <= z)%Z -> PyStr.has_char "-"%char (pretty z) = false.
Proof.
  intros Hz. unfold pretty, pretty_Z. destruct z as [|p|p]; [done| |lia].
  unfold pretty, pretty_N. destruct (decide (N.pos p = 0%N)); [done|]. by apply digits_only.
Qed.

Lemma has_char_app c s t : PyStr.has_char c (s +:+ t) = PyStr.has_char c s || PyStr.has_char c t.
Proof. induction s as [|a s IH]; [done|]. rewrite sapp_cons. cbn. by rewrite IH, orb_assoc. Qed.

(** A suffix of [-assist<digits>] that begins with the mark is the whole of it. *)
Lemma assist_suffix (a b : Z) (e : string) :
  (0 <= a)%Z -> "-assist" +:+ pretty a = e +:+ ("-assist" +:+ pretty b) -> e = estr.
Proof.
  intros Ha E. destruct e as [|c e]; [done|]. exfalso.
  change ("-assist" +:+ pretty a) with (String "-"%char ("assist" +:+ pretty a)) in E.
  rewrite sapp_cons in E. injection E as _ E.
  assert ("assist" +:+ pretty a = e +:+ ("-assist" +:+ pretty b)) as E' by exact E. clear E.
  apply (f_equal (PyStr.has_char "-"%char)) in E'. rewrite !has_char_app, (pretty_no_dash a Ha) in E'. cbn in E'.
  by rewrite orb_true_r in E'.
Qed.

Lemma assist_id_seq p q a b : (0 <= a)%Z -> (0 <= b)%Z -> assist_id_of p a = assist_id_of q b -> a = b.
Proof.
  unfold assist_id_of. intros Ha Hb E.
  assert (p = q) as <-.
  { destruct (sapp_split _ _ _ _ E) as [[e He]|[e He]]; subst.
    - rewrite <- sapp_assoc in E. apply (inj (String.append p)) in E. apply assist_suffix in E as ->; [|done].
      by rewrite sapp_nil_r.
    - rewrite <- sapp_assoc in E. apply (inj (String.append q)) in E. symmetry in E. apply assist_suffix in E as ->; [|done].
      by rewrite sapp_nil_r. }
  apply (inj (String.append p)) in E. by apply prefix_pretty_inj in E.
Qed.

Lemma assist_id_parent p a : assist_id_of p a <> p.
Proof.
  unfold assist_id_of. intros E. apply (f_equal String.length) in E. rewrite !slength_app in E. cbn in E. lia.
Qed.

(** ** Invariant *)

Definition in_flight (rt : DagRuntime) (k : string) : Prop := status_of rt k = Some DagStatus.RUNNING.
Definition settled_as (r : CompletionRecord) : dag_status := if cr_ok r then DagStatus.COMPLETED else DagStatus.FAILED.

Record dag_inv (rt : DagRuntime) : Prop := {
  (** a task in flight for each running node, and only for those *)
  di_nodup : NoDup (rt_running rt);
  di_flight : forall k, k ∈ rt_running rt <-> in_flight rt k;
  (** one record per end, for nodes that have not been started again *)
  di_records : NoDup (cr_node_id <$> rt_completions rt);
  di_record : forall r, r ∈ rt_completions rt -> status_of rt (cr_node_id r) = Some (settled_as r);
  (** a node with a result has an output *)
  di_outputs : forall k, status_of rt k = Some DagStatus.COMPLETED \/ status_of rt k = Some DagStatus.WAITING_ASSIST ->
               k ∈ dkeys (rt_outputs rt);
  di_plan : NoDup (dn_id <$> rt_plan rt);
  di_status : forall n, n ∈ rt_plan rt -> is_Some (status_of rt (dn_id n));
  di_agents : forall n, n ∈ rt_plan rt -> dn_agent_name n ∈ dkeys (rt_agents rt);
  (** assists get ids nobody had *)
  di_seq : (0 <= rt_assist_seq rt)%Z;
  di_issued : forall k, is_Some (status_of rt k) \/ k ∈ dkeys (rt_assist_depth rt) -> issued (rt_assist_seq rt) k;
  di_live : forall k, status_of rt k <> Some DagStatus.CANCELLED
}.

Record dag_bounded (rt : DagRuntime) : Prop := {
  db_size : (Z.of_nat (length (rt_plan rt)) <= MAX_PLAN_NODES)%Z;
  db_depth : forall k, (0 <= depth_of rt k <= MAX_ASSIST_DEPTH)%Z
}.

Lemma new_runtime_inv agents task : dag_inv (new_runtime agents task).
Proof.
  split; unfold in_flight, status_of; cbn; try done; try apply NoDup_nil_2; try (intros; set_solver).
  all: try (by intros k [?|?]).
Qed.

Lemma new_runtime_bounded agents task : dag_bounded (new_runtime agents task).
Proof. by split; cbn. Qed.

(** ** Fields *)

Lemma status_of_set k s rt k' :
  status_of (set_node_status k s rt) k' = if decide (k' = k) then Some s else status_of rt k'.
Proof. unfold status_of. cbn. apply dget_dset. Qed.

Lemma push_record_fields r rt :
  rt_agents (push_record r rt) = rt_agents rt /\ rt_plan (push_record r rt) = rt_plan rt /\
  rt_status (push_record r rt) = rt_status rt /\ rt_outputs (push_record r rt) = rt_outputs rt /\
  rt_running (push_record r rt) = rt_running rt /\ rt_done_requested (push_record r rt) = rt_done_requested rt /\
  rt_assist_seq (push_record r rt) = rt_assist_seq rt /\ rt_assist_depth (push_record r rt) = rt_assist_depth rt /\
  (rt_completions (push_record r rt) = rt_completions rt \/ rt_completions (push_record r rt) = rt_completions rt ++ [r]).
Proof. unfold push_record. destruct (_judgable _ _); cbn; repeat split; auto. Qed.

Lemma push_record_inv r rt :
  dag_inv rt -> status_of rt (cr_node_id r) = Some (settled_as r) -> cr_node_id r ∉ (cr_node_id <$> rt_completions rt) ->
  dag_inv (push_record r rt).
Proof.
  intros H Hr Hn. unfold push_record. destruct (_judgable _ _); [|done].
  destruct H. split; cbn; try done.
  - rewrite fmap_app. apply NoDup_app. split; [done|]. split; [|apply NoDup_singleton].
    intros x Hx Hx2. apply list_elem_of_singleton in Hx2 as ->. done.
  - intros x [Hx| ->%list_elem_of_singleton]%elem_of_app; [by apply di_record0 | done].
Qed.

Lemma push_record_bounded r rt : dag_bounded rt -> dag_bounded (push_record r rt).
Proof. intros [Hs Hd]. unfold push_record. by destruct (_judgable _ _). Qed.

(** ** The end of a task *)

(** The node of an ended task leaves the tasks in flight, with a final status and,
    when it returned, an output. *)
Definition end_task (k : string) (s : dag_status) (outputs : list (string * string)) (rt : DagRuntime) : DagRuntime :=
  mkRuntime (rt_agents rt) (rt_user_task rt) (rt_plan rt) (dset k s (rt_status rt)) outputs
    (filterb (fun x => negb (bool_decide (x = k))) (rt_running rt)) (rt_completions rt)
    (rt_done_requested rt) (rt_assist_seq rt) (rt_assist_depth rt).

Lemma end_task_inv k s outputs rt :
  dag_inv rt -> k ∈ rt_running rt -> s = DagStatus.COMPLETED \/ s = DagStatus.FAILED ->
  (forall x, x ∈ dkeys (rt_outputs rt) -> x ∈ dkeys outputs) -> (s = DagStatus.COMPLETED -> k ∈ dkeys outputs) ->
  dag_inv (end_task k s outputs rt) /\ k ∉ (cr_node_id <$> rt_completions rt).
Proof.
  intros H Hk Hs Hout Hc. pose proof (proj1 (di_flight rt H k) Hk) as Hrun. unfold in_flight in Hrun.
  assert (forall r, r ∈ rt_completions rt -> cr_node_id r <> k) as Hrec.
  { intros r Hr E. apply (di_record rt H) in Hr. rewrite E, Hrun in Hr. unfold settled_as in Hr. by destruct (cr_ok r). }
  assert (forall x, status_of (end_task k s outputs rt) x = if decide (x = k) then Some s else status_of rt x) as Hst.
  { intros x. unfold status_of, end_task. cbn. apply dget_dset. }
  split; [destruct H; split; try done |].
  - eapply sublist_NoDup; [exact di_nodup0 | apply filterb_sublist].
  - intros x. cbn [rt_running end_task]. rewrite elem_of_filterb. unfold in_flight. rewrite Hst, di_flight0. unfold in_flight.
    rewrite negb_true_iff, bool_decide_eq_false. destruct (decide (x = k)); destruct Hs; naive_solver.
  - intros r Hr. rewrite Hst, decide_False by auto. by apply di_record0.
  - intros x. rewrite Hst. destruct (decide (x = k)) as [->|]; [|by auto].
    intros [[= ->]|[= ->]]; [by auto | by destruct Hs].
  - intros n Hn. rewrite Hst. destruct (decide _); [by eexists | by apply di_status0].
  - intros x Hx. apply di_issued0. rewrite Hst in Hx. destruct (decide (x = k)) as [->|]; [|done]. left. by rewrite Hrun.
  - intros x. rewrite Hst. destruct (decide (x = k)); [destruct Hs; by subst | apply di_live0].
  - intros (r & E & Hr)%list_elem_of_fmap. by eapply Hrec.
Qed.

Lemma collect_one_end ended rt k :
  collect_one ended rt k =
    match ended k with
    | None => rt
    | Some (Returned o) => push_record (mkRecord k o None) (end_task k DagStatus.COMPLETED (dset k o (rt_outputs rt)) rt)
    | Some (Raised m) => push_record (mkRecord k estr (Some m)) (end_task k DagStatus.FAILED (rt_outputs rt) rt)
    end.
Proof. unfold collect_one, record_completion, record_failure. by destruct (ended k) as [[o|m]|]. Qed.

Lemma collect_one_inv ended rt k : dag_inv rt -> k ∈ rt_running rt -> dag_inv (collect_one ended rt k).
Proof.
  intros H Hk. rewrite collect_one_end. destruct (ended k) as [[o|m]|]; [| |done].
  - destruct (end_task_inv k DagStatus.COMPLETED (dset k o (rt_outputs rt)) rt) as [Hi Hn]; auto.
    + intros x Hx. rewrite elem_of_dkeys_dset. by right.
    + intros _. rewrite elem_of_dkeys_dset. by left.
    + apply push_record_inv; cbn; try done. unfold status_of. cbn. by rewrite dget_dset_eq.
  - destruct (end_task_inv k DagStatus.FAILED (rt_outputs rt) rt) as [Hi Hn]; auto; [done|].
    apply push_record_inv; cbn; try done. unfold status_of. cbn. by rewrite dget_dset_eq.
Qed.

(** What an end does to the tasks in flight, the plan and the counters. *)
Lemma collect_one_fields ended rt k :
  rt_agents (collect_one ended rt k) = rt_agents rt /\ rt_plan (collect_one ended rt k) = rt_plan rt /\
  rt_done_requested (collect_one ended rt k) = rt_done_requested rt /\
  rt_assist_seq (collect_one ended rt k) = rt_assist_seq rt /\ rt_assist_depth (collect_one ended rt k) = rt_assist_depth rt /\
  rt_running (collect_one ended rt k) =
    match ended k with
    | None => rt_running rt
    | Some _ => filterb (fun x => negb (bool_decide (x = k))) (rt_running rt)
    end.
Proof.
  rewrite collect_one_end. destruct (ended k) as [[o|m]|]; [| |by repeat split].
  all: edestruct push_record_fields as (Ha & Hp & _ & _ & Hr & Hd & Hs & Hde & _).
  all: by rewrite Ha, Hp, Hr, Hd, Hs, Hde.
Qed.

(** What a collection never changes. *)
Definition same_plan (rt rt' : DagRuntime) : Prop :=
  rt_agents rt' = rt_agents rt /\ rt_plan rt' = rt_plan rt /\ rt_done_requested rt' = rt_done_requested rt /\
  rt_assist_seq rt' = rt_assist_seq rt /\ rt_assist_depth rt' = rt_assist_depth rt.

#[export] Instance same_plan_preorder : PreOrder same_plan.
Proof.
  split; [by intros rt|]. intros a b c (H1 & H2 & H3 & H4 & H5) (K1 & K2 & K3 & K4 & K5).
  unfold same_plan. by rewrite K1, K2, K3, K4, K5.
Qed.

Lemma same_plan_bounded rt rt' : same_plan rt rt' -> dag_bounded rt -> dag_bounded rt'.
Proof. intros (_ & Hp & _ & _ & Hd) [Hs Hde]. split; unfold depth_of; rewrite ?Hp, ?Hd; [done | apply Hde]. Qed.

(** Outputs are never taken away. *)
Definition outputs_kept (rt rt' : DagRuntime) : Prop := forall k, k ∈ dkeys (rt_outputs rt) -> k ∈ dkeys (rt_outputs rt').

#[export] Instance outputs_kept_preorder : PreOrder outputs_kept.
Proof. split; [by intros rt k | intros a b c H K k Hk; by apply K, H]. Qed.

Lemma collect_one_same ended rt k : same_plan rt (collect_one ended rt k).
Proof. destruct (collect_one_fields ended rt k) as (? & ? & ? & ? & ? & _). by repeat split. Qed.

Lemma collect_one_outputs ended rt k : outputs_kept rt (collect_one ended rt k).
Proof.
  intros x Hx. rewrite collect_one_end. destruct (ended k) as [[o|m]|]; [| |done].
  all: edestruct push_record_fields as (_ & _ & _ & Ho & _); rewrite Ho; cbn; try done.
  apply elem_of_dkeys_dset. by right.
Qed.

Definition ended_in (ended : string -> option task_end) (l : list string) (x : string) : bool :=
  bool_decide (x ∈ l) && match ended x with Some _ => true | None => false end.

Lemma collect_list ended l : forall rt,
  dag_inv rt -> NoDup l -> (forall k, k ∈ l -> k ∈ rt_running rt) ->
  let rt' := foldl (collect_one ended) rt l in
  dag_inv rt' /\ same_plan rt rt' /\ outputs_kept rt rt' /\
  rt_running rt' = filterb (fun x => negb (ended_in ended l x)) (rt_running rt).
Proof.
  induction l as [|k l IH]; intros rt Hinv Hnd Hin; cbn [foldl].
  - split; [done|]. split; [done|]. split; [done|]. symmetry. apply forallb_filter_id, forallb_elem.
    intros x _. unfold ended_in. by rewrite bool_decide_false by apply not_elem_of_nil.
  - apply NoDup_cons in Hnd as [Hk Hnd].
    pose proof (collect_one_fields ended rt k) as (_ & _ & _ & _ & _ & Hr).
    destruct (IH (collect_one ended rt k)) as (Hi & Hs & Ho & Hrun).
    + apply collect_one_inv; [done | apply Hin; by left].
    + done.
    + intros x Hx. rewrite Hr. destruct (ended k); [|apply Hin; by right]. apply elem_of_filterb.
      split; [apply Hin; by right|]. apply negb_true_iff, bool_decide_eq_false. by intros ->.
    + split; [done|]. split; [by etrans; [apply collect_one_same|]|]. split; [by etrans; [apply collect_one_outputs|]|].
      rewrite Hrun, Hr. unfold ended_in. clear -Hk. destruct (ended k) eqn:E.
      * rewrite filterb_filterb. apply List.filter_ext. intros x. destruct (decide (x = k)) as [->|Hne].
        -- rewrite E, (bool_decide_true (k = k)), (bool_decide_true (k ∈ k :: l)) by (done || by left). by rewrite andb_false_r.
        -- rewrite (bool_decide_false (x = k)) by done. rewrite andb_true_r.
           by rewrite (bool_decide_ext (x ∈ l) (x ∈ k :: l)) by (rewrite elem_of_cons; naive_solver).
      * apply List.filter_ext. intros x. f_equal. destruct (decide (x = k)) as [->|Hne]; [by rewrite E, !andb_false_r|].
        by rewrite (bool_decide_ext (x ∈ l) (x ∈ k :: l)) by (rewrite elem_of_cons; naive_solver).
Qed.

Lemma look_facts env i rt :
  dag_inv rt ->
  dag_inv (look env i rt) /\ same_plan rt (look env i rt) /\ outputs_kept rt (look env i rt) /\
  rt_running (look env i rt) =
    filterb (fun k => match env i (rt_running rt) k with Some _ => false | None => true end) (rt_running rt).
Proof.
  intros H. unfold look, _collect_done.
  destruct (collect_list (env i (rt_running rt)) (rt_running rt) rt) as (Hi & Hs & Ho & Hr); try done.
  { by apply di_nodup. }
  do 3 (split; [done|]). rewrite Hr. unfold filterb. apply List.filter_ext_in. intros x Hx%list_elem_of_In.
  unfold ended_in. rewrite bool_decide_true by done. by destruct (env i (rt_running rt) x).
Qed.

(** After a wait, something has left. *)
Lemma look_shrinks env i rt :
  wait_ok env -> dag_inv rt -> rt_running rt <> [] -> length (rt_running (look env (S i) rt)) < length (rt_running rt).
Proof.
  intros Hw H Hne. destruct (look_facts env (S i) rt H) as (_ & _ & _ & Hr). rewrite Hr.
  destruct (Hw i _ Hne) as (k & Hk & [e He]). apply Nat.le_neq. split; [apply List.filter_length_le|].
  intros E. apply list_elem_of_In in Hk. apply List.filter_length_forallb in E.
  rewrite forallb_forall in E. specialize (E k Hk). by rewrite He in E.
Qed.

Lemma drain_facts fuel env : forall i rt rt',
  dag_inv rt -> drain fuel env i rt = Some rt' ->
  dag_inv rt' /\ same_plan rt rt' /\ outputs_kept rt rt' /\ rt_running rt' = [].
Proof.
  induction fuel as [|fuel IH]; intros i rt rt' H; cbn; destruct (rt_running rt) eqn:E; try done; try by intros [= <-].
  intros Hd. destruct (look_facts env i rt H) as (Hi & Hs & Ho & _).
  destruct (IH _ _ _ Hi Hd) as (Hi' & Hs' & Ho' & Hr). split; [done|]. split; [by etrans|]. split; [by etrans | done].
Qed.

Lemma drain_ends fuel env : forall i rt,
  wait_ok env -> dag_inv rt -> length (rt_running rt) <= fuel -> exists rt', drain fuel env (S i) rt = Some rt'.
Proof.
  induction fuel as [|fuel IH]; intros i rt Hw H Hl; cbn; destruct (rt_running rt) eqn:E; try (by eexists); [cbn in Hl; lia|].
  rewrite <- E in Hl. assert (rt_running rt <> []) as Hne by congruence.
  pose proof (look_shrinks env i rt Hw H Hne). apply IH; [done | by apply look_facts | lia].
Qed.

(** ** The queue of completions *)

Lemma set_completions_inv l rt : dag_inv rt -> sublist l (rt_completions rt) -> dag_inv (set_completions l rt).
Proof.
  intros H Hl. destruct H. split; try done.
  - eapply sublist_NoDup; [exact di_records0 | by apply fmap_sublist].
  - intros r Hr. apply di_record0. by eapply elem_of_sublist.
Qed.

Lemma pop_records_spec rt l r l' :
  pop_records rt l = (r, l') ->
  match r with
  | Some r => exists stale, l = stale ++ r :: l' /\ _judgable rt (cr_node_id r) = true /\
      forall x, x ∈ stale -> _judgable rt (cr_node_id x) = false
  | None => l' = [] /\ forall x, x ∈ l -> _judgable rt (cr_node_id x) = false
  end.
Proof.
  revert r l'. induction l as [|x l IH]; intros r l'; cbn.
  - intros [= <- <-]. split; [done|]. by intros x ?%elem_of_nil.
  - destruct (_judgable rt (cr_node_id x)) eqn:E.
    + intros [= <- <-]. exists []. split; [done|]. split; [done|]. by intros y ?%elem_of_nil.
    + intros Hp. specialize (IH _ _ Hp). destruct r as [r|].
      * destruct IH as (stale & -> & Hr & Hst). exists (x :: stale). split; [done|]. split; [done|].
        intros y [->|Hy]%elem_of_cons; auto.
      * destruct IH as [-> Hst]. split; [done|]. intros y [->|Hy]%elem_of_cons; auto.
Qed.

Lemma judgable_in_plan rt k : _judgable rt k = true -> in_plan rt k = true.
Proof. unfold _judgable. by intros [_ H]%andb_prop. Qed.

Lemma pop_completion_facts rt rt' r :
  dag_inv rt -> pop_completion rt = (rt', r) ->
  dag_inv rt' /\ (exists l, rt' = set_completions l rt) /\
  forall x, r = Some x -> x ∈ rt_completions rt /\ _judgable rt (cr_node_id x) = true /\
    cr_node_id x ∉ (cr_node_id <$> rt_completions rt').
Proof.
  intros H. unfold pop_completion. destruct (pop_records rt (rt_completions rt)) as [r0 l] eqn:E. intros [= <- <-].
  apply pop_records_spec in E. destruct r0 as [r0|].
  - destruct E as (stale & E & Hj & _). split; [|split; [by eexists|]].
    + apply set_completions_inv; [done|]. rewrite E. apply sublist_inserts_l. by apply sublist_cons.
    + intros x [= <-]. split; [rewrite E; apply elem_of_app; right; by left|]. split; [done|]. cbn.
      pose proof (di_records rt H) as Hnd. rewrite E, fmap_app in Hnd. apply NoDup_app in Hnd as (_ & _ & Hnd).
      by apply NoDup_cons in Hnd as [Hn _].
  - destruct E as [-> _]. split; [|split; [by eexists | done]].
    apply set_completions_inv; [done|]. apply sublist_nil_l.
Qed.

(** ** Plans *)

Lemma plan_node_of_plan l k n : NoDup (dn_id <$> l) -> n ∈ l -> dn_id n = k -> plan_node_of l k = Some n.
Proof.
  unfold plan_node_of. induction l as [|m l IH]; intros Hnd Hn Hk; [by apply elem_of_nil in Hn|].
  rewrite fmap_cons in Hnd. apply NoDup_cons in Hnd as [Hm Hnd]. cbn.
  apply elem_of_cons in Hn as [->|Hn]; [by rewrite bool_decide_true|].
  rewrite bool_decide_false; [by apply IH|]. intros E. apply Hm. rewrite E, <- Hk. by apply list_elem_of_fmap_2.
Qed.

Lemma plan_node_of_elem l k n : plan_node_of l k = Some n -> n ∈ l /\ dn_id n = k.
Proof. intros [Hn Hb]%find_first_some. by bool_prop. Qed.

Lemma in_plan_true rt k : in_plan rt k = true <-> exists n, n ∈ rt_plan rt /\ dn_id n = k.
Proof. unfold in_plan. rewrite existsb_elem. by setoid_rewrite bool_decide_eq_true. Qed.

Lemma in_plan_get rt k : in_plan rt k = true -> exists n, get_plan_node rt k = Ok n /\ n ∈ rt_plan rt /\ dn_id n = k.
Proof.
  intros (n & Hn & Hk)%in_plan_true. unfold get_plan_node.
  destruct (plan_node_of (rt_plan rt) k) as [m|] eqn:E.
  - exists m. by apply plan_node_of_elem in E.
  - unfold plan_node_of in E. rewrite find_first_none in E. specialize (E n Hn).
    rewrite bool_decide_true in E by done. done.
Qed.

Lemma plan_node_of_none l k : plan_node_of l k = None <-> k ∉ (dn_id <$> l).
Proof.
  unfold plan_node_of. rewrite find_first_none. split.
  - intros H (n & -> & Hn)%list_elem_of_fmap. specialize (H n Hn). by rewrite bool_decide_true in H.
  - intros H n Hn. apply bool_decide_eq_false. intros <-. apply H. by apply list_elem_of_fmap_2.
Qed.

(** ** Dispatch *)

(** What a launch is, in the state it starts from. *)
Record launch_ok (rt : DagRuntime) (l : Launch) : Prop := {
  lo_plan : la_node l ∈ rt_plan rt;
  lo_agent : dget (dn_agent_name (la_node l)) (rt_agents rt) = Some (la_agent l);
  lo_status : can_start (status_of rt (la_id l)) = true;
  lo_idle : la_id l ∉ rt_running rt;
  lo_deps : forall dep, dep ∈ dn_deps (la_node l) -> is_Some (dget dep (rt_outputs rt));
  lo_message : la_message l = build_node_message rt (la_node l)
}.

Lemma can_start_idle rt k : dag_inv rt -> can_start (status_of rt k) = true -> k ∉ rt_running rt.
Proof. intros H Hc Hk. apply (di_flight rt H) in Hk. unfold in_flight in Hk. by rewrite Hk in Hc. Qed.

Definition started (k : string) (rt : DagRuntime) : DagRuntime :=
  set_running (rt_running rt ++ [k]) (set_node_status k DagStatus.RUNNING rt).

Lemma started_inv k rt : dag_inv rt -> can_start (status_of rt k) = true -> dag_inv (started k rt).
Proof.
  intros H Hc. pose proof (can_start_idle rt k H Hc) as Hk.
  assert (forall x, status_of (started k rt) x = if decide (x = k) then Some DagStatus.RUNNING else status_of rt x) as Hst.
  { intros x. unfold status_of, started. cbn. apply dget_dset. }
  destruct H. split; try done.
  - cbn. apply NoDup_app. split; [done|]. split; [|apply NoDup_singleton]. intros x Hx ->%list_elem_of_singleton. done.
  - intros x. unfold in_flight. rewrite Hst. cbn. rewrite elem_of_app, list_elem_of_singleton, di_flight0. unfold in_flight.
    destruct (decide (x = k)); naive_solver.
  - intros r Hr. rewrite Hst, decide_False; [by apply di_record0|]. intros E. apply di_record0 in Hr.
    rewrite <- E, Hr in Hc. unfold settled_as in Hc. by destruct (cr_ok r).
  - intros x. rewrite Hst. destruct (decide (x = k)) as [->|]; [by intros [?|?] | by auto].
  - intros n Hn. rewrite Hst. destruct (decide _); [by eexists | by apply di_status0].
  - intros x Hx. apply di_issued0. rewrite Hst in Hx. destruct (decide (x = k)) as [->|]; [|done].
    left. destruct (status_of rt k); [by eexists | done].
  - intros x. rewrite Hst. destruct (decide _); [done | apply di_live0].
Qed.

Lemma dispatch_one_ok rt k n :
  dag_inv rt -> n ∈ rt_plan rt -> dn_id n = k -> can_start (status_of rt k) = true ->
  (forall dep, dep ∈ dn_deps n -> is_Some (dget dep (rt_outputs rt))) ->
  exists l, dispatch_one rt k = Ok (started k rt, l) /\ la_id l = k /\ launch_ok rt l.
Proof.
  intros H Hn Hk Hc Hd. pose proof (can_start_idle rt k H Hc) as Hi.
  unfold dispatch_one, get_plan_node. rewrite (plan_node_of_plan _ k n) by (try done; by apply di_plan).
  pose proof (di_agents rt H n Hn) as [info Hinfo]%dkeys_dget. cbn. rewrite Hinfo. cbn.
  unfold start_running. rewrite bool_decide_false by done. eexists. split; [reflexivity|]. split; [done|].
  split; cbn; try done. all: unfold la_id; cbn; by rewrite Hk.
Qed.

Lemma dispatch_list_ok ks : forall rt,
  dag_inv rt -> NoDup ks ->
  (forall k, k ∈ ks -> exists n, n ∈ rt_plan rt /\ dn_id n = k /\ can_start (status_of rt k) = true /\
     (forall dep, dep ∈ dn_deps n -> is_Some (dget dep (rt_outputs rt)))) ->
  exists ls, dispatch_list ks rt = (foldl (fun rt k => started k rt) rt ks, ls, Ok tt) /\ la_id <$> ls = ks /\
    forall l, l ∈ ls -> launch_ok rt l.
Proof.
  induction ks as [|k ks IH]; intros rt H Hnd Hks; cbn [dispatch_list foldl].
  - exists []. split; [done|]. split; [done|]. by intros l ?%elem_of_nil.
  - apply NoDup_cons in Hnd as [Hk Hnd]. destruct (Hks k) as (n & Hn & Hid & Hc & Hd); [by left|].
    destruct (dispatch_one_ok rt k n) as (l & -> & Hl & Hlo); try done.
    destruct (IH (started k rt)) as (ls & -> & Hls & Hok); [by apply started_inv | done | |].
    + intros x Hx. destruct (Hks x) as (m & Hm & Hmid & Hmc & Hmd); [by right|]. exists m. do 2 (split; [done|]).
      split; [|done]. unfold status_of, started. cbn. rewrite dget_dset_ne; [done|]. by intros ->.
    + exists (l :: ls). split; [done|]. split; [by rewrite fmap_cons, Hl, Hls|].
      intros y [->|Hy]%elem_of_cons; [done|].
      assert (la_id y <> k) as Hne. { intros E. apply Hk. rewrite <- Hls, <- E. by apply list_elem_of_fmap_2. }
      destruct (Hok y Hy). split; try done.
      * revert lo_status0. unfold status_of, started. cbn. by rewrite dget_dset_ne.
      * intros Hr. apply lo_idle0. unfold started. cbn. apply elem_of_app. by left.
Qed.

Lemma dispatchable_elem rt k :
  k ∈ dispatchable rt -> exists n, n ∈ rt_plan rt /\ dn_id n = k /\ can_start (status_of rt k) = true /\
     (forall dep, dep ∈ dn_deps n -> is_Some (dget dep (rt_outputs rt))).
Proof.
  intros (n & -> & [Hn Hr]%elem_of_filterb)%list_elem_of_fmap. unfold node_ready in Hr. bool_prop.
  exists n. do 3 (split; [done|]). intros dep Hdep. rewrite forallb_elem in H0. specialize (H0 dep Hdep).
  unfold dmem in H0. by destruct (dget dep (rt_outputs rt)).
Qed.

Lemma dispatchable_nodup rt : dag_inv rt -> NoDup (dispatchable rt).
Proof. intros H. eapply sublist_NoDup; [apply (di_plan rt H) | apply fmap_sublist, filterb_sublist]. Qed.

Lemma started_all_fields ks : forall rt,
  let rt' := foldl (fun rt k => started k rt) rt ks in
  same_plan rt rt' /\ rt_outputs rt' = rt_outputs rt /\ rt_running rt' = rt_running rt ++ ks /\
  rt_completions rt' = rt_completions rt.
Proof.
  induction ks as [|k ks IH]; intros rt; cbn [foldl]; [by rewrite app_nil_r|].
  destruct (IH (started k rt)) as (Hs & Ho & Hr & Hc). split; [by etrans; [|exact Hs]|].
  rewrite Ho, Hr, Hc. cbn. by rewrite <- app_assoc.
Qed.

Lemma started_all_inv ks : forall rt,
  dag_inv rt -> NoDup ks -> (forall k, k ∈ ks -> can_start (status_of rt k) = true) ->
  dag_inv (foldl (fun rt k => started k rt) rt ks).
Proof.
  induction ks as [|k ks IH]; intros rt H Hnd Hks; cbn; [done|]. apply NoDup_cons in Hnd as [Hk Hnd].
  apply IH; [|done|].
  - apply started_inv; [done|]. apply Hks. by left.
  - intros x Hx. unfold status_of, started. cbn. rewrite dget_dset_ne; [apply Hks; by right|]. by intros ->.
Qed.

Lemma dispatch_ready_facts rt :
  dag_inv rt -> exists ls,
    _dispatch_ready rt = (foldl (fun rt k => started k rt) rt (dispatchable rt), ls, Ok tt) /\
    la_id <$> ls = dispatchable rt /\ (forall l, l ∈ ls -> launch_ok rt l) /\
    dag_inv (foldl (fun rt k => started k rt) rt (dispatchable rt)).
Proof.
  intros H. destruct (dispatch_list_ok (dispatchable rt) rt H) as (ls & E & Hls & Hok).
  - by apply dispatchable_nodup.
  - by intros k ?%dispatchable_elem.
  - exists ls. do 3 (split; [done|]). apply started_all_inv; [done | by apply dispatchable_nodup |].
    by intros k (n & _ & _ & Hc & _)%dispatchable_elem.
Qed.
