(* ===== verification/OrchestratorSpec.v ===== *)
(** * What an orchestration promises about its tasks

    An abstract machine that knows only which tasks are in flight and which nodes
    have an output; the pieces of the executor are sequences of its actions. *)
From S2P Require Import Prelude PyStr Dict Json DagPlan DagRuntime Orchestrator OrchestratorFacts.
Local Open Scope string_scope.
Local Open Scope list_scope.

(** ** The abstract machine *)

Record TaskState := mkTasks { ts_flight : gset string; ts_outputs : gset string }.

Inductive task_action :=
| StartTask (k : string) (deps : list string)
| TaskReturns (k : string)
| TaskRaises (k : string)
| CancelTasks.

(** A task starts only when none is in flight for its node and all it depends on
    has an output; it leaves an output when it returns, and none when it fails. *)
Inductive task_step : TaskState -> task_action -> TaskState -> Prop :=
| task_start fl out k deps :
    (k ∉ fl) -> (forall dep, dep ∈ deps -> dep ∈ out) ->
    task_step (mkTasks fl out) (StartTask k deps) (mkTasks ({[k]} ∪ fl) out)
| task_returns fl out k : k ∈ fl -> task_step (mkTasks fl out) (TaskReturns k) (mkTasks (fl ∖ {[k]}) ({[k]} ∪ out))
| task_raises fl out k : k ∈ fl -> task_step (mkTasks fl out) (TaskRaises k) (mkTasks (fl ∖ {[k]}) out)
| task_cancel fl out : task_step (mkTasks fl out) CancelTasks (mkTasks ∅ out).

(** The starts of a sequence of actions, in order. *)
Definition starts (tr : list task_action) : list (string * list string) :=
  omap (fun a => match a with StartTask k deps => Some (k, deps) | _ => None end) tr.

(** The abstract state of an orchestration. *)
Definition tasks_of (rt : DagRuntime) : TaskState :=
  mkTasks (list_to_set (rt_running rt)) (list_to_set (dkeys (rt_outputs rt))).

Definition launch_start (l : Launch) : string * list string := (la_id l, dn_deps (la_node l)).

(** A piece of the orchestration that launches [ls] is a sequence of actions with
    just these starts. *)
Definition refines (rt : DagRuntime) (ls : list Launch) (rt' : DagRuntime) : Prop :=
  exists tr, steps task_step (tasks_of rt) tr (tasks_of rt') /\ starts tr = launch_start <$> ls.

Lemma starts_app a b : starts (a ++ b) = starts a ++ starts b.
Proof. apply omap_app. Qed.

Lemma refines_app rt ls rt' ls' rt'' : refines rt ls rt' -> refines rt' ls' rt'' -> refines rt (ls ++ ls') rt''.
Proof.
  intros (t & Ht & Hs) (t' & Ht' & Hs'). exists (t ++ t'). split; [by eapply steps_app|].
  by rewrite starts_app, Hs, Hs', fmap_app.
Qed.

Lemma refines_same rt rt' : rt_running rt' = rt_running rt -> rt_outputs rt' = rt_outputs rt -> refines rt [] rt'.
Proof. intros Hr Ho. exists []. split; [|done]. unfold tasks_of. rewrite Hr, Ho. constructor. Qed.

(** After a piece that launches nothing. *)
Lemma refines_then rt rt' ls rt'' : refines rt [] rt' -> refines rt' ls rt'' -> refines rt ls rt''.
Proof. intros H K. exact (refines_app rt [] rt' ls rt'' H K). Qed.

Lemma refines_after rt ls rt' rt'' : refines rt ls rt' -> refines rt' [] rt'' -> refines rt ls rt''.
Proof. intros H K. rewrite <- (app_nil_r ls). by eapply refines_app. Qed.

Lemma refines_step rt ls rt' a :
  task_step (tasks_of rt) a (tasks_of rt') -> starts [a] = launch_start <$> ls -> refines rt ls rt'.
Proof. intros H Hs. exists [a]. split; [|done]. econstructor; [exact H | constructor]. Qed.

(** ** The pieces *)

Lemma shutdown_refines rt : refines rt [] (shutdown rt).
Proof. apply (refines_step _ _ _ CancelTasks); [|done]. constructor. Qed.

Lemma drop_set k (l : list string) :
  list_to_set (filterb (fun x => negb (bool_decide (x = k))) l) = (list_to_set l ∖ {[k]} : gset string).
Proof.
  apply set_eq. intros x. rewrite elem_of_difference, !elem_of_list_to_set, elem_of_filterb, elem_of_singleton.
  by rewrite negb_true_iff, bool_decide_eq_false.
Qed.

Lemma key_set k o (l : list (string * string)) : list_to_set (dkeys (dset k o l)) = ({[k]} ∪ list_to_set (dkeys l) : gset string).
Proof. apply set_eq. intros x. rewrite elem_of_union, !elem_of_list_to_set, elem_of_singleton. apply elem_of_dkeys_dset. Qed.

Lemma collect_one_refines ended rt k : k ∈ rt_running rt -> refines rt [] (collect_one ended rt k).
Proof.
  intros Hk. rewrite collect_one_end. destruct (ended k) as [[o|m]|]; [| |by apply refines_same].
  - apply (refines_step _ _ _ (TaskReturns k)); [|done]. unfold tasks_of.
    edestruct push_record_fields as (_ & _ & _ & -> & -> & _). cbn [rt_outputs rt_running end_task]. rewrite drop_set, key_set.
    constructor. by apply elem_of_list_to_set.
  - apply (refines_step _ _ _ (TaskRaises k)); [|done]. unfold tasks_of.
    edestruct push_record_fields as (_ & _ & _ & -> & -> & _). cbn [rt_outputs rt_running end_task]. rewrite drop_set.
    constructor. by apply elem_of_list_to_set.
Qed.

Lemma collect_list_refines ended l : forall rt,
  NoDup l -> (forall k, k ∈ l -> k ∈ rt_running rt) -> refines rt [] (foldl (collect_one ended) rt l).
Proof.
  induction l as [|k l IH]; intros rt Hnd Hin; cbn [foldl]; [by apply refines_same|].
  apply NoDup_cons in Hnd as [Hk Hnd].
  eapply refines_then; [apply collect_one_refines, Hin; by left|]. apply IH; [done|].
  intros x Hx. destruct (collect_one_fields ended rt k) as (_ & _ & _ & _ & _ & ->).
  destruct (ended k); [|apply Hin; by right]. apply elem_of_filterb. split; [apply Hin; by right|].
  apply negb_true_iff, bool_decide_eq_false. by intros ->.
Qed.

Lemma look_refines env i rt : dag_inv rt -> refines rt [] (look env i rt).
Proof. intros H. apply collect_list_refines; [by apply di_nodup | done]. Qed.

Lemma drain_refines fuel env : forall i rt rt', dag_inv rt -> drain fuel env i rt = Some rt' -> refines rt [] rt'.
Proof.
  induction fuel as [|fuel IH]; intros i rt rt' H; cbn; destruct (rt_running rt) eqn:E; try done;
    try (by intros [= <-]; apply refines_same).
  intros Hd. eapply refines_then; [by apply look_refines|]. eapply IH; [|exact Hd]. by apply look_facts.
Qed.

Lemma started_refines rt l : launch_ok rt l -> refines rt [l] (started (la_id l) rt).
Proof.
  intros H. apply (refines_step _ _ _ (StartTask (la_id l) (dn_deps (la_node l)))); [|done]. unfold tasks_of. cbn [started set_running set_node_status rt_outputs rt_running].
  replace (list_to_set (rt_running rt ++ [la_id l]) : gset string) with ({[la_id l]} ∪ list_to_set (rt_running rt) : gset string)
    by (apply set_eq; intros x; set_solver).
  constructor; [rewrite elem_of_list_to_set; by apply lo_idle|].
  intros dep Hd. apply elem_of_list_to_set. apply (lo_deps _ _ H) in Hd as [o Ho]. by eapply dget_Some_key.
Qed.

Lemma started_all_refines ls : forall rt,
  (forall l, l ∈ ls -> launch_ok rt l) -> NoDup (la_id <$> ls) ->
  refines rt ls (foldl (fun rt k => started k rt) rt (la_id <$> ls)).
Proof.
  induction ls as [|l ls IH]; intros rt Hok Hnd; cbn [foldl fmap list_fmap]; [by apply refines_same|].
  rewrite fmap_cons in Hnd. apply NoDup_cons in Hnd as [Hl Hnd].
  apply (refines_app _ [l] (started (la_id l) rt)); [apply started_refines, Hok; by left|].
  apply IH; [|done]. intros y Hy. destruct (Hok y) as [? ? Hs Hi ? ?]; [by right|].
  assert (la_id y <> la_id l) as Hne. { intros E. apply Hl. rewrite <- E. by apply list_elem_of_fmap_2. }
  split; try done.
  - revert Hs. unfold status_of, started. cbn. by rewrite dget_dset_ne.
  - cbn. rewrite elem_of_app, list_elem_of_singleton. tauto.
Qed.
