(* ===== verification/OrchestratorRuns.v ===== *)
(** * Runs of the workflow orchestrator

    Plans, assists, the executor and the helper against the invariant; then what
    holds after every run. *)
From S2P Require Import Prelude PyStr Dict Json Dag DagPlan DagRuntime Orchestrator OrchestratorFacts.
From S2P Require Import OrchestratorSpec.
From Stdlib Require Import Ascii.
Local Open Scope string_scope.
Local Open Scope list_scope.

(** ** A new plan *)

(** The nodes that a new plan makes ready to run. *)
Definition revived (rt : DagRuntime) (nodes : list PlanNode) (k : string) : bool :=
  bool_decide (k ∈ (dn_id <$> nodes)) && negb (in_plan rt k) &&
  match status_of rt k with None | Some DagStatus.PENDING | Some DagStatus.CANCELLED => true | _ => false end.

Lemma in_plan_node rt k : in_plan rt k = match plan_node_of (rt_plan rt) k with Some _ => true | None => false end.
Proof.
  destruct (plan_node_of (rt_plan rt) k) as [n|] eqn:E.
  - apply in_plan_true. exists n. by apply plan_node_of_elem in E.
  - apply existsb_false. intros n Hn. by apply (proj1 (find_first_none _ _) E n Hn).
Qed.

Lemma diff_status_one rt st n k :
  dget k (diff_status rt st n) =
    if decide (k = dn_id n) then
      if in_plan rt k then dget k st
      else match dget k st with
           | None | Some DagStatus.PENDING | Some DagStatus.CANCELLED => Some DagStatus.PENDING
           | s => s
           end
    else dget k st.
Proof.
  unfold diff_status. rewrite in_plan_node. destruct (decide (k = dn_id n)) as [->|Hne].
  - destruct (plan_node_of (rt_plan rt) (dn_id n)); [done|].
    destruct (dget (dn_id n) st) as [[]|] eqn:E; rewrite ?dget_dset_eq; done.
  - destruct (plan_node_of (rt_plan rt) (dn_id n)); [done|].
    destruct (dget (dn_id n) st) as [[]|] eqn:E; by rewrite ?dget_dset_ne.
Qed.

Lemma diff_status_all rt nodes : forall st k,
  dget k (foldl (diff_status rt) st nodes) =
    if bool_decide (k ∈ (dn_id <$> nodes)) && negb (in_plan rt k) then
      match dget k st with
      | None | Some DagStatus.PENDING | Some DagStatus.CANCELLED => Some DagStatus.PENDING
      | s => s
      end
    else dget k st.
Proof.
  induction nodes as [|n nodes IH]; intros st k; cbn [foldl]; [by rewrite bool_decide_false by apply not_elem_of_nil|].
  rewrite IH, diff_status_one, fmap_cons.
  destruct (in_plan rt k) eqn:Ep; cbn [negb].
  - rewrite !andb_false_r. by destruct (decide _).
  - rewrite !andb_true_r. destruct (decide (k = dn_id n)) as [->|Hne].
    + rewrite (bool_decide_true (_ ∈ _ :: _)) by (by left).
      destruct (bool_decide _), (dget (dn_id n) st) as [[]|]; done.
    + by rewrite (bool_decide_ext (k ∈ dn_id n :: _) (k ∈ dn_id <$> nodes)) by (rewrite elem_of_cons; naive_solver).
Qed.

Lemma diff_node_same rt ids n : dn_id (diff_node rt ids n) = dn_id n /\ dn_agent_name (diff_node rt ids n) = dn_agent_name n.
Proof.
  unfold diff_node, keep_node. destruct (plan_node_of _ _) as [old|]; [|done].
  by destruct (dn_assist_for old), (dn_assist_for n), (bool_decide _).
Qed.

Lemma merge_deps_from (reachable : string -> bool) (deps : list string) : forall acc,
  let merged := foldl (fun merged dep => if bool_decide (dep ∉ merged) && reachable dep then merged ++ [dep] else merged) acc deps in
  NoDup acc -> NoDup merged /\ forall d, d ∈ merged <-> d ∈ acc \/ (d ∈ deps /\ reachable d = true).
Proof.
  induction deps as [|d deps IH]; intros acc; cbn [foldl].
  - intros Hnd. split; [done|]. intros d. rewrite elem_of_nil. naive_solver.
  - intros Hnd. destruct (bool_decide (d ∉ acc)) eqn:Ed; cbn [andb]; [destruct (reachable d) eqn:Er|]; bool_prop.
    + destruct (IH (acc ++ [d])) as [H1 H2].
      { apply NoDup_app. split; [done|]. split; [|apply NoDup_singleton]. intros x Hx Hy. apply list_elem_of_singleton in Hy as ->. done. }
      split; [done|]. intros x. rewrite H2, elem_of_app, list_elem_of_singleton, elem_of_cons. naive_solver.
    + destruct (IH acc Hnd) as [H1 H2]. split; [done|]. intros x. rewrite H2, elem_of_cons.
      split; [naive_solver|]. intros [?|[[->|?] ?]]; [by left | congruence | by right].
    + destruct (IH acc Hnd) as [H1 H2]. split; [done|]. intros x. rewrite H2, elem_of_cons.
      split; [naive_solver|]. intros [?|[[->|?] ?]]; [by left | left; by apply dec_stable | by right].
Qed.

Lemma merge_deps_spec reachable deps :
  NoDup (merge_deps reachable deps) /\ forall d, d ∈ merge_deps reachable deps <-> d ∈ deps /\ reachable d = true.
Proof.
  destruct (merge_deps_from reachable deps []) as [H1 H2]; [by apply NoDup_nil_2|]. split; [done|].
  intros d. unfold merge_deps. rewrite H2, elem_of_nil. naive_solver.
Qed.

(** A dependency of a node after a replan is one the plan gives it, another node of
    the plan, or has an output. *)
Lemma diff_node_dep rt ids n d :
  d ∈ dn_deps (diff_node rt ids n) -> d ∈ dn_deps n \/ d ∈ ids \/ d ∈ dkeys (rt_outputs rt).
Proof.
  unfold diff_node, keep_node. destruct (plan_node_of _ _) as [old|]; [|by left].
  set (m := match dn_assist_for old with Some _ => _ | None => _ end).
  assert (dn_deps m = dn_deps n) as E by (by destruct (dn_assist_for old), (dn_assist_for n)).
  case_bool_decide; [|rewrite E; by left]. cbn [dn_deps set_deps]. intros Hd. apply (proj2 (merge_deps_spec _ _)) in Hd as [_ Hd].
  apply orb_true_iff in Hd as [Hd|Hd]; bool_prop; right; [by left | right; by apply dmem_true].
Qed.

Lemma diff_node_deps rt ids n :
  status_of rt (dn_id n) <> Some DagStatus.WAITING_ASSIST -> dn_deps (diff_node rt ids n) = dn_deps n.
Proof.
  intros Hs. unfold diff_node, keep_node. destruct (plan_node_of _ _) as [old|]; [|done].
  destruct (dn_assist_for old), (dn_assist_for n); cbn [dn_id set_assist_for]; by rewrite bool_decide_false.
Qed.

(** The state after an accepted plan. *)
Lemma apply_plan_ok plan rt rt' :
  apply_plan plan rt = Ok rt' ->
  validate_dag plan MAX_PLAN_NODES = Ok tt /\
  rt_plan rt' = diff_node rt (dn_id <$> dp_nodes plan) <$> dp_nodes plan /\
  (dn_id <$> rt_plan rt') = dn_id <$> dp_nodes plan /\
  (forall k, status_of rt' k = if revived rt (dp_nodes plan) k then Some DagStatus.PENDING else status_of rt k) /\
  rt_agents rt' = rt_agents rt /\ rt_outputs rt' = rt_outputs rt /\ rt_running rt' = rt_running rt /\
  sublist (rt_completions rt') (rt_completions rt) /\
  rt_assist_seq rt' = rt_assist_seq rt /\ rt_assist_depth rt' = rt_assist_depth rt /\
  (rt_done_requested rt' = true <-> dp_nodes plan = []).
Proof.
  unfold apply_plan. destruct (validate_dag plan MAX_PLAN_NODES) as [[]|e] eqn:E; cbn; [|done].
  intros [= <-]. cbn. split; [done|]. split; [done|]. split.
  { rewrite <- list_fmap_compose. apply list_fmap_ext. intros i n _. cbn. apply diff_node_same. }
  split. { intros k. unfold status_of at 1, revived. cbn. rewrite diff_status_all. fold (status_of rt k).
    destruct (bool_decide _), (in_plan rt k); cbn; try done. by destruct (status_of rt k) as [[]|]. }
  do 3 (split; [done|]). split; [destruct (dp_nodes plan); [apply sublist_nil_l | done]|].
  do 2 (split; [done|]). by destruct (dp_nodes plan).
Qed.

Definition plan_fits (rt : DagRuntime) (plan : DagPlan) : Prop :=
  forall n, n ∈ dp_nodes plan -> dn_agent_name n ∈ dkeys (rt_agents rt) /\ issued (rt_assist_seq rt) (dn_id n).

Lemma plan_allowed_fits rt plan : plan_allowed rt (Some plan) -> plan_fits rt plan.
Proof.
  intros Hal n Hn. destruct (Hal plan eq_refl) as [(schema & Hsch & Hag) Hiss]. split; [|by apply Hiss].
  unfold constrained_plan_schema in Hsch. destruct (dkeys (rt_agents rt)) eqn:E; [done|]. injection Hsch as <-.
  rewrite forallb_elem in Hag. specialize (Hag n Hn). by bool_prop.
Qed.

Lemma apply_plan_inv plan rt rt' :
  dag_inv rt -> plan_fits rt plan -> apply_plan plan rt = Ok rt' -> dag_inv rt'.
Proof.
  intros H Hfit Hap.
  apply apply_plan_ok in Hap as (Hv & Hp & Hids & Hst & Hagents & Hout & Hrun & Hcomp & Hseq & Hdep & _).
  apply validate_dag_ok in Hv as (_ & Hnd & _).
  assert (forall n, n ∈ rt_plan rt' -> exists m, m ∈ dp_nodes plan /\ dn_id n = dn_id m /\ dn_agent_name n = dn_agent_name m) as Hnode.
  { intros n Hn. rewrite Hp in Hn. apply list_elem_of_fmap in Hn as (m & -> & Hm). exists m. split; [done|]. apply diff_node_same. }
  assert (forall k s, status_of rt k = Some s -> s <> DagStatus.PENDING -> s <> DagStatus.CANCELLED -> status_of rt' k = Some s) as Hkeep.
  { intros k s Hs H1 H2. rewrite Hst. unfold revived. rewrite Hs. destruct s; rewrite ?andb_false_r; done. }
  assert (forall k s, status_of rt' k = Some s -> s <> DagStatus.PENDING -> status_of rt k = Some s) as Hback.
  { intros k s. rewrite Hst. destruct (revived _ _ _); [by intros [= <-] | done]. }
  assert (forall k s, status_of rt' k = Some s -> is_Some (status_of rt k) \/ k ∈ dn_id <$> dp_nodes plan) as Hnew.
  { intros k s. rewrite Hst. destruct (revived rt (dp_nodes plan) k) eqn:E.
    - intros _. right. unfold revived in E. by bool_prop.
    - intros ->. left. by eexists. }
  split.
  - rewrite Hrun. by apply di_nodup.
  - intros k. rewrite Hrun, (di_flight rt H). unfold in_flight. split; intros Hs; [by apply Hkeep | by apply Hback].
  - eapply sublist_NoDup; [apply (di_records rt H) | by apply fmap_sublist].
  - intros r Hr. assert (r ∈ rt_completions rt) as Hr' by (by eapply elem_of_sublist).
    apply (di_record rt H) in Hr'. apply Hkeep; [done | |]; unfold settled_as; by destruct (cr_ok r).
  - intros k Hk. rewrite Hout. apply (di_outputs rt H). destruct Hk as [Hk|Hk]; [left | right]; by apply Hback.
  - by rewrite Hids.
  - intros n Hn. destruct (Hnode n Hn) as (m & Hm & Hid & _). rewrite Hst.
    destruct (revived rt (dp_nodes plan) (dn_id n)) eqn:E; [by eexists|].
    unfold revived in E. rewrite bool_decide_true in E by (rewrite Hid; by apply list_elem_of_fmap_2).
    destruct (in_plan rt (dn_id n)) eqn:Ep.
    + apply in_plan_true in Ep as (o & Ho & Hoid). rewrite <- Hoid. by apply (di_status rt H).
    + cbn in E. destruct (status_of rt (dn_id n)) as [s|]; [by eexists | done].
  - intros n Hn. destruct (Hnode n Hn) as (m & Hm & _ & Hagn). rewrite Hagents, Hagn. by apply Hfit.
  - rewrite Hseq. apply (di_seq rt H).
  - intros k Hk. rewrite Hseq, Hdep in *. destruct Hk as [[s Hs]|Hk].
    + destruct (Hnew k s Hs) as [Hk|Hk]; [apply (di_issued rt H); by left|].
      apply list_elem_of_fmap in Hk as (n & -> & Hn). by apply Hfit.
    + apply (di_issued rt H). by right.
  - intros k E. apply Hback in E; [|done]. by apply (di_live rt H) in E.
Qed.

Lemma apply_plan_bounded plan rt rt' : dag_bounded rt -> apply_plan plan rt = Ok rt' -> dag_bounded rt'.
Proof.
  intros [_ Hd] Hap. apply apply_plan_ok in Hap as (Hv & Hp & _ & _ & _ & _ & _ & _ & _ & Hdep & _).
  apply validate_dag_ok in Hv as (Hl & _). split; [by rewrite Hp, length_fmap|]. intros k. unfold depth_of. rewrite Hdep. apply Hd.
Qed.

(** ** Assists *)

Lemma update_first_ids k f l : (forall n, dn_id (f n) = dn_id n) -> dn_id <$> update_first k f l = dn_id <$> l.
Proof.
  intros Hf. induction l as [|n l IH]; [done|]. cbn [update_first]. case_bool_decide; rewrite !fmap_cons.
  - by rewrite Hf.
  - by rewrite IH.
Qed.

Lemma update_first_elem k f l n : n ∈ update_first k f l -> n ∈ l \/ exists m, m ∈ l /\ dn_id m = k /\ n = f m.
Proof.
  induction l as [|m l IH]; cbn [update_first]; [by left|]. case_bool_decide as Hm.
  - intros [->|Hn]%elem_of_cons; [right; exists m; split; [by left | done] | left; by right].
  - intros [->|Hn]%elem_of_cons; [left; by left|]. destruct (IH Hn) as [?|(x & Hx & ?)]; [left; by right|].
    right. exists x. split; [by right | done].
Qed.

Lemma wire_parent_same a n : dn_id (wire_parent a n) = dn_id n /\ dn_agent_name (wire_parent a n) = dn_agent_name n.
Proof. unfold wire_parent. by destruct (bool_decide _). Qed.

(** The state after an assist. *)
Lemma add_assist_ok parent_id agent_name instruction rt rt' id :
  add_assist parent_id agent_name instruction rt = Ok (rt', id) ->
  id = assist_id_of parent_id (rt_assist_seq rt + 1) /\
  (exists assist, dn_id assist = id /\ dn_agent_name assist = agent_name /\ dn_deps assist = [] /\
     dn_assist_for assist = Some parent_id /\
     rt_plan rt' = update_first parent_id (wire_parent id) (rt_plan rt) ++ [assist]) /\
  (forall k, status_of rt' k = if decide (k = parent_id) then Some DagStatus.WAITING_ASSIST
                               else if decide (k = id) then Some DagStatus.PENDING else status_of rt k) /\
  rt_assist_seq rt' = (rt_assist_seq rt + 1)%Z /\
  rt_assist_depth rt' = dset id (depth_of rt parent_id + 1)%Z (rt_assist_depth rt) /\
  rt_agents rt' = rt_agents rt /\ rt_outputs rt' = rt_outputs rt /\ rt_running rt' = rt_running rt /\
  rt_completions rt' = rt_completions rt /\ rt_done_requested rt' = rt_done_requested rt /\ in_plan rt parent_id = true.
Proof.
  unfold add_assist. destruct (get_plan_node rt parent_id) as [n|e] eqn:E; cbn; [|done].
  intros [= <- <-]. split; [done|]. split; [eexists; split; [|split; [|split; [|split; [|reflexivity]]]]; reflexivity|]. split.
  { intros k. unfold status_of. cbn. rewrite !dget_dset. done. }
  repeat (split; [done|]). unfold get_plan_node in E. rewrite in_plan_node. by destruct (plan_node_of _ _).
Qed.

Lemma add_assist_inv parent_id agent_name instruction rt rt' id :
  dag_inv rt -> agent_name ∈ dkeys (rt_agents rt) ->
  status_of rt parent_id = Some DagStatus.COMPLETED \/ status_of rt parent_id = Some DagStatus.WAITING_ASSIST ->
  parent_id ∉ (cr_node_id <$> rt_completions rt) ->
  add_assist parent_id agent_name instruction rt = Ok (rt', id) -> dag_inv rt'.
Proof.
  intros H Hag Hpst Hrec Had.
  apply add_assist_ok in Had as (Hid & (assist & Ha1 & Ha2 & _ & _ & Hp) & Hst & Hseq & Hdep & Hagents & Hout & Hrun & Hcomp & _ & _).
  pose proof (di_seq rt H) as Hs0.
  assert (forall k, issued (rt_assist_seq rt) k -> k <> id) as Hfresh.
  { intros k Hk ->. specialize (Hk _ _ Hid). lia. }
  assert (status_of rt id = None) as Hnone.
  { destruct (status_of rt id) eqn:E; [|done]. exfalso. apply (Hfresh id); [|done]. apply (di_issued rt H). left. by rewrite E. }
  assert (id <> parent_id) as Hne by (rewrite Hid; apply assist_id_parent).
  assert (dn_id <$> rt_plan rt' = (dn_id <$> rt_plan rt) ++ [id]) as Hids.
  { rewrite Hp, fmap_app. cbn. rewrite Ha1, update_first_ids; [done|]. intros n. apply wire_parent_same. }
  split.
  - rewrite Hrun. by apply di_nodup.
  - intros k. rewrite Hrun, (di_flight rt H). unfold in_flight. rewrite Hst.
    destruct (decide (k = parent_id)) as [->|]; [naive_solver|]. destruct (decide (k = id)) as [->|]; naive_solver.
  - rewrite Hcomp. by apply di_records.
  - intros r Hr. rewrite Hcomp in Hr. pose proof (di_record rt H r Hr) as Hr'. rewrite Hst.
    destruct (decide _) as [E|_]; [destruct Hrec; rewrite <- E; by apply list_elem_of_fmap_2|].
    destruct (decide _) as [E|_]; [|done]. rewrite E, Hnone in Hr'. done.
  - intros k. rewrite Hst, Hout. destruct (decide (k = parent_id)) as [->|]; [intros _; by apply (di_outputs rt H)|].
    destruct (decide (k = id)); [by intros [?|?] | by apply (di_outputs rt H)].
  - rewrite Hids. apply NoDup_app. split; [by apply di_plan|]. split; [|apply NoDup_singleton].
    intros x (n & -> & Hn)%list_elem_of_fmap E%list_elem_of_singleton.
    apply (di_status rt H) in Hn as [s Hs]. by rewrite E, Hnone in Hs.
  - intros n Hn. apply (list_elem_of_fmap_2 dn_id) in Hn. rewrite Hids in Hn. rewrite Hst.
    destruct (decide _); [by eexists|]. destruct (decide _) as [|Hx]; [by eexists|].
    apply elem_of_app in Hn as [(m & -> & Hm)%list_elem_of_fmap | E%list_elem_of_singleton]; [by apply di_status | done].
  - intros n Hn. rewrite Hagents. rewrite Hp in Hn.
    apply elem_of_app in Hn as [Hn | ->%list_elem_of_singleton]; [|by rewrite Ha2].
    apply update_first_elem in Hn as [Hn | (m & Hm & _ & ->)]; [by apply di_agents|].
    rewrite (proj2 (wire_parent_same _ _)). by apply di_agents.
  - rewrite Hseq. lia.
  - intros k Hk p m Hkm. rewrite Hseq. rewrite Hdep in Hk. destruct (decide (k = id)) as [->|Hki].
    + rewrite Hid in Hkm. destruct (decide (0 <= m)%Z); [|lia]. apply assist_id_seq in Hkm; lia.
    + assert (m <= rt_assist_seq rt)%Z; [|lia]. apply (di_issued rt H k) with p; [|done].
      destruct Hk as [[s Hs]|Hk]; [left | right; apply elem_of_dkeys_dset in Hk as [|]; done].
      rewrite Hst in Hs. destruct (decide (k = parent_id)) as [->|]; [destruct Hpst as [E|E]; by rewrite E|].
      rewrite decide_False in Hs by done. by eexists.
  - intros k. rewrite Hst. destruct (decide _); [done|]. destruct (decide _); [done | apply (di_live rt H)].
Qed.

Lemma add_assist_bounded parent_id agent_name instruction rt rt' id :
  dag_bounded rt -> (depth_of rt parent_id + 1 <= MAX_ASSIST_DEPTH)%Z -> (Z.of_nat (length (rt_plan rt)) + 1 <= MAX_PLAN_NODES)%Z ->
  add_assist parent_id agent_name instruction rt = Ok (rt', id) ->
  dag_bounded rt' /\ depth_of rt' parent_id = depth_of rt parent_id /\ length (rt_plan rt') = S (length (rt_plan rt)).
Proof.
  intros [Hs Hd] Hd1 Hs1 Had.
  apply add_assist_ok in Had as (Hid & (assist & _ & _ & _ & _ & Hp) & _ & _ & Hdep & _).
  assert (length (rt_plan rt') = S (length (rt_plan rt))) as Hlen.
  { rewrite Hp, length_app. cbn. rewrite <- (length_fmap dn_id), update_first_ids, length_fmap; [lia|].
    intros n. apply wire_parent_same. }
  split; [split; [rewrite Hlen; lia|] | split; [|done]].
  - intros k. unfold depth_of. rewrite Hdep, dget_dset. case_decide; cbn; [|apply Hd]. pose proof (Hd parent_id). lia.
  - unfold depth_of. rewrite Hdep, dget_dset_ne; [done|]. rewrite Hid. intros E. by apply (assist_id_parent _ _ (eq_sym E)).
Qed.

Definition waits_for_assist (rt : DagRuntime) (k : string) : Prop :=
  in_plan rt k = true /\ (status_of rt k = Some DagStatus.COMPLETED \/ status_of rt k = Some DagStatus.WAITING_ASSIST) /\
  k ∉ (cr_node_id <$> rt_completions rt).

(** The helper's loop over the candidates. *)
Lemma add_assists_ok parent_id l : forall rt,
  dag_inv rt -> dag_bounded rt -> waits_for_assist rt parent_id ->
  (forall m, m ∈ l -> m.1 ∈ dkeys (rt_agents rt)) ->
  (depth_of rt parent_id + 1 <= MAX_ASSIST_DEPTH)%Z -> (Z.of_nat (length (rt_plan rt)) + Z.of_nat (length l) <= MAX_PLAN_NODES)%Z ->
  exists rt', add_assists parent_id l rt = Ok rt' /\ dag_inv rt' /\ dag_bounded rt' /\
    rt_outputs rt' = rt_outputs rt /\ rt_running rt' = rt_running rt /\ rt_agents rt' = rt_agents rt /\
    rt_assist_seq rt' = (rt_assist_seq rt + Z.of_nat (length l))%Z /\
    length (rt_plan rt') = length (rt_plan rt) + length l /\
    (l <> [] -> status_of rt' parent_id = Some DagStatus.WAITING_ASSIST).
Proof.
  induction l as [|[ag instr] l IH]; intros rt H Hb (Hin & Hst & Hrec) Hag Hd Hl; cbn [add_assists].
  - exists rt. do 6 (split; [done|]). split; [cbn; lia|]. split; [cbn; lia | done].
  - destruct (add_assist parent_id ag instr rt) as [[rt1 id]|e] eqn:E.
    2: { unfold add_assist in E. destruct (in_plan_get _ _ Hin) as (n & Hn & _). rewrite Hn in E. done. }
    pose proof (add_assist_ok _ _ _ _ _ _ E)
      as (_ & _ & Hst1 & Hseq & _ & Hagents & Hout & Hrun & Hcomp & _ & _).
    assert (dag_inv rt1) as H1. { eapply add_assist_inv; [exact H | | exact Hst | exact Hrec | exact E]. apply (Hag (ag, instr)). by left. }
    cbn [length] in Hl. assert (Z.of_nat (length (rt_plan rt)) + 1 <= MAX_PLAN_NODES)%Z as Hl1 by lia.
    destruct (add_assist_bounded _ _ _ _ _ _ Hb Hd Hl1 E) as (Hb1 & Hd1 & Hlen).
    assert (status_of rt1 parent_id = Some DagStatus.WAITING_ASSIST) as Hw by (by rewrite Hst1, decide_True).
    destruct (IH rt1) as (rt2 & E2 & H2 & Hb2 & Ho2 & Hr2 & Ha2 & Hs2 & Hl2 & Hw2); try done.
    + split; [|split; [by right | by rewrite Hcomp]]. apply add_assist_ok in E as (_ & (as' & _ & _ & _ & _ & Hp) & _).
      apply in_plan_true. apply in_plan_true in Hin as (n & Hn & Hnid).
      assert (parent_id ∈ dn_id <$> rt_plan rt1) as (m & Hm & Hmp)%list_elem_of_fmap; [|by exists m].
      rewrite Hp, fmap_app, update_first_ids by (intros; apply wire_parent_same). apply elem_of_app. left.
      rewrite <- Hnid. by apply list_elem_of_fmap_2.
    + intros m Hm. rewrite Hagents. apply Hag. by right.
    + lia.
    + rewrite Hlen. lia.
    + exists rt2. cbn. rewrite E2. split; [done|]. do 2 (split; [done|]). rewrite Ho2, Hr2, Ha2, Hs2, Hl2, Hseq, Hlen.
      do 3 (split; [done|]). split; [cbn; lia|]. split; [cbn; lia|]. intros _. destruct l; [|by apply Hw2].
      cbn in E2. by injection E2 as <-.
Qed.

(** The node of an assist. *)
Definition assist_node (parent_id : string) (seq : Z) (m : string * string) : PlanNode :=
  mkPlanNode (assist_id_of parent_id seq) ("assist:" +:+ m.1) m.1
    (m.2 +:+ nl +:+ nl +:+ "[" +:+ parent_id +:+ " output]" +:+ nl +:+ output_ref parent_id) [] (Some parent_id).

(** The ids and the nodes of the assists for the requests [l], after [seq] of them. *)
Definition assist_ids (parent_id : string) (seq : Z) (l : list (string * string)) : list string :=
  imap (fun i _ => assist_id_of parent_id (seq + 1 + Z.of_nat i)) l.
Definition assist_nodes (parent_id : string) (seq : Z) (l : list (string * string)) : list PlanNode :=
  imap (fun i m => assist_node parent_id (seq + 1 + Z.of_nat i) m) l.

Lemma assist_ids_cons parent_id seq m l :
  assist_ids parent_id seq (m :: l) = assist_id_of parent_id (seq + 1) :: assist_ids parent_id (seq + 1) l.
Proof. unfold assist_ids. rewrite imap_cons. f_equal; [f_equal; lia|]. apply imap_ext. intros i x _. cbn. f_equal. lia. Qed.

Lemma assist_nodes_cons parent_id seq m l :
  assist_nodes parent_id seq (m :: l) = assist_node parent_id (seq + 1) m :: assist_nodes parent_id (seq + 1) l.
Proof. unfold assist_nodes. rewrite imap_cons. f_equal; [f_equal; lia|]. apply imap_ext. intros i x _. cbn. f_equal. lia. Qed.

Lemma assist_nodes_ids parent_id seq l : dn_id <$> assist_nodes parent_id seq l = assist_ids parent_id seq l.
Proof. unfold assist_nodes, assist_ids. by rewrite fmap_imap. Qed.

Lemma assist_ids_elem parent_id seq l k :
  k ∈ assist_ids parent_id seq l -> exists m, (seq < m)%Z /\ k = assist_id_of parent_id m.
Proof. intros (i & x & -> & _)%elem_of_lookup_imap_1. eexists. split; [|done]. lia. Qed.

Lemma assist_ids_fresh parent_id seq l k : issued seq k -> k ∉ assist_ids parent_id seq l.
Proof. intros H (m & Hm & ->)%assist_ids_elem. specialize (H _ _ eq_refl). lia. Qed.

Lemma assist_ids_parent parent_id seq l : parent_id ∉ assist_ids parent_id seq l.
Proof. intros (m & _ & E)%assist_ids_elem. by apply (assist_id_parent parent_id m). Qed.

Lemma update_first_app k f l l' : k ∈ dn_id <$> l -> update_first k f (l ++ l') = update_first k f l ++ l'.
Proof.
  induction l as [|n l IH]; cbn [fmap list_fmap app update_first]; [by intros ?%elem_of_nil|].
  case_bool_decide; [done|]. intros [->|Hk]%elem_of_cons; [done|]. by rewrite IH.
Qed.

Lemma update_first_twice k f g l :
  (forall n, dn_id (f n) = dn_id n) -> update_first k g (update_first k f l) = update_first k (fun n => g (f n)) l.
Proof.
  intros Hf. induction l as [|n l IH]; [done|]. cbn [update_first]. case_bool_decide as E; cbn [update_first].
  - rewrite Hf. by rewrite bool_decide_true.
  - rewrite bool_decide_false by done. by rewrite IH.
Qed.

(** With unique ids, it is the one node with that id that changes. *)
Lemma update_first_unique k f l n :
  NoDup (dn_id <$> l) -> n ∈ l -> dn_id n = k ->
  update_first k f l = (fun x => if bool_decide (dn_id x = k) then f n else x) <$> l.
Proof.
  induction l as [|m l IH]; [done|]. rewrite fmap_cons. intros [Hm Hnd]%NoDup_cons Hn Hk. cbn [update_first].
  rewrite fmap_cons. case_bool_decide as E.
  - apply elem_of_cons in Hn as [->|Hn]; [|destruct Hm; rewrite E, <- Hk; by apply list_elem_of_fmap_2]. f_equal.
    rewrite <- (list_fmap_id l) at 1. apply list_fmap_ext. intros i x Hx%list_elem_of_lookup_2. cbn.
    rewrite bool_decide_false; [done|]. intros Ex. apply Hm. rewrite E, <- Ex. by apply list_elem_of_fmap_2.
  - apply elem_of_cons in Hn as [->|Hn]; [done|]. by rewrite IH.
Qed.

(** All a series of assists changes. *)
Lemma add_assists_shape parent_id l : forall rt rt',
  in_plan rt parent_id = true -> add_assists parent_id l rt = Ok rt' ->
  let ids := assist_ids parent_id (rt_assist_seq rt) l in
  rt_plan rt' = update_first parent_id (fun n => foldl (fun n a => wire_parent a n) n ids) (rt_plan rt)
                ++ assist_nodes parent_id (rt_assist_seq rt) l /\
  (forall k, status_of rt' k = if bool_decide (k ∈ ids) then Some DagStatus.PENDING
                               else if bool_decide (k = parent_id) && negb (bool_decide (l = [])) then Some DagStatus.WAITING_ASSIST
                               else status_of rt k) /\
  (forall k, depth_of rt' k = if bool_decide (k ∈ ids) then (depth_of rt parent_id + 1)%Z else depth_of rt k) /\
  rt_assist_seq rt' = (rt_assist_seq rt + Z.of_nat (length l))%Z.
Proof.
  induction l as [|[ag instr] l IH]; intros rt rt' Hin Ha; cbn [add_assists] in Ha.
  - injection Ha as <-. cbn. rewrite app_nil_r. split; [|split; [|split; [done | lia]]].
    + generalize (rt_plan rt). intros pl. induction pl as [|n pl IHp]; [done|]. cbn. case_bool_decide; [done | by rewrite <- IHp].
    + intros k. by rewrite andb_false_r.
  - destruct (add_assist parent_id ag instr rt) as [[rt1 id]|e] eqn:E; cbn in Ha; [|done]. cbv zeta.
    assert (rt_plan rt1 = update_first parent_id (wire_parent id) (rt_plan rt) ++ [assist_node parent_id (rt_assist_seq rt + 1) (ag, instr)]) as Hp.
    { revert E. unfold add_assist. destruct (get_plan_node rt parent_id); [|done]. cbn. by intros [= <- <-]. }
    apply add_assist_ok in E as (Hid & _ & Hst & Hseq & Hdep & _).
    assert (parent_id ∈ dn_id <$> rt_plan rt) as Hpar by (apply in_plan_true in Hin as (n & ? & <-); by apply list_elem_of_fmap_2).
    assert (parent_id ∈ dn_id <$> update_first parent_id (wire_parent id) (rt_plan rt)) as Hpar1
      by (rewrite update_first_ids; [done | intros; apply wire_parent_same]).
    destruct (IH rt1 rt') as (IHp & IHs & IHd & IHq); [|done|].
    { apply in_plan_true. rewrite Hp. apply list_elem_of_fmap in Hpar1 as (n & ? & ?). exists n. split; [apply elem_of_app; by left | done]. }
    assert (id <> parent_id) as Hne by (rewrite Hid; apply assist_id_parent).
    rewrite assist_ids_cons, assist_nodes_cons, <- Hid. rewrite Hseq in *. split; [|split; [|split]].
    + rewrite IHp, Hp, update_first_app by done. rewrite update_first_twice by (intros; apply wire_parent_same). by rewrite <- app_assoc.
    + intros k. rewrite IHs, Hst. destruct (bool_decide (k ∈ assist_ids _ _ _)) eqn:Ek.
      { bool_prop. rewrite bool_decide_true; [done | by right]. }
      bool_prop. destruct (decide (k = id)) as [->|Hk].
      * rewrite (bool_decide_true (id ∈ _)) by (by left). by rewrite (bool_decide_false (id = parent_id)), decide_False by done.
      * rewrite (bool_decide_false (k ∈ id :: _)) by (apply not_elem_of_cons; by split). cbn.
        destruct (decide (k = parent_id)) as [->|Hkp]; [|by rewrite bool_decide_false].
        rewrite bool_decide_true by done. by destruct (bool_decide (l = [])).
    + intros k. rewrite IHd. unfold depth_of. rewrite Hdep, !dget_dset. rewrite (decide_False (P := parent_id = id)) by done.
      destruct (decide (k = id)) as [->|Hk].
      * rewrite (bool_decide_true (id ∈ id :: _)) by (by left). by destruct (bool_decide (id ∈ assist_ids _ _ _)).
      * destruct (bool_decide (k ∈ assist_ids _ _ _)) eqn:Ek; bool_prop.
        -- by rewrite bool_decide_true by (by right).
        -- by rewrite bool_decide_false by (apply not_elem_of_cons; by split).
    + rewrite IHq. cbn. lia.
Qed.

(** ** The helper *)

Lemma mention_of_agent names part m : mention_of names part = Some m -> m.1 ∈ names /\ m.2 <> estr.
Proof.
  unfold mention_of. destruct (split_space part) as [[a rest]|]; [|done].
  destruct (bool_decide (a ∈ names)) eqn:Ea; cbn; [|done]. destruct (str_truthy _) eqn:Et; [|done].
  intros [= <-]. cbn. bool_prop. split; [done|]. by apply str_truthy_true.
Qed.

Lemma parse_mentions_agents text names m : m ∈ parse_mentions text names -> m.1 ∈ names /\ m.2 <> estr.
Proof. intros (p & _ & Hp)%list_elem_of_omap. by eapply mention_of_agent. Qed.

Lemma helper_fold rt parent ms : forall seen cands s' c',
  foldl (helper_candidate rt parent) (seen, cands) ms = (s', c') ->
  NoDup (cands.*1) -> (forall a, a ∈ cands.*1 -> a ∈ seen) ->
  (forall m, m ∈ cands -> m.1 <> dn_agent_name parent /\ has_assist_for rt (dn_id parent) m.1 = false) ->
  NoDup (c'.*1) /\
  (forall m, m ∈ c' -> m.1 <> dn_agent_name parent /\ has_assist_for rt (dn_id parent) m.1 = false) /\
  (forall m, m ∈ c' -> m ∈ cands \/ m ∈ ms) /\
  (forall m, m ∈ ms -> m.1 <> dn_agent_name parent -> has_assist_for rt (dn_id parent) m.1 = false ->
     m.1 ∈ c'.*1 \/ m.1 ∈ seen) /\
  (forall m, m ∈ cands -> m ∈ c').
Proof.
  induction ms as [|[a i] ms IH]; intros seen cands s' c'; cbn [foldl].
  - intros [= <- <-] Hnd Hs Hc. do 2 (split; [done|]). split; [by left|]. split; [by intros m ?%elem_of_nil | done].
  - unfold helper_candidate at 2. intros Hf Hnd Hs Hc.
    destruct (bool_decide (a = dn_agent_name parent) || bool_decide (a ∈ seen)) eqn:E1.
    + destruct (IH _ _ _ _ Hf Hnd Hs Hc) as (H1 & H2 & H3 & H4 & H5). do 2 (split; [done|]).
      split; [intros m Hm; destruct (H3 m Hm); [by left | right; by right]|]. split; [|done].
      intros m [->|Hm]%elem_of_cons Hne Hha; [|by apply H4]. cbn in *. apply orb_true_iff in E1 as [E|E]; bool_prop; [done | by right].
    + apply orb_false_iff in E1 as [E1 E2]. bool_prop.
      destruct (has_assist_for rt (dn_id parent) a) eqn:Eh.
      * destruct (IH _ _ _ _ Hf Hnd) as (H1 & H2 & H3 & H4 & H5); [set_solver | done |]. do 2 (split; [done|]).
        split; [intros m Hm; destruct (H3 m Hm); [by left | right; by right]|]. split; [|done].
        intros m [->|Hm]%elem_of_cons Hne Hha; [cbn in Hha; congruence|].
        destruct (H4 m Hm Hne Hha) as [?|Hx]; [by left|]. apply elem_of_app in Hx as [?|Hx]; [by right|].
        apply list_elem_of_singleton in Hx. congruence.
      * destruct (IH _ _ _ _ Hf) as (H1 & H2 & H3 & H4 & H5).
        -- rewrite fmap_app. apply NoDup_app. split; [done|]. split; [|apply NoDup_singleton].
           intros x Hx Hy. apply list_elem_of_singleton in Hy as ->. by apply E2, Hs.
        -- intros x. rewrite fmap_app, !elem_of_app. intros [Hx|Hx]; [left; by apply Hs | right; done].
        -- intros m Hm. apply elem_of_app in Hm as [Hm|Hm]; [by apply Hc|]. apply list_elem_of_singleton in Hm as ->. done.
        -- do 2 (split; [done|]). split.
           { intros m Hm. destruct (H3 m Hm) as [Hx|?]; [|right; by right]. apply elem_of_app in Hx as [?|Hx]; [by left|].
             apply list_elem_of_singleton in Hx as ->. right. by left. }
           split; [|intros m Hm; apply H5, elem_of_app; by left].
           assert ((a, i) ∈ c') as Ha by (apply H5, elem_of_app; right; by left).
           intros m [->|Hm]%elem_of_cons Hne Hha; [left; by apply (list_elem_of_fmap_2 fst) in Ha|].
           destruct (H4 m Hm Hne Hha) as [?|Hx]; [by left|].
           apply elem_of_app in Hx as [?|Hx]; [by right|]. apply list_elem_of_singleton in Hx. left. rewrite Hx.
           by apply (list_elem_of_fmap_2 fst) in Ha.
Qed.

Lemma helper_candidates_sub rt parent ms m : m ∈ helper_candidates rt parent ms -> m ∈ ms.
Proof.
  unfold helper_candidates. destruct (foldl _ _ _) as [s c] eqn:E. cbn.
  apply helper_fold in E as (_ & _ & H & _ & _); [| by apply NoDup_nil_2 | by intros a ?%elem_of_nil | by intros x ?%elem_of_nil].
  intros Hm. by destruct (H m Hm) as [?%elem_of_nil|].
Qed.

(** A node whose end is being judged. *)
Definition judged (rt : DagRuntime) (k : string) : Prop :=
  in_plan rt k = true -> status_of rt k = Some DagStatus.COMPLETED /\ k ∉ (cr_node_id <$> rt_completions rt).

Lemma helper_run_cases id rt rt' o :
  in_plan rt id = true -> helper_run id rt = (rt', o) -> rt' = rt \/ exists l, add_assists id l rt = Ok rt'.
Proof.
  intros Hin. unfold helper_run. rewrite Hin. cbn [negb]. destruct (get_plan_node rt id) as [parent|e]; [|by intros [= <- _]; left].
  destruct (helper_candidates rt parent _) as [|m l]; [by intros [= <- _]; left|].
  destruct (negb _); [by intros [= <- _]; left|]. destruct (add_assists id (m :: l) rt) as [rt1|e] eqn:E; intros [= <- _]; [|by left].
  right. by exists (m :: l).
Qed.

Lemma helper_run_facts id rt rt' o :
  dag_inv rt -> dag_bounded rt -> judged rt id -> helper_run id rt = (rt', o) ->
  dag_inv rt' /\ dag_bounded rt' /\ rt_outputs rt' = rt_outputs rt /\ rt_running rt' = rt_running rt /\
  rt_agents rt' = rt_agents rt /\ (forall e, o <> HelperRaises e).
Proof.
  intros H Hb Hj. unfold helper_run. destruct (in_plan rt id) eqn:Hin; cbn [negb]; [|by intros [= <- <-]].
  destruct (in_plan_get _ _ Hin) as (parent & -> & _).
  set (ms := parse_mentions _ _). destruct (helper_candidates rt parent ms) as [|m l] eqn:Ec; [by intros [= <- <-]|].
  destruct (can_add_assists rt id _) eqn:Eca; cbn [negb]; [|by intros [= <- <-]].
  unfold can_add_assists in Eca. apply andb_prop in Eca as [Hd%Z.leb_le Hl%Z.leb_le].
  destruct (Hj Hin) as [Hst Hrec].
  destruct (add_assists_ok id (m :: l) rt H Hb) as (rt1 & -> & H1 & Hb1 & Ho & Hr & Ha & _); try done.
  - split; [done|]. split; [by left | done].
  - intros x Hx. rewrite <- Ec in Hx. apply helper_candidates_sub in Hx. by apply parse_mentions_agents in Hx as [].
  - by intros [= <- <-].
Qed.

(** ** The executor *)

Lemma abort_if_failed_cases rt :
  (exists r, r ∈ rt_completions rt /\ cr_ok r = false /\ _judgable rt (cr_node_id r) = true /\
     _abort_if_failed rt = (shutdown rt, Err (WorkflowError ("node " +:+ cr_node_id r +:+ " failed: " +:+ default "None" (cr_error r))))) \/
  (_abort_if_failed rt = (rt, Ok tt) /\ forall r, r ∈ rt_completions rt -> _judgable rt (cr_node_id r) = true -> cr_ok r = true).
Proof.
  unfold _abort_if_failed. destruct (failed_completion rt) as [r|] eqn:E; unfold failed_completion in E.
  - left. exists r. apply find_first_some in E as [Hr Hb]. apply andb_prop in Hb as [Hok%negb_true_iff Hj]. done.
  - right. split; [done|]. rewrite find_first_none in E. intros r Hr Hj. specialize (E r Hr). rewrite Hj, andb_true_r in E.
    by apply negb_false_iff in E.
Qed.

(** What a call of the executor leaves behind. *)
Definition exec_post (rt : DagRuntime) (o : exec_outcome) : Prop :=
  match o with
  | ToJudge id => dag_inv rt /\ judged rt id /\ in_plan rt id = true
  | ToDone => dag_inv rt /\ rt_running rt = []
  | Raises e => exists msg, e = WorkflowError msg
  | Draining => False
  end.

Definition exec_ok (rt rt' : DagRuntime) (ls : list Launch) (o : exec_outcome) : Prop :=
  same_plan rt rt' /\ outputs_kept rt rt' /\ refines rt ls rt' /\
  (exists rt0, same_plan rt rt0 /\ outputs_kept rt rt0 /\ forall l, l ∈ ls -> launch_ok rt0 l) /\
  exec_post rt' o.

Lemma launches_none rt : exists rt0, same_plan rt rt0 /\ outputs_kept rt rt0 /\ forall l, l ∈ [] -> launch_ok rt0 l.
Proof. exists rt. split; [done|]. split; [done|]. by intros l ?%elem_of_nil. Qed.

Lemma exec_ok_after rt rt1 rt' ls o :
  same_plan rt rt1 -> outputs_kept rt rt1 -> refines rt [] rt1 -> exec_ok rt1 rt' ls o -> exec_ok rt rt' ls o.
Proof.
  intros Hs Ho Hr (Hs' & Ho' & Hr' & (rt0 & Hs0 & Ho0 & Hls) & Hp). split; [by etrans|]. split; [by etrans|].
  split; [by eapply refines_then|]. split; [|done]. exists rt0. split; [by etrans|]. split; [by etrans | done].
Qed.

Lemma aborted_ok rt msg : exec_ok rt (shutdown rt) [] (Raises (WorkflowError msg)).
Proof.
  split; [done|]. split; [by intros k|]. split; [apply shutdown_refines|]. split; [apply launches_none|]. by exists msg.
Qed.

Lemma set_completions_ok l rt :
  same_plan rt (set_completions l rt) /\ outputs_kept rt (set_completions l rt) /\ refines rt [] (set_completions l rt).
Proof. split; [done|]. split; [by intros k|]. by apply refines_same. Qed.

(** Popping after the check for failures: the record popped is that of a node whose end is good. *)
Lemma pop_judged rt rt' r :
  dag_inv rt -> (forall r, r ∈ rt_completions rt -> _judgable rt (cr_node_id r) = true -> cr_ok r = true) ->
  pop_completion rt = (rt', Some r) -> exec_ok rt rt' [] (ToJudge (cr_node_id r)).
Proof.
  intros H Hok Hp. destruct (pop_completion_facts _ _ _ H Hp) as (H' & [l ->] & Hr).
  destruct (Hr r eq_refl) as (Hin & Hj & Hn). destruct (set_completions_ok l rt) as (Hs & Ho & Href).
  do 3 (split; [done|]). split; [apply launches_none|]. split; [done|]. split; [|by apply judgable_in_plan].
  intros _. split; [|done]. pose proof (di_record rt H r Hin) as Hst. unfold settled_as in Hst. by rewrite (Hok r Hin Hj) in Hst.
Qed.

Lemma executor_wait_ok env rt rt' o :
  wait_ok env -> dag_inv rt -> executor_wait env rt = (rt', o) -> exec_ok rt rt' [] o.
Proof.
  intros Hw H. unfold executor_wait. destruct (look_facts env 1 rt H) as (H1 & Hs & Ho & _).
  pose proof (look_refines env 1 rt H) as Href. intros He. apply (exec_ok_after _ (look env 1 rt)); try done. revert He.
  destruct (abort_if_failed_cases (look env 1 rt)) as [(r & _ & _ & _ & ->)|[-> Hok]].
  - intros [= <- <-]. apply aborted_ok.
  - destruct (pop_completion (look env 1 rt)) as [rt2 [r|]] eqn:Ep; intros [= <- <-]; [by apply pop_judged|].
    destruct (pop_completion_facts _ _ _ H1 Ep) as (_ & [l ->] & _).
    destruct (set_completions_ok l (look env 1 rt)) as (Hs2 & Ho2 & Href2).
    do 3 (split; [done|]). split; [apply launches_none|]. by eexists.
Qed.

Lemma dispatched_ok rt ls rt' o :
  dag_inv rt -> la_id <$> ls = dispatchable rt -> (forall l, l ∈ ls -> launch_ok rt l) ->
  exec_ok (foldl (fun rt k => started k rt) rt (dispatchable rt)) rt' [] o -> exec_ok rt rt' ls o.
Proof.
  intros H Hls Hok (Hs & Ho & Href & _ & Hp). destruct (started_all_fields (dispatchable rt) rt) as (Hs1 & Ho1 & _ & _).
  assert (outputs_kept rt (foldl (fun rt k => started k rt) rt (dispatchable rt))) as Hk1 by (by intros k; rewrite Ho1).
  split; [by etrans|]. split; [by etrans|]. split; [|split; [by exists rt | done]].
  eapply refines_after; [|exact Href]. rewrite <- Hls. apply started_all_refines; [done|]. rewrite Hls. by apply dispatchable_nodup.
Qed.

Lemma executor_judge_ok env rt rt' ls o :
  wait_ok env -> dag_inv rt -> executor_judge env rt = (rt', ls, o) -> exec_ok rt rt' ls o.
Proof.
  intros Hw H. unfold executor_judge.
  destruct (abort_if_failed_cases rt) as [(r & _ & _ & _ & ->)|[-> Hok]]; [intros [= <- <- <-]; apply aborted_ok|].
  destruct (pop_completion rt) as [rt1 [r|]] eqn:Ep; [intros [= <- <- <-]; by apply pop_judged|].
  destruct (pop_completion_facts _ _ _ H Ep) as (H1 & [l Hl] & _).
  destruct (set_completions_ok l rt) as (Hs & Ho & Href). rewrite <- Hl in Hs, Ho, Href.
  destruct (dispatch_ready_facts rt1 H1) as (ls1 & -> & Hids & Hlo & H2). intros He.
  apply (exec_ok_after _ rt1); try done. clear Ep Hl Hs Ho Href.
  destruct (has_work _) eqn:Ew in He.
  - destruct (executor_wait _ _) as [rt3 o3] eqn:E3. injection He as <- <- <-.
    apply dispatched_ok; try done. by eapply executor_wait_ok.
  - injection He as <- <- <-. apply dispatched_ok; try done. split; [done|]. split; [done|].
    split; [by apply refines_same|]. split; [apply launches_none|]. split; [done|].
    unfold has_work in Ew. by destruct (rt_running _).
Qed.

Lemma executor_run_ok env input rt rt' ls o :
  wait_ok env -> dag_inv rt -> plan_allowed rt input -> executor_run env input rt = (rt', ls, o) ->
  (exists e, _apply_plan_input input rt = Err e /\ rt' = rt /\ ls = [] /\ o = Raises e) \/
  (exists rt1, _apply_plan_input input rt = Ok rt1 /\ dag_inv rt1 /\ refines rt [] rt1 /\ exec_ok rt1 rt' ls o).
Proof.
  intros Hw H Hal. unfold executor_run. destruct (_apply_plan_input input rt) as [rt1|e] eqn:Ea.
  2: { intros [= <- <- <-]. left. by exists e. }
  assert (dag_inv rt1 /\ refines rt [] rt1) as [H1 Href1].
  { destruct input as [plan|]; cbn in Ea; [|injection Ea as <-; split; [done | by apply refines_same]].
    split; [eapply apply_plan_inv; [exact H | by apply plan_allowed_fits | exact Ea]|]. apply apply_plan_ok in Ea as (_ & _ & _ & _ & _ & Ho & Hr & _). by apply refines_same. }
  intros He. right. exists rt1. do 3 (split; [done|]).
  destruct (look_facts env 0 rt1 H1) as (H2 & Hs & Ho & _). pose proof (look_refines env 0 rt1 H1) as Href.
  apply (exec_ok_after _ (look env 0 rt1)); try done. clear Ea Href1 H1 Hs Ho Href.
  destruct (rt_done_requested (look env 0 rt1)); [|by eapply executor_judge_ok].
  destruct (drain_ends (length (rt_running (look env 0 rt1))) env 0 (look env 0 rt1)) as [rt3 Hd]; [done | done | lia |].
  rewrite Hd in He. injection He as <- <- <-. destruct (drain_facts _ _ _ _ _ H2 Hd) as (H3 & Hs & Ho & Hr).
  do 2 (split; [done|]). split; [by eapply drain_refines|]. split; [apply launches_none|]. done.
Qed.
