(* ===== verification/OrchestratorThms.v ===== *)
(** * What holds in every run of the workflow orchestrator *)
From S2P Require Import Prelude PyStr Dict Json Dag DagPlan DagRuntime Orchestrator OrchestratorFacts.
From S2P Require Import OrchestratorSpec OrchestratorRuns.
From Stdlib Require Import Ascii.
Local Open Scope string_scope.
Local Open Scope list_scope.

(** ** The invariant of a run *)

Definition orch_inv (s : Orch) : Prop :=
  dag_bounded (or_rt s) /\
  match or_pos s with
  | AtPlanner => dag_inv (or_rt s)
  | AtExecutor input => dag_inv (or_rt s) /\ plan_allowed (or_rt s) input
  | AtHelper id => dag_inv (or_rt s) /\ judged (or_rt s) id /\ in_plan (or_rt s) id = true
  | AtDone output => dag_inv (or_rt s) /\ rt_running (or_rt s) = [] /\ output = rt_outputs (or_rt s)
  | Failed _ => rt_running (or_rt s) = []
  end.

Lemma shutdown_bounded rt : dag_bounded rt -> dag_bounded (shutdown rt).
Proof. by intros [Hs Hd]. Qed.

Lemma shutdown_idle rt : rt_running rt = [] -> shutdown rt = rt.
Proof. unfold shutdown. destruct rt. cbn. by intros ->. Qed.

Lemma apply_input_bounded input rt rt' : dag_bounded rt -> _apply_plan_input input rt = Ok rt' -> dag_bounded rt'.
Proof. destruct input; cbn; [apply apply_plan_bounded | by intros ? [= <-]]. Qed.

Lemma orch_inv_step s ls s' : careful_step s ls s' -> orch_inv s -> orch_inv s'.
Proof.
  intros Hstep [Hb H]. destruct Hstep as [rt input Hal | rt e | rt input env rt' ls o Hw E | rt id rt' o E]; cbn in *.
  - done.
  - split; [by apply shutdown_bounded | done].
  - destruct H as [H Hal].
    destruct (executor_run_ok _ _ _ _ _ _ Hw H Hal E) as [(e & _ & -> & -> & ->)|(rt1 & Ea & H1 & _ & Hs & _ & _ & _ & Hp)].
    + split; [by apply shutdown_bounded | done].
    + pose proof (same_plan_bounded _ _ Hs (apply_input_bounded _ _ _ Hb Ea)) as Hb'. destruct o; cbn in *.
      * done.
      * destruct Hp as [H' Hr]. by rewrite shutdown_idle.
      * split; [by apply shutdown_bounded | done].
      * done.
  - destruct H as (H & Hj & Hin). destruct (helper_run_facts _ _ _ _ H Hb Hj E) as (H' & Hb' & _ & _ & _ & Hne).
    destruct o as [| |e]; cbn; [|done | by destruct (Hne e)]. split; [done|]. split; [done|]. by intros plan [=].
Qed.

Lemma orch_inv_start agents task : orch_inv (orch_start agents task).
Proof. split; [apply new_runtime_bounded | apply new_runtime_inv]. Qed.

Lemma orch_inv_steps agents task tr s : steps careful_step (orch_start agents task) tr s -> orch_inv s.
Proof. intros H. eapply (steps_invariant careful_step orch_inv); [apply orch_inv_step | exact H | apply orch_inv_start]. Qed.


(** ** Chains of assists *)

(** A job with the assists its helper has added so far, each with the node it is to
    assist. *)
Record Traced := mkTraced { td_orch : Orch; td_assists : list (string * string) }.

(** What a step of the helper added: the nodes that are new in the plan, for the node
    whose end it judged. *)
Definition assists_added (s s' : Orch) : list (string * string) :=
  match or_pos s with
  | AtHelper id => (fun n => (dn_id n, id)) <$> filterb (fun n => negb (in_plan (or_rt s) (dn_id n))) (rt_plan (or_rt s'))
  | _ => []
  end.

Inductive traced_step : Traced -> list Launch -> Traced -> Prop :=
| traced_by s ls s' added :
    careful_step s ls s' -> traced_step (mkTraced s added) ls (mkTraced s' (added ++ assists_added s s')).

(** The node [k] is an assist of an assist of ... of some node, [n] assists away. *)
Inductive assist_chain (added : list (string * string)) : string -> nat -> Prop :=
| chain_starts k : assist_chain added k 0
| chain_assists k p n : (k, p) ∈ added -> assist_chain added p n -> assist_chain added k (S n).

(** Every run has its trace. *)
Lemma traced_run s tr s' added :
  steps careful_step s tr s' -> exists added', steps traced_step (mkTraced s added) tr (mkTraced s' added').
Proof.
  intros H. revert added. induction H as [s|s ls s1 tr s2 Hstep _ IH]; intros added; [by exists added; constructor|].
  destruct (IH (added ++ assists_added s s1)) as (added' & H). exists added'. econstructor; [by constructor | done].
Qed.

(** Of each assist, the table has one more than of the node it assists. *)
Definition linked (rt : DagRuntime) (added : list (string * string)) : Prop :=
  forall k p, (k, p) ∈ added ->
    depth_of rt k = (depth_of rt p + 1)%Z /\ issued (rt_assist_seq rt) k /\ issued (rt_assist_seq rt) p.

Lemma linked_same rt rt' added :
  rt_assist_seq rt' = rt_assist_seq rt -> rt_assist_depth rt' = rt_assist_depth rt -> linked rt added -> linked rt' added.
Proof. intros Hs Hd H k p Hk. unfold depth_of. rewrite Hs, Hd. by apply H. Qed.

Lemma issued_mono a b k : (a <= b)%Z -> issued a k -> issued b k.
Proof. intros Hab H p m E. specialize (H p m E). lia. Qed.

Lemma in_plan_issued rt k : dag_inv rt -> in_plan rt k = true -> issued (rt_assist_seq rt) k.
Proof. intros H (n & Hn & <-)%in_plan_true. apply (di_issued rt H). left. by apply (di_status rt H). Qed.

(** New assists keep it. *)
Lemma add_assists_linked id l rt rt' added :
  dag_inv rt -> dag_inv rt' -> in_plan rt id = true -> add_assists id l rt = Ok rt' -> linked rt added ->
  linked rt' (added ++ ((fun n => (dn_id n, id)) <$> filterb (fun n => negb (in_plan rt (dn_id n))) (rt_plan rt'))).
Proof.
  intros H H' Hin Ha Hl. pose proof (in_plan_issued rt id H Hin) as Hid.
  destruct (add_assists_shape id l rt rt' Hin Ha) as (Hp & _ & Hd & Hs).
  assert (forall k, issued (rt_assist_seq rt) k -> depth_of rt' k = depth_of rt k) as Hold.
  { intros k Hk. rewrite Hd, bool_decide_false; [done|]. by apply assist_ids_fresh. }
  assert (forall k, issued (rt_assist_seq rt) k -> issued (rt_assist_seq rt') k) as Hm.
  { intros k. apply issued_mono. lia. }
  intros k p [Hk|Hk]%elem_of_app.
  - destruct (Hl k p Hk) as (E & Hik & Hip). rewrite !Hold by done. auto.
  - apply list_elem_of_fmap in Hk as (n & [= -> ->] & [Hn Hnew]%elem_of_filterb). bool_prop. rewrite (Hold id Hid).
    assert (dn_id n ∈ assist_ids id (rt_assist_seq rt) l) as Hnid.
    { apply (list_elem_of_fmap_2 dn_id) in Hn. rewrite Hp, fmap_app, update_first_ids, assist_nodes_ids in Hn.
      - apply elem_of_app in Hn as [(m & E & Hm')%list_elem_of_fmap|Hn]; [|done]. exfalso.
        apply not_true_iff_false in Hnew. apply Hnew, in_plan_true. by exists m.
      - intros m. generalize (assist_ids id (rt_assist_seq rt) l). intros ids. revert m.
        induction ids as [|a ids IH]; intros m; [done|]. cbn. rewrite IH. apply wire_parent_same. }
    rewrite Hd, bool_decide_true by done. split; [done|]. split; [|by apply Hm].
    apply (di_issued rt' H'). left. by apply (di_status rt' H').
Qed.

Lemma linked_step s ls s' added : orch_inv s -> careful_step s ls s' -> linked (or_rt s) added ->
  linked (or_rt s') (added ++ assists_added s s').
Proof.
  intros Hi Hstep Hl. pose proof (orch_inv_step _ _ _ Hstep Hi) as Hi'. destruct Hi as [Hb H].
  destruct Hstep as [rt input Hal | rt e | rt input env rt' ls o Hw E | rt id rt' o E]; unfold assists_added;
    cbn [or_pos or_rt] in *; rewrite ?app_nil_r; try (by eapply linked_same, Hl).
  - destruct H as [H Hal].
    assert (linked rt' added) as Hl'; [|by destruct o; cbn; try done; eapply linked_same, Hl'].
    destruct (executor_run_ok _ _ _ _ _ _ Hw H Hal E) as [(e & _ & -> & _)|(rt1 & Ea & _ & _ & (_ & _ & _ & Hs & Hd) & _)]; [done|].
    apply (linked_same rt1); [done | done|]. destruct input as [plan|]; cbn in Ea; [|by injection Ea as <-].
    apply apply_plan_ok in Ea as (_ & _ & _ & _ & _ & _ & _ & _ & Hs1 & Hd1 & _). by apply (linked_same rt).
  - destruct H as (H & Hj & Hin). destruct (helper_run_facts _ _ _ _ H Hb Hj E) as (H' & _ & _ & _ & _ & Hne).
    destruct (helper_run_cases _ _ _ _ Hin E) as [-> | (l & Ha)].
    + assert (filterb (fun n => negb (in_plan rt (dn_id n))) (rt_plan (settle (helper_next o) rt)) = []) as ->.
      { apply elem_of_nil_inv. intros n [Hn Hb']%elem_of_filterb. bool_prop.
        assert (rt_plan (settle (helper_next o) rt) = rt_plan rt) as Ep by (by destruct o). rewrite Ep in Hn.
        apply not_true_iff_false in Hb'. apply Hb', in_plan_true. by exists n. }
      cbn. rewrite app_nil_r. apply (linked_same rt); by destruct o.
    + destruct o as [| |e]; [| |by destruct (Hne e)]; cbn; by eapply add_assists_linked.
Qed.

Lemma linked_chain rt added k n :
  linked rt added -> (forall x, (0 <= depth_of rt x)%Z) -> assist_chain added k n -> (Z.of_nat n <= depth_of rt k)%Z.
Proof.
  intros H H0. induction 1 as [k|k p n Hk _ IH]; [apply H0|]. destruct (H k p Hk) as [-> _]. lia.
Qed.

(** C21: However many assists are asked for, and however the planner replans without
    using the id of an assist still to come ([careful_step]): the plan never has more
    than twenty nodes, and of the assists the helper adds in the whole run no chain,
    an assist of an assist of a node and so on, is longer than three. *)
Theorem orchestration_bounds agents task tr t :
  steps traced_step (mkTraced (orch_start agents task) []) tr t ->
  steps careful_step (orch_start agents task) tr (td_orch t) /\
  length (rt_plan (or_rt (td_orch t))) <= 20 /\
  forall k n, assist_chain (td_assists t) k n -> n <= 3.
Proof.
  intros Hrun. assert (steps careful_step (orch_start agents task) tr (td_orch t)) as Hc.
  { change (orch_start agents task) with (td_orch (mkTraced (orch_start agents task) [])).
    induction Hrun as [|? ? ? ? ? [s ls s' added Hstep] _ IH]; econstructor; [exact Hstep | exact IH]. }
  split; [done|]. apply (steps_invariant traced_step (fun t => orch_inv (td_orch t) /\ linked (or_rt (td_orch t)) (td_assists t))) in Hrun
    as [[[Hs Hd] _] Hl].
  - unfold MAX_PLAN_NODES, MAX_ASSIST_DEPTH in *. split; [lia|]. intros k n Hk.
    apply (linked_chain (or_rt (td_orch t))) in Hk; [|done | intros x; apply Hd]. pose proof (Hd k). lia.
  - intros t1 ls t2 [s ls' s' added Hstep] [Hi H]. cbn in *. split; [by eapply orch_inv_step | by eapply linked_step].
  - split; [apply orch_inv_start|]. by intros k p ?%elem_of_nil.
Qed.

(** ** Refinement *)

Lemma orch_step_refines s ls s' : orch_inv s -> careful_step s ls s' -> refines (or_rt s) ls (or_rt s').
Proof.
  intros [Hb H] Hstep. destruct Hstep as [rt input Hal | rt e | rt input env rt' ls o Hw E | rt id rt' o E]; cbn in *.
  - by apply refines_same.
  - apply shutdown_refines.
  - destruct H as [H Hal].
    destruct (executor_run_ok _ _ _ _ _ _ Hw H Hal E) as [(e & _ & -> & -> & ->)|(rt1 & _ & _ & Hr1 & _ & _ & Hr & _)].
    + apply shutdown_refines.
    + eapply refines_then; [exact Hr1|]. eapply refines_after; [exact Hr|].
      destruct o; cbn; try (by apply refines_same); apply shutdown_refines.
  - destruct H as (H & Hj & _). destruct (helper_run_facts _ _ _ _ H Hb Hj E) as (_ & _ & Ho & Hr & _ & _).
    eapply refines_then; [by apply refines_same|]. destruct o; cbn; try (by apply refines_same); apply shutdown_refines.
Qed.

Lemma orch_steps_refine s tr s' : steps careful_step s tr s' -> orch_inv s -> refines (or_rt s) (concat tr) (or_rt s').
Proof.
  induction 1 as [s|s ls s1 tr s2 Hstep _ IH]; intros Hi; cbn; [by apply refines_same|].
  eapply refines_app; [by apply orch_step_refines|]. apply IH. by eapply orch_inv_step.
Qed.

(** C4: The orchestration implements the task protocol: every run of it in which no answer
    of the planner uses the id of an assist still to come ([careful_step]) is a run of the
    abstract machine from no task and no output, in which exactly the launches of
    the run are the starts, in the same order. So no task is started for a node that
    has one in flight, or before every node it depends on has an output; an output
    appears only when its task returns; and none disappears. *)
Theorem orchestration_refines agents task tr s :
  steps careful_step (orch_start agents task) tr s ->
  exists atr, steps task_step (mkTasks ∅ ∅) atr (tasks_of (or_rt s)) /\ starts atr = launch_start <$> concat tr.
Proof.
  intros H. destruct (orch_steps_refine _ _ _ H (orch_inv_start _ _)) as (atr & Ha & Hs).
  exists atr. split; [|done]. exact Ha.
Qed.

(** ** Launches *)

Lemma orch_step_launches s ls s' l :
  orch_inv s -> careful_step s ls s' -> l ∈ ls ->
  exists rt0, rt_agents rt0 = rt_agents (or_rt s) /\ outputs_kept (or_rt s) rt0 /\ launch_ok rt0 l.
Proof.
  intros [Hb H] Hstep Hl. destruct Hstep as [rt input Hal | rt e | rt input env rt' ls o Hw E | rt id rt' o E]; cbn in *;
    try by apply elem_of_nil in Hl.
  destruct H as [H Hal].
  destruct (executor_run_ok _ _ _ _ _ _ Hw H Hal E) as [(e & _ & _ & -> & _)|(rt1 & Ea & _ & _ & _ & _ & _ & (rt0 & Hs & Ho & Hls) & _)];
    [by apply elem_of_nil in Hl|].
  exists rt0. destruct Hs as (Ha & _).
  assert (rt_agents rt1 = rt_agents rt /\ rt_outputs rt1 = rt_outputs rt) as [Ha1 Ho1].
  { destruct input as [plan|]; cbn in Ea; [|by injection Ea as <-].
    by apply apply_plan_ok in Ea as (_ & _ & _ & _ & ? & ? & _). }
  split; [by rewrite Ha|]. split; [|by apply Hls]. intros k Hk. apply Ho. by rewrite Ho1.
Qed.

Lemma launch_output rt l dep :
  launch_ok rt l -> dep ∈ dn_deps (la_node l) ->
  exists o, dget dep (rt_outputs rt) = Some o /\ occurs ("[" +:+ dep +:+ " output]" +:+ nl +:+ o) (la_message l).
Proof.
  intros H Hd. destruct (lo_deps _ _ H dep Hd) as [o Ho]. exists o. split; [done|]. rewrite (lo_message _ _ H).
  unfold build_node_message. set (t := resolve_instruction _ _).
  assert (("[" +:+ dep +:+ " output]" +:+ nl +:+ o) ∈ omap (dep_output rt) (dn_deps (la_node l))) as Hin.
  { apply list_elem_of_omap. exists dep. split; [done|]. unfold dep_output. by rewrite Ho. }
  assert (forall x ys, x ∈ ys -> occurs x (str_join (nl +:+ nl) ys)) as Hjoin; [|by apply Hjoin; right].
  clear. intros x ys Hx. induction ys as [|y ys IH]; [by apply elem_of_nil in Hx|].
  destruct ys as [|z ys].
  - apply list_elem_of_singleton in Hx as ->. exists estr, estr. by rewrite sapp_nil, sapp_nil_r.
  - rewrite str_join_cons by done. apply elem_of_cons in Hx as [->|Hx].
    + exists estr. eexists. by rewrite sapp_nil.
    + destruct (IH Hx) as (a & b & E). exists (y +:+ (nl +:+ nl) +:+ a), b. rewrite E. by rewrite !sapp_assoc.
Qed.

(** The catalog is that of the start. *)
Lemma orch_step_agents s ls s' : orch_inv s -> careful_step s ls s' -> rt_agents (or_rt s') = rt_agents (or_rt s).
Proof.
  intros [Hb H] Hstep. destruct Hstep as [| |rt input env rt' ls o Hw E|rt id rt' o E]; cbn in *; try done.
  - destruct H as [H Hal].
    destruct (executor_run_ok _ _ _ _ _ _ Hw H Hal E) as [(e & _ & -> & _ & ->)|(rt1 & Ea & _ & _ & (Ha & _) & _)]; [done|].
    assert (rt_agents rt1 = rt_agents rt) as Ha1.
    { destruct input; cbn in Ea; [|by injection Ea as <-]. by apply apply_plan_ok in Ea as (_ & _ & _ & _ & ? & _). }
    rewrite <- Ha1, <- Ha. by destruct o.
  - destruct H as (H & Hj & _). destruct (helper_run_facts _ _ _ _ H Hb Hj E) as (_ & _ & _ & _ & Ha & _).
    rewrite <- Ha. by destruct o.
Qed.

Lemma orch_agents agents task tr s : steps careful_step (orch_start agents task) tr s -> rt_agents (or_rt s) = agents.
Proof.
  intros H. apply (steps_invariant careful_step (fun s => orch_inv s /\ rt_agents (or_rt s) = agents)) in H as [_ Ha]; [done | |].
  - intros s1 ls s2 Hstep [Hi <-]. split; [by eapply orch_inv_step | by eapply orch_step_agents].
  - split; [apply orch_inv_start | done].
Qed.

(** Every task launched in a run is that of a node of the current plan which had
    none in flight and was waiting to start; it goes to the agent the catalog has
    under the node's agent name; and its message carries, under its label, the
    output of every node it depends on. *)
Theorem launches_carry_outputs agents task tr s ls s' l :
  steps careful_step (orch_start agents task) tr s -> careful_step s ls s' -> l ∈ ls ->
  exists rt, dget (dn_agent_name (la_node l)) agents = Some (la_agent l) /\
    la_node l ∈ rt_plan rt /\ (la_id l ∉ rt_running rt) /\ can_start (status_of rt (la_id l)) = true /\
    outputs_kept (or_rt s) rt /\
    forall dep, dep ∈ dn_deps (la_node l) ->
      exists o, dget dep (rt_outputs rt) = Some o /\ occurs ("[" +:+ dep +:+ " output]" +:+ nl +:+ o) (la_message l).
Proof.
  intros Hrun Hstep Hl. pose proof (orch_inv_steps _ _ _ _ Hrun) as Hi.
  destruct (orch_step_launches _ _ _ _ Hi Hstep Hl) as (rt & Ha & Hk & Hok). exists rt.
  rewrite <- (orch_agents _ _ _ _ Hrun), <- Ha. split; [apply (lo_agent _ _ Hok)|]. split; [apply (lo_plan _ _ Hok)|].
  split; [apply (lo_idle _ _ Hok)|]. split; [apply (lo_status _ _ Hok)|]. split; [done|].
  intros dep Hd. by apply launch_output.
Qed.

(** ** Draining *)

(** Statuses change only to those of a settled node. *)
Definition settles (rt rt' : DagRuntime) : Prop :=
  forall k, status_of rt' k = status_of rt k \/ status_of rt' k = Some DagStatus.COMPLETED \/ status_of rt' k = Some DagStatus.FAILED.

#[export] Instance settles_preorder : PreOrder settles.
Proof.
  split; [by intros rt k; left|]. intros a b c H K k. destruct (K k) as [->|?]; [apply H | by right].
Qed.

Lemma collect_one_settles ended rt k : settles rt (collect_one ended rt k).
Proof.
  intros x. rewrite collect_one_end. destruct (ended k) as [[o|m]|]; [| |by left].
  all: unfold status_of; edestruct push_record_fields as (_ & _ & -> & _); cbn [end_task rt_status]; rewrite dget_dset.
  all: case_decide; [by auto | by left].
Qed.

Lemma look_settles env i rt : settles rt (look env i rt).
Proof.
  unfold look, _collect_done. generalize (env i (rt_running rt)) as ended. generalize (rt_running rt) as l.
  intros l ended. revert rt. induction l as [|k l IH]; intros rt; cbn [foldl]; [done|].
  etrans; [apply collect_one_settles | apply IH].
Qed.

Lemma drain_settles fuel env : forall i rt rt', drain fuel env i rt = Some rt' -> settles rt rt'.
Proof.
  induction fuel as [|fuel IH]; intros i rt rt'; cbn; destruct (rt_running rt); try done; try (by intros [= <-]).
  intros Hd. etrans; [apply look_settles | by eapply IH].
Qed.

Lemma empty_plan_valid : validate_dag (mkDagPlan []) MAX_PLAN_NODES = Ok tt.
Proof. reflexivity. Qed.

(** An empty plan ends the job, and the executor returns: it launches nothing, waits
    for every task in flight instead of cancelling it, and only then is done. Every
    node that was running is then completed or failed, and no output is lost. *)
Theorem empty_plan_drains env rt :
  wait_ok env -> dag_inv rt ->
  exists rt', executor_run env (Some (mkDagPlan [])) rt = (rt', [], ToDone) /\
    rt_running rt' = [] /\ rt_plan rt' = [] /\ outputs_kept rt rt' /\
    forall k, k ∈ rt_running rt -> status_of rt' k = Some DagStatus.COMPLETED \/ status_of rt' k = Some DagStatus.FAILED.
Proof.
  intros Hw H. unfold executor_run, _apply_plan_input. destruct (apply_plan (mkDagPlan []) rt) as [rt1|e] eqn:Ea.
  2: { exfalso. unfold apply_plan in Ea. rewrite empty_plan_valid in Ea. done. }
  assert (dag_inv rt1) as H1. { eapply apply_plan_inv; [exact H | | exact Ea]. by intros n ?%elem_of_nil. }
  apply apply_plan_ok in Ea as (_ & Hp & _ & Hst & _ & Ho & Hr & _ & _ & _ & Hd).
  destruct (look_facts env 0 rt1 H1) as (H2 & Hs & Hk & _).
  rewrite (proj1 (proj2 (proj2 Hs))), (proj2 Hd eq_refl).
  destruct (drain_ends (length (rt_running (look env 0 rt1))) env 0 (look env 0 rt1)) as [rt3 Hdr]; [done | done | lia |].
  rewrite Hdr. exists rt3. destruct (drain_facts _ _ _ _ _ H2 Hdr) as (H3 & Hs3 & Hk3 & Hr3).
  split; [done|]. split; [done|]. split; [by rewrite (proj1 (proj2 Hs3)), (proj1 (proj2 Hs)), Hp|].
  split. { intros k Hkk. apply Hk3, Hk. by rewrite Ho. }
  intros k Hkr. apply (di_flight rt H) in Hkr. unfold in_flight in Hkr.
  assert (settles rt1 rt3) as Hset by (etrans; [apply look_settles | by eapply drain_settles]).
  destruct (Hset k) as [Hx|Hx]; [|done]. exfalso.
  assert (status_of rt1 k = Some DagStatus.RUNNING) as E1.
  { rewrite Hst. unfold revived. by rewrite Hkr, andb_false_r. }
  rewrite E1 in Hx. apply (di_flight rt3 H3) in Hx. rewrite Hr3 in Hx. by apply elem_of_nil in Hx.
Qed.

(** ** Progress *)

Definition record_of (ended : string -> option task_end) (k : string) : option CompletionRecord :=
  match ended k with
  | None => None
  | Some (Returned o) => Some (mkRecord k o None)
  | Some (Raised m) => Some (mkRecord k estr (Some m))
  end.

Lemma judgable_same rt rt' k : same_plan rt rt' -> _judgable rt' k = _judgable rt k.
Proof. intros (_ & Hp & Hd & _). unfold _judgable, in_plan. by rewrite Hp, Hd. Qed.

Lemma collect_completions ended l : forall rt,
  rt_completions (foldl (collect_one ended) rt l) =
  rt_completions rt ++ omap (record_of ended) (filterb (_judgable rt) l).
Proof.
  induction l as [|k l IH]; intros rt; cbn [foldl]; [by rewrite app_nil_r|].
  rewrite IH. replace (filterb (_judgable (collect_one ended rt k)) l) with (filterb (_judgable rt) l).
  2: { apply List.filter_ext. intros x. symmetry. apply judgable_same, collect_one_same. }
  cbn [filterb List.filter]. fold (filterb (_judgable rt) l). unfold collect_one, record_completion, record_failure, push_record.
  assert (forall s o, _judgable (set_node_output k o (set_node_status k s (drop_running k rt))) k = _judgable rt k) as Hj by done.
  assert (forall s, _judgable (set_node_status k s (drop_running k rt)) k = _judgable rt k) as Hj' by done.
  pose proof (eq_refl (record_of ended k)) as Er. unfold record_of at 2 in Er.
  destruct (ended k) as [[o|m]|] eqn:E; cbn [cr_node_id]; rewrite ?Hj, ?Hj'; destruct (_judgable rt k) eqn:Ej; cbn [omap list_omap];
    rewrite ?Er; cbn; rewrite <- ?app_assoc; done.
Qed.

(** A wait after which every task that has ended is one of the plan is a wait after
    which there is something to judge. *)
Lemma wait_judges env rt rt' o :
  wait_ok env -> dag_inv rt -> rt_completions rt = [] -> rt_running rt <> [] ->
  (forall k, k ∈ rt_running rt -> _judgable rt k = true) ->
  executor_wait env rt = (rt', o) ->
  exists k, k ∈ rt_running rt /\
    (o = ToJudge k \/ exists msg, o = Raises (WorkflowError ("node " +:+ k +:+ " failed: " +:+ msg))).
Proof.
  intros Hw H Hc Hne Hj. unfold executor_wait. destruct (look_facts env 1 rt H) as (H1 & Hs & _).
  assert (rt_completions (look env 1 rt) = omap (record_of (env 1 (rt_running rt))) (rt_running rt)) as Hcomp.
  { unfold look, _collect_done. rewrite collect_completions, Hc. cbn [app]. f_equal. apply forallb_filter_id, forallb_elem, Hj. }
  assert (forall r, r ∈ rt_completions (look env 1 rt) -> cr_node_id r ∈ rt_running rt) as Hrec.
  { intros r. rewrite Hcomp. intros (k & Hk & Hr)%list_elem_of_omap. unfold record_of in Hr.
    destruct (env 1 (rt_running rt) k) as [[?|?]|]; [| |done]; by injection Hr as <-. }
  destruct (abort_if_failed_cases (look env 1 rt)) as [(r & Hr & _ & _ & ->)|[-> _]].
  - intros [= <- <-]. exists (cr_node_id r). split; [by apply Hrec|]. right. by eexists.
  - destruct (pop_completion (look env 1 rt)) as [rt2 [r|]] eqn:Ep; intros [= <- <-].
    + destruct (pop_completion_facts _ _ _ H1 Ep) as (_ & _ & Hr). destruct (Hr r eq_refl) as (Hin & _).
      exists (cr_node_id r). split; [by apply Hrec | by left].
    + exfalso. unfold pop_completion in Ep. destruct (pop_records _ _) as [r0 l0] eqn:Epr. injection Ep as _ ->.
      apply pop_records_spec in Epr as [_ Hno]. destruct (Hw 0 _ Hne) as (k & Hk & [e He]).
      assert (is_Some (record_of (env 1 (rt_running rt)) k)) as [r Hr] by (unfold record_of; rewrite He; by destruct e).
      assert (r ∈ rt_completions (look env 1 rt)) as Hin by (rewrite Hcomp; apply list_elem_of_omap; by exists k).
      specialize (Hno r Hin). rewrite (judgable_same _ _ _ Hs) in Hno. by rewrite (Hj _ (Hrec r Hin)) in Hno.
Qed.

(** Of the nodes still to run, one is ready: a dependency that has no output yet is
    itself pending, and ranks lower. *)
Lemma some_node_ready rt (rank : string -> nat) n :
  dag_inv rt ->
  (forall m d, m ∈ rt_plan rt -> d ∈ dn_deps m -> d ∈ dkeys (rt_outputs rt) \/ in_plan rt d = true) ->
  (forall m d, m ∈ rt_plan rt -> status_of rt (dn_id m) = Some DagStatus.PENDING -> d ∈ dn_deps m ->
     in_plan rt d = true -> rank d < rank (dn_id m)) ->
  (forall m, m ∈ rt_plan rt -> can_start (status_of rt (dn_id m)) = true \/ status_of rt (dn_id m) = Some DagStatus.COMPLETED) ->
  n ∈ rt_plan rt -> can_start (status_of rt (dn_id n)) = true -> dispatchable rt <> [].
Proof.
  intros H Hcl Hrank Hst Hn Hc.
  assert (forall m, m ∈ rt_plan rt -> can_start (status_of rt (dn_id m)) = true ->
    dispatchable rt <> [] \/ exists p, p ∈ rt_plan rt /\ status_of rt (dn_id p) = Some DagStatus.PENDING /\ dn_id p ∈ dn_deps m) as Hstep.
  { intros m Hm Hcm. destruct (forallb (fun dep => dmem dep (rt_outputs rt)) (dn_deps m)) eqn:Ed.
    - left. assert (dn_id m ∈ dispatchable rt) as Hin; [|intros E; rewrite E in Hin; by apply elem_of_nil in Hin].
      apply list_elem_of_fmap_2, elem_of_filterb. split; [done|]. unfold node_ready. by rewrite Hcm, Ed.
    - right. apply forallb_false in Ed as (d & Hd & Ho). apply dmem_false in Ho.
      destruct (Hcl m d Hm Hd) as [?|Hin]; [done|]. apply in_plan_true in Hin as (p & Hp & <-). exists p. split; [done|]. split; [|done].
      destruct (Hst p Hp) as [Hs|Hs]; [|destruct Ho; apply (di_outputs rt H); by left].
      destruct (status_of rt (dn_id p)) as [[]|] eqn:E; try done. destruct Ho. apply (di_outputs rt H). by right. }
  assert (forall r p, rank (dn_id p) = r -> p ∈ rt_plan rt -> status_of rt (dn_id p) = Some DagStatus.PENDING -> dispatchable rt <> []) as Hpend.
  { intros r. induction (lt_wf r) as [r _ IH]. intros p Hr Hp Hs.
    destruct (Hstep p Hp) as [?|(q & Hq & Hqs & Hqd)]; [by rewrite Hs | done |].
    apply (IH (rank (dn_id q))) with q; try done. rewrite <- Hr. apply Hrank; try done. apply in_plan_true. by exists q. }
  destruct (Hstep n Hn Hc) as [?|(p & Hp & Hs & _)]; [done | by eapply Hpend].
Qed.

Lemma look_nothing env i rt : rt_running rt = [] -> look env i rt = rt.
Proof. intros E. unfold look, _collect_done. by rewrite E. Qed.

Lemma abort_idle rt : rt_completions rt = [] -> _abort_if_failed rt = (rt, Ok tt).
Proof. intros E. unfold _abort_if_failed, failed_completion. by rewrite E. Qed.

Lemma pop_idle rt : rt_completions rt = [] -> pop_completion rt = (rt, None).
Proof. intros E. unfold pop_completion. rewrite E. cbn. destruct rt. cbn in *. by subst. Qed.

(** The status of a node of an accepted plan that has not failed, with nothing in flight. *)
Lemma new_status plan rt rt1 n :
  dag_inv rt -> rt_running rt = [] ->
  (forall k, status_of rt1 k = if revived rt (dp_nodes plan) k then Some DagStatus.PENDING else status_of rt k) ->
  n ∈ dp_nodes plan -> status_of rt (dn_id n) <> Some DagStatus.FAILED ->
  can_start (status_of rt1 (dn_id n)) = true \/
  (status_of rt1 (dn_id n) = Some DagStatus.COMPLETED /\ status_of rt (dn_id n) = Some DagStatus.COMPLETED).
Proof.
  intros H Hr Hst1 Hn Hst. rewrite Hst1. destruct (revived _ _ _) eqn:E; [by left|]. unfold revived in E.
  rewrite bool_decide_true in E by (by apply list_elem_of_fmap_2).
  destruct (status_of rt (dn_id n)) as [[]|] eqn:Es; try done; try (by left); try (by right).
  - exfalso. apply (di_flight rt H) in Es. rewrite Hr in Es. by apply elem_of_nil in Es.
  - exfalso. by apply (di_live rt H) in Es.
  - exfalso. rewrite andb_true_r in E. apply negb_false_iff, in_plan_true in E as (m & Hm & Hmid).
    apply (di_status rt H) in Hm as [s Hm]. by rewrite Hmid, Es in Hm.
Qed.

(** The nodes to run of a valid plan, accepted with nothing in flight and no failed
    node in it: one of them is ready. *)
Lemma accepted_ready plan rt rt1 n :
  dag_inv rt -> dag_inv rt1 -> rt_running rt = [] -> apply_plan plan rt = Ok rt1 ->
  (forall m, m ∈ dp_nodes plan -> status_of rt (dn_id m) <> Some DagStatus.FAILED) ->
  n ∈ dp_nodes plan -> status_of rt (dn_id n) <> Some DagStatus.COMPLETED -> dispatchable rt1 <> [].
Proof.
  intros H H1 Hr Ha Hst Hn Hnc. apply apply_plan_ok in Ha as (Hv & Hp & Hids & Hst1 & _ & Ho & _).
  apply validate_dag_ok in Hv as (_ & Hnd & Hcl & (rank & Hrank)).
  assert (forall m, m ∈ dp_nodes plan -> dag_graph (dp_nodes plan) (dn_id m) = Some (dn_deps m)) as Hg.
  { intros m Hm. unfold dag_graph. pose proof (plan_node_of_plan _ _ m Hnd Hm eq_refl) as E. unfold plan_node_of in E. by rewrite E. }
  assert (forall k, in_plan rt1 k = true <-> k ∈ dn_id <$> dp_nodes plan) as Hin.
  { intros k. rewrite in_plan_true, <- Hids, list_elem_of_fmap. naive_solver. }
  assert (forall m, m ∈ rt_plan rt1 -> exists m0, m0 ∈ dp_nodes plan /\ m = diff_node rt (dn_id <$> dp_nodes plan) m0 /\ dn_id m = dn_id m0) as Hback.
  { intros m Hm. rewrite Hp in Hm. apply list_elem_of_fmap in Hm as (m0 & -> & Hm0). exists m0. do 2 (split; [done|]). apply diff_node_same. }
  pose proof (list_elem_of_fmap_2 dn_id _ _ Hn) as Hn1. rewrite <- Hids in Hn1. apply list_elem_of_fmap in Hn1 as (n1 & Hid1 & Hn1).
  apply (some_node_ready rt1 rank n1); try done.
  - intros m d Hm Hd. destruct (Hback m Hm) as (m0 & Hm0 & -> & _). rewrite Hin, Ho.
    apply diff_node_dep in Hd as [Hd|[Hd|Hd]]; [right | by right | by left].
    destruct (Hcl _ _ _ (Hg m0 Hm0) Hd) as [ds Hds]. unfold dag_graph in Hds.
    destruct (find_first _ (dp_nodes plan)) as [x|] eqn:Ex; [|done]. apply find_first_some in Ex as [Hx Hxd]. bool_prop. subst d.
    by apply list_elem_of_fmap_2.
  - intros m d Hm Hs Hd Hdin. destruct (Hback m Hm) as (m0 & Hm0 & -> & Hid). rewrite Hid in Hs |- *.
    assert (status_of rt (dn_id m0) <> Some DagStatus.WAITING_ASSIST) as Hnw.
    { intros E. rewrite Hst1 in Hs. unfold revived in Hs. rewrite E, andb_false_r in Hs. done. }
    rewrite diff_node_deps in Hd by done. apply Hin, list_elem_of_fmap in Hdin as (x & -> & Hx).
    eapply Hrank; [by apply Hg | done |]. rewrite (Hg x Hx). by eexists.
  - intros m Hm. destruct (Hback m Hm) as (m0 & Hm0 & _ & ->).
    destruct (new_status plan rt rt1 m0 H Hr Hst1 Hm0 (Hst m0 Hm0)) as [?|[? _]]; [by left | by right].
  - rewrite <- Hid1. by destruct (new_status plan rt rt1 n H Hr Hst1 Hn (Hst n Hn)) as [?|[_ ?]].
Qed.

(** With nothing in flight and nothing to judge, a call of the executor on a valid
    plan in which no node has failed, and some node has not completed, makes progress:
    it launches something, waits, and hands the end of one of its launches to the
    helper or, when that one failed, fails the job with its error. *)
Theorem executor_progress env plan rt rt' ls o n :
  wait_ok env -> dag_inv rt -> plan_allowed rt (Some plan) -> validate_dag plan MAX_PLAN_NODES = Ok tt ->
  rt_running rt = [] -> rt_completions rt = [] ->
  (forall m, m ∈ dp_nodes plan -> status_of rt (dn_id m) <> Some DagStatus.FAILED) ->
  n ∈ dp_nodes plan -> status_of rt (dn_id n) <> Some DagStatus.COMPLETED ->
  executor_run env (Some plan) rt = (rt', ls, o) ->
  exists k, k ∈ (la_id <$> ls) /\
    (o = ToJudge k \/ exists msg, o = Raises (WorkflowError ("node " +:+ k +:+ " failed: " +:+ msg))).
Proof.
  intros Hw H Hal Hv Hr Hc Hst Hn Hnc. unfold executor_run, _apply_plan_input.
  destruct (apply_plan plan rt) as [rt1|e] eqn:Ea; [|unfold apply_plan in Ea; by rewrite Hv in Ea].
  assert (dag_inv rt1) as H1 by (eapply apply_plan_inv; [exact H | by apply plan_allowed_fits | exact Ea]).
  pose proof (accepted_ready plan rt rt1 n H H1 Hr Ea Hst Hn Hnc) as Hne.
  apply apply_plan_ok in Ea as (_ & _ & _ & _ & _ & _ & Hr1 & Hc1 & _ & _ & Hd).
  rewrite Hr in Hr1. rewrite Hc in Hc1. apply sublist_nil_r in Hc1. rewrite look_nothing by done.
  destruct (rt_done_requested rt1) eqn:Ed.
  { rewrite (proj1 Hd eq_refl) in Hn. by apply elem_of_nil in Hn. }
  unfold executor_judge. rewrite abort_idle, pop_idle by done.
  destruct (dispatch_ready_facts rt1 H1) as (ls1 & -> & Hls & _ & H2).
  destruct (started_all_fields (dispatchable rt1) rt1) as (Hs2 & _ & Hr2 & Hc2). rewrite Hr1 in Hr2. rewrite Hc1 in Hc2.
  set (rt2 := foldl _ rt1 _) in *. cbn [app] in Hr2. unfold has_work. rewrite Hr2.
  destruct (dispatchable rt1) as [|k0 ks] eqn:Ek; [done|]. rewrite <- Ek in *.
  destruct (executor_wait env rt2) as [rt3 o3] eqn:E3. intros [= <- <- <-]. rewrite Hls, <- Hr2.
  apply (wait_judges env rt2 rt3); try done; [by rewrite Hr2, Ek|].
  intros k Hk. rewrite Hr2 in Hk. rewrite (judgable_same _ _ _ Hs2). unfold _judgable. rewrite Ed. cbn.
  apply in_plan_true. apply dispatchable_elem in Hk as (m & Hm & Hmid & _). by exists m.
Qed.

(** ** Where the outputs come from *)

Section Provenance.
Context (agents : list (string * AgentInfo)) (runs : Launch -> task_end -> Prop).

(** The task in flight for a node is that of its last launch. *)
Definition last_launch (past : list Launch) (k : string) : option Launch :=
  find_first (fun l => bool_decide (la_id l = k)) (reverse past).

(** The ends an executor sees are ends that running the launches can have. *)
Definition tied (past : list Launch) (ended : list string -> string -> option task_end) : Prop :=
  forall l k r, (forall x, x ∈ l -> x ∈ la_id <$> past) -> k ∈ l -> ended l k = Some r ->
    exists la, last_launch past k = Some la /\ runs la r.

(** A job with the launches made so far. *)
Record Job := mkJob { jb_orch : Orch; jb_past : list Launch }.

Inductive job_step : Job -> list Launch -> Job -> Prop :=
| job_thinks s s' past :
    (forall input, or_pos s <> AtExecutor input) -> careful_step s [] s' -> job_step (mkJob s past) [] (mkJob s' past)
| job_executes rt input env rt' ls o past :
    wait_ok env -> tied past (env 0) -> (forall i, tied (past ++ ls) (env (S i))) ->
    executor_run env input rt = (rt', ls, o) ->
    job_step (mkJob (mkOrch (AtExecutor input) rt) past) ls
             (mkJob (mkOrch (executor_next o rt') (settle (executor_next o rt') rt')) (past ++ ls)).

Definition job_start (task : string) : Job := mkJob (orch_start agents task) [].

(** [o] is what the agent of a launch of [k] returned; the instruction was filled
    in from outputs which have a derivation of their own, and so has the output
    of each node [k] depended on, which the message carries under its label. *)
Inductive derived (past : list Launch) : string -> string -> Prop :=
| derived_by la o outputs :
    la ∈ past -> runs la (Returned o) ->
    dget (dn_agent_name (la_node la)) agents = Some (la_agent la) ->
    (exists rest, la_message la = resolve_instruction (dn_instruction (la_node la)) outputs +:+ rest) ->
    (forall dep, dep ∈ dn_deps (la_node la) ->
       exists d, dget dep outputs = Some d /\ occurs ("[" +:+ dep +:+ " output]" +:+ nl +:+ d) (la_message la)) ->
    (forall k d, dget k outputs = Some d -> derived past k d) ->
    derived past (la_id la) o.

(** What a launch is made from. *)
Definition grounded (past : list Launch) (la : Launch) : Prop :=
  exists rt, rt_agents rt = agents /\ launch_ok rt la /\ forall k d, dget k (rt_outputs rt) = Some d -> derived past k d.

Lemma derived_mono past past' k o : past ⊆ past' -> derived past k o -> derived past' k o.
Proof. intros Hp. induction 1 as [la o outputs Hla ? ? ? ? _ IH]. eapply derived_by; eauto. Qed.

Lemma grounded_derived past la o : la ∈ past -> grounded past la -> runs la (Returned o) -> derived past (la_id la) o.
Proof.
  intros Hla (rt & Ha & Hok & Hd) Hr.
  apply (derived_by past la o (rt_outputs rt)); [done | done | rewrite <- Ha; by apply lo_agent | | |done].
  - rewrite (lo_message _ _ Hok). unfold build_node_message. destruct (omap _ _) as [|x l].
    + exists estr. by rewrite sapp_nil_r.
    + eexists. by rewrite str_join_cons by done.
  - intros dep Hdep. by apply launch_output.
Qed.

(** The invariant: outputs have derivations, launches are made from such outputs,
    and what is in flight has been launched. *)
Record flow (past : list Launch) (rt : DagRuntime) : Prop := {
  fl_agents : rt_agents rt = agents;
  fl_outputs : forall k o, dget k (rt_outputs rt) = Some o -> derived past k o;
  fl_running : forall k, k ∈ rt_running rt -> k ∈ la_id <$> past;
  fl_past : forall la, la ∈ past -> grounded past la
}.

(** Anything that touches neither the outputs nor the tasks in flight keeps it. *)
Lemma flow_same past rt rt' :
  rt_agents rt' = rt_agents rt -> rt_outputs rt' = rt_outputs rt -> (forall k, k ∈ rt_running rt' -> k ∈ rt_running rt) ->
  flow past rt -> flow past rt'.
Proof. intros Ha Ho Hr [? ? ? ?]. split; rewrite ?Ha, ?Ho; auto. Qed.

Lemma shutdown_flow past rt : flow past rt -> flow past (shutdown rt).
Proof. apply flow_same; [done | done |]. by intros k ?%elem_of_nil. Qed.

Lemma settle_flow past p rt : flow past rt -> flow past (settle p rt).
Proof. destruct p; cbn; auto using shutdown_flow. Qed.

Lemma last_launch_some past k la : last_launch past k = Some la -> la ∈ past /\ la_id la = k.
Proof. intros [Hin Hb]%find_first_some. bool_prop. by rewrite elem_of_reverse in Hin. Qed.

Lemma launched_last past k : k ∈ la_id <$> past -> exists la, last_launch past k = Some la.
Proof.
  intros (la & -> & Hla)%list_elem_of_fmap. unfold last_launch. destruct (find_first _ _) as [l|] eqn:E; [by exists l|].
  rewrite find_first_none in E. specialize (E la). rewrite elem_of_reverse, bool_decide_true in E by done. by specialize (E Hla).
Qed.

Lemma collect_one_flow past ended rt k :
  (forall r, ended k = Some r -> exists la, last_launch past k = Some la /\ runs la r) ->
  flow past rt -> flow past (collect_one ended rt k).
Proof.
  intros He H. destruct (collect_one_fields ended rt k) as (Ha & _ & _ & _ & _ & Hr).
  assert (forall x, x ∈ rt_running (collect_one ended rt k) -> x ∈ rt_running rt) as Hsub.
  { intros x. rewrite Hr. destruct (ended k); [|done]. by intros [? _]%elem_of_filterb. }
  destruct H as [Hag Hout Hrun Hpast]. split; [by rewrite Ha | | by auto | done].
  intros x d. rewrite collect_one_end. destruct (ended k) as [[o|m]|] eqn:E; [| |by apply Hout].
  all: edestruct push_record_fields as (_ & _ & _ & -> & _); cbn [rt_outputs end_task].
  2: apply Hout.
  rewrite dget_dset. destruct (decide (x = k)) as [->|_]; [|by apply Hout]. intros [= <-].
  destruct (He _ eq_refl) as (la & [Hla <-]%last_launch_some & Hrla). by apply grounded_derived; auto.
Qed.

Lemma look_flow past env i rt : tied past (env i) -> flow past rt -> flow past (look env i rt).
Proof.
  intros Ht H. unfold look, _collect_done.
  assert (forall k, k ∈ rt_running rt -> forall r, env i (rt_running rt) k = Some r ->
    exists la, last_launch past k = Some la /\ runs la r) as He.
  { intros k Hk r. apply Ht; [|done]. apply (fl_running _ _ H). }
  revert He. generalize (env i (rt_running rt)). intros e. generalize (rt_running rt) as l. intros l. revert rt H.
  induction l as [|k l IH]; intros rt H He; cbn [foldl]; [done|].
  apply IH; [apply collect_one_flow; [apply He; by left | done] | intros x Hx; apply He; by right].
Qed.

Lemma drain_flow past fuel env : forall i rt rt',
  (forall i, tied past (env (S i))) -> flow past rt -> drain fuel env (S i) rt = Some rt' -> flow past rt'.
Proof.
  induction fuel as [|fuel IH]; intros i rt rt' Ht H; cbn; destruct (rt_running rt); try done; try by intros [= <-].
  apply IH; [done|]. by apply look_flow.
Qed.

Lemma abort_flow past rt rt' r : flow past rt -> _abort_if_failed rt = (rt', r) -> flow past rt'.
Proof.
  intros H. destruct (abort_if_failed_cases rt) as [(x & _ & _ & _ & ->)|[-> _]]; intros [= <- <-]; [by apply shutdown_flow | done].
Qed.

Lemma pop_flow past rt rt' r : flow past rt -> pop_completion rt = (rt', r) -> flow past rt'.
Proof.
  intros H. unfold pop_completion. destruct (pop_records rt _) as [r0 l]. intros [= <- _].
  by apply (flow_same _ rt).
Qed.

Lemma wait_flow past env rt rt' o : tied past (env 1) -> flow past rt -> executor_wait env rt = (rt', o) -> flow past rt'.
Proof.
  intros Ht H. unfold executor_wait. destruct (_abort_if_failed _) as [rt1 r] eqn:Ea.
  apply abort_flow with (past := past) in Ea; [|by apply look_flow]. destruct r as [[]|e]; [|by intros [= <- _]].
  destruct (pop_completion rt1) as [rt2 [r|]] eqn:Ep; apply pop_flow with (past := past) in Ep; try done; by intros [= <- _].
Qed.

(** A dispatch: what is launched is made from the outputs there are. *)
Lemma dispatch_flow past rt rt' ls r :
  dag_inv rt -> flow past rt -> _dispatch_ready rt = (rt', ls, r) -> flow (past ++ ls) rt'.
Proof.
  intros Hi [Ha Ho Hr Hp] E. destruct (dispatch_ready_facts rt Hi) as (ls' & E' & Hids & Hok & _).
  rewrite E' in E. injection E as <- -> <-. destruct (started_all_fields (dispatchable rt) rt) as ((Hs & _) & Hout & Hrun & _).
  assert (past ⊆ past ++ ls) as Hsub by (intros x Hx; apply elem_of_app; by left).
  assert (forall la, grounded past la -> grounded (past ++ ls) la) as Hg.
  { intros la (rt0 & ? & ? & Hd). exists rt0. split; [done|]. split; [done|]. intros. by eapply derived_mono, Hd. }
  split; [by rewrite Hs | | |].
  - intros k o Hk. rewrite Hout in Hk. by eapply derived_mono, Ho.
  - intros k. rewrite Hrun, fmap_app, Hids, !elem_of_app. intros [?|?]; [left; auto | by right].
  - intros la [Hla|Hla]%elem_of_app; [by apply Hg, Hp|]. apply Hg. exists rt. auto.
Qed.

Lemma judge_flow past env rt rt' ls o :
  (forall i, tied (past ++ ls) (env (S i))) -> dag_inv rt -> flow past rt ->
  executor_judge env rt = (rt', ls, o) -> flow (past ++ ls) rt'.
Proof.
  intros Ht Hi H. unfold executor_judge. destruct (_abort_if_failed rt) as [rt1 r] eqn:Ea.
  pose proof (abort_flow _ _ _ _ H Ea) as H1. destruct r as [[]|e]; [|intros [= <- <- <-]; by rewrite app_nil_r].
  destruct (abort_if_failed_cases rt) as [(x & _ & _ & _ & E)|[E _]]; rewrite E in Ea; [done|]. injection Ea as <-.
  destruct (pop_completion rt) as [rt2 [r|]] eqn:Ep; pose proof (pop_flow _ _ _ _ H Ep) as H2;
    [intros [= <- <- <-]; by rewrite app_nil_r|].
  destruct (pop_completion_facts _ _ _ Hi Ep) as (Hi2 & _ & _).
  destruct (_dispatch_ready rt2) as [[rt3 ls3] [[]|e]] eqn:Ed; pose proof (dispatch_flow _ _ _ _ _ Hi2 H2 Ed) as H3;
    [|by intros [= <- <- _]].
  destruct (has_work rt3); [|by intros [= <- <- _]].
  destruct (executor_wait env rt3) as [rt4 o4] eqn:Ew. intros [= <- <- _]. eapply wait_flow; [apply Ht | exact H3 | exact Ew].
Qed.

Lemma executor_flow past env input rt rt' ls o :
  tied past (env 0) -> (forall i, tied (past ++ ls) (env (S i))) -> dag_inv rt -> plan_allowed rt input -> flow past rt ->
  executor_run env input rt = (rt', ls, o) -> flow (past ++ ls) rt'.
Proof.
  intros H0 Ht Hi Hal H. unfold executor_run. destruct (_apply_plan_input input rt) as [rt1|e] eqn:Ea.
  2: { intros [= <- <- _]. by rewrite app_nil_r. }
  assert (dag_inv rt1 /\ flow past rt1) as [Hi1 H1].
  { destruct input as [plan|]; cbn in Ea; [|by injection Ea as <-]. split.
    - eapply apply_plan_inv; [exact Hi | by apply plan_allowed_fits | exact Ea].
    - apply apply_plan_ok in Ea as (_ & _ & _ & _ & Ha & Ho & Hr & _). apply (flow_same _ rt); [done | done | by rewrite Hr | done]. }
  pose proof (look_flow _ _ _ _ H0 H1) as H2. destruct (look_facts env 0 rt1 Hi1) as (Hi2 & _).
  destruct (rt_done_requested _); [|by apply judge_flow].
  destruct (drain _ _ _ _) as [rt3|] eqn:Ed; intros [= <- <- _]; rewrite app_nil_r in *; [by eapply drain_flow | done].
Qed.

Lemma job_is_orch j ls j' : job_step j ls j' -> careful_step (jb_orch j) ls (jb_orch j').
Proof. destruct 1; [done|]. by econstructor. Qed.

Lemma job_steps_orch j tr j' : steps job_step j tr j' -> steps careful_step (jb_orch j) tr (jb_orch j').
Proof. induction 1; [constructor|]. econstructor; [by apply job_is_orch | done]. Qed.

Lemma job_past j ls j' : job_step j ls j' -> jb_past j' = jb_past j ++ ls.
Proof. destruct 1; cbn; [by rewrite app_nil_r | done]. Qed.

Lemma job_step_flow j ls j' : job_step j ls j' -> orch_inv (jb_orch j) -> flow (jb_past j) (or_rt (jb_orch j)) ->
  flow (jb_past j') (or_rt (jb_orch j')).
Proof.
  destruct 1 as [s s' past Hne Hstep | rt input env rt' ls o past Hw H0 Ht E]; intros [Hb H] Hf; cbn in *.
  - destruct Hstep as [rt input _ | rt e | | rt id rt' o E]; cbn in *; [done | by apply shutdown_flow | by destruct (Hne input) |].
    destruct H as (H & Hj & _). destruct (helper_run_facts _ _ _ _ H Hb Hj E) as (_ & _ & Ho & Hr & Ha & _).
    apply settle_flow. apply (flow_same _ rt); [done | done | by rewrite Hr | done].
  - destruct H as [H Hal]. apply settle_flow. by eapply executor_flow.
Qed.

Lemma job_steps_flow j tr j' :
  steps job_step j tr j' -> orch_inv (jb_orch j) -> flow (jb_past j) (or_rt (jb_orch j)) ->
  orch_inv (jb_orch j') /\ flow (jb_past j') (or_rt (jb_orch j')) /\ jb_past j' = jb_past j ++ concat tr.
Proof.
  induction 1 as [j|j ls j1 tr j2 Hstep _ IH]; intros Hi Hf; [by rewrite app_nil_r|].
  destruct IH as (Hi2 & Hf2 & Hp); [eapply orch_inv_step; [by apply job_is_orch | done] | by eapply job_step_flow |].
  split; [done|]. split; [done|]. by rewrite Hp, (job_past _ _ _ Hstep), <- app_assoc.
Qed.

(** C10: Where the outputs of a job come from, in every run in which no answer of the
    planner uses the id of an assist still to come ([careful_step]), whatever else it
    answers and in whatever order the tasks end: every output of a node is what the agent of the
    catalog returned for a launch of that node in this job, on a message whose
    placeholders were filled in from outputs of the same kind and which carries,
    under its label, such an output of each node it depended on; and so on down to
    launches that depended on nothing. The same holds of the result of the job. *)
Theorem outputs_are_derived task tr j :
  steps job_step (job_start task) tr j ->
  (forall k o, dget k (rt_outputs (or_rt (jb_orch j))) = Some o -> derived (concat tr) k o) /\
  (forall result k o, or_pos (jb_orch j) = AtDone result -> dget k result = Some o -> derived (concat tr) k o).
Proof.
  intros H. destruct (job_steps_flow _ _ _ H) as (Hi & Hf & Hp); [apply orch_inv_start | |].
  { split; try done; cbn; intros ? ?%elem_of_nil; done. }
  cbn in Hp. rewrite Hp in Hf. split; [apply Hf|]. intros result k o Hd Hk.
  destruct Hi as [_ Hi]. rewrite Hd in Hi. destruct Hi as (_ & _ & ->). by apply Hf in Hk.
Qed.

End Provenance.
