(* ===== verification/OrchestratorEnd.v ===== *)
(** * A job comes to its end

    The planner gives a plan and stands by it, the tasks return and ask nobody for
    help: then the job cannot fail or wait for nobody, runs each node once, and is
    done after a number of steps that the plan alone determines. *)
From S2P Require Import Prelude PyStr Dict Json Dag DagPlan DagRuntime Orchestrator OrchestratorFacts.
From S2P Require Import OrchestratorSpec OrchestratorRuns OrchestratorThms.
From Stdlib Require Import Ascii.
Local Open Scope string_scope.
Local Open Scope list_scope.

Section Steady.
Context (agents : list (string * AgentInfo)) (task : string) (plan : DagPlan).
Context (Hvalid : validate_dag plan MAX_PLAN_NODES = Ok tt) (Hsome : dp_nodes plan <> []).
Context (Hallowed : plan_allowed (new_runtime agents task) (Some plan)).

(** Tasks that return texts without a request to an agent of the catalog. *)
Definition quiet_ends (env : environment) : Prop :=
  forall i l k r, env i l k = Some r -> exists o, r = Returned o /\ parse_mentions o (dkeys agents) = [].

(** The steps of such a job. *)
Inductive steady_step : Orch -> list Launch -> Orch -> Prop :=
| steady_planner rt : steady_step (mkOrch AtPlanner rt) [] (mkOrch (AtExecutor (Some plan)) rt)
| steady_executor rt input env rt' ls o :
    wait_ok env -> quiet_ends env -> executor_run env input rt = (rt', ls, o) ->
    steady_step (mkOrch (AtExecutor input) rt) ls (mkOrch (executor_next o rt') (settle (executor_next o rt') rt'))
| steady_helper rt id rt' o :
    helper_run id rt = (rt', o) ->
    steady_step (mkOrch (AtHelper id) rt) [] (mkOrch (helper_next o) (settle (helper_next o) rt')).

Abbreviation ids := (dn_id <$> dp_nodes plan).

(** Every node of the plan is pending, in flight, or completed; those launched are
    the latter two, those judged or waiting for it the last. *)
Record steady (rt : DagRuntime) (launched judged : list string) : Prop := {
  sd_inv : dag_inv rt;
  sd_agents : rt_agents rt = agents;
  sd_seq : rt_assist_seq rt = 0%Z;
  sd_plan : rt_plan rt = dp_nodes plan;
  sd_going : rt_done_requested rt = false;
  sd_status : forall k, match status_of rt k with
                        | Some (DagStatus.PENDING | DagStatus.RUNNING | DagStatus.COMPLETED) => k ∈ ids
                        | None => k ∉ ids
                        | _ => False
                        end;
  sd_ends : forall r, r ∈ rt_completions rt -> cr_ok r = true;
  sd_quiet : forall k o, dget k (rt_outputs rt) = Some o -> parse_mentions o (dkeys agents) = [];
  sd_keys : NoDup (dkeys (rt_outputs rt));
  sd_outputs : forall k, k ∈ dkeys (rt_outputs rt) -> status_of rt k = Some DagStatus.COMPLETED;
  sd_once : NoDup launched;
  sd_launched : forall k, k ∈ launched <-> status_of rt k = Some DagStatus.RUNNING \/ status_of rt k = Some DagStatus.COMPLETED;
  sd_one_end : NoDup (judged ++ (cr_node_id <$> rt_completions rt));
  sd_judged : forall k, k ∈ judged ++ (cr_node_id <$> rt_completions rt) <-> status_of rt k = Some DagStatus.COMPLETED
}.

Lemma steady_in_plan rt L J k : steady rt L J -> in_plan rt k = true <-> k ∈ ids.
Proof. intros H. rewrite in_plan_true, (sd_plan _ _ _ H), list_elem_of_fmap. naive_solver. Qed.

Lemma steady_judgable rt L J k : steady rt L J -> is_Some (status_of rt k) -> _judgable rt k = true.
Proof.
  intros H [s Hs]. unfold _judgable. rewrite (sd_going _ _ _ H). cbn. apply (steady_in_plan _ _ _ _ H).
  pose proof (sd_status _ _ _ H k) as Hk. rewrite Hs in Hk. by destruct s.
Qed.

(** ** The plan *)

Lemma ids_nodup : NoDup ids.
Proof. by apply validate_dag_ok in Hvalid as (_ & ? & _). Qed.

Lemma keep_same rt n : status_of rt (dn_id n) <> Some DagStatus.WAITING_ASSIST ->
  keep_node rt ids n n = n.
Proof. intros Hs. unfold keep_node. destruct n as [i m a t d [x|]]; cbn in *; by rewrite bool_decide_false. Qed.

(** The same plan again changes nothing. *)
Lemma steady_replan rt L J : steady rt L J -> apply_plan plan rt = Ok rt.
Proof.
  intros H. unfold apply_plan. rewrite Hvalid. cbn. destruct (dp_nodes plan) as [|n0 ns0] eqn:E; [done|]. rewrite <- E. clear Hsome.
  assert (forall n, n ∈ dp_nodes plan -> plan_node_of (rt_plan rt) (dn_id n) = Some n) as Hnode.
  { intros n Hn. rewrite (sd_plan _ _ _ H). apply plan_node_of_plan; [apply ids_nodup | done | done]. }
  assert (diff_node rt ids <$> dp_nodes plan = dp_nodes plan) as ->.
  { etrans; [apply (list_fmap_ext _ id) | apply list_fmap_id]. intros i n Hi. apply list_elem_of_lookup_2 in Hi.
    unfold diff_node, id. rewrite (Hnode n Hi). apply keep_same. intros Hs. pose proof (sd_status _ _ _ H (dn_id n)) as Hk. by rewrite Hs in Hk. }
  assert (forall l st, (forall n, n ∈ l -> n ∈ dp_nodes plan) -> foldl (diff_status rt) st l = st) as Hst.
  { induction l as [|n l IH]; intros st Hl; cbn [foldl]; [done|]. unfold diff_status at 2. rewrite Hnode by (apply Hl; by left).
    apply IH. intros m Hm. apply Hl. by right. }
  rewrite Hst by done. pose proof (sd_plan _ _ _ H) as Hp. pose proof (sd_going _ _ _ H) as Hg. destruct rt. cbn in *. by subst.
Qed.

(** The plan on the first time. *)
Lemma steady_first : exists rt, apply_plan plan (new_runtime agents task) = Ok rt /\ steady rt [] [] /\ rt_running rt = [].
Proof.
  destruct (apply_plan plan (new_runtime agents task)) as [rt|e] eqn:E; [|unfold apply_plan in E; by rewrite Hvalid in E].
  exists rt. split; [done|]. pose proof (apply_plan_inv _ _ _ (new_runtime_inv agents task) (plan_allowed_fits _ _ Hallowed) E) as Hi.
  pose proof E as E2. apply apply_plan_ok in E as (_ & Hp & _ & Hst & Ha & Ho & Hr & Hc & Hsq & _ & Hd).
  apply sublist_nil_r in Hc. cbn in Ho, Hr, Ha.
  assert (forall k, status_of rt k = if bool_decide (k ∈ ids) then Some DagStatus.PENDING else None) as Hk.
  { intros k. rewrite Hst. unfold revived. cbn. rewrite !andb_true_r. by destruct (bool_decide _). }
  split; [|done]. split; rewrite ?Ho, ?Hc; try done; try apply NoDup_nil_2; try by intros ? ?%elem_of_nil.
  - rewrite Hp. etrans; [by apply (list_fmap_ext _ id) | apply list_fmap_id].
  - destruct (rt_done_requested rt); [|done]. by destruct (proj1 Hd eq_refl).
  - intros k. rewrite Hk. by case_bool_decide.
  - intros k. rewrite Hk. split; [by intros ?%elem_of_nil|]. by case_bool_decide; intros [?|?].
  - intros k. rewrite Hk. cbn. split; [by intros ?%elem_of_nil|]. by case_bool_decide.
Qed.

(** ** The executor *)

(** A task that returns. *)
Lemma collect_one_steady ended rt L J k :
  (forall r, ended k = Some r -> exists o, r = Returned o /\ parse_mentions o (dkeys agents) = []) ->
  k ∈ rt_running rt -> steady rt L J -> steady (collect_one ended rt k) L J.
Proof.
  intros He Hk H. pose proof (collect_one_inv ended rt k (sd_inv _ _ _ H) Hk) as Hi.
  destruct (collect_one_fields ended rt k) as (Ha & Hp & Hd & Hsq & _). revert Hi Ha Hp Hd Hsq. rewrite collect_one_end.
  destruct (ended k) as [r|]; [|done]. destruct (He r eq_refl) as (o & -> & Ho).
  pose proof (proj1 (di_flight _ (sd_inv _ _ _ H) k) Hk) as Hrun. unfold in_flight in Hrun.
  set (r := mkRecord k o None). set (rt1 := end_task _ _ _ _). intros Hi Ha Hp Hd Hsq.
  assert (_judgable rt1 k = true) as Hj by (apply (steady_judgable _ _ _ k H); by eexists).
  assert (push_record r rt1 = set_completions (rt_completions rt ++ [r]) rt1) as E by (unfold push_record; change (cr_node_id r) with k; by rewrite Hj).
  assert (forall x, status_of (push_record r rt1) x = if decide (x = k) then Some DagStatus.COMPLETED else status_of rt x) as Hst.
  { intros x. rewrite E. unfold status_of. cbn. apply dget_dset. }
  assert (rt_outputs (push_record r rt1) = dset k o (rt_outputs rt)) as Hout by (by rewrite E).
  assert (rt_completions (push_record r rt1) = rt_completions rt ++ [r]) as Hq by (by rewrite E).
  assert (k ∉ J ++ (cr_node_id <$> rt_completions rt)) as Hnew by (rewrite (sd_judged _ _ _ H), Hrun; done).
  split; rewrite ?Ha, ?Hp, ?Hd, ?Hsq, ?Hout, ?Hq, ?fmap_app, ?app_assoc; try apply H; try done.
  - intros x. rewrite Hst. destruct (decide (x = k)) as [->|]; [|apply H]. pose proof (sd_status _ _ _ H k) as Hs. by rewrite Hrun in Hs.
  - intros x [Hx| ->%list_elem_of_singleton]%elem_of_app; [by apply (sd_ends _ _ _ H) | done].
  - intros x d. rewrite dget_dset. destruct (decide _); [by intros [= <-] | by apply (sd_quiet _ _ _ H)].
  - apply NoDup_dset, H.
  - intros x. rewrite Hst, elem_of_dkeys_dset. destruct (decide (x = k)); [done|]. intros [?|?]; [done | by apply (sd_outputs _ _ _ H)].
  - intros x. rewrite Hst, (sd_launched _ _ _ H). destruct (decide (x = k)) as [->|]; [rewrite Hrun; naive_solver | done].
  - apply NoDup_app. split; [apply H|]. split; [|apply NoDup_singleton]. by intros x Hx ->%list_elem_of_singleton.
  - intros x. rewrite Hst, elem_of_app, (sd_judged _ _ _ H). cbn. rewrite list_elem_of_singleton. destruct (decide (x = k)); naive_solver.
Qed.

Lemma look_steady env i rt L J : quiet_ends env -> steady rt L J -> steady (look env i rt) L J.
Proof.
  intros Hq H. unfold look, _collect_done.
  assert (forall k r, env i (rt_running rt) k = Some r -> exists o, r = Returned o /\ parse_mentions o (dkeys agents) = []) as He by (intros ??; apply Hq).
  revert He. generalize (env i (rt_running rt)) as e. intros e He.
  assert (forall l rt, NoDup l -> (forall k, k ∈ l -> k ∈ rt_running rt) -> steady rt L J -> steady (foldl (collect_one e) rt l) L J) as Hl.
  { clear rt H. induction l as [|k l IH]; intros rt Hnd Hin H; cbn [foldl]; [done|]. apply NoDup_cons in Hnd as [Hk Hnd].
    apply IH; [done | | apply collect_one_steady; [by apply He | apply Hin; by left | done]].
    intros x Hx. destruct (collect_one_fields e rt k) as (_ & _ & _ & _ & _ & ->). destruct (e k); [|apply Hin; by right].
    apply elem_of_filterb. split; [apply Hin; by right|]. apply negb_true_iff, bool_decide_eq_false. by intros ->. }
  apply Hl; [apply di_nodup, H | done | done].
Qed.

(** With only good ends in the queue there is nothing to abort for. *)
Lemma steady_abort rt L J : steady rt L J -> _abort_if_failed rt = (rt, Ok tt).
Proof.
  intros H. destruct (abort_if_failed_cases rt) as [(r & Hr & Hok & _)|[E _]]; [|done].
  apply (sd_ends _ _ _ H) in Hr. by rewrite Hok in Hr.
Qed.

(** The first end of the queue is judged. *)
Lemma steady_pop rt L J r l : steady rt L J -> rt_completions rt = r :: l ->
  pop_completion rt = (set_completions l rt, Some r) /\ steady (set_completions l rt) L (J ++ [cr_node_id r]).
Proof.
  intros H E. assert (status_of rt (cr_node_id r) = Some DagStatus.COMPLETED) as Hs.
  { apply (sd_judged _ _ _ H). rewrite E, fmap_cons, elem_of_app, elem_of_cons. auto. }
  split.
  - unfold pop_completion. rewrite E. cbn. by rewrite (steady_judgable _ _ _ _ H) by (by eexists).
  - assert (forall x, status_of (set_completions l rt) x = status_of rt x) as Hst by done.
    assert (J ++ (cr_node_id <$> rt_completions rt) = (J ++ [cr_node_id r]) ++ (cr_node_id <$> l)) as Hq by (by rewrite E, fmap_cons, <- app_assoc).
    split; try apply H.
    + apply set_completions_inv; [apply H|]. rewrite E. by apply sublist_cons.
    + cbn. intros x Hx. apply (sd_ends _ _ _ H). rewrite E. by right.
    + cbn [rt_completions set_completions]. rewrite <- Hq. apply H.
    + intros x. cbn [rt_completions set_completions]. rewrite <- Hq, Hst. apply H.
Qed.

(** A dispatch launches what is ready. *)
Lemma dispatch_steady rt L J rt' ls r : steady rt L J -> _dispatch_ready rt = (rt', ls, r) ->
  r = Ok tt /\ steady rt' (L ++ (la_id <$> ls)) J /\ rt_completions rt' = rt_completions rt /\
  rt_running rt' = rt_running rt ++ dispatchable rt /\ la_id <$> ls = dispatchable rt /\ (dispatchable rt = [] -> rt' = rt).
Proof.
  intros H E. destruct (dispatch_ready_facts rt (sd_inv _ _ _ H)) as (ls' & E' & Hids & _ & Hi). rewrite E' in E. injection E as <- -> <-.
  split; [done|]. destruct (started_all_fields (dispatchable rt) rt) as ((Ha & Hp & Hd & Hsq & _) & Ho & Hr & Hc).
  split; [|by rewrite Hr, Hc, Hids; split_and!; try done; intros ->]. rewrite Hids.
  assert (forall ks rt, NoDup ks -> forall x, status_of (foldl (fun rt k => started k rt) rt ks) x =
    if bool_decide (x ∈ ks) then Some DagStatus.RUNNING else status_of rt x) as Hfold.
  { clear. induction ks as [|k ks IH]; intros rt Hnd x; cbn [foldl]; [done|]. apply NoDup_cons in Hnd as [Hk Hnd]. rewrite IH by done.
    unfold status_of at 1, started. cbn. rewrite dget_dset. repeat case_bool_decide; destruct (decide (x = k)); set_solver. }
  assert (NoDup (dispatchable rt)) as Hnd by (apply dispatchable_nodup, H).
  assert (forall x, x ∈ dispatchable rt -> status_of rt x = Some DagStatus.PENDING /\ x ∈ ids) as Hpend.
  { intros x (n & Hn & <- & Hs & _)%dispatchable_elem. pose proof (sd_status _ _ _ H (dn_id n)) as Hk.
    destruct (status_of rt (dn_id n)) as [[]|]; done. }
  set (rt1 := foldl _ rt _) in *. assert (forall x, status_of rt1 x = if bool_decide (x ∈ dispatchable rt) then Some DagStatus.RUNNING else status_of rt x) as Hst by (by apply Hfold).
  split; rewrite ?Ha, ?Hp, ?Hd, ?Hsq, ?Ho, ?Hc; try apply H; try done.
  - intros x. rewrite Hst. case_bool_decide as Hx; [by apply Hpend | apply H].
  - intros x Hx. apply (sd_outputs _ _ _ H) in Hx. rewrite Hst. case_bool_decide as Hd'; [|done]. apply Hpend in Hd' as [Hs _]. congruence.
  - apply NoDup_app. split; [apply H|]. split; [|done]. intros x Hx Hx2. apply Hpend in Hx2 as [Hs _].
    apply (sd_launched _ _ _ H) in Hx. rewrite Hs in Hx. by destruct Hx.
  - intros x. rewrite elem_of_app, (sd_launched _ _ _ H), Hst. case_bool_decide; naive_solver.
  - intros x. rewrite (sd_judged _ _ _ H), Hst. case_bool_decide as Hx; [|done]. apply Hpend in Hx as [-> _]. done.
Qed.

Lemma steady_idle rt L J k : steady rt L J -> rt_running rt = [] -> k ∈ ids ->
  status_of rt k = Some DagStatus.PENDING \/ status_of rt k = Some DagStatus.COMPLETED.
Proof.
  intros H Hr Hk. pose proof (sd_status _ _ _ H k) as Hs. pose proof (proj2 (di_flight _ (sd_inv _ _ _ H) k)) as Hf.
  unfold in_flight in Hf. rewrite Hr in Hf. destruct (status_of rt k) as [[]|]; auto; try done. by apply elem_of_nil in Hf.
Qed.

(** With nothing in flight and something to run, something is ready. *)
Lemma steady_ready rt L J n : steady rt L J -> rt_running rt = [] -> n ∈ rt_plan rt ->
  can_start (status_of rt (dn_id n)) = true -> dispatchable rt <> [].
Proof.
  intros H Hr Hn Hc. pose proof Hvalid as (_ & Hnd & Hcl & (rank & Hrank))%validate_dag_ok.
  assert (forall m, m ∈ dp_nodes plan -> dag_graph (dp_nodes plan) (dn_id m) = Some (dn_deps m)) as Hg.
  { intros m Hm. unfold dag_graph. pose proof (plan_node_of_plan _ _ m Hnd Hm eq_refl) as E. unfold plan_node_of in E. by rewrite E. }
  apply (some_node_ready rt rank n); rewrite ?(sd_plan _ _ _ H) in *; try done; [apply H | | |].
  - intros m d Hm Hd. right. apply (steady_in_plan _ _ _ _ H). destruct (Hcl _ _ _ (Hg m Hm) Hd) as [ds Hds]. unfold dag_graph in Hds.
    destruct (find_first _ (dp_nodes plan)) as [x|] eqn:Ex; [|done]. apply find_first_some in Ex as [Hx Hxd]. bool_prop. subst d.
    by apply list_elem_of_fmap_2.
  - intros m d Hm _ Hd Hin. apply (steady_in_plan _ _ _ _ H), list_elem_of_fmap in Hin as (x & -> & Hx).
    eapply Hrank; [by apply Hg | done |]. rewrite (Hg x Hx). by eexists.
  - intros m Hm. apply (list_elem_of_fmap_2 dn_id) in Hm. destruct (steady_idle _ _ _ _ H Hr Hm) as [->| ->]; [by left | by right].
Qed.

Lemma wait_steady env rt L J rt' o : wait_ok env -> quiet_ends env -> steady rt L J ->
  rt_completions rt = [] -> rt_running rt <> [] -> executor_wait env rt = (rt', o) ->
  exists k, o = ToJudge k /\ steady rt' L (J ++ [k]).
Proof.
  intros Hw Hq H Hc Hne. unfold executor_wait. pose proof (look_steady env 1 rt L J Hq H) as H1.
  destruct (rt_completions (look env 1 rt)) as [|r l] eqn:E.
  - exfalso. unfold look, _collect_done in E. rewrite collect_completions, Hc in E. cbn [app] in E.
    destruct (Hw 0 _ Hne) as (k & Hk & [e He]).
    assert (is_Some (record_of (env 1 (rt_running rt)) k)) as [r Hr] by (unfold record_of; rewrite He; by destruct e).
    assert (r ∈ omap (record_of (env 1 (rt_running rt))) (filterb (_judgable rt) (rt_running rt))) as Hin.
    { apply list_elem_of_omap. exists k. split; [|done]. apply elem_of_filterb. split; [done|]. apply (steady_judgable _ _ _ _ H).
      apply (di_flight _ (sd_inv _ _ _ H)) in Hk. by eexists. }
    rewrite E in Hin. by apply elem_of_nil in Hin.
  - rewrite (steady_abort _ _ _ H1). destruct (steady_pop _ _ _ _ _ H1 E) as [-> H2]. intros [= <- <-]. by exists (cr_node_id r).
Qed.

(** A call of the executor hands an end on, or finds all nodes completed. *)
Lemma judge_steady env rt L J rt' ls o : wait_ok env -> quiet_ends env -> steady rt L J ->
  executor_judge env rt = (rt', ls, o) ->
  (exists k, o = ToJudge k /\ steady rt' (L ++ (la_id <$> ls)) (J ++ [k])) \/
  (o = ToDone /\ ls = [] /\ steady rt' L J /\ rt_running rt' = [] /\ rt_completions rt' = [] /\
   forall k, k ∈ ids -> status_of rt' k = Some DagStatus.COMPLETED).
Proof.
  intros Hw Hq H. unfold executor_judge. rewrite (steady_abort _ _ _ H). destruct (rt_completions rt) as [|r l] eqn:Ec.
  2: { destruct (steady_pop _ _ _ _ _ H Ec) as [-> H1]. intros [= <- <- <-]. left. exists (cr_node_id r). cbn. by rewrite app_nil_r. }
  rewrite pop_idle by done. destruct (_dispatch_ready rt) as [[rt1 ls1] r] eqn:Ed.
  destruct (dispatch_steady _ _ _ _ _ _ H Ed) as (-> & H1 & Hc & Hr & Hls & Hno). rewrite Ec in Hc.
  destruct (has_work rt1) eqn:Ew.
  - destruct (executor_wait env rt1) as [rt2 o2] eqn:E2. intros [= <- <- <-]. left.
    eapply wait_steady; [exact Hw | exact Hq | exact H1 | exact Hc | | exact E2].
    intros Hr0. rewrite Hr0 in Hr. symmetry in Hr. apply app_eq_nil in Hr as [Hr Hd]. rewrite (Hno Hd) in *. unfold has_work in Ew.
    rewrite Hr in Ew. apply existsb_elem in Ew as (n & Hn & Hs). by apply (steady_ready _ _ _ n H Hr) in Hd.
  - intros [= <- <- <-]. right. unfold has_work in Ew. destruct (rt_running rt1) eqn:Er; [|done].
    symmetry in Hr. apply app_eq_nil in Hr as [Hr Hd]. rewrite (Hno Hd) in *. rewrite Hd in Hls. apply fmap_nil_inv in Hls as ->.
    do 5 (split; [done|]). intros k Hk. apply list_elem_of_fmap in Hk as (n & -> & Hn).
    rewrite (sd_plan _ _ _ H), existsb_false in Ew. specialize (Ew n Hn). apply (list_elem_of_fmap_2 dn_id) in Hn.
    destruct (steady_idle _ _ _ _ H Hr Hn) as [E|E]; [by rewrite E in Ew | done].
Qed.

Lemma executor_steady env rt rt1 L J rt' ls o : wait_ok env -> quiet_ends env ->
  apply_plan plan rt = Ok rt1 -> steady rt1 L J -> executor_run env (Some plan) rt = (rt', ls, o) ->
  (exists k, o = ToJudge k /\ steady rt' (L ++ (la_id <$> ls)) (J ++ [k])) \/
  (o = ToDone /\ ls = [] /\ steady rt' L J /\ rt_running rt' = [] /\ rt_completions rt' = [] /\
   forall k, k ∈ ids -> status_of rt' k = Some DagStatus.COMPLETED).
Proof.
  intros Hw Hq Ea H1. unfold executor_run. cbn [_apply_plan_input]. rewrite Ea. pose proof (look_steady env 0 rt1 L J Hq H1) as H2.
  rewrite (sd_going _ _ _ H2). by apply judge_steady.
Qed.

(** The helper finds nothing to ask for. *)
Lemma helper_steady rt L J k : steady rt L (J ++ [k]) -> helper_run k rt = (rt, ToPlanner).
Proof.
  intros H. assert (status_of rt k = Some DagStatus.COMPLETED) as Hs.
  { apply (sd_judged _ _ _ H). rewrite !elem_of_app. left. right. by left. }
  assert (in_plan rt k = true) as Hin.
  { apply (steady_in_plan _ _ _ _ H). pose proof (sd_status _ _ _ H k) as Hk. by rewrite Hs in Hk. }
  unfold helper_run. rewrite Hin. cbn [negb]. destruct (in_plan_get _ _ Hin) as (n & -> & _).
  destruct (dkeys_dget k (rt_outputs rt)) as [o Ho]; [by apply (di_outputs _ (sd_inv _ _ _ H)); left|].
  rewrite Ho, (sd_agents _ _ _ H). change (default estr (Some o)) with o. by rewrite (sd_quiet _ _ _ H _ _ Ho).
Qed.

(** ** The job *)

(** Where a job stands after [n] steps, with [L] launched. *)
Definition ready_for (rt : DagRuntime) (L J : list string) : Prop :=
  plan_allowed rt (Some plan) /\ exists rt1, apply_plan plan rt = Ok rt1 /\ steady rt1 L J.

Lemma steady_ready_for rt L J : steady rt L J -> ready_for rt L J.
Proof.
  intros H. split; [|exists rt; split; [by eapply steady_replan | done]].
  intros p Hp. destruct (Hallowed p Hp) as [H1 H2]. by rewrite (sd_agents _ _ _ H), (sd_seq _ _ _ H).
Qed.

Definition stands (n : nat) (L : list string) (s : Orch) : Prop :=
  let rt := or_rt s in
  match or_pos s with
  | AtPlanner => exists J, ready_for rt L J /\ n = 3 * length J
  | AtExecutor input => input = Some plan /\ exists J, ready_for rt L J /\ n = 3 * length J + 1
  | AtHelper k => exists J, steady rt L (J ++ [k]) /\ n = 3 * length J + 2
  | AtDone out => out = rt_outputs rt /\ rt_completions rt = [] /\ (forall k, k ∈ ids -> status_of rt k = Some DagStatus.COMPLETED) /\
      exists J, steady rt L J /\ n = 3 * length J + 2
  | Failed _ => False
  end.

Lemma stands_step n L s ls s' : stands n L s -> steady_step s ls s' -> stands (S n) (L ++ (la_id <$> ls)) s'.
Proof.
  intros H Hstep. destruct Hstep as [rt | rt input env rt' ls o Hw Hq E | rt k rt' o E]; unfold stands in *; cbn [or_pos or_rt] in *.
  - rewrite app_nil_r. split; [done|]. destruct H as (J & HJ & ->). exists J. split; [done | lia].
  - destruct H as (-> & J & (_ & rt1 & Ea & H1) & ->).
    destruct (executor_steady _ _ _ _ _ _ _ _ Hw Hq Ea H1 E) as [(k & -> & H')|(-> & -> & H' & Hr & Hc & Hall)]; cbn.
    + exists J. split; [done | lia].
    + rewrite shutdown_idle, app_nil_r by done. do 3 (split; [done|]). exists J. split; [done | lia].
  - destruct H as (J & H & ->). rewrite (helper_steady _ _ _ _ H) in E. injection E as <- <-. cbn. rewrite app_nil_r.
    exists (J ++ [k]). rewrite length_app. cbn. split; [by apply steady_ready_for | lia].
Qed.

(** They are steps of the orchestrator. *)
Lemma steady_is_orch n L s ls s' : stands n L s -> steady_step s ls s' -> careful_step s ls s'.
Proof.
  intros H Hstep. destruct Hstep as [rt | rt input env rt' ls o Hw _ E | rt k rt' o E]; [|by econstructor|by constructor].
  destruct H as (J & [Hal _] & _). by constructor.
Qed.

Lemma stands_steps s tr s' : steps steady_step s tr s' -> forall n L, stands n L s ->
  stands (n + length tr) (L ++ (la_id <$> concat tr)) s' /\ steps careful_step s tr s'.
Proof.
  induction 1 as [s|s ls s1 tr s2 Hstep _ IH]; intros n L H; cbn; [rewrite Nat.add_0_r, app_nil_r; split; [done | constructor]|].
  rewrite fmap_app, app_assoc, Nat.add_succ_r. destruct (IH (S n) (L ++ (la_id <$> ls))) as [Hs Hr]; [by eapply stands_step|].
  split; [exact Hs|]. econstructor; [by eapply steady_is_orch | done].
Qed.

Lemma judged_bound rt L J : steady rt L J -> length J <= length (dp_nodes plan).
Proof.
  intros H. rewrite <- (length_fmap dn_id). apply submseteq_length, NoDup_submseteq.
  - pose proof (sd_one_end _ _ _ H) as Hnd. by apply NoDup_app in Hnd as (? & _).
  - intros k Hk. assert (status_of rt k = Some DagStatus.COMPLETED) as Hs by (apply (sd_judged _ _ _ H), elem_of_app; by left).
    pose proof (sd_status _ _ _ H k) as Hin. by rewrite Hs in Hin.
Qed.

(** At the end every list is the plan. *)
Lemma steady_all rt L J : steady rt L J -> rt_completions rt = [] -> (forall k, k ∈ ids -> status_of rt k = Some DagStatus.COMPLETED) ->
  dkeys (rt_outputs rt) ≡ₚ ids /\ L ≡ₚ ids /\ J ≡ₚ ids.
Proof.
  intros H Hc Hall. assert (forall k, status_of rt k = Some DagStatus.COMPLETED <-> k ∈ ids) as Hids.
  { intros k. split; [|by apply Hall]. intros Hs. pose proof (sd_status _ _ _ H k) as Hin. by rewrite Hs in Hin. }
  pose proof (sd_one_end _ _ _ H) as Hnd. pose proof (sd_judged _ _ _ H) as Hj. rewrite Hc in Hnd, Hj. cbn in Hnd, Hj.
  split; [|split]; (apply NoDup_Permutation; [|apply ids_nodup|]).
  - apply H.
  - intros k. rewrite <- Hids. split; [apply H|]. intros Hs. apply (di_outputs _ (sd_inv _ _ _ H)). by left.
  - apply H.
  - intros k. rewrite <- Hids, (sd_launched _ _ _ H). split; [|by right]. intros [Hs|?]; [|done].
    pose proof (sd_status _ _ _ H k) as Hin. rewrite Hs in Hin. by apply Hids.
  - by rewrite app_nil_r in Hnd.
  - intros k. rewrite <- Hids, <- Hj. by rewrite app_nil_r.
Qed.

Lemma steady_moves n L s : stands n L s -> (exists ls s', steady_step s ls s') \/ exists out, or_pos s = AtDone out.
Proof.
  destruct s as [pos rt]. destruct pos as [|input|k|out|e]; intros H; [left..|right|].
  - eexists _, _. constructor.
  - set (env := (fun _ _ _ => Some (Returned estr)) : environment).
    destruct (executor_run env input rt) as [[rt' ls] o] eqn:E. eexists _, _. eapply (steady_executor _ _ env); [| |exact E].
    + intros i [|k l] Hl; [done|]. exists k. split; [by left | by eexists].
    + intros i l k r [= <-]. by exists estr.
  - destruct (helper_run k rt) as [rt' o] eqn:E. eexists _, _. by constructor.
  - by exists out.
  - done.
Qed.

(** A run stands where its steps have brought it. *)
Lemma steady_stands tr s : steps steady_step (orch_start agents task) tr s ->
  stands (length tr) (la_id <$> concat tr) s /\ steps careful_step (orch_start agents task) tr s.
Proof.
  intros Hrun. destruct steady_first as (rt1 & Ea & H1 & _).
  assert (stands 0 [] (orch_start agents task)) as H0 by (exists []; split; [split; [done | by exists rt1] | done]).
  exact (stands_steps _ _ _ Hrun 0 [] H0).
Qed.

Lemma stands_bound n L s : stands n L s -> n <= 3 * length (dp_nodes plan) + 2.
Proof.
  destruct s as [[|input|k|out|e] rt]; unfold stands; cbn [or_pos or_rt]; try done.
  - intros (J & (_ & rt2 & _ & H) & ->). apply judged_bound in H. lia.
  - intros (_ & J & (_ & rt2 & _ & H) & ->). apply judged_bound in H. lia.
  - intros (J & H & ->). apply judged_bound in H. rewrite length_app in H. cbn in H. lia.
  - intros (_ & _ & _ & J & H & ->). apply judged_bound in H. lia.
Qed.

Lemma stands_done n L s out : stands n L s -> or_pos s = AtDone out ->
  out = rt_outputs (or_rt s) /\ n = 3 * length (dp_nodes plan) + 2 /\ dkeys out ≡ₚ ids /\ L ≡ₚ ids.
Proof.
  intros Hs E. unfold stands in Hs. rewrite E in Hs. destruct Hs as (-> & Hc & Hall & J & H & ->).
  destruct (steady_all _ _ _ H Hc Hall) as (Ho & HL & HJ). by rewrite HJ, length_fmap.
Qed.

(** C12: A job whose planner gives a valid plan of agents of the catalog and stands by it,
    and whose tasks return, in whatever order, without a request to another agent,
    comes to its end: every step of it is one of the orchestrator; it never fails, and
    there is always a next step, until after exactly 3n + 2 steps for a plan of n nodes
    it is done, each node having been launched once and having its output in the
    result. *)
Theorem steady_job_completes tr s :
  steps steady_step (orch_start agents task) tr s ->
  let n := length (dp_nodes plan) in
  steps careful_step (orch_start agents task) tr s /\ length tr <= 3 * n + 2 /\
  ((exists ls s', steady_step s ls s') \/
   exists out, or_pos s = AtDone out /\ length tr = 3 * n + 2 /\ dkeys out ≡ₚ ids /\ (la_id <$> concat tr) ≡ₚ ids).
Proof.
  intros Hrun n. destruct (steady_stands _ _ Hrun) as [Hs Horch]. split; [done|]. split; [by eapply stands_bound|].
  destruct (steady_moves _ _ _ Hs) as [?|[out E]]; [by left|]. right. exists out. split; [done|]. by apply (stands_done _ _ _ _ Hs).
Qed.
End Steady.
