(* ===== verification/OrchestratorRules.v ===== *)
(** * The rules of the workflow orchestrator: replanning, judging, assists

    What a replan does to each node, in which order ends are judged, what the helper
    reads out of an output, and the concrete runs that show where the rules fall
    short of what they say. *)
From S2P Require Import Prelude PyStr Dict Json Dag DagPlan DagRuntime Orchestrator OrchestratorFacts.
From S2P Require Import OrchestratorSpec OrchestratorRuns OrchestratorThms.
From Stdlib Require Import Ascii.
Local Open Scope string_scope.
Local Open Scope list_scope.

(** ** Replanning *)

(** C14: A replan is accepted exactly when the plan is valid, and otherwise changes
    nothing. Accepted, it leaves the outputs and the tasks in flight alone and takes
    the new nodes in order. A node that stays keeps its status, and the parent it
    assists unless the plan names one; one that waits for its assists depends on the
    old and the new dependencies together, as far as they are in the new plan or have
    an output, and any other node on what the plan says. A node that was not in the
    plan is pending, unless it has run before: then it is not run again. *)
Theorem apply_plan_spec plan rt :
  match validate_dag plan MAX_PLAN_NODES with
  | Err e => apply_plan plan rt = Err e
  | Ok _ =>
      exists rt', apply_plan plan rt = Ok rt' /\
        rt_outputs rt' = rt_outputs rt /\ rt_running rt' = rt_running rt /\
        (rt_done_requested rt' = true <-> dp_nodes plan = []) /\
        length (rt_plan rt') = length (dp_nodes plan) /\
        forall i n, dp_nodes plan !! i = Some n ->
          exists n', rt_plan rt' !! i = Some n' /\
            dn_id n' = dn_id n /\ dn_agent_name n' = dn_agent_name n /\ dn_instruction n' = dn_instruction n /\
            match plan_node_of (rt_plan rt) (dn_id n) with
            | Some old =>
                status_of rt' (dn_id n) = status_of rt (dn_id n) /\
                dn_assist_for n' = match dn_assist_for n with Some a => Some a | None => dn_assist_for old end /\
                (status_of rt (dn_id n) = Some DagStatus.WAITING_ASSIST ->
                   NoDup (dn_deps n') /\
                   forall d, d ∈ dn_deps n' <->
                     (d ∈ dn_deps n \/ d ∈ dn_deps old) /\
                     (d ∈ (dn_id <$> dp_nodes plan) \/ d ∈ dkeys (rt_outputs rt))) /\
                (status_of rt (dn_id n) <> Some DagStatus.WAITING_ASSIST -> dn_deps n' = dn_deps n)
            | None =>
                n' = n /\
                status_of rt' (dn_id n) =
                  match status_of rt (dn_id n) with
                  | None | Some DagStatus.PENDING | Some DagStatus.CANCELLED => Some DagStatus.PENDING
                  | s => s
                  end
            end
  end.
Proof.
  destruct (validate_dag plan MAX_PLAN_NODES) as [[]|e] eqn:E; [|by unfold apply_plan; rewrite E].
  destruct (apply_plan plan rt) as [rt'|e] eqn:Ea; [|unfold apply_plan in Ea; by rewrite E in Ea].
  exists rt'. split; [done|]. apply apply_plan_ok in Ea as (_ & Hp & _ & Hst & _ & Ho & Hr & _ & _ & _ & Hd).
  do 3 (split; [done|]). split; [by rewrite Hp, length_fmap|]. intros i n Hi.
  exists (diff_node rt (dn_id <$> dp_nodes plan) n). split; [by rewrite Hp, list_lookup_fmap, Hi|].
  destruct (diff_node_same rt (dn_id <$> dp_nodes plan) n) as [Hid Hag]. do 2 (split; [done|]).
  assert (bool_decide (dn_id n ∈ (dn_id <$> dp_nodes plan)) = true) as Hin.
  { apply bool_decide_eq_true, list_elem_of_fmap_2. by eapply list_elem_of_lookup_2. }
  split. { unfold diff_node, keep_node. destruct (plan_node_of _ _) as [old|]; [|done].
    by destruct (dn_assist_for old), (dn_assist_for n), (bool_decide (status_of _ _ = _)). }
  rewrite Hst. unfold revived. rewrite in_plan_node, Hin. destruct (plan_node_of (rt_plan rt) (dn_id n)) as [old|] eqn:Eo; cbn [andb negb].
  - split; [done|]. split.
    { unfold diff_node. rewrite Eo. unfold keep_node.
      by destruct (dn_assist_for old) eqn:?, (dn_assist_for n) eqn:?, (bool_decide (status_of _ _ = _)). }
    split; [|intros Hw; by apply diff_node_deps]. intros Hw. unfold diff_node. rewrite Eo. unfold keep_node.
    set (m := match dn_assist_for old with Some _ => _ | None => _ end).
    assert (dn_id m = dn_id n /\ dn_deps m = dn_deps n) as [-> ->] by (by destruct (dn_assist_for old), (dn_assist_for n)).
    rewrite bool_decide_true by done. cbn [dn_deps set_deps]. destruct (merge_deps_spec
      (fun dep => bool_decide (dep ∈ dn_id <$> dp_nodes plan) || dmem dep (rt_outputs rt)) (dn_deps n ++ dn_deps old)) as [H1 H2].
    split; [done|]. intros d. by rewrite H2, elem_of_app, orb_true_iff, bool_decide_eq_true, dmem_true.
  - split; [unfold diff_node; by rewrite Eo|]. by destruct (status_of rt (dn_id n)) as [[]|].
Qed.

(** ** Judging *)

(** Ends are judged one at a time, in the order they were recorded, and before
    anything else is launched: with ends to judge, a call of the executor launches
    nothing; it passes over the ends of nodes that have left the plan, takes the
    first other one, and leaves the rest in the queue. A failure anywhere in the
    queue comes before all of them: the tasks in flight are cancelled and the job
    fails with the node's error. *)
Theorem executor_consumes_first env rt stale r later :
  rt_completions rt = stale ++ r :: later -> _judgable rt (cr_node_id r) = true ->
  (forall x, x ∈ stale -> _judgable rt (cr_node_id x) = false) ->
  if forallb (fun x => cr_ok x || negb (_judgable rt (cr_node_id x))) (rt_completions rt)
  then executor_judge env rt = (set_completions later rt, [], ToJudge (cr_node_id r))
  else exists x, x ∈ rt_completions rt /\ cr_ok x = false /\ _judgable rt (cr_node_id x) = true /\
         executor_judge env rt =
           (shutdown rt, [], Raises (WorkflowError ("node " +:+ cr_node_id x +:+ " failed: " +:+ default "None" (cr_error x)))).
Proof.
  intros Hc Hj Hst. unfold executor_judge. destruct (forallb _ _) eqn:Ef.
  - rewrite forallb_elem in Ef. destruct (abort_if_failed_cases rt) as [(x & Hx & Hok & Hjx & _)|[-> _]].
    + specialize (Ef x Hx). by rewrite Hok, Hjx in Ef.
    + replace (pop_completion rt) with (set_completions later rt, Some r); [done|]. unfold pop_completion. rewrite Hc.
      clear Hc Ef. induction stale as [|y stale IH]; cbn; [by rewrite Hj|]. rewrite (Hst y) by (by left).
      apply IH. intros x Hx. apply Hst. by right.
  - destruct (abort_if_failed_cases rt) as [(x & Hx & Hok & Hjx & ->)|[_ Hall]]; [by exists x|].
    exfalso. apply not_true_iff_false in Ef. apply Ef, forallb_elem. intros x Hx.
    destruct (_judgable rt (cr_node_id x)) eqn:E; [by rewrite (Hall x Hx E) | apply orb_true_r].
Qed.

Lemma dispatch_list_completions ks : forall rt, rt_completions (dispatch_list ks rt).1.1 = rt_completions rt.
Proof.
  induction ks as [|k ks IH]; intros rt; [done|]. cbn [dispatch_list]. unfold dispatch_one.
  destruct (get_plan_node rt k) as [n|e]; [|done]. cbn. destruct (dget (dn_agent_name n) (rt_agents rt)) as [info|]; [|done]. cbn.
  specialize (IH (set_running (start_running k (rt_running rt)) (set_node_status k DagStatus.RUNNING rt))).
  by destruct (dispatch_list ks _) as [[rt' ls] r].
Qed.

(** A look at which nothing has ended changes nothing. *)
Lemma look_idle env i rt : (forall k, k ∈ rt_running rt -> env i (rt_running rt) k = None) -> look env i rt = rt.
Proof.
  intros H. unfold look, _collect_done. set (f := env i (rt_running rt)) in *. revert H. generalize (rt_running rt) as l. intros l Hl.
  assert (forall x, x ∈ l -> collect_one f rt x = rt) as Hx by (intros x Hx; unfold collect_one; by rewrite Hl).
  clear -Hx. induction l as [|k l IH]; [done|]. cbn [foldl]. rewrite Hx by (by left). apply IH. intros; apply Hx. by right.
Qed.

(** When only nodes outside the plan end at a look, no end is recorded. *)
Lemma look_outside env i rt :
  (forall k, k ∈ rt_running rt -> is_Some (env i (rt_running rt) k) -> in_plan rt k = false) ->
  rt_completions (look env i rt) = rt_completions rt.
Proof.
  intros H. unfold look, _collect_done. rewrite collect_completions. set (f := env i (rt_running rt)) in *. revert H.
  generalize (rt_running rt) as l. intros l H. replace (omap _ _) with (@nil CompletionRecord); [by rewrite app_nil_r|].
  induction l as [|k l IH]; [done|]. cbn [filterb List.filter]. fold (filterb (_judgable rt) l).
  assert (omap (record_of f) (filterb (_judgable rt) l) = []) as IHl by (symmetry; apply IH; intros x Hx; apply H; by right).
  destruct (_judgable rt k) eqn:Ej; [|done]. cbn [omap list_omap]. rewrite IHl. unfold record_of.
  destruct (f k) eqn:Ef; [|done]. apply judgable_in_plan in Ej. rewrite H in Ej; [done | by left | by eexists].
Qed.

(** A task that ends after a replan has taken its node out of the plan ends the whole
    job, unless another end is there to be judged: the executor, which has launched
    what was ready, finds no completion after its wait, and takes that for a lack of
    progress, although the tasks it has just launched are running. *)
Theorem removed_task_fails_the_job env input rt rt0 rt1 ls :
  _apply_plan_input input rt = Ok rt0 -> rt_done_requested rt0 = false -> rt_completions rt0 = [] ->
  (forall k, k ∈ rt_running rt0 -> env 0 (rt_running rt0) k = None) ->
  _dispatch_ready rt0 = (rt1, ls, Ok tt) -> rt_running rt1 <> [] ->
  (forall k, k ∈ rt_running rt1 -> is_Some (env 1 (rt_running rt1) k) -> in_plan rt1 k = false) ->
  exists rt', executor_run env input rt = (rt', ls, Raises NO_PROGRESS) /\ rt_running rt' = rt_running (look env 1 rt1).
Proof.
  intros Ha Hd Hc H0 Hdis Hne H1. unfold executor_run. rewrite Ha, (look_idle _ _ _ H0), Hd.
  unfold executor_judge. rewrite abort_idle, pop_idle by done. rewrite Hdis. unfold has_work.
  destruct (rt_running rt1) as [|k0 ks] eqn:Er; [done|]. rewrite <- Er in *. unfold executor_wait.
  pose proof (dispatch_list_completions (dispatchable rt0) rt0) as Hc1. unfold _dispatch_ready in Hdis. rewrite Hdis, Hc in Hc1. cbn in Hc1.
  pose proof (look_outside env 1 rt1 H1) as Hc2. rewrite Hc1 in Hc2. rewrite abort_idle, pop_idle by done. by eexists.
Qed.

(** ** The helper *)

Lemma split_space_none s : split_space s = None <-> PyStr.has_char " "%char s = false.
Proof.
  induction s as [|a s IH]; cbn; [done|]. destruct (Ascii.eqb a " "); cbn; [done|]. rewrite <- IH.
  by destruct (split_space s).
Qed.

Lemma split_space_app n i : PyStr.has_char " "%char n = false -> split_space (n +:+ String " "%char i) = Some (n, i).
Proof.
  induction n as [|a n IH]; cbn [PyStr.has_char].
  - intros _. rewrite sapp_nil. done.
  - intros [Ha Hn]%orb_false_iff. rewrite sapp_cons. cbn. by rewrite Ha, IH.
Qed.

(** A text with one request after the other: [@agent instruction]. *)
Definition request_text (m : string * string) : string := fst m +:+ String " "%char (snd m).

(** The helper reads back every request of an output, in order, whatever text comes
    before the first: an agent of the catalog, a space, and an instruction, which is
    everything up to the next request less the spaces around it. *)
Theorem parse_mentions_spec names t l :
  PyStr.has_char "@"%char t = false ->
  (forall m, m ∈ l -> m.1 ∈ names /\ PyStr.has_char " "%char m.1 = false /\ PyStr.has_char "@"%char m.1 = false /\
     PyStr.has_char "@"%char m.2 = false /\ ustrip m.2 <> estr) ->
  parse_mentions (str_join "@" (t :: (request_text <$> l))) names = (fun m => (m.1, ustrip m.2)) <$> l.
Proof.
  intros Ht Hl. unfold parse_mentions. change "@" with (String "@"%char estr). rewrite split_join; [|done|].
  2: { constructor; [done|]. apply Forall_fmap, Forall_forall. intros m Hm. destruct (Hl m Hm) as (_ & _ & H1 & H2 & _).
    unfold request_text. cbn. rewrite has_char_app, H1. cbn. by rewrite H2. }
  cbn [tail]. induction l as [|m l IH]; [done|]. rewrite !fmap_cons. cbn [omap list_omap].
  destruct (Hl m) as (Hn & Hs & _ & _ & Hi); [by left|]. unfold mention_of at 1, request_text at 1. rewrite split_space_app by done.
  rewrite bool_decide_true by done. apply str_truthy_true in Hi. cbn [andb]. rewrite Hi. f_equal. apply IH.
  intros x Hx. apply Hl. by right.
Qed.

Lemma has_assist_same l l' p a :
  (forall n, n ∈ l -> exists n', n' ∈ l' /\ dn_assist_for n' = dn_assist_for n /\ dn_agent_name n' = dn_agent_name n) ->
  existsb (fun n => bool_decide (dn_assist_for n = Some p) && bool_decide (dn_agent_name n = a)) l = true ->
  existsb (fun n => bool_decide (dn_assist_for n = Some p) && bool_decide (dn_agent_name n = a)) l' = true.
Proof.
  intros H. rewrite !existsb_elem. intros (n & Hn & Hb). destruct (H n Hn) as (n' & Hn' & E1 & E2).
  exists n'. by rewrite E1, E2.
Qed.

Lemma update_first_kept k a l n :
  n ∈ l -> exists n', n' ∈ update_first k (wire_parent a) l /\ dn_id n' = dn_id n /\
    dn_assist_for n' = dn_assist_for n /\ dn_agent_name n' = dn_agent_name n.
Proof.
  induction l as [|m l IH]; intros Hn; [by apply elem_of_nil in Hn|]. cbn [update_first]. case_bool_decide.
  - apply elem_of_cons in Hn as [->|Hn]; [|exists n; split; [by right | done]].
    exists (wire_parent a m). split; [by left|]. unfold wire_parent. by destruct (bool_decide _).
  - apply elem_of_cons in Hn as [->|Hn]; [exists m; split; [by left | done]|].
    destruct (IH Hn) as (n' & Hn' & ?). exists n'. split; [by right | done].
Qed.

(** Every candidate of the helper becomes an assist, and earlier assists stay. *)
Lemma add_assists_have id l : forall rt rt' n,
  add_assists id l rt = Ok rt' ->
  (forall p a, has_assist_for rt p a = true -> has_assist_for rt' p a = true) /\
  (forall m, m ∈ l -> has_assist_for rt' id m.1 = true) /\
  (n ∈ rt_plan rt -> exists n', n' ∈ rt_plan rt' /\ dn_id n' = dn_id n /\ dn_agent_name n' = dn_agent_name n).
Proof.
  induction l as [|[ag instr] l IH]; intros rt rt' n; cbn [add_assists].
  - intros [= <-]. split; [done|]. split; [by intros m ?%elem_of_nil | by exists n].
  - destruct (add_assist id ag instr rt) as [[rt1 aid]|e] eqn:E; cbn; [|done]. intros Ha.
    apply add_assist_ok in E as (_ & (as' & Has & Hag & _ & Hfor & Hp) & _).
    assert (forall p a, has_assist_for rt p a = true -> has_assist_for rt1 p a = true) as Hkeep.
    { intros p a. apply has_assist_same. intros x Hx. rewrite Hp. destruct (update_first_kept id aid _ x Hx) as (x' & Hx' & _ & ?).
      exists x'. split; [apply elem_of_app; by left | done]. }
    split; [|split].
    + intros p a Hh. apply (proj1 (IH rt1 rt' n Ha)). by apply Hkeep.
    + destruct (IH rt1 rt' n Ha) as (IH1 & IH2 & _). intros m [->|Hm]%elem_of_cons; [|by apply IH2].
      apply IH1. unfold has_assist_for. rewrite existsb_elem. exists as'. rewrite Hp, Hfor. cbn [fst]. rewrite Hag.
      split; [apply elem_of_app; right; by left|]. by rewrite !bool_decide_true.
    + intros Hn. destruct (update_first_kept id aid _ n Hn) as (n1 & Hn1 & Hid1 & _ & Hag1).
      destruct (IH rt1 rt' n1 Ha) as (_ & _ & H3). destruct H3 as (n2 & ? & Hid2 & Hag2); [rewrite Hp; apply elem_of_app; by left|].
      exists n2. by rewrite Hid2, Hag2.
Qed.

(** The first request to each agent, in order. *)
Fixpoint first_requests (l : list (string * string)) : list (string * string) :=
  match l with
  | [] => []
  | m :: l' => m :: filterb (fun x => negb (bool_decide (x.1 = m.1))) (first_requests l')
  end.

Lemma first_requests_sublist l : sublist (first_requests l) l.
Proof. induction l as [|m l IH]; [done|]. cbn. apply sublist_skip. etrans; [apply filterb_sublist | done]. Qed.

Lemma first_requests_elem l m : m ∈ first_requests l <-> find_first (fun x => bool_decide (x.1 = m.1)) l = Some m.
Proof.
  induction l as [|x l IH]; cbn [first_requests find_first List.find]; [split; [by intros ?%elem_of_nil | done]|].
  rewrite elem_of_cons, elem_of_filterb, IH. fold (find_first (fun y => bool_decide (y.1 = m.1)) l).
  destruct (decide (x.1 = m.1)) as [E|E].
  - rewrite (bool_decide_true (x.1 = m.1)) by done. split; [|intros [= ->]; by left]. intros [->|[_ Hb]]; [done|]. bool_prop. by rewrite E in Hb.
  - rewrite (bool_decide_false (x.1 = m.1)) by done. split; [intros [->|[? _]]; done|]. intros H. right. split; [done|].
    apply negb_true_iff, bool_decide_eq_false. congruence.
Qed.

Lemma first_requests_nodup l : NoDup ((first_requests l).*1).
Proof.
  induction l as [|m l IH]; [by apply NoDup_nil_2|]. cbn [first_requests]. rewrite fmap_cons. apply NoDup_cons. split.
  - intros (x & E & [_ Hb]%elem_of_filterb)%list_elem_of_fmap. bool_prop. congruence.
  - eapply sublist_NoDup; [exact IH | apply fmap_sublist, filterb_sublist].
Qed.

Lemma helper_candidates_first rt parent ms :
  helper_candidates rt parent ms =
  filterb (fun m => negb (bool_decide (m.1 = dn_agent_name parent)) && negb (has_assist_for rt (dn_id parent) m.1)) (first_requests ms).
Proof.
  set (wanted := fun m : string * string => negb (bool_decide (m.1 = dn_agent_name parent)) && negb (has_assist_for rt (dn_id parent) m.1)).
  assert (forall seen cands, (foldl (helper_candidate rt parent) (seen, cands) ms).2 =
    cands ++ filterb (fun m => negb (bool_decide (m.1 ∈ seen)) && wanted m) (first_requests ms)) as H.
  2: { unfold helper_candidates. rewrite H. cbn. apply List.filter_ext. intros m. by rewrite bool_decide_false by apply not_elem_of_nil. }
  induction ms as [|m ms IH]; intros seen cands; cbn [foldl first_requests]; [by rewrite app_nil_r|].
  destruct m as [a i]. unfold helper_candidate at 2. cbn [filterb List.filter fst]. fold (filterb (A := string * string)).
  fold (filterb (fun m => negb (bool_decide (m.1 ∈ seen)) && wanted m) (filterb (fun x => negb (bool_decide (x.1 = a))) (first_requests ms))).
  rewrite filterb_filterb. unfold wanted at 1. cbn [fst].
  destruct (bool_decide (a = dn_agent_name parent)) eqn:Ea; [|destruct (bool_decide (a ∈ seen)) eqn:Es]; cbn [orb negb andb]; rewrite ?andb_false_r.
  - rewrite IH. f_equal. apply List.filter_ext. intros m. unfold wanted. bool_prop. subst a.
    by destruct (bool_decide (m.1 = dn_agent_name parent)); rewrite ?andb_false_r, ?andb_true_r.
  - rewrite IH. f_equal. apply List.filter_ext. intros m. bool_prop. destruct (bool_decide (m.1 = a)) eqn:Em; [|by rewrite andb_true_r].
    bool_prop. rewrite Em. by rewrite (bool_decide_true (a ∈ seen)).
  - assert (forall m : string * string, bool_decide (m.1 ∈ seen ++ [a]) = bool_decide (m.1 ∈ seen) || bool_decide (m.1 = a)) as Hs.
    { intros m. rewrite <- bool_decide_or. apply bool_decide_ext. by rewrite elem_of_app, list_elem_of_singleton. }
    assert (forall l, filterb (fun m : string * string => negb (bool_decide (m.1 ∈ seen ++ [a])) && wanted m) l =
      filterb (fun m => negb (bool_decide (m.1 ∈ seen)) && wanted m && negb (bool_decide (m.1 = a))) l) as Hf.
    { intros l. apply List.filter_ext. intros m. rewrite Hs. by destruct (bool_decide (m.1 ∈ seen)), (bool_decide (m.1 = a)), (wanted m). }
    destruct (has_assist_for rt (dn_id parent) a); cbn [negb]; by rewrite IH, Hf, <- ?app_assoc.
Qed.

Lemma wire_all ids : forall n,
  let n' := foldl (fun n a => wire_parent a n) n ids in
  dn_id n' = dn_id n /\ dn_name n' = dn_name n /\ dn_agent_name n' = dn_agent_name n /\ dn_assist_for n' = dn_assist_for n /\
  (forall d, d ∈ dn_deps n' <-> d ∈ dn_deps n \/ d ∈ ids) /\
  dn_instruction n' = dn_instruction n +:+
    str_join estr ((fun a => nl +:+ nl +:+ "[" +:+ a +:+ " output]" +:+ nl +:+ output_ref a) <$> ids).
Proof.
  induction ids as [|a ids IH]; intros n; cbn [foldl].
  - do 4 (split; [done|]). split; [intros d; set_solver | cbn; by rewrite sapp_nil_r].
  - destruct (IH (wire_parent a n)) as (H1 & H2 & H3 & H4 & H5 & H6). cbv zeta. rewrite H1, H2, H3, H4, H6, fmap_cons.
    assert (forall x ys, str_join estr (x :: ys) = x +:+ str_join estr ys) as Hj
      by (intros x [|y ys]; [cbn; by rewrite sapp_nil_r | rewrite str_join_cons by done; by rewrite sapp_nil]).
    rewrite Hj. unfold wire_parent. split_and!; [by destruct (bool_decide _)..| |].
    + intros d. rewrite H5. unfold wire_parent. destruct (bool_decide (a ∈ dn_deps n)) eqn:E; bool_prop; cbn; set_solver.
    + destruct (bool_decide _); cbn; by rewrite !sapp_assoc.
Qed.

Lemma has_assist_for_true rt p a :
  has_assist_for rt p a = true <-> exists n, n ∈ rt_plan rt /\ dn_assist_for n = Some p /\ dn_agent_name n = a.
Proof.
  unfold has_assist_for. rewrite existsb_elem. split; intros (n & Hn & Hb); exists n; (split; [done|]).
  - by bool_prop.
  - destruct Hb. by rewrite !bool_decide_true.
Qed.

(** The same output, judged again after its assists were added, asks for nothing more. *)
Lemma helper_asks_once id rt rt' parent l :
  dag_inv rt' -> dn_id parent = id -> parent ∈ rt_plan rt ->
  rt_outputs rt' = rt_outputs rt -> rt_agents rt' = rt_agents rt -> add_assists id l rt = Ok rt' ->
  l = helper_candidates rt parent (parse_mentions (default estr (dget id (rt_outputs rt))) (dkeys (rt_agents rt))) ->
  helper_run id rt' = (rt', ToPlanner).
Proof.
  intros Hi Hpid Hpin Ho Ha E El. destruct (add_assists_have id l rt rt' parent E) as (Hk & Hall & Hpar).
  destruct (Hpar Hpin) as (p1 & Hp1 & Hp1id & Hp1ag). rewrite Hpid in Hp1id.
  assert (get_plan_node rt' id = Ok p1) as Hg1.
  { unfold get_plan_node. by rewrite (plan_node_of_plan _ id p1) by first [done | apply (di_plan _ Hi)]. }
  unfold helper_run. rewrite Hg1, Ho, Ha. set (mentions := parse_mentions _ _) in *.
  assert (in_plan rt' id = true) as -> by (apply in_plan_true; by exists p1). cbn [negb].
  assert (helper_candidates rt' p1 mentions = []) as ->; [|done]. apply elem_of_nil_inv. intros m.
  rewrite helper_candidates_first, elem_of_filterb, Hp1id, Hp1ag. intros [Hm Hb]. bool_prop.
  destruct (has_assist_for rt id m.1) eqn:Eh; [by rewrite (Hk _ _ Eh) in H0|].
  rewrite (Hall m) in H0; [done|]. rewrite El, helper_candidates_first, elem_of_filterb, Hpid, Eh. split; [done|].
  by rewrite bool_decide_false.
Qed.

(** C13: What the helper does with the end of a node of the plan. It takes the first
    request of the output to each agent that is neither the node's own nor already
    has an assist for it in the plan, in order. With none, or when the node is itself
    three assists deep, or the plan would have more than twenty nodes, the planner
    decides and nothing has changed. Otherwise there is one more node for each, given
    to that agent with the instruction of the request and the output it came from;
    the node waits for them: it depends on them besides what it depended on, and its
    instruction quotes their outputs; every other node is as it was, and the executor
    goes on. The same output, judged again, then asks for nothing more. *)
Theorem helper_spec id rt rt' o parent :
  dag_inv rt -> dag_bounded rt -> judged rt id -> get_plan_node rt id = Ok parent ->
  helper_run id rt = (rt', o) ->
  let mentions := parse_mentions (default estr (dget id (rt_outputs rt))) (dkeys (rt_agents rt)) in
  exists requests, sublist requests mentions /\ NoDup (requests.*1) /\
    (forall m, m ∈ requests <-> find_first (fun x => bool_decide (x.1 = m.1)) mentions = Some m /\
       m.1 <> dn_agent_name parent /\ ~ (exists n, n ∈ rt_plan rt /\ dn_assist_for n = Some id /\ dn_agent_name n = m.1)) /\
    if decide (requests = [] \/ (3 <= depth_of rt id)%Z \/ 20 < length (rt_plan rt) + length requests)
    then o = ToPlanner /\ rt' = rt
    else
      let new_id i := assist_id_of id (rt_assist_seq rt + 1 + Z.of_nat i) in
      let ids := imap (fun i _ => new_id i) requests in
      o = ToExecute /\
      (exists waiting,
         rt_plan rt' = ((fun n => if bool_decide (dn_id n = id) then waiting else n) <$> rt_plan rt) ++
           imap (fun i m => mkPlanNode (new_id i) ("assist:" +:+ m.1) m.1
                              (m.2 +:+ nl +:+ nl +:+ "[" +:+ id +:+ " output]" +:+ nl +:+ output_ref id) [] (Some id)) requests /\
         dn_id waiting = id /\ dn_name waiting = dn_name parent /\ dn_agent_name waiting = dn_agent_name parent /\
         dn_assist_for waiting = dn_assist_for parent /\
         (forall d, d ∈ dn_deps waiting <-> d ∈ dn_deps parent \/ d ∈ ids) /\
         dn_instruction waiting = dn_instruction parent +:+
           str_join estr ((fun a => nl +:+ nl +:+ "[" +:+ a +:+ " output]" +:+ nl +:+ output_ref a) <$> ids)) /\
      (forall k, status_of rt' k = if bool_decide (k ∈ ids) then Some DagStatus.PENDING
                                   else if bool_decide (k = id) then Some DagStatus.WAITING_ASSIST else status_of rt k) /\
      rt_outputs rt' = rt_outputs rt /\ rt_running rt' = rt_running rt /\
      helper_run id rt' = (rt', ToPlanner).
Proof.
  intros H Hb Hj Hparent Hrun mentions.
  assert (parent ∈ rt_plan rt /\ dn_id parent = id) as [Hpin Hpid].
  { unfold get_plan_node in Hparent. destruct (plan_node_of _ _) eqn:E; [|done]. injection Hparent as ->. by apply plan_node_of_elem. }
  assert (in_plan rt id = true) as Hin by (apply in_plan_true; by exists parent).
  pose proof (helper_candidates_first rt parent mentions) as Ef. rewrite Hpid in Ef.
  exists (helper_candidates rt parent mentions).
  split; [rewrite Ef; etrans; [apply filterb_sublist | apply first_requests_sublist]|].
  split; [rewrite Ef; eapply sublist_NoDup; [apply first_requests_nodup | apply fmap_sublist, filterb_sublist]|].
  split. { intros m. rewrite Ef, elem_of_filterb, first_requests_elem, andb_true_iff, !negb_true_iff, bool_decide_eq_false.
    by rewrite <- not_true_iff_false, has_assist_for_true. }
  unfold helper_run in Hrun. rewrite Hin, Hparent in Hrun. cbn [negb] in Hrun. fold mentions in Hrun. clear Ef.
  destruct (helper_candidates rt parent mentions) as [|m0 c0] eqn:Ec; [rewrite decide_True by (by left); by injection Hrun as <- <-|].
  destruct (can_add_assists rt id _) eqn:Eca; cbn [negb] in Hrun; unfold can_add_assists, MAX_ASSIST_DEPTH, MAX_PLAN_NODES in Eca.
  2: { rewrite decide_True; [by injection Hrun as <- <-|]. right. apply andb_false_iff in Eca as [?%Z.leb_gt|?%Z.leb_gt]; lia. }
  apply andb_prop in Eca as [Hd%Z.leb_le Hl%Z.leb_le]. destruct (Hj Hin) as [Hst Hrec]. rewrite decide_False by (intros [?|?]; [done | lia]).
  destruct (add_assists_ok id (m0 :: c0) rt H Hb) as (rt1 & E1 & Hi1 & _ & Ho1 & Hr1 & Ha1 & _); try done.
  { split; [done|]. split; [by left | done]. }
  { intros x Hx. rewrite <- Ec in Hx. apply helper_candidates_sub in Hx. by apply parse_mentions_agents in Hx as []. }
  rewrite E1 in Hrun. injection Hrun as <- <-. destruct (add_assists_shape id _ rt rt1 Hin E1) as (Hp & Hs & _).
  split; [done|]. split; [|split; [|split; [done | split; [done | by eapply helper_asks_once]]]].
  - set (ids := assist_ids id (rt_assist_seq rt) (m0 :: c0)) in *. exists (foldl (fun n a => wire_parent a n) parent ids).
    split; [|pose proof (wire_all ids parent) as Hw; rewrite Hpid in Hw; exact Hw]. rewrite Hp. f_equal.
    by apply (update_first_unique id (fun n => foldl (fun n a => wire_parent a n) n ids) _ parent (di_plan _ H)).
  - intros k. rewrite Hs. unfold assist_ids. by rewrite (bool_decide_false (m0 :: c0 = [])), andb_true_r.
Qed.
