(* ===== verification/DagSamples.v ===== *)
(** * Sample orchestrations

    Concrete plans, environments and runs: the inputs of the witnesses, and the runs
    that show what the orchestrator does in the corners of its rules. *)
From S2P Require Import Prelude PyStr Dict Json Dag DagPlan DagRuntime Orchestrator OrchestratorFacts.
From S2P Require Import OrchestratorSpec OrchestratorRuns OrchestratorThms.
From Stdlib Require Import Ascii.
Local Open Scope string_scope.
Local Open Scope list_scope.

Definition sample_agents : list (string * AgentInfo) :=
  [("writer", mkAgentInfo "writer" "http://w" "writes"); ("reviewer", mkAgentInfo "reviewer" "http://r" "reviews")].

Definition sample_node (id agent : string) (deps : list string) : PlanNode :=
  mkPlanNode id id agent ("do " +:+ id) deps None.

(** At a look after a wait one task has ended: the first of [order] that is in
    flight, or else the oldest; the others run on. *)
Definition next_end (order l : list string) : option string :=
  match find_first (fun k => bool_decide (k ∈ l)) order with Some k => Some k | None => head l end.
Definition ends_in (order : list string) (result : list string -> string -> task_end) : environment :=
  fun i l k => match i with
               | O => None
               | S _ => if bool_decide (next_end order l = Some k) then Some (result l k) else None
               end.

Lemma ends_in_ok order result : wait_ok (ends_in order result).
Proof.
  intros i l Hl. unfold ends_in. assert (exists k, next_end order l = Some k /\ k ∈ l) as (k & E & Hk).
  { unfold next_end. destruct (find_first _ order) as [k|] eqn:Ef.
    - exists k. split; [done|]. apply find_first_some in Ef as [_ Hb]. by bool_prop.
    - destruct l as [|x l]; [done|]. exists x. split; [done | by left]. }
  exists k. split; [done|]. rewrite bool_decide_true by done. by eexists.
Qed.

(** Every task returns a text that names its node. *)
Definition plain_result (l : list string) (k : string) : task_end := Returned ("out " +:+ k).

Lemma issued_plain seq k : PyStr.has_char "-"%char k = false -> issued seq k.
Proof. intros H p m ->. unfold assist_id_of in H. rewrite !has_char_app in H. cbn in H. by rewrite orb_true_r in H. Qed.

(** A concrete plan of the catalog, with plain ids, is allowed. *)
Definition plain_plan (rt : DagRuntime) (plan : DagPlan) : bool :=
  negb (bool_decide (dkeys (rt_agents rt) = [])) &&
  forallb (fun n => bool_decide (dn_agent_name n ∈ dkeys (rt_agents rt)) && negb (PyStr.has_char "-"%char (dn_id n))) (dp_nodes plan).

Lemma plain_plan_allowed rt plan : plain_plan rt plan = true -> plan_allowed rt (Some plan).
Proof.
  unfold plain_plan. intros [Hne Hall]%andb_prop p [= <-]. rewrite forallb_elem in Hall. bool_prop. split.
  - unfold constrained_plan_schema. destruct (dkeys (rt_agents rt)) eqn:E; [done|]. eexists. split; [done|]. cbv beta.
    apply forallb_elem. intros n Hn. specialize (Hall n Hn). by apply andb_prop in Hall as [? _].
  - intros n Hn. specialize (Hall n Hn). bool_prop. by apply issued_plain.
Qed.

(** The executor and the helper as steps. *)
Definition exec_launches (env : environment) (input : option DagPlan) (rt : DagRuntime) : list Launch := (executor_run env input rt).1.2.
Definition exec_to (env : environment) (input : option DagPlan) (rt : DagRuntime) : Orch :=
  let '(rt', _, o) := executor_run env input rt in mkOrch (executor_next o rt') (settle (executor_next o rt') rt').
Definition help_to (id : string) (rt : DagRuntime) : Orch :=
  let '(rt', o) := helper_run id rt in mkOrch (helper_next o) (settle (helper_next o) rt').

Lemma exec_to_step allowed env input rt :
  wait_ok env -> orch_step_by allowed (mkOrch (AtExecutor input) rt) (exec_launches env input rt) (exec_to env input rt).
Proof.
  intros Hw. unfold exec_to, exec_launches. destruct (executor_run env input rt) as [[rt' ls] o] eqn:E. by econstructor.
Qed.

Lemma help_to_step allowed id rt : orch_step_by allowed (mkOrch (AtHelper id) rt) [] (help_to id rt).
Proof. unfold help_to. destruct (helper_run id rt) as [rt' o] eqn:E. by constructor. Qed.

(** A job driven by given answers of the planner, for at most [fuel] nodes of the
    workflow; with the launches. *)
Fixpoint drive (fuel : nat) (env : environment) (plans : list DagPlan) (s : Orch) : Orch * list Launch :=
  match fuel with
  | O => (s, [])
  | S fuel' =>
      match or_pos s with
      | AtPlanner =>
          match plans with
          | [] => (s, [])
          | p :: ps => drive fuel' env ps (mkOrch (AtExecutor (Some p)) (or_rt s))
          end
      | AtExecutor input =>
          let '(s', ls) := drive fuel' env plans (exec_to env input (or_rt s)) in
          (s', exec_launches env input (or_rt s) ++ ls)
      | AtHelper id => drive fuel' env plans (help_to id (or_rt s))
      | AtDone _ | Failed _ => (s, [])
      end
  end.

Definition allowed_all (rt : DagRuntime) (plans : list DagPlan) : Prop := forall p, p ∈ plans -> plain_plan rt p = true.

(** With the launches, as a job whose ends come from running them... *)
Lemma drive_job runs fuel env : wait_ok env -> (forall past i, tied runs past (env i)) -> forall plans s past,
  orch_inv s -> allowed_all (or_rt s) plans ->
  exists tr, steps (job_step runs) (mkJob s past) tr (mkJob (drive fuel env plans s).1 (past ++ (drive fuel env plans s).2)) /\
    concat tr = (drive fuel env plans s).2.
Proof.
  intros Hw Ht. assert (forall s past, exists tr, steps (job_step runs) (mkJob s past) tr (mkJob s (past ++ [])) /\ concat tr = []) as Hstop.
  { intros s past. rewrite app_nil_r. exists []. split; constructor. }
  assert (forall s ls s' plans, orch_inv s -> careful_step s ls s' -> allowed_all (or_rt s) plans -> allowed_all (or_rt s') plans) as Hkept.
  { intros s ls s' plans Hi Hstep Hp x Hx. unfold plain_plan. pose proof (orch_step_agents _ _ _ Hi Hstep) as ->. by apply Hp. }
  induction fuel as [|fuel IH]; intros plans s past Hi Hp; cbn [drive]; [apply Hstop|].
  destruct s as [pos rt]. destruct pos as [|input|id|out|e]; cbn [or_pos or_rt] in *; try apply Hstop.
  - destruct plans as [|p ps]; [apply Hstop|].
    assert (careful_step (mkOrch AtPlanner rt) [] (mkOrch (AtExecutor (Some p)) rt)) as Hstep.
    { constructor. apply plain_plan_allowed, Hp. by left. }
    destruct (IH ps (mkOrch (AtExecutor (Some p)) rt) past) as (tr & Htr & Hc);
      [by eapply orch_inv_step | intros x Hx; apply Hp; by right |].
    exists ([] :: tr). split; [|done]. econstructor; [by apply job_thinks | exact Htr].
  - pose proof (exec_to_step plan_allowed env input rt Hw) as Hstep.
    destruct (IH plans (exec_to env input rt) (past ++ exec_launches env input rt)) as (tr & Htr & Hc);
      [by eapply orch_inv_step | by eapply Hkept |].
    destruct (drive fuel env plans (exec_to env input rt)) as [s' ls]. cbn [fst snd] in *.
    exists (exec_launches env input rt :: tr). split; [|cbn; by rewrite Hc]. rewrite <- app_assoc in Htr. econstructor; [|exact Htr].
    unfold exec_to, exec_launches. destruct (executor_run env input rt) as [[rt' ls1] o] eqn:E. by apply job_executes with env.
  - pose proof (help_to_step plan_allowed id rt) as Hstep.
    destruct (IH plans (help_to id rt) past) as (tr & Htr & Hc); [by eapply orch_inv_step | by eapply Hkept |].
    exists ([] :: tr). split; [|done]. econstructor; [by apply job_thinks | exact Htr].
Qed.

(** ... and as a run of the orchestrator. *)
Lemma drive_steps fuel env plans s :
  wait_ok env -> orch_inv s -> allowed_all (or_rt s) plans ->
  exists tr, steps careful_step s tr (drive fuel env plans s).1 /\ concat tr = (drive fuel env plans s).2.
Proof.
  intros Hw Hi Hp. destruct (drive_job (fun _ _ => True) fuel env Hw) with (plans := plans) (s := s) (past := @nil Launch)
    as (tr & Htr & Hc); [|done|done|].
  - intros past i l k r Hl Hk _. destruct (launched_last past k) as [la Hla]; [by apply Hl | by exists la].
  - exists tr. split; [|done]. by apply job_steps_orch in Htr.
Qed.

(** Ends that are what running the launches comes to. *)
Lemma ends_in_tied runs order result past i :
  (forall la l, runs la (result l (la_id la))) -> tied runs past (ends_in order result i).
Proof.
  intros Hr l k r Hl Hk. destruct i as [|i]; [done|]. cbn. destruct (bool_decide _); [|done]. intros [= <-].
  destruct (launched_last past k) as [la Hla]; [by apply Hl|]. exists la. split; [done|].
  destruct (last_launch_some _ _ _ Hla) as [_ <-]. apply Hr.
Qed.

(** ** A job from start to end *)

Definition plan_ab : DagPlan := mkDagPlan [sample_node "a" "writer" []; sample_node "b" "reviewer" ["a"]].

(** [a] asks the reviewer for help when it runs alone. *)
Definition asking_result (l : list string) (k : string) : task_end :=
  if bool_decide (l = ["a"]) then Returned "draft @reviewer check it" else plain_result l k.

Definition sample_start : Orch := orch_start sample_agents "write".
Definition sample_job : Orch * list Launch :=
  drive 14 (ends_in ["a-assist1"; "a"] asking_result) [plan_ab; plan_ab; plan_ab; mkDagPlan []] sample_start.

(** The node that asked for help runs again with the answer; the node that depends
    on it has not waited for that. *)
Example sample_job_launches : (fun l => (la_id l, la_message l)) <$> sample_job.2 =
  [("a", "do a");
   ("b", "do b" +:+ nl +:+ nl +:+ "[a output]" +:+ nl +:+ "draft @reviewer check it");
   ("a-assist1", "check it" +:+ nl +:+ nl +:+ "[a output]" +:+ nl +:+ "draft @reviewer check it");
   ("a", "do a" +:+ nl +:+ nl +:+ "[a-assist1 output]" +:+ nl +:+ "out a-assist1")].
Proof. vm_compute. reflexivity. Qed.

Example sample_job_done : match or_pos sample_job.1 with AtDone out => dkeys out | _ => [] end = ["a"; "a-assist1"; "b"].
Proof. vm_compute. reflexivity. Qed.

(** ** Corners *)

Definition plan_parallel (ids : list string) : DagPlan := mkDagPlan ((fun k => sample_node k "writer" []) <$> ids).

(** [b] is taken out of the plan while it runs, and ends before the node that
    replaces it: the job fails, with [c] still in flight. *)
Definition removed_job : Orch * list Launch :=
  drive 8 (ends_in ["a"; "b"] plain_result) [plan_parallel ["a"; "b"]; plan_parallel ["a"; "c"]] sample_start.

Example removed_job_fails : la_id <$> removed_job.2 = ["a"; "b"; "c"] /\ or_pos removed_job.1 = Failed NO_PROGRESS /\
  status_of (or_rt removed_job.1) "b" = Some DagStatus.COMPLETED /\ status_of (or_rt removed_job.1) "c" = Some DagStatus.RUNNING.
Proof. vm_compute. done. Qed.

(** [a] ends first, then [b] and [c] together, [b] with an error. *)
Definition fails_aside : environment := fun i l k =>
  match i with
  | O => None
  | S _ =>
      if bool_decide ("a" ∈ l) then (if bool_decide (k = "a") then Some (Returned "out") else None)
      else Some (if bool_decide (k = "b") then Raised "no route" else Returned "out")
  end.

Lemma fails_aside_ok : wait_ok fails_aside.
Proof.
  intros i l Hl. unfold fails_aside. destruct (decide ("a" ∈ l)) as [Ha|Ha].
  - exists "a". rewrite !bool_decide_true by done. split; [done | by eexists].
  - rewrite bool_decide_false by done. destruct l as [|k l]; [done|]. exists k. split; [by left | by eexists].
Qed.

(** A node that failed while it was out of the plan is not run again when the plan
    takes it back, and nobody learns that it failed: the job is done without it... *)
Definition failed_aside_job (last : DagPlan) : Orch * list Launch :=
  drive 10 fails_aside [plan_parallel ["a"; "b"; "c"]; plan_parallel ["a"; "c"]; last] sample_start.

Example failed_aside_done :
  or_pos (failed_aside_job (plan_parallel ["a"; "b"; "c"])).1 = AtDone [("a", "out"); ("c", "out")].
Proof. vm_compute. done. Qed.

(** ... and when another node depends on it, the job fails with a lack of progress. *)
Example failed_aside_stuck :
  or_pos (failed_aside_job (mkDagPlan [sample_node "b" "writer" []; sample_node "d" "writer" ["b"]])).1 = Failed NO_PROGRESS.
Proof. vm_compute. done. Qed.

(** An answer that uses the id the next assist will get, as the schema lets it: the
    plan then has it twice, and the node that is in flight under it is pending again. *)
Definition clash_plan : DagPlan := mkDagPlan [sample_node "a" "writer" []; sample_node "a-assist1" "writer" []].
Definition clash_env : environment :=
  ends_in ["a"] (fun _ k => Returned (if bool_decide (k = "a") then "draft @reviewer check it" else "out")).
Definition clash_judged : Orch := exec_to clash_env (Some clash_plan) (or_rt sample_start).
Definition clash_asked : Orch := help_to "a" (or_rt clash_judged).

Lemma assist_id_clash :
  exists tr s, steps orch_step sample_start tr s /\
    (dn_id <$> rt_plan (or_rt s)) = ["a"; "a-assist1"; "a-assist1"] /\ rt_running (or_rt s) = ["a-assist1"] /\
    status_of (or_rt s) "a-assist1" = Some DagStatus.PENDING.
Proof.
  exists [[]; exec_launches clash_env (Some clash_plan) (or_rt sample_start); []], clash_asked.
  split; [|by vm_compute]. apply steps_cons with (mkOrch (AtExecutor (Some clash_plan)) (or_rt sample_start)).
  { constructor. intros p [= <-]. eexists. split; [vm_compute; reflexivity | by vm_compute]. }
  apply steps_cons with clash_judged; [apply exec_to_step, ends_in_ok|].
  apply steps_cons with clash_asked; [|constructor].
  replace clash_judged with (mkOrch (AtHelper "a") (or_rt clash_judged)) by (by vm_compute). apply help_to_step.
Qed.

(** The first three steps of [sample_job], with the assist they add. *)
Definition asking_env : environment := ends_in ["a-assist1"; "a"] asking_result.
Definition asking_judged : Orch := exec_to asking_env (Some plan_ab) (or_rt sample_start).
Definition asking_asked : Orch := help_to "a" (or_rt asking_judged).

Lemma asking_traced : exists tr, steps traced_step (mkTraced sample_start []) tr (mkTraced asking_asked [("a-assist1", "a")]).
Proof.
  eexists. eapply steps_cons.
  { apply traced_by with (s' := mkOrch (AtExecutor (Some plan_ab)) (or_rt sample_start)). constructor. apply plain_plan_allowed. by vm_compute. }
  eapply steps_cons. { apply traced_by, (exec_to_step _ asking_env), ends_in_ok. }
  replace (mkTraced asking_asked [("a-assist1", "a")]) with
    (mkTraced asking_asked (([] ++ assists_added sample_start (mkOrch (AtExecutor (Some plan_ab)) (or_rt sample_start)) ++ []) ++
      assists_added (mkOrch (AtHelper "a") (or_rt asking_judged)) asking_asked)) by (by vm_compute).
  replace (exec_to asking_env (Some plan_ab) (or_rt sample_start)) with (mkOrch (AtHelper "a") (or_rt asking_judged)) by (by vm_compute).
  eapply steps_cons; [|constructor]. apply traced_by, help_to_step.
Qed.
