(* ===== verification/Graph.v ===== *)
(** * Workflow graphs (new_choirworks/core/workflow/graph.py, utils/graph_validation.py)

    Nodes joined by edges that may carry routes; the successors a finished node
    triggers, and the checks a graph has to pass. *)
From S2P Require Import Prelude PyStr Dict Json Dag.
Local Open Scope string_scope.
Local Open Scope list_scope.

(** ** Data *)

Inductive route_value := RBool (b : bool) | RInt (z : Z) | RStr (s : string).

(** Python compares [True] with [1] and [False] with [0] as equal, and hashes them
    alike: routes are compared by what this leaves of them. *)
Definition route_key (r : route_value) : Z + string :=
  match r with RBool b => inl (if b then 1%Z else 0%Z) | RInt z => inl z | RStr s => inr s end.
Definition route_eqb (a b : route_value) : bool := bool_decide (route_key a = route_key b).

(** [RouteValue | list[RouteValue] | None]: of an edge, or emitted by a node. *)
Inductive routes := NoRoute | OneRoute (r : route_value) | ManyRoutes (l : list route_value).

Definition DEFAULT_ROUTE : string := "__DEFAULT__".
Definition START_NAME : string := "__START__".

(** A node: the identity of the object, its name, and whether it waits for all its
    predecessors ([_requires_all_predecessors]). *)
Record WfNode := mkWfNode { wn_ref : Z; wn_name : string; wn_join : bool }.
Definition START : WfNode := mkWfNode 0 START_NAME false.

Record Edge := mkEdge { ed_from : WfNode; ed_to : WfNode; ed_route : routes }.
Definition from_name (e : Edge) : string := wn_name (ed_from e).
Definition to_name (e : Edge) : string := wn_name (ed_to e).

Record Graph := mkGraph { gr_edges : list Edge; gr_nodes : list WfNode }.

(** [Graph.__post_init__]: the nodes of the edges, once per object, in order. *)
Definition see_node (seen : list WfNode) (n : WfNode) : list WfNode :=
  if existsb (fun m => (wn_ref m =? wn_ref n)%Z) seen then seen else seen ++ [n].
Definition infer_nodes (edges : list Edge) : list WfNode :=
  foldl (fun seen e => see_node (see_node seen (ed_from e)) (ed_to e)) [] edges.
Definition make_graph (edges : list Edge) : Graph := mkGraph edges (infer_nodes edges).

Definition terminal_node_names (g : Graph) : list string :=
  let from_names := from_name <$> gr_edges g in
  wn_name <$> filterb (fun n => negb (bool_decide (wn_name n = START_NAME)) && negb (bool_decide (wn_name n ∈ from_names))) (gr_nodes g).

(** ** Routing *)

Definition is_default (r : routes) : bool :=
  match r with OneRoute (RStr s) => bool_decide (s = DEFAULT_ROUTE) | _ => false end.

Definition edge_route_set (r : routes) : list route_value :=
  match r with NoRoute => [] | OneRoute r => [r] | ManyRoutes l => l end.

(** [edge_routes & set(routes_to_match)], or [routes_to_match in edge_routes]. *)
Definition edge_matched (edge_routes : list route_value) (emitted : routes) : bool :=
  match emitted with
  | NoRoute => false
  | OneRoute r => existsb (route_eqb r) edge_routes
  | ManyRoutes l => existsb (fun r => existsb (route_eqb r) l) edge_routes
  end.

(** [next_pending_nodes], [default_route_nodes], [matched_specific_route] after each
    edge. *)
Definition route_edge (node_name : string) (emitted : routes)
    (acc : list string * list string * bool) (e : Edge) : list string * list string * bool :=
  let '(next, defaults, matched) := acc in
  if negb (bool_decide (from_name e = node_name)) then acc
  else match ed_route e with
       | NoRoute => (next ++ [to_name e], defaults, matched)
       | r =>
           if is_default r then (next, defaults ++ [to_name e], matched)
           else if edge_matched (edge_route_set r) emitted then (next ++ [to_name e], defaults, true)
           else acc
       end.
Definition get_next_pending_nodes (g : Graph) (node_name : string) (emitted : routes) : list string :=
  let '(next, defaults, matched) := foldl (route_edge node_name emitted) ([], [], false) (gr_edges g) in
  if matched then next else next ++ defaults.

(** ** Validation *)

(** What is wrong with a graph: what the message of the [GraphValidationError] says
    (the names in it are sorted, and a cycle joined with arrows). *)
Inductive graph_error :=
| DuplicateNames (names : list string)
| NoStart
| StartRoute (to : string)
| Unreachable (names : list string)
| StartIncoming
| DuplicateEdge (from to : string)
| DefaultCombined (from to : string)
| UnconditionalCycle (cycle : list string)
| OutOfFuel.

Abbreviation checked := (sum graph_error unit).

Definition and_then (a : checked) (b : checked) : checked := match a with inl e => inl e | inr _ => b end.

Definition count_name (names : list string) (n : string) : nat := length (filterb (fun m => bool_decide (m = n)) names).
Definition _validate_duplicate_node_names (names : list string) : checked :=
  match filterb (fun n => (1 <? count_name names n)%nat) (fromkeys names) with
  | [] => inr tt
  | duplicates => inl (DuplicateNames duplicates)
  end.

Definition _validate_start_node (names : list string) : checked :=
  if bool_decide (START_NAME ∈ names) then inr tt else inl NoStart.

Definition has_route (e : Edge) : bool := match ed_route e with NoRoute => false | _ => true end.
Definition _validate_start_edges (edges : list Edge) : checked :=
  match find_first (fun e => bool_decide (from_name e = START_NAME) && has_route e) edges with
  | Some e => inl (StartRoute (to_name e))
  | None => inr tt
  end.

(** [adj[name]]: a set, in the order of the edges. *)
Definition successors (edges : list Edge) (name : string) : list string :=
  fromkeys (to_name <$> filterb (fun e => bool_decide (from_name e = name)) edges).

(** [while stack:]. The set pushed on the stack has no order in Python; what is
    reached does not depend on it. *)
Fixpoint connect (edges : list Edge) (fuel : nat) (stack reachable : list string) : option (list string) :=
  match fuel with
  | O => None
  | S fuel' =>
      match last stack with
      | None => Some reachable
      | Some node =>
          let stack := removelast stack in
          if bool_decide (node ∈ reachable) then connect edges fuel' stack reachable
          else
            let reachable := reachable ++ [node] in
            connect edges fuel' (stack ++ filterb (fun t => bool_decide (t ∉ reachable)) (successors edges node)) reachable
      end
  end.

Definition connect_fuel (edges : list Edge) (names : list string) : nat :=
  2 + sum_list ((fun k => length (successors edges k)) <$> names).

Definition _validate_connectivity (edges : list Edge) (names : list string) : checked :=
  match connect edges (connect_fuel edges (fromkeys names)) [START_NAME] [] with
  | None => inl OutOfFuel
  | Some reachable =>
      match filterb (fun n => bool_decide (n ∉ reachable)) (fromkeys names) with
      | [] => if bool_decide (START_NAME ∈ (to_name <$> edges)) then inl StartIncoming else inr tt
      | unreachable => inl (Unreachable unreachable)
      end
  end.

(** A route of an edge, or [None]. *)
Definition _normalize_route (r : routes) : list (option route_value) :=
  match r with NoRoute => [None] | OneRoute r => [Some r] | ManyRoutes l => Some <$> l end.

Definition opt_route_key (o : option route_value) : option (Z + string) := route_key <$> o.
Definition has_opt (o : option route_value) (l : list (option route_value)) : bool :=
  existsb (fun x => bool_decide (opt_route_key x = opt_route_key o)) l.

(** [None in existing or None in new or not existing.isdisjoint(new)]. *)
Definition overlap (existing new : list (option route_value)) : bool :=
  has_opt None existing || has_opt None new || existsb (fun x => has_opt x existing) new.

Fixpoint duplicate_edges (seen : list ((string * string) * list (option route_value))) (edges : list Edge) : checked :=
  match edges with
  | [] => inr tt
  | e :: edges' =>
      let key := (from_name e, to_name e) in
      let new_routes := _normalize_route (ed_route e) in
      match dget key seen with
      | Some existing =>
          if overlap existing new_routes then inl (DuplicateEdge (from_name e) (to_name e))
          else duplicate_edges (dset key (existing ++ new_routes) seen) edges'
      | None => duplicate_edges (dset key new_routes seen) edges'
      end
  end.
Definition _validate_duplicate_edges (edges : list Edge) : checked := duplicate_edges [] edges.

Definition combines_default (e : Edge) : bool :=
  match ed_route e with ManyRoutes l => existsb (route_eqb (RStr DEFAULT_ROUTE)) l | _ => false end.
Definition _validate_default_routes (edges : list Edge) : checked :=
  match find_first combines_default edges with
  | Some e => inl (DefaultCombined (from_name e) (to_name e))
  | None => inr tt
  end.

(** The unconditional successors, in the order of the edges. *)
Definition plain_successors (edges : list Edge) (name : string) : list string :=
  to_name <$> filterb (fun e => bool_decide (from_name e = name) && negb (has_route e)) edges.

(** What a depth-first search ends in: a cycle, or the nodes it has finished. *)
Inductive dfs_result := Cycle (c : list string) | Finished (l : list string) | DfsFuel.

(** [path[path.index(n):]]. *)
Fixpoint path_from (n : string) (path : list string) : list string :=
  match path with
  | [] => []
  | x :: path' => if bool_decide (x = n) then path else path_from n path'
  end.

Definition visit_neighbor (visit : list string -> string -> dfs_result) (path : list string) (acc : dfs_result) (neighbor : string) : dfs_result :=
  match acc with
  | Finished finished =>
      if bool_decide (neighbor ∈ path) then Cycle (path_from neighbor path ++ [neighbor])
      else if bool_decide (neighbor ∈ finished) then acc
      else visit finished neighbor
  | _ => acc
  end.

(** [_dfs]: the nodes in [in_stack] are those of [path]. *)
Fixpoint dfs (adj : string -> list string) (fuel : nat) (path finished : list string) (node : string) : dfs_result :=
  match fuel with
  | O => DfsFuel
  | S fuel' =>
      let path := path ++ [node] in
      match foldl (visit_neighbor (dfs adj fuel' path) path) (Finished finished) (adj node) with
      | Finished finished => Finished (finished ++ [node])
      | r => r
      end
  end.

Definition visit_root (adj : string -> list string) (fuel : nat) (acc : dfs_result) (name : string) : dfs_result :=
  match acc with
  | Finished finished => if bool_decide (name ∈ finished) then acc else dfs adj fuel [] finished name
  | _ => acc
  end.

Definition _detect_unconditional_cycles (edges : list Edge) (names : list string) : checked :=
  match foldl (visit_root (plain_successors edges) (length (fromkeys names))) (Finished []) (fromkeys names) with
  | Finished _ => inr tt
  | Cycle c => inl (UnconditionalCycle c)
  | DfsFuel => inl OutOfFuel
  end.

Definition validate_graph (g : Graph) : checked :=
  let names := wn_name <$> gr_nodes g in
  and_then (_validate_duplicate_node_names names)
    (and_then (_validate_start_node names)
      (and_then (_validate_start_edges (gr_edges g))
        (and_then (_validate_connectivity (gr_edges g) names)
          (and_then (_validate_duplicate_edges (gr_edges g))
            (and_then (_validate_default_routes (gr_edges g))
              (_detect_unconditional_cycles (gr_edges g) names)))))).
