(* ===== verification/GraphFacts.v ===== *)
(** * Workflow graphs, proved *)
From S2P Require Import Prelude PyStr Dict Json Dag Graph.
From Stdlib Require Import Relation_Operators.
Local Open Scope string_scope.
Local Open Scope list_scope.

(** ** Routing *)

(** What an edge does when its node has finished with the given routes. *)
Definition unconditional (n : string) (e : Edge) : Prop := from_name e = n /\ ed_route e = NoRoute.
Definition specific (n : string) (emitted : routes) (e : Edge) : Prop :=
  from_name e = n /\ ed_route e <> NoRoute /\ is_default (ed_route e) = false /\
  edge_matched (edge_route_set (ed_route e)) emitted = true.
Definition fallback (n : string) (e : Edge) : Prop := from_name e = n /\ is_default (ed_route e) = true.

Lemma route_edge_fold n emitted edges : forall next defaults matched next' defaults' matched',
  foldl (route_edge n emitted) (next, defaults, matched) edges = (next', defaults', matched') ->
  (forall t, t ∈ next' <-> t ∈ next \/ exists e, e ∈ edges /\ to_name e = t /\ (unconditional n e \/ specific n emitted e)) /\
  (forall t, t ∈ defaults' <-> t ∈ defaults \/ exists e, e ∈ edges /\ to_name e = t /\ fallback n e) /\
  (matched' = true <-> matched = true \/ exists e, e ∈ edges /\ specific n emitted e).
Proof.
  induction edges as [|e edges IH]; intros next defaults matched next' defaults' matched'; cbn [foldl].
  - intros [= <- <- <-]. setoid_rewrite elem_of_nil. naive_solver.
  - intros Hf. destruct (route_edge n emitted (next, defaults, matched) e) as [[nx df] mt] eqn:Ee.
    apply IH in Hf as (H1 & H2 & H3). unfold route_edge in Ee.
    assert ((nx = next \/ nx = next ++ [to_name e]) /\ (df = defaults \/ df = defaults ++ [to_name e]) /\
      (nx = next ++ [to_name e] <-> unconditional n e \/ specific n emitted e) /\
      (df = defaults ++ [to_name e] <-> fallback n e) /\
      (mt = true <-> matched = true \/ specific n emitted e)) as (Hn & Hd & Hn' & Hd' & Hm).
    { assert (forall (l : list string) x, l = l ++ [x] -> False) as Hneq.
      { intros l x E. apply (f_equal length) in E. rewrite length_app in E. cbn in E. lia. }
      unfold unconditional, specific, fallback. destruct (decide (from_name e = n)) as [Hfr|Hfr].
      - rewrite bool_decide_true in Ee by done. cbn [negb] in Ee.
        destruct (ed_route e) as [|r|l] eqn:Er; [injection Ee as <- <- <-; naive_solver| |].
        + destruct (is_default (OneRoute r)) eqn:Edf; [injection Ee as <- <- <-; naive_solver|].
          destruct (edge_matched _ _) eqn:Em; injection Ee as <- <- <-; naive_solver.
        + destruct (is_default (ManyRoutes l)) eqn:Edf; [done|].
          destruct (edge_matched _ _) eqn:Em; injection Ee as <- <- <-; naive_solver.
      - rewrite bool_decide_false in Ee by done. injection Ee as <- <- <-. naive_solver. }
    setoid_rewrite elem_of_cons. split; [|split].
    + intros t. rewrite H1. split.
      * intros [Ht|(x & Hx & ?)]; [|right; exists x; by split; [right|]].
        destruct Hn as [->| E]; [by left|]. rewrite E in Ht. apply elem_of_app in Ht as [?|Ht]; [by left|].
        apply list_elem_of_singleton in Ht as ->. right. exists e. split; [by left|]. split; [done | by apply Hn'].
      * intros [Ht|(x & [->|Hx] & Hxt & Hxp)]; [left | left | right; by exists x].
        -- destruct Hn as [->| ->]; [done | apply elem_of_app; by left].
        -- apply Hn' in Hxp as ->. apply elem_of_app. right. rewrite Hxt. by left.
    + intros t. rewrite H2. split.
      * intros [Ht|(x & Hx & ?)]; [|right; exists x; by split; [right|]].
        destruct Hd as [->| E]; [by left|]. rewrite E in Ht. apply elem_of_app in Ht as [?|Ht]; [by left|].
        apply list_elem_of_singleton in Ht as ->. right. exists e. split; [by left|]. split; [done | by apply Hd'].
      * intros [Ht|(x & [->|Hx] & Hxt & Hxp)]; [left | left | right; by exists x].
        -- destruct Hd as [->| ->]; [done | apply elem_of_app; by left].
        -- apply Hd' in Hxp as ->. apply elem_of_app. right. rewrite Hxt. by left.
    + rewrite H3, Hm. naive_solver.
Qed.

(** A finished node triggers the target of each of its unconditional edges, and of
    each edge one of whose routes it emitted; the targets of its fallback edges are
    triggered exactly when no edge with a route of its own matched. *)
Theorem get_next_pending_nodes_spec g n emitted t :
  t ∈ get_next_pending_nodes g n emitted <->
  exists e, e ∈ gr_edges g /\ to_name e = t /\
    (unconditional n e \/ specific n emitted e \/
     (fallback n e /\ forall e', e' ∈ gr_edges g -> ~ specific n emitted e')).
Proof.
  unfold get_next_pending_nodes. destruct (foldl _ _ _) as [[next defaults] matched] eqn:E.
  apply route_edge_fold in E as (H1 & H2 & H3). setoid_rewrite elem_of_nil in H1. setoid_rewrite elem_of_nil in H2.
  destruct matched.
  - rewrite H1. destruct (proj1 H3 eq_refl) as [?|(s & Hs & Hsp)]; [done|]. split; [naive_solver|].
    intros (e & He & Ht & [?|[?|[_ Hno]]]); [naive_solver | naive_solver | by apply (Hno s) in Hs].
  - rewrite elem_of_app, H1, H2. assert (forall e, e ∈ gr_edges g -> ~ specific n emitted e) as Hno.
    { intros e He Hsp. assert (false = true) as F; [|done]. apply H3. right. by exists e. }
    naive_solver.
Qed.

(** ** Depth-first search *)

Section search.
Context (adj : string -> list string) (all : list string).
Context (adj_all : forall k t, k ∈ all -> t ∈ adj k -> t ∈ all).

Definition edge (a b : string) : Prop := a ∈ all /\ b ∈ adj a.
Abbreviation path_to := (clos_trans_1n _ edge).

(** Every node of the list comes after its successors. *)
Definition topo (l : list string) : Prop := forall l1 k l2, l = l1 ++ k :: l2 -> forall t, t ∈ adj k -> t ∈ l1.

Lemma topo_snoc l k : topo l -> (forall t, t ∈ adj k -> t ∈ l) -> topo (l ++ [k]).
Proof.
  intros Hl Hk l1 x l2 E t Ht. destruct l2 as [|y l2 _] using rev_ind.
  - apply app_inj_tail in E as [-> ->]. by apply Hk.
  - rewrite app_comm_cons, app_assoc in E. apply app_inj_tail in E as [-> _]. by eapply Hl.
Qed.

Lemma topo_nil : topo [].
Proof. intros l1 k l2 E. by destruct l1. Qed.

Lemma path_snoc a b c : path_to a b -> edge b c -> path_to a c.
Proof. induction 1; intros Hc; [eapply t1n_trans; [done | by apply t1n_step] | eapply t1n_trans; eauto]. Qed.

(** What a search from a node may end in. *)
Definition dfs_ok (finished : list string) (need : list string) (r : dfs_result) : Prop :=
  match r with
  | Finished l => topo l /\ (forall x, x ∈ finished -> x ∈ l) /\ (forall x, x ∈ need -> x ∈ l)
  | Cycle _ => exists k, path_to k k
  | DfsFuel => False
  end.

Lemma visit_all (visit : list string -> string -> dfs_result) path node nbs : forall finished,
  node ∈ all -> (forall t, t ∈ nbs -> t ∈ adj node) ->
  (forall k, k ∈ path -> k = node \/ path_to k node) -> topo finished ->
  (forall l t, topo l -> t ∈ nbs -> t ∉ path -> dfs_ok l [t] (visit l t)) ->
  dfs_ok finished nbs (foldl (visit_neighbor visit path) (Finished finished) nbs).
Proof.
  induction nbs as [|t nbs IH]; intros finished Hnode Hadj Hpath Ht Hvisit; cbn [foldl visit_neighbor].
  - split; [done|]. split; [done|]. by intros x ?%elem_of_nil.
  - assert (edge node t) as Hedge by (split; [done | apply Hadj; by left]).
    assert (forall r, dfs_ok finished [t] r -> dfs_ok finished (t :: nbs) (foldl (visit_neighbor visit path) r nbs)) as Hrest.
    { intros r Hr. destruct r as [c|l|]; [| |done].
      - assert (forall ns, foldl (visit_neighbor visit path) (Cycle c) ns = Cycle c) as -> by (intros ns; induction ns; done). done.
      - destruct Hr as (Hl & Hsub & Htl). specialize (IH l Hnode).
        destruct (foldl _ (Finished l) nbs) as [c|l'|] eqn:E; cbn in IH |- *.
        + apply IH; try done; intros; [apply Hadj; by right | apply Hvisit; [done | by right | done]].
        + destruct IH as (H1 & H2 & H3); try done.
          { intros; apply Hadj; by right. }
          { intros; apply Hvisit; [done | by right | done]. }
          split; [done|]. split; [auto|]. intros x [->|Hx]%elem_of_cons; [apply H2, Htl; by left | auto].
        + apply IH; try done; intros; [apply Hadj; by right | apply Hvisit; [done | by right | done]]. }
    apply Hrest. case_bool_decide as Hin.
    + destruct (Hpath t Hin) as [->|Hp]; [exists node; by apply t1n_step | exists node]. by eapply t1n_trans.
    + case_bool_decide as Hfin; [|apply Hvisit; [done | by left | done]].
      split; [done|]. split; [done|]. by intros x ->%list_elem_of_singleton.
Qed.

Lemma dfs_spec fuel : forall path finished node,
  node ∈ all -> NoDup path -> (forall k, k ∈ path -> k ∈ all /\ path_to k node) -> node ∉ path ->
  length all <= length path + fuel -> topo finished ->
  dfs_ok finished [node] (dfs adj fuel path finished node).
Proof.
  induction fuel as [|fuel IH]; intros path finished node Hnode Hnd Hpath Hnp Hfuel Ht.
  - exfalso. assert (length (node :: path) <= length all); [|cbn in *; lia].
    apply submseteq_length, NoDup_submseteq; [by constructor|]. intros x [->|Hx]%elem_of_cons; [done | by apply Hpath].
  - cbn [dfs].
    assert (dfs_ok finished (adj node)
      (foldl (visit_neighbor (dfs adj fuel (path ++ [node])) (path ++ [node])) (Finished finished) (adj node))) as H.
    { apply (visit_all _ _ node); try done.
      - intros k [Hk|Hk]%elem_of_app; [right; by apply Hpath | left; by apply list_elem_of_singleton in Hk].
      - intros l t Hl Hta Htp. apply IH; try done.
        + by eapply adj_all.
        + apply NoDup_app. split; [done|]. split; [|apply NoDup_singleton]. by intros x Hx ->%list_elem_of_singleton.
        + intros k [Hk|Hk]%elem_of_app.
          * destruct (Hpath k Hk). split; [done|]. by eapply path_snoc.
          * apply list_elem_of_singleton in Hk as ->. split; [done|]. by apply t1n_step.
        + rewrite length_app. cbn. lia. }
    destruct (foldl _ _ _) as [c|l|]; [done| |done]. destruct H as (H1 & H2 & H3). split; [by apply topo_snoc|].
    split; [intros x Hx; apply elem_of_app; left; auto|]. intros x ->%list_elem_of_singleton. apply elem_of_app. right. by left.
Qed.

Lemma roots_spec names : forall finished,
  (forall n, n ∈ names -> n ∈ all) -> topo finished ->
  dfs_ok finished names (foldl (visit_root adj (length all)) (Finished finished) names).
Proof.
  induction names as [|n names IH]; intros finished Hsub Ht; cbn [foldl visit_root].
  - split; [done|]. split; [done|]. by intros x ?%elem_of_nil.
  - assert (dfs_ok finished [n] (if bool_decide (n ∈ finished) then Finished finished else dfs adj (length all) [] finished n)) as H.
    { case_bool_decide as Hn; [split; [done|]; split; [done|]; by intros x ->%list_elem_of_singleton|].
      apply dfs_spec; try done; [apply Hsub; by left | by apply NoDup_nil_2 | by intros k ?%elem_of_nil | by apply not_elem_of_nil]. }
    destruct (if bool_decide (n ∈ finished) then _ else _) as [c|l|]; [| |done].
    + assert (forall ns, foldl (visit_root adj (length all)) (Cycle c) ns = Cycle c) as -> by (intros ns; induction ns; done). done.
    + destruct H as (H1 & H2 & H3). assert (dfs_ok l names (foldl (visit_root adj (length all)) (Finished l) names)) as Hl.
      { apply IH; [intros; apply Hsub; by right | done]. }
      destruct (foldl _ (Finished l) names) as [c|l'|]; [done| |done]. destruct Hl as (K1 & K2 & K3).
      split; [done|]. split; [auto|]. intros x [->|Hx]%elem_of_cons; [apply K2, H3; by left | auto].
Qed.

(** The graph of the search. *)
Definition adj_graph (k : string) : option (list string) := if bool_decide (k ∈ all) then Some (adj k) else None.

Lemma path_rank rank a b :
  (forall k ds d, adj_graph k = Some ds -> d ∈ ds -> is_Some (adj_graph d) -> rank d < rank k) -> path_to a b -> rank b < rank a.
Proof.
  intros Hr. assert (forall x y, edge x y -> rank y < rank x) as He.
  { intros x y [Hx Hy]. eapply Hr; [unfold adj_graph; by rewrite bool_decide_true | done |].
    unfold adj_graph. rewrite bool_decide_true by (by eapply adj_all). by eexists. }
  induction 1 as [x y H|x y z H _ IH]; [by apply He|]. apply He in H. lia.
Qed.

Fixpoint index_of (k : string) (l : list string) : nat :=
  match l with [] => 0 | x :: l' => if bool_decide (x = k) then 0 else S (index_of k l') end.

Lemma index_split k l : k ∈ l -> exists l1 l2, l = l1 ++ k :: l2 /\ (k ∉ l1) /\ index_of k l = length l1.
Proof.
  induction l as [|x l IH]; [by intros ?%elem_of_nil|]. intros Hk. cbn. case_bool_decide as Hx.
  - subst. exists [], l. split; [done|]. split; [by apply not_elem_of_nil | done].
  - apply elem_of_cons in Hk as [->|Hk]; [done|]. destruct (IH Hk) as (l1 & l2 & -> & Hn & ->).
    exists (x :: l1), l2. split; [done|]. split; [|done]. intros [?|?]%elem_of_cons; congruence.
Qed.

Lemma index_before k l1 l2 : k ∈ l1 -> index_of k (l1 ++ l2) < length l1.
Proof.
  induction l1 as [|x l1 IH]; [by intros ?%elem_of_nil|]. cbn. case_bool_decide; [lia|].
  intros [->|Hk]%elem_of_cons; [done|]. specialize (IH Hk). lia.
Qed.

Lemma topo_acyclic l : topo l -> (forall k, k ∈ all -> k ∈ l) -> acyclic adj_graph.
Proof.
  intros Ht Hall. exists (fun k => index_of k l). intros k ds d Hk Hd _. unfold adj_graph in Hk.
  case_bool_decide as Hin; [|done]. injection Hk as <-. destruct (index_split k l (Hall k Hin)) as (l1 & l2 & -> & _ & ->).
  apply index_before. by eapply Ht.
Qed.

(** The search finds a cycle exactly when there is one. *)
Lemma detect_spec :
  match foldl (visit_root adj (length all)) (Finished []) all with
  | Finished _ => acyclic adj_graph
  | Cycle _ => ~ acyclic adj_graph
  | DfsFuel => False
  end.
Proof.
  pose proof (roots_spec all [] (fun n H => H) topo_nil) as H. destruct (foldl _ _ _) as [c|l|]; [| |done].
  - destruct H as [k Hk]. intros (rank & Hr). apply (path_rank rank) in Hk; [lia | done].
  - destruct H as (H1 & _ & H3). by eapply topo_acyclic.
Qed.
End search.

(** ** Reachability *)

Section connected.
Context (edges : list Edge) (all : list string).
Context (all_nodup : NoDup all).
Context (succ_all : forall k t, k ∈ all -> t ∈ successors edges k -> t ∈ all).
Abbreviation succs := (successors edges).

(** What is left to do: the stack, and the successors of the nodes not yet reached. *)
Definition left_to_reach (reachable : list string) : nat :=
  sum_list ((fun k => if bool_decide (k ∈ reachable) then 0 else length (succs k)) <$> all).

Lemma left_snoc reachable k :
  k ∈ all -> k ∉ reachable -> left_to_reach (reachable ++ [k]) + length (succs k) = left_to_reach reachable.
Proof.
  unfold left_to_reach. intros Hk Hn. revert all_nodup. clear succ_all. induction all as [|x l IH]; [by apply elem_of_nil in Hk|].
  intros [Hx Hnd]%NoDup_cons. cbn [fmap list_fmap sum_list_with sum_list foldr].
  destruct (decide (x = k)) as [->|Hne].
  - rewrite (bool_decide_true (k ∈ _ ++ [k])) by (apply elem_of_app; right; by left). rewrite (bool_decide_false (k ∈ reachable)) by done.
    assert ((fun y => if bool_decide (y ∈ reachable ++ [k]) then 0 else length (succs y)) <$> l =
            (fun y => if bool_decide (y ∈ reachable) then 0 else length (succs y)) <$> l) as ->.
    { apply list_fmap_ext. intros i y Hy. apply list_elem_of_lookup_2 in Hy.
      rewrite (bool_decide_ext (y ∈ reachable ++ [k]) (y ∈ reachable)); [done|].
      rewrite elem_of_app, list_elem_of_singleton. naive_solver. }
    cbn [id]. lia.
  - apply elem_of_cons in Hk as [?|Hk]; [done|]. specialize (IH Hk Hnd).
    rewrite (bool_decide_ext (x ∈ reachable ++ [k]) (x ∈ reachable)) by (rewrite elem_of_app, list_elem_of_singleton; naive_solver).
    lia.
Qed.

Lemma connect_spec start fuel : forall stack reachable,
  (forall k, k ∈ stack -> k ∈ all) -> (forall k, k ∈ reachable -> k ∈ all) ->
  length stack + left_to_reach reachable < fuel ->
  (forall k, k ∈ stack \/ k ∈ reachable -> reaches succs start k) ->
  (forall k t, k ∈ reachable -> t ∈ succs k -> t ∈ reachable \/ t ∈ stack) ->
  start ∈ reachable \/ start ∈ stack ->
  exists l, connect edges fuel stack reachable = Some l /\ forall k, k ∈ l <-> reaches succs start k.
Proof.
  induction fuel as [|fuel IH]; intros stack reachable Hst Hre Hf Hsound Hclosed Hstart; [lia|]. cbn [connect].
  destruct stack as [|node stack _] using rev_ind; cbn [last].
  - exists reachable. split; [done|]. intros k. split; [intros; apply Hsound; by right|].
    induction 1 as [|b c _ IHr Hc]; [destruct Hstart as [?|?%elem_of_nil]; done|].
    destruct (Hclosed b c IHr Hc) as [?|?%elem_of_nil]; done.
  - rewrite last_snoc, removelast_last. rewrite length_app in Hf. cbn in Hf.
    case_bool_decide as Hn.
    + apply IH; try done.
      * intros k Hk. apply Hst, elem_of_app. by left.
      * lia.
      * intros k [Hk|Hk]; apply Hsound; [left; apply elem_of_app; by left | by right].
      * intros k t Hk Ht. destruct (Hclosed k t Hk Ht) as [?|[?|E%list_elem_of_singleton]%elem_of_app]; [by left | by right | left; by subst].
      * destruct Hstart as [?|[?|E%list_elem_of_singleton]%elem_of_app]; [by left | by right | left; by subst].
    + assert (node ∈ all) as Hna by (apply Hst, elem_of_app; right; by left).
      apply IH.
      * intros k [Hk|Hk]%elem_of_app; [apply Hst, elem_of_app; by left|]. apply elem_of_filterb in Hk as [Hk _]. by eapply succ_all.
      * intros k [Hk|Hk%list_elem_of_singleton]%elem_of_app; [by apply Hre | by subst].
      * pose proof (left_snoc reachable node Hna Hn). rewrite length_app.
        pose proof (sublist_length _ _ (filterb_sublist (fun t => bool_decide (t ∉ reachable ++ [node])) (succs node))). lia.
      * assert (reaches succs start node) as Hr by (apply Hsound; left; apply elem_of_app; right; by left).
        intros k [[Hk|Hk]%elem_of_app|[Hk|Hk%list_elem_of_singleton]%elem_of_app].
        -- apply Hsound. left. apply elem_of_app. by left.
        -- apply elem_of_filterb in Hk as [Hk _]. by eapply reaches_step.
        -- apply Hsound. by right.
        -- by subst.
      * intros k t [Hk|Hk%list_elem_of_singleton]%elem_of_app Ht.
        -- destruct (Hclosed k t Hk Ht) as [?|[?|E%list_elem_of_singleton]%elem_of_app].
           ++ left. apply elem_of_app. by left.
           ++ right. apply elem_of_app. by left.
           ++ left. apply elem_of_app. right. by subst; left.
        -- subst k. destruct (decide (t ∈ reachable ++ [node])); [by left|]. right. apply elem_of_app. right.
           apply elem_of_filterb. split; [done|]. by apply bool_decide_eq_true.
      * destruct Hstart as [?|[?|E%list_elem_of_singleton]%elem_of_app].
        -- left. apply elem_of_app. by left.
        -- right. apply elem_of_app. by left.
        -- left. apply elem_of_app. right. by subst; left.
Qed.
End connected.

(** ** Parallel edges *)

(** Two edges between the same nodes never have a route in common, nor is one of
    them unconditional. *)
Definition compatible (e e' : Edge) : Prop :=
  from_name e = from_name e' -> to_name e = to_name e' ->
  overlap (_normalize_route (ed_route e)) (_normalize_route (ed_route e')) = false.

Lemma overlap_app a b c : overlap (a ++ b) c = overlap a c || overlap b c.
Proof.
  unfold overlap, has_opt. rewrite !existsb_app.
  assert (existsb (fun x => existsb (fun y => bool_decide (opt_route_key y = opt_route_key x)) (a ++ b)) c =
    existsb (fun x => existsb (fun y => bool_decide (opt_route_key y = opt_route_key x)) a) c ||
    existsb (fun x => existsb (fun y => bool_decide (opt_route_key y = opt_route_key x)) b) c) as ->.
  { induction c as [|x c IH]; [done|]. cbn. rewrite IH, existsb_app.
    by repeat match goal with |- context [existsb ?f ?l] => destruct (existsb f l) end. }
  by repeat match goal with |- context [existsb ?f ?l] => destruct (existsb f l) end.
Qed.

Definition edge_key (e : Edge) : string * string := (from_name e, to_name e).
Definition with_key (key : string * string) (l : list Edge) : list Edge := filterb (fun e => bool_decide (edge_key e = key)) l.
Definition key_routes (l : list Edge) : list (option route_value) := concat ((fun e => _normalize_route (ed_route e)) <$> l).

Lemma key_routes_overlap l c :
  l <> [] -> overlap (key_routes l) c = existsb (fun e => overlap (_normalize_route (ed_route e)) c) l.
Proof.
  induction l as [|e l IH]; [done|]. intros _. unfold key_routes. rewrite fmap_cons. cbn [concat existsb].
  destruct l as [|e' l]; [cbn; by rewrite app_nil_r, orb_false_r|]. rewrite overlap_app. f_equal. by apply IH.
Qed.

(** [seen] holds the routes of the edges [prev] under their ends. *)
Definition records_edges (seen : list ((string * string) * list (option route_value))) (prev : list Edge) : Prop :=
  forall key, dget key seen = match with_key key prev with [] => None | l => Some (key_routes l) end.

Lemma elem_with_key e p prev : p ∈ with_key (edge_key e) prev <-> p ∈ prev /\ from_name p = from_name e /\ to_name p = to_name e.
Proof. unfold with_key, edge_key. rewrite elem_of_filterb, bool_decide_eq_true. split; [by intros [? [= -> ->]] | by intros (? & -> & ->)]. Qed.

(** What the check of one edge finds out. *)
Lemma recorded_compatible seen prev e :
  records_edges seen prev ->
  (forall p, p ∈ prev -> compatible p e) <->
  match dget (edge_key e) seen with Some ex => overlap ex (_normalize_route (ed_route e)) = false | None => True end.
Proof.
  intros Hseen. rewrite Hseen.
  transitivity (forall p, p ∈ with_key (edge_key e) prev -> overlap (_normalize_route (ed_route p)) (_normalize_route (ed_route e)) = false).
  { setoid_rewrite elem_with_key. unfold compatible. naive_solver. }
  destruct (with_key (edge_key e) prev) as [|p0 l0] eqn:Ew; [split; [done|]; by intros _ p ?%elem_of_nil|].
  rewrite <- Ew, key_routes_overlap by (by rewrite Ew). by rewrite existsb_false.
Qed.

Lemma records_snoc seen prev e :
  records_edges seen prev ->
  records_edges (match dget (edge_key e) seen with
                 | Some ex => dset (edge_key e) (ex ++ _normalize_route (ed_route e)) seen
                 | None => dset (edge_key e) (_normalize_route (ed_route e)) seen
                 end) (prev ++ [e]).
Proof.
  intros Hseen key.
  assert (with_key key (prev ++ [e]) = with_key key prev ++ if bool_decide (edge_key e = key) then [e] else []) as ->.
  { unfold with_key. rewrite filterb_app. by cbn; destruct (bool_decide _). }
  pose proof (Hseen (edge_key e)) as He. destruct (decide (key = edge_key e)) as [->|Hne].
  - rewrite bool_decide_true by done. rewrite He. destruct (with_key (edge_key e) prev) as [|p0 l0] eqn:Ew; rewrite dget_dset_eq.
    + unfold key_routes. cbn. by rewrite app_nil_r.
    + cbn [app]. unfold key_routes. rewrite app_comm_cons, fmap_app, concat_app. cbn. by rewrite app_nil_r.
  - rewrite bool_decide_false by congruence. rewrite app_nil_r, <- Hseen. by destruct (dget (edge_key e) seen); apply dget_dset_ne.
Qed.

Lemma pairs_snoc prev e edges :
  (forall p, p ∈ prev -> compatible p e) ->
  (ForallOrdPairs compatible edges /\ forall p x, p ∈ prev ++ [e] -> x ∈ edges -> compatible p x) <->
  (ForallOrdPairs compatible (e :: edges) /\ forall p x, p ∈ prev -> x ∈ e :: edges -> compatible p x).
Proof.
  intros Hc. split.
  - intros [H1 H2]. split.
    + constructor; [|done]. apply Forall_forall. intros x Hx. apply H2; [|done]. apply elem_of_app. right. by left.
    + intros p x Hp [->|Hx]%elem_of_cons; [by apply Hc|]. apply H2; [|done]. apply elem_of_app. by left.
  - intros [H1 H2]. inversion H1 as [|? ? Hf Hr]; subst. split; [done|].
    intros p x [Hp|Hp%list_elem_of_singleton]%elem_of_app Hx; [apply H2; [done | by right]|].
    subst. rewrite Forall_forall in Hf. by apply Hf.
Qed.

Lemma duplicate_edges_spec edges : forall seen prev,
  records_edges seen prev ->
  duplicate_edges seen edges = inr tt <->
    ForallOrdPairs compatible edges /\ forall p e, p ∈ prev -> e ∈ edges -> compatible p e.
Proof.
  induction edges as [|e edges IH]; intros seen prev Hseen; cbn [duplicate_edges].
  - split; [|done]. intros _. split; [constructor|]. by intros p e _ ?%elem_of_nil.
  - pose proof (recorded_compatible _ _ e Hseen) as Hrc. pose proof (records_snoc _ _ e Hseen) as Hnext.
    change (from_name e, to_name e) with (edge_key e).
    destruct (dget (edge_key e) seen) as [ex|]; [destruct (overlap ex _)|].
    + split; [done|]. intros [_ H]. assert (true = false); [|done]. apply Hrc. intros p Hp. apply H; [done | by left].
    + rewrite (IH _ _ Hnext). apply pairs_snoc. by apply Hrc.
    + rewrite (IH _ _ Hnext). apply pairs_snoc. by apply Hrc.
Qed.

(** ** Validation *)

Lemma duplicates_ok names : _validate_duplicate_node_names names = inr tt <-> NoDup names.
Proof.
  unfold _validate_duplicate_node_names.
  assert (filterb (fun n => (1 <? count_name names n)%nat) (fromkeys names) = [] <-> NoDup names) as <-; [|by destruct (filterb _ _)].
  rewrite filterb_nil. setoid_rewrite elem_of_fromkeys. setoid_rewrite Nat.ltb_ge. unfold count_name.
  induction names as [|n names IH]; [split; [intros _; constructor | by intros _ x ?%elem_of_nil]|].
  rewrite NoDup_cons, <- IH. clear IH. split.
  - intros H. split.
    + intros Hn. specialize (H n ltac:(by left)). cbn in H. rewrite bool_decide_true in H by done. cbn in H.
      assert (n ∈ filterb (fun m => bool_decide (m = n)) names) as Hx by (apply elem_of_filterb; split; [done | by apply bool_decide_eq_true]).
      unfold filterb in Hx. destruct (List.filter _ names); [by apply elem_of_nil in Hx | cbn in H; lia].
    + intros x Hx. specialize (H x ltac:(by right)). cbn in H. destruct (bool_decide (n = x)); cbn in H; unfold filterb; lia.
  - intros [Hn H] x Hx. cbn. destruct (decide (n = x)) as [->|Hne].
    + rewrite bool_decide_true by done. cbn. assert (filterb (fun m => bool_decide (m = x)) names = []) as E; [|unfold filterb in E; rewrite E; cbn; lia].
      apply filterb_nil. intros y Hy. apply bool_decide_eq_false. by intros ->.
    + rewrite bool_decide_false by done. apply elem_of_cons in Hx as [?|Hx]; [congruence | by apply H].
Qed.

(** An object has one name: nodes with the same identity are the same. *)
Definition one_name (edges : list Edge) : Prop :=
  forall a b, (exists e, e ∈ edges /\ (a = ed_from e \/ a = ed_to e)) -> (exists e, e ∈ edges /\ (b = ed_from e \/ b = ed_to e)) ->
    wn_ref a = wn_ref b -> a = b.

Lemma see_node_elem seen n : (forall m, m ∈ see_node seen n -> m ∈ seen \/ m = n) /\
  (forall m, m ∈ seen -> m ∈ see_node seen n) /\ exists m, m ∈ see_node seen n /\ wn_ref m = wn_ref n.
Proof.
  unfold see_node. destruct (existsb _ seen) eqn:E.
  - split; [by left|]. split; [done|]. apply existsb_elem in E as (m & Hm & Hr%Z.eqb_eq). by exists m.
  - split; [intros m [?|?%list_elem_of_singleton]%elem_of_app; auto|]. split; [intros m Hm; apply elem_of_app; by left|].
    exists n. split; [apply elem_of_app; right; by left | done].
Qed.

Lemma infer_nodes_elem edges : forall seen,
  let l := foldl (fun seen e => see_node (see_node seen (ed_from e)) (ed_to e)) seen edges in
  (forall m, m ∈ l -> m ∈ seen \/ exists e, e ∈ edges /\ (m = ed_from e \/ m = ed_to e)) /\
  (forall m, m ∈ seen -> m ∈ l) /\
  forall e, e ∈ edges -> (exists m, m ∈ l /\ wn_ref m = wn_ref (ed_from e)) /\ (exists m, m ∈ l /\ wn_ref m = wn_ref (ed_to e)).
Proof.
  induction edges as [|e edges IH]; intros seen; cbn [foldl].
  - split; [by left|]. split; [done|]. by intros e ?%elem_of_nil.
  - destruct (see_node_elem seen (ed_from e)) as (A1 & A2 & (a & Ha & Har)).
    destruct (see_node_elem (see_node seen (ed_from e)) (ed_to e)) as (B1 & B2 & (b & Hb & Hbr)).
    destruct (IH (see_node (see_node seen (ed_from e)) (ed_to e))) as (C1 & C2 & C3). split; [|split].
    + intros m Hm. destruct (C1 m Hm) as [Hx|(x & Hx & ?)]; [|right; exists x; by split; [right|]].
      destruct (B1 m Hx) as [Hy| ->]; [|right; exists e; split; [by left | by right]].
      destruct (A1 m Hy) as [?| ->]; [by left | right; exists e; split; [by left | by left]].
    + auto.
    + intros x [->|Hx]%elem_of_cons; [|by apply C3]. split; [exists a; auto | exists b; auto].
Qed.

Lemma edge_names edges e :
  one_name edges -> e ∈ edges ->
  from_name e ∈ (wn_name <$> infer_nodes edges) /\ to_name e ∈ (wn_name <$> infer_nodes edges).
Proof.
  intros H He. destruct (infer_nodes_elem edges []) as (C1 & _ & C3). fold (infer_nodes edges) in C1, C3.
  assert (forall m n, m ∈ infer_nodes edges -> (n = ed_from e \/ n = ed_to e) -> wn_ref m = wn_ref n -> wn_name n ∈ (wn_name <$> infer_nodes edges)) as Hx.
  { intros m n Hm Hn Hr. replace n with m; [by apply list_elem_of_fmap_2|]. apply H; [|by exists e | done].
    by destruct (C1 m Hm) as [?%elem_of_nil|]. }
  destruct (C3 e He) as [(a & Ha & Har) (b & Hb & Hbr)]. unfold from_name, to_name.
  split; [apply (Hx a); [done | by left | done] | apply (Hx b); [done | by right | done]].
Qed.

Lemma elem_graph_successors edges k t : t ∈ successors edges k <-> exists e, e ∈ edges /\ from_name e = k /\ to_name e = t.
Proof.
  unfold successors. rewrite elem_of_fromkeys, list_elem_of_fmap. setoid_rewrite elem_of_filterb.
  setoid_rewrite bool_decide_eq_true. naive_solver.
Qed.

Lemma elem_plain_successors edges k t :
  t ∈ plain_successors edges k <-> exists e, e ∈ edges /\ from_name e = k /\ to_name e = t /\ ed_route e = NoRoute.
Proof.
  unfold plain_successors. rewrite list_elem_of_fmap. setoid_rewrite elem_of_filterb. split.
  - intros (e & -> & He & Hb). exists e. unfold has_route in Hb. bool_prop. by destruct (ed_route e).
  - intros (e & He & <- & <- & Hr). exists e. split; [done|]. split; [done|]. unfold has_route. rewrite Hr.
    by rewrite bool_decide_true.
Qed.

(** The search from the start finishes within its fuel, with what can be reached. *)
Lemma connect_finishes edges names :
  (forall e, e ∈ edges -> from_name e ∈ names /\ to_name e ∈ names) -> START_NAME ∈ names ->
  exists l, connect edges (connect_fuel edges (fromkeys names)) [START_NAME] [] = Some l /\
    forall k, k ∈ l <-> reaches (successors edges) START_NAME k.
Proof.
  intros Hends Hstart.
  assert (forall k t, k ∈ fromkeys names -> t ∈ successors edges k -> t ∈ fromkeys names) as Hsucc.
  { intros k t _ (e & He & _ & <-)%elem_graph_successors. apply elem_of_fromkeys. by apply Hends. }
  destruct (connect_spec edges (fromkeys names) (NoDup_fromkeys names) Hsucc START_NAME (connect_fuel edges (fromkeys names)) [START_NAME] [])
    as (l & E & Hl).
  - intros k ->%list_elem_of_singleton. by apply elem_of_fromkeys.
  - by intros k ?%elem_of_nil.
  - unfold connect_fuel, left_to_reach. cbn [length].
    assert ((fun k => if bool_decide (k ∈ []) then 0 else length (successors edges k)) <$> fromkeys names =
            (fun k => length (successors edges k)) <$> fromkeys names) as ->; [|lia].
    apply list_fmap_ext. intros i k _. by rewrite bool_decide_false by apply not_elem_of_nil.
  - intros k [->%list_elem_of_singleton|?%elem_of_nil]; [constructor | done].
  - by intros k t ?%elem_of_nil.
  - right. by left.
  - by exists l.
Qed.

Lemma connectivity_ok edges names :
  (forall e, e ∈ edges -> from_name e ∈ names /\ to_name e ∈ names) -> START_NAME ∈ names ->
  _validate_connectivity edges names = inr tt <->
    (forall n, n ∈ names -> reaches (successors edges) START_NAME n) /\ (forall e, e ∈ edges -> to_name e <> START_NAME).
Proof.
  intros Hends Hstart. unfold _validate_connectivity. destruct (connect_finishes edges names Hends Hstart) as (l & -> & Hl).
  assert (filterb (fun n => bool_decide (n ∉ l)) (fromkeys names) = [] <-> forall n, n ∈ names -> reaches (successors edges) START_NAME n) as Hu.
  { rewrite filterb_nil. setoid_rewrite elem_of_fromkeys. setoid_rewrite bool_decide_eq_false. setoid_rewrite <- Hl.
    split; intros H n Hn; [by apply dec_stable, H | by intros ?; apply H in Hn]. }
  destruct (filterb _ _) as [|u us].
  - case_bool_decide as Hin.
    + split; [done|]. intros [_ H]. apply list_elem_of_fmap in Hin as (e & E & He). by destruct (H e He).
    + split; [|done]. intros _. split; [by apply Hu|]. intros e He E. apply Hin. rewrite <- E. by apply list_elem_of_fmap_2.
  - split; [done|]. intros [H _]. by apply Hu in H.
Qed.

(** The search for a cycle finishes within its fuel, and finds one when there is one. *)
Lemma detect_finishes edges names :
  (forall e, e ∈ edges -> from_name e ∈ names /\ to_name e ∈ names) ->
  match foldl (visit_root (plain_successors edges) (length (fromkeys names))) (Finished []) (fromkeys names) with
  | Finished _ => acyclic (adj_graph (plain_successors edges) (fromkeys names))
  | Cycle _ => ~ acyclic (adj_graph (plain_successors edges) (fromkeys names))
  | DfsFuel => False
  end.
Proof.
  intros Hends. apply detect_spec.
  intros k t _ (e & He & _ & <- & _)%elem_plain_successors. apply elem_of_fromkeys. by apply Hends.
Qed.

Lemma find_none_ok {A B} (p : A -> bool) l (f : A -> B) :
  match find_first p l with Some x => inl (f x) | None => inr tt end = inr tt <-> forall x, x ∈ l -> p x = false.
Proof. rewrite <- find_first_none. by destruct (find_first p l). Qed.

Lemma and_then_ok (a b : checked) : and_then a b = inr tt <-> a = inr tt /\ b = inr tt.
Proof. destruct a as [e|[]]; cbn; naive_solver. Qed.

Lemma validate_graph_iff edges :
  one_name edges ->
  let names := wn_name <$> infer_nodes edges in
  validate_graph (make_graph edges) = inr tt <->
    NoDup names /\ START_NAME ∈ names /\
    (forall e, e ∈ edges -> from_name e = START_NAME -> ed_route e = NoRoute) /\
    (forall n, n ∈ names -> reaches (successors edges) START_NAME n) /\
    (forall e, e ∈ edges -> to_name e <> START_NAME) /\
    ForallOrdPairs compatible edges /\
    (forall e, e ∈ edges -> combines_default e = false) /\
    acyclic (adj_graph (plain_successors edges) names).
Proof.
  intros Hone names. assert (forall e, e ∈ edges -> from_name e ∈ names /\ to_name e ∈ names) as Hends by (intros; by apply edge_names).
  unfold validate_graph, make_graph. cbn [gr_nodes gr_edges]. fold names.
  rewrite !and_then_ok, duplicates_ok.
  assert (_validate_start_node names = inr tt <-> START_NAME ∈ names) as ->
    by (unfold _validate_start_node; by case_bool_decide).
  assert (_validate_start_edges edges = inr tt <-> forall e, e ∈ edges -> from_name e = START_NAME -> ed_route e = NoRoute) as ->.
  { unfold _validate_start_edges. rewrite find_none_ok. unfold has_route. split; intros H e He.
    - intros Hf. specialize (H e He). rewrite bool_decide_true in H by done. by destruct (ed_route e).
    - apply andb_false_iff. case_bool_decide as Hf; [right; by rewrite (H e He Hf) | by left]. }
  assert (_validate_duplicate_edges edges = inr tt <-> ForallOrdPairs compatible edges) as ->.
  { unfold _validate_duplicate_edges. rewrite (duplicate_edges_spec edges [] []) by done.
    split; [by intros [? _] | intros H; split; [done|]; by intros p e ?%elem_of_nil]. }
  assert (_validate_default_routes edges = inr tt <-> forall e, e ∈ edges -> combines_default e = false) as ->
    by apply find_none_ok.
  assert (_detect_unconditional_cycles edges names = inr tt <-> acyclic (adj_graph (plain_successors edges) names)) as ->.
  { transitivity (acyclic (adj_graph (plain_successors edges) (fromkeys names))).
    - unfold _detect_unconditional_cycles. pose proof (detect_finishes edges names Hends) as H. by destruct (foldl _ _ _).
    - assert (forall k, adj_graph (plain_successors edges) (fromkeys names) k = adj_graph (plain_successors edges) names k) as Hext.
      { intros k. unfold adj_graph. by rewrite (bool_decide_ext _ _ (elem_of_fromkeys names k)). }
      split; apply acyclic_ext; [done | by intros k; rewrite Hext]. }
  split.
  - intros (H1 & H2 & H3 & H4 & H5). rewrite connectivity_ok in H4 by done. by destruct H4.
  - intros (H1 & H2 & H3 & H4 & H5 & H6 & H7 & H8). rewrite connectivity_ok; done.
Qed.

Lemma and_then_neq (a b : checked) e : a <> inl e -> (a = inr tt -> b <> inl e) -> and_then a b <> inl e.
Proof. destruct a as [x|[]]; cbn; auto. Qed.

Lemma duplicate_edges_fuel edges : forall seen, duplicate_edges seen edges <> inl OutOfFuel.
Proof.
  induction edges as [|e edges IH]; intros seen; cbn; [done|]. destruct (dget _ seen) as [l|]; [|apply IH].
  destruct (overlap _ _); [done | apply IH].
Qed.

(** No validation runs out of fuel. *)
Lemma validate_graph_fuel edges : one_name edges -> validate_graph (make_graph edges) <> inl OutOfFuel.
Proof.
  intros Hone. set (names := wn_name <$> infer_nodes edges).
  assert (forall e, e ∈ edges -> from_name e ∈ names /\ to_name e ∈ names) as Hends by (intros; by apply edge_names).
  unfold validate_graph, make_graph. cbn [gr_nodes gr_edges]. fold names.
  apply and_then_neq; [unfold _validate_duplicate_node_names; by destruct (filterb _ _)|]. intros _.
  apply and_then_neq; [unfold _validate_start_node; by case_bool_decide|]. unfold _validate_start_node. case_bool_decide as Hs; [intros _|done].
  apply and_then_neq; [unfold _validate_start_edges; by destruct (find_first _ _)|]. intros _.
  apply and_then_neq.
  { unfold _validate_connectivity. destruct (connect_finishes edges names Hends Hs) as (l & -> & _).
    destruct (filterb _ _); [by case_bool_decide | done]. }
  intros _. apply and_then_neq; [apply duplicate_edges_fuel|]. intros _.
  apply and_then_neq; [unfold _validate_default_routes; by destruct (find_first _ _)|]. intros _.
  unfold _detect_unconditional_cycles. pose proof (detect_finishes edges names Hends) as H. by destruct (foldl _ _ _).
Qed.

(** C9: A graph validates exactly when: no two nodes share a name; the start is one of
    them, has no edge into it, and none out of it that asks for a route; every node
    can be reached from it; two edges between the same nodes have no route in common
    and are not unconditional; no edge combines the fallback with another route; and
    the unconditional edges alone form no cycle. Whether the graph validates or not,
    the searches finish: no outcome is for want of fuel. *)
Theorem validate_graph_spec edges :
  one_name edges ->
  let names := wn_name <$> infer_nodes edges in
  (validate_graph (make_graph edges) = inr tt <->
    NoDup names /\ START_NAME ∈ names /\
    (forall e, e ∈ edges -> from_name e = START_NAME -> ed_route e = NoRoute) /\
    (forall n, n ∈ names -> reaches (successors edges) START_NAME n) /\
    (forall e, e ∈ edges -> to_name e <> START_NAME) /\
    ForallOrdPairs compatible edges /\
    (forall e, e ∈ edges -> combines_default e = false) /\
    acyclic (adj_graph (plain_successors edges) names)) /\
  validate_graph (make_graph edges) <> inl OutOfFuel.
Proof. intros Hone. split; [by apply validate_graph_iff | by apply validate_graph_fuel]. Qed.
