(* ===== verification/Workflow.v ===== *)
(** * The workflow loop (new_choirworks/core/workflow/workflow.py, join_node.py,
    node_state.py, node_status.py, trigger.py)

    Triggers wait in a buffer, one queue per node; a node runs once per trigger, one
    run at a time; when it finishes, its route decides which nodes are triggered
    next. The runs themselves happen elsewhere: an environment says which of them
    have ended each time the loop has waited. *)
From S2P Require Import Prelude PyStr Dict Json Graph.
Local Open Scope string_scope.
Local Open Scope list_scope.

Module RunStatus.
Inductive run_status := INACTIVE | PENDING | RUNNING | COMPLETED | WAITING | FAILED | CANCELLED.

#[export] Instance run_status_eq_dec : EqDecision run_status.
Proof. solve_decision. Defined.
End RunStatus.
Export (hints) RunStatus.
Abbreviation run_status := RunStatus.run_status.

(** [NodeState]; [attempt_count] is never changed. *)
Record RunState := mkRunState { rs_status : run_status; rs_input : json; rs_run_id : string }.

(** [_LoopState]. A trigger is its input; a task in flight is known by its node. *)
Record LoopState := mkLoop {
  ls_triggers : list (string * list json);
  ls_pending : list string;
  ls_nodes : list (string * RunState);
  ls_outputs : list (string * json);
  ls_counters : list (string * Z)
}.
Definition new_loop : LoopState := mkLoop [] [] [] [] [].

Record Workflow := mkWorkflow { wf_name : string; wf_graph : Graph; wf_max_concurrency : option Z }.

(** The context of a run that has ended: its output ([None] is null), the route it
    emitted, and the exception it caught. *)
Record Child := mkChild { ch_output : json; ch_route : routes; ch_error : option string }.

(** At the [i]-th look, with these runs in flight: the context of each that has ended. *)
Abbreviation runs := (nat -> list string -> string -> option Child).

(** [asyncio.wait(..., FIRST_COMPLETED)] returns when one of them has ended. *)
Definition runs_ok (env : runs) : Prop := forall i l, l <> [] -> exists k, k ∈ l /\ is_Some (env i l k).

(** A run that begins: its node, its input, its run id. *)
Record Start := mkStart { st_node : string; st_input : json; st_run_id : string }.

Definition find_node (g : Graph) (name : string) : option WfNode :=
  find_first (fun n => bool_decide (wn_name n = name)) (gr_nodes g).
Definition _get_static_node_by_name (g : Graph) (name : string) : res WfNode :=
  match find_node g name with
  | Some n => Ok n
  | None => Err (WorkflowError ("node " +:+ name +:+ " not found in graph"))
  end.

(** ** Triggers *)

Definition push_trigger (name : string) (input : json) (st : LoopState) : LoopState :=
  mkLoop (dset name (default [] (dget name (ls_triggers st)) ++ [input]) (ls_triggers st))
    (ls_pending st) (ls_nodes st) (ls_outputs st) (ls_counters st).

(** [_pop_trigger]: the first of the queue; the queue goes with its last trigger. *)
Definition _pop_trigger (buffer : list (string * list json)) (name : string) : list (string * list json) * option json :=
  match dget name buffer with
  | None | Some [] => (buffer, None)
  | Some [t] => (ddel name buffer, Some t)
  | Some (t :: ts) => (dset name ts buffer, Some t)
  end.

Definition run_status_of (st : LoopState) (name : string) : option run_status := rs_status <$> dget name (ls_nodes st).

Definition set_run_output (name : string) (o : json) (st : LoopState) : LoopState :=
  mkLoop (ls_triggers st) (ls_pending st) (ls_nodes st) (dset name o (ls_outputs st)) (ls_counters st).
Definition set_run_status (name : string) (s : run_status) (st : LoopState) : LoopState :=
  mkLoop (ls_triggers st) (ls_pending st) (dupd name (fun n => mkRunState s (rs_input n) (rs_run_id n)) (ls_nodes st))
    (ls_outputs st) (ls_counters st).

Definition predecessors (g : Graph) (name : string) : list string :=
  fromkeys (from_name <$> filterb (fun e => bool_decide (to_name e = name)) (gr_edges g)).

(** A node that waits for all its predecessors: triggered, with all their outputs,
    when the last of them has completed. *)
Definition _buffer_barrier_trigger (g : Graph) (target : string) (st : LoopState) : LoopState :=
  let ps := predecessors g target in
  if forallb (fun p => bool_decide (p = START_NAME) || bool_decide (run_status_of st p = Some RunStatus.COMPLETED)) ps
  then push_trigger target (JObj ((fun p => (p, default JNull (dget p (ls_outputs st)))) <$> ps)) st
  else st.

Definition seed_edge (g : Graph) (input : json) (st : LoopState) (e : Edge) : LoopState :=
  if wn_join (ed_to e) then _buffer_barrier_trigger g (to_name e) (set_run_output START_NAME input st)
  else push_trigger (to_name e) input st.
Definition _seed_start_triggers (g : Graph) (input : json) (st : LoopState) : LoopState :=
  foldl (seed_edge g input) st (filterb (fun e => bool_decide (from_name e = START_NAME)) (gr_edges g)).

Fixpoint buffer_targets (g : Graph) (targets : list string) (output : json) (st : LoopState) : LoopState * res unit :=
  match targets with
  | [] => (st, Ok tt)
  | t :: ts =>
      match _get_static_node_by_name g t with
      | Err e => (st, Err e)
      | Ok node => buffer_targets g ts output (if wn_join node then _buffer_barrier_trigger g t st else push_trigger t output st)
      end
  end.
Definition _buffer_downstream_triggers (g : Graph) (name : string) (child : Child) (st : LoopState) : LoopState * res unit :=
  buffer_targets g (get_next_pending_nodes g name (ch_route child)) (ch_output child) st.

(** ** Scheduling *)

Definition _at_concurrency_limit (wf : Workflow) (st : LoopState) : bool :=
  match wf_max_concurrency wf with
  | Some m => ((0 <? m) && (m <=? Z.of_nat (length (ls_pending st))))%Z
  | None => false
  end.

(** A run is prepared, and its task created. *)
Definition start_run (name : string) (input : json) (st : LoopState) : LoopState * Start :=
  let n := (default 0%Z (dget name (ls_counters st)) + 1)%Z in
  let run_id := pretty n in
  (mkLoop (ls_triggers st) (if bool_decide (name ∈ ls_pending st) then ls_pending st else ls_pending st ++ [name])
     (dset name (mkRunState RunStatus.RUNNING input run_id) (ls_nodes st)) (ls_outputs st) (dset name n (ls_counters st)),
   mkStart name input run_id).

Definition set_triggers (l : list (string * list json)) (st : LoopState) : LoopState :=
  mkLoop l (ls_pending st) (ls_nodes st) (ls_outputs st) (ls_counters st).

Fixpoint schedule_names (wf : Workflow) (names : list string) (st : LoopState) : LoopState * list Start * res unit :=
  match names with
  | [] => (st, [], Ok tt)
  | name :: names' =>
      if bool_decide (name ∈ ls_pending st) then schedule_names wf names' st
      else if bool_decide (run_status_of st name = Some RunStatus.RUNNING) then schedule_names wf names' st
      else if _at_concurrency_limit wf st then (st, [], Ok tt)
      else match _pop_trigger (ls_triggers st) name with
           | (_, None) => schedule_names wf names' st
           | (buffer, Some input) =>
               match _get_static_node_by_name (wf_graph wf) name with
               | Err e => (set_triggers buffer st, [], Err e)
               | Ok _ =>
                   let '(st', s) := start_run name input (set_triggers buffer st) in
                   let '(st'', ss, r) := schedule_names wf names' st' in (st'', s :: ss, r)
               end
           end
  end.
Definition _schedule_ready_nodes (wf : Workflow) (st : LoopState) : LoopState * list Start * res unit :=
  schedule_names wf (dkeys (ls_triggers st)) st.

(** ** Completions *)

Definition drop_pending (name : string) (st : LoopState) : LoopState :=
  mkLoop (ls_triggers st) (filterb (fun x => negb (bool_decide (x = name))) (ls_pending st)) (ls_nodes st) (ls_outputs st) (ls_counters st).

Definition _handle_completion (g : Graph) (name : string) (child : Child) (st : LoopState) : LoopState * res unit :=
  let st := set_run_status name RunStatus.COMPLETED st in
  let st := match ch_output child with JNull => st | o => set_run_output name o st end in
  _buffer_downstream_triggers g name child st.

(** The runs that have ended, in the order they were started; the first failure ends
    the workflow. *)
Fixpoint complete_all (g : Graph) (ended : list (string * Child)) (st : LoopState) : LoopState * res unit :=
  match ended with
  | [] => (st, Ok tt)
  | (name, child) :: ended' =>
      let st := drop_pending name st in
      match ch_error child with
      | Some e => (set_run_status name RunStatus.FAILED st, Err (WorkflowError ("node " +:+ name +:+ " failed: " +:+ e)))
      | None =>
          match _handle_completion g name child st with
          | (st, Ok _) => complete_all g ended' st
          | (st, Err e) => (st, Err e)
          end
      end
  end.

Definition order_done (env : runs) (i : nat) (pending : list string) : list (string * Child) :=
  omap (fun k => (fun c => (k, c)) <$> env i pending k) pending.

(** ** The loop *)

Inductive iteration := Continue | Stop | IterRaises (e : exn).

(** One turn of [_run_loop]. *)
Definition loop_iter (wf : Workflow) (env : runs) (i : nat) (st : LoopState) : LoopState * list Start * iteration :=
  match _schedule_ready_nodes wf st with
  | (st, ss, Err e) => (st, ss, IterRaises e)
  | (st, ss, Ok _) =>
      match ls_pending st with
      | [] => (st, ss, Stop)
      | pending =>
          match complete_all (wf_graph wf) (order_done env i pending) st with
          | (st, Ok _) => (st, ss, Continue)
          | (st, Err e) => (st, ss, IterRaises e)
          end
      end
  end.

(** The loop, for at most [fuel] turns; the outcome is [Continue] when they were too
    few. *)
Fixpoint _run_loop (wf : Workflow) (env : runs) (fuel i : nat) (st : LoopState) : LoopState * list Start * iteration :=
  match fuel with
  | O => (st, [], Continue)
  | S fuel' =>
      match loop_iter wf env i st with
      | (st, ss, Continue) => let '(st', ss', r) := _run_loop wf env fuel' (S i) st in (st', ss ++ ss', r)
      | r => r
      end
  end.

(** [_cleanup_all_tasks]: what is still in flight is cancelled. *)
Definition _cleanup_all_tasks (ended : string -> bool) (st : LoopState) : LoopState :=
  foldl (fun st name => if ended name then st else set_run_status name RunStatus.CANCELLED st) st (ls_pending st).

(** [_finalize]: the output of the one terminal node that has one. *)
Definition _finalize (wf : Workflow) (st : LoopState) : res json :=
  match omap (fun name => dget name (ls_outputs st)) (terminal_node_names (wf_graph wf)) with
  | [] => Ok JNull
  | [o] => Ok o
  | l => Err (WorkflowError ("Workflow " +:+ wf_name wf +:+ ": multiple terminal nodes produced output (" +:+ pretty (length l)
                +:+ "). A workflow must have at most one terminal output."))
  end.

(** [_run_impl]: the output, or the exception; [None] when the turns were too few.
    [late]: which of the runs still in flight had ended by the time of the cleanup. *)
Definition run_workflow (wf : Workflow) (env : runs) (late : string -> bool) (fuel : nat) (input : json) : LoopState * list Start * option (res json) :=
  match _run_loop wf env fuel 0 (_seed_start_triggers (wf_graph wf) input new_loop) with
  | (st, ss, Stop) => (st, ss, Some (_finalize wf st))
  | (st, ss, IterRaises e) => (_cleanup_all_tasks late st, ss, Some (Err e))
  | (st, ss, Continue) => (st, ss, None)
  end.

(** [JoinNode._run_impl]: the collected inputs are the output. *)
Definition join_run (input : json) : Child := mkChild input NoRoute None.

(** ** The graph of the orchestrator (orchestrator.py, [build_workflow]) *)

Definition planner_node : WfNode := mkWfNode 1 "planner" false.
Definition executor_node : WfNode := mkWfNode 2 "executor" false.
Definition helper_node : WfNode := mkWfNode 3 "helper" false.
Definition done_node : WfNode := mkWfNode 4 "done" false.

Definition orchestrator_edges : list Edge :=
  [mkEdge START planner_node NoRoute;
   mkEdge planner_node executor_node NoRoute;
   mkEdge executor_node helper_node (OneRoute (RStr "judge"));
   mkEdge executor_node done_node (OneRoute (RStr DEFAULT_ROUTE));
   mkEdge helper_node executor_node (OneRoute (RStr "execute"));
   mkEdge helper_node planner_node (OneRoute (RStr DEFAULT_ROUTE))].

Definition build_workflow : Workflow := mkWorkflow "orchestrator" (make_graph orchestrator_edges) None.
