(* ===== verification/WorkflowFacts.v ===== *)
(** * The workflow loop, proved *)
From S2P Require Import Prelude PyStr Dict Json Dag Graph GraphFacts Workflow.
Local Open Scope string_scope.
Local Open Scope list_scope.

(** ** Weights

    Every trigger and every run in flight counts for the weight of its node. *)

Section weights.
Context (W : string -> nat).

Definition weigh (l : list (string * list json)) : nat := sum_list_with (fun p => length p.2 * W p.1) l.
Definition weigh_runs (l : list string) : nat := sum_list_with W l.
Definition weight (st : LoopState) : nat := weigh (ls_triggers st) + weigh_runs (ls_pending st).

Definition queue (l : list (string * list json)) (k : string) : list json := default [] (dget k l).

Lemma weigh_dset k q l : weigh (dset k q l) + length (queue l k) * W k = weigh l + length q * W k.
Proof.
  unfold weigh, queue. induction l as [|[k' q'] l IH]; cbn; [lia|].
  destruct (decide (k = k')) as [->|Hne]; cbn; lia.
Qed.

Lemma weigh_ddel k l : weigh (ddel k l) + length (queue l k) * W k = weigh l.
Proof.
  unfold weigh, queue. induction l as [|[k' q'] l IH]; cbn; [lia|].
  destruct (decide (k = k')) as [->|Hne]; cbn; lia.
Qed.

Lemma push_weight k i st : weight (push_trigger k i st) = weight st + W k.
Proof.
  unfold weight, push_trigger. cbn [ls_triggers ls_pending].
  change (default [] (dget k (ls_triggers st))) with (queue (ls_triggers st) k).
  pose proof (weigh_dset k (queue (ls_triggers st) k ++ [i]) (ls_triggers st)) as H.
  rewrite length_app in H. cbn [length] in H. lia.
Qed.

Lemma pop_weight l k l' i : _pop_trigger l k = (l', Some i) -> weigh l' + W k = weigh l.
Proof.
  unfold _pop_trigger. destruct (dget k l) as [q|] eqn:E; [|done].
  assert (queue l k = q) as Hq by (unfold queue; by rewrite E). destruct q as [|x q]; [done|]. destruct q as [|y q]; intros [= <- <-].
  - pose proof (weigh_ddel k l) as H. rewrite Hq in H. cbn in H. lia.
  - pose proof (weigh_dset k (y :: q) l) as H. rewrite Hq in H. cbn in H. lia.
Qed.

Lemma runs_snoc l k : weigh_runs (l ++ [k]) = weigh_runs l + W k.
Proof. unfold weigh_runs. induction l as [|x l IH]; cbn in *; lia. Qed.

Lemma runs_drop l k : NoDup l -> k ∈ l -> weigh_runs (filterb (fun x => negb (bool_decide (x = k))) l) + W k = weigh_runs l.
Proof.
  intros Hnd Hk. unfold weigh_runs. induction l as [|x l IH]; [by apply elem_of_nil in Hk|].
  apply NoDup_cons in Hnd as [Hx Hnd]. cbn [filterb List.filter]. fold (filterb (fun x => negb (bool_decide (x = k))) l).
  destruct (decide (x = k)) as [->|Hne].
  - rewrite bool_decide_true by done. cbn [negb]. cbn [sum_list_with].
    assert (filterb (fun x => negb (bool_decide (x = k))) l = l) as ->; [|lia].
    apply forallb_filter_id, forallb_elem. intros y Hy. apply negb_true_iff, bool_decide_eq_false. by intros ->.
  - rewrite bool_decide_false by done. cbn [negb]. cbn [sum_list_with].
    apply elem_of_cons in Hk as [?|Hk]; [congruence|]. specialize (IH Hnd Hk). lia.
Qed.
End weights.

(** ** The invariant of the loop *)

Record loop_inv (wf : Workflow) (st : LoopState) : Prop := {
  (** one run in flight for each running node *)
  li_pending : NoDup (ls_pending st);
  li_running : forall k, k ∈ ls_pending st <-> run_status_of st k = Some RunStatus.RUNNING;
  (** no empty queues, and only for nodes of the graph *)
  li_keys : NoDup (dkeys (ls_triggers st));
  li_queue : forall k q, dget k (ls_triggers st) = Some q -> q <> [] /\ is_Some (find_node (wf_graph wf) k);
  (** the concurrency limit *)
  li_limit : forall m, wf_max_concurrency wf = Some m -> (0 < m)%Z -> (Z.of_nat (length (ls_pending st)) <= m)%Z;
  (** the counter of a node is the number of its last run *)
  li_counter : forall k, (0 <= default 0 (dget k (ls_counters st)))%Z
}.

Lemma new_loop_inv wf : loop_inv wf new_loop.
Proof.
  split; cbn; try done; try apply NoDup_nil_2.
  - intros k. unfold run_status_of. cbn. split; [by intros ?%elem_of_nil | done].
  - intros; lia.
Qed.

Lemma push_inv wf k i st : loop_inv wf st -> is_Some (find_node (wf_graph wf) k) -> loop_inv wf (push_trigger k i st).
Proof.
  intros [] Hk. split; try done; cbn [push_trigger ls_triggers].
  - by apply NoDup_dset.
  - intros x q. rewrite dget_dset. case_decide as Hx; [|by apply li_queue0].
    intros [= <-]. subst. split; [|done]. by destruct (default [] _).
Qed.

Lemma barrier_cases g k st :
  _buffer_barrier_trigger g k st = st \/
  (exists o, _buffer_barrier_trigger g k st = push_trigger k o st) /\
  (forall p, p ∈ predecessors g k -> p = START_NAME \/ run_status_of st p = Some RunStatus.COMPLETED).
Proof.
  unfold _buffer_barrier_trigger. destruct (forallb _ _) eqn:E; [right | by left]. split; [by eexists|].
  rewrite forallb_elem in E. intros p Hp. specialize (E p Hp). apply orb_true_iff in E as [E|E]; bool_prop; auto.
Qed.

Lemma set_run_output_inv wf k o st : loop_inv wf st -> loop_inv wf (set_run_output k o st).
Proof. by intros []. Qed.

Lemma buffer_targets_inv wf ts o : forall st st' r,
  loop_inv wf st -> buffer_targets (wf_graph wf) ts o st = (st', r) ->
  loop_inv wf st' /\ ls_pending st' = ls_pending st /\ ls_nodes st' = ls_nodes st /\ ls_counters st' = ls_counters st /\
  forall W, weight W st' <= weight W st + sum_list_with W ts.
Proof.
  induction ts as [|t ts IH]; intros st st' r H; cbn [buffer_targets].
  - intros [= <- <-]. repeat (split; [done|]). intros W. cbn. lia.
  - unfold _get_static_node_by_name. destruct (find_node (wf_graph wf) t) as [n|] eqn:E.
    2: { intros [= <- <-]. repeat (split; [done|]). intros W. lia. }
    set (st1 := if wn_join n then _ else _). intros Hb.
    assert (loop_inv wf st1 /\ ls_pending st1 = ls_pending st /\ ls_nodes st1 = ls_nodes st /\ ls_counters st1 = ls_counters st /\
      forall W, weight W st1 <= weight W st + W t) as (H1 & Hp & Hn & Hc & Hw).
    { unfold st1. destruct (wn_join n).
      - destruct (barrier_cases (wf_graph wf) t st) as [->|[[i ->] _]]; [repeat (split; [done|]); intros; lia|].
        split; [apply push_inv; [done | by rewrite E]|]. repeat (split; [done|]). intros W. rewrite push_weight. lia.
      - split; [apply push_inv; [done | by rewrite E]|]. repeat (split; [done|]). intros W. rewrite push_weight. lia. }
    destruct (IH _ _ _ H1 Hb) as (H2 & Hp2 & Hn2 & Hc2 & Hw2). split; [done|]. rewrite Hp2, Hn2, Hc2. repeat (split; [done|]).
    intros W. specialize (Hw2 W). specialize (Hw W). cbn [sum_list_with]. lia.
Qed.

(** ** Scheduling *)

Lemma pop_spec l k l' i :
  _pop_trigger l k = (l', Some i) -> NoDup (dkeys l) ->
  queue l k = i :: queue l' k /\ (forall x, x <> k -> dget x l' = dget x l) /\ NoDup (dkeys l') /\
  (forall q, dget k l' = Some q -> q <> []).
Proof.
  unfold _pop_trigger, queue. destruct (dget k l) as [[|x [|y q]]|] eqn:E; try done; intros [= <- <-] Hnd.
  - rewrite dget_ddel_eq by done. split; [done|]. split; [intros; by apply dget_ddel_ne|]. split; [by apply NoDup_ddel | done].
  - rewrite dget_dset_eq. split; [done|]. split; [intros; by apply dget_dset_ne|]. split; [by apply NoDup_dset|].
    by intros q' [= <-].
Qed.

(** What a start is, in the state it is made in. *)
Record start_ok (wf : Workflow) (st : LoopState) (s : Start) : Prop := {
  so_idle : st_node s ∉ ls_pending st;
  so_input : exists q, queue (ls_triggers st) (st_node s) = st_input s :: q;
  so_run_id : st_run_id s = pretty (default 0 (dget (st_node s) (ls_counters st)) + 1)%Z
}.

Lemma start_run_inv wf k i st l' st' s :
  loop_inv wf st -> _at_concurrency_limit wf st = false -> k ∉ ls_pending st ->
  _pop_trigger (ls_triggers st) k = (l', Some i) -> start_run k i (set_triggers l' st) = (st', s) ->
  loop_inv wf st' /\ start_ok wf st s /\ ls_pending st' = ls_pending st ++ [k] /\ ls_outputs st' = ls_outputs st /\
  st_node s = k /\ ls_triggers st' = l' /\
  (forall x, dget x (ls_counters st') = if decide (x = k) then Some (default 0 (dget k (ls_counters st)) + 1)%Z else dget x (ls_counters st)) /\
  forall W, weight W st' = weight W st.
Proof.
  intros H Hlim Hk Hpop. unfold start_run, set_triggers. cbn [ls_pending ls_counters ls_nodes ls_outputs ls_triggers].
  rewrite bool_decide_false by done. intros [= <- <-]. cbn [ls_pending ls_outputs ls_triggers st_node ls_counters].
  pose proof (pop_spec _ _ _ _ Hpop (li_keys _ _ H)) as (Hq & Hother & Hnd & Hne). split; [|split; [|split; [done|]]].
  - destruct H. split; cbn [ls_pending ls_triggers ls_counters].
    + apply NoDup_app. split; [done|]. split; [|apply NoDup_singleton]. by intros x Hx ->%list_elem_of_singleton.
    + intros x. unfold run_status_of. cbn [ls_nodes]. rewrite dget_dset, elem_of_app, list_elem_of_singleton.
      case_decide as Hx; [cbn; naive_solver|]. rewrite li_running0. unfold run_status_of. naive_solver.
    + done.
    + intros x q Hx. destruct (decide (x = k)) as [->|Hxk].
      * split; [by apply Hne|]. unfold queue in Hq. destruct (dget k (ls_triggers st)) eqn:E; [|done]. by apply (li_queue0 k l).
      * rewrite Hother in Hx by done. by apply li_queue0.
    + intros m Hm Hpos. rewrite length_app. cbn. unfold _at_concurrency_limit in Hlim. rewrite Hm in Hlim.
      apply andb_false_iff in Hlim as [?%Z.ltb_ge|?%Z.leb_gt]; lia.
    + intros x. rewrite dget_dset. case_decide; [cbn; specialize (li_counter0 k); lia | done].
  - split; cbn; [done | by eexists | done].
  - do 3 (split; [done|]). split; [intros x; apply dget_dset|]. intros W. unfold weight. cbn [ls_triggers ls_pending].
    rewrite runs_snoc. pose proof (pop_weight W _ _ _ _ Hpop). lia.
Qed.

(** The runs of a node in a list of starts: their inputs, their ids. *)
Definition starts_of (ss : list Start) (k : string) : list Start := filterb (fun s => bool_decide (st_node s = k)) ss.
Definition count_of (st : LoopState) (k : string) : Z := default 0%Z (dget k (ls_counters st)).

(** The runs of each node are numbered on from its counter. *)
Definition numbered (st : LoopState) (ss : list Start) (st' : LoopState) : Prop :=
  forall k, (count_of st k <= count_of st' k)%Z /\
    st_run_id <$> starts_of ss k = pretty <$> seqZ (count_of st k + 1) (count_of st' k - count_of st k).

Lemma starts_of_cons s ss k : starts_of (s :: ss) k = if bool_decide (st_node s = k) then s :: starts_of ss k else starts_of ss k.
Proof. done. Qed.

Lemma starts_of_app ss ss' k : starts_of (ss ++ ss') k = starts_of ss k ++ starts_of ss' k.
Proof. apply filterb_app. Qed.

Lemma numbered_app st ss st' ss' st'' : numbered st ss st' -> numbered st' ss' st'' -> numbered st (ss ++ ss') st''.
Proof.
  intros H K k. destruct (H k) as [H1 H2], (K k) as [K1 K2]. split; [lia|].
  rewrite starts_of_app, fmap_app, H2, K2, <- fmap_app. f_equal.
  replace (count_of st' k + 1)%Z with ((count_of st k + 1) + (count_of st' k - count_of st k))%Z by lia.
  rewrite <- seqZ_app by lia. f_equal. lia.
Qed.

Lemma numbered_same st st' : ls_counters st' = ls_counters st -> numbered st [] st'.
Proof. intros E k. unfold count_of. rewrite E. split; [lia|]. by rewrite Z.sub_diag. Qed.

Lemma schedule_facts wf names : forall st st' ss r,
  loop_inv wf st -> schedule_names wf names st = (st', ss, r) ->
  r = Ok tt /\ loop_inv wf st' /\ ls_pending st' = ls_pending st ++ (st_node <$> ss) /\ ls_outputs st' = ls_outputs st /\
  (forall k, queue (ls_triggers st) k = (st_input <$> starts_of ss k) ++ queue (ls_triggers st') k) /\
  numbered st ss st' /\ forall W, weight W st' = weight W st.
Proof.
  assert (forall st, loop_inv wf st ->
    Ok tt = Ok tt /\ loop_inv wf st /\ ls_pending st = ls_pending st ++ (st_node <$> []) /\ ls_outputs st = ls_outputs st /\
    (forall k, queue (ls_triggers st) k = (st_input <$> starts_of [] k) ++ queue (ls_triggers st) k) /\
    numbered st [] st /\ forall W, weight W st = weight W st) as Hstop.
  { intros st H. rewrite app_nil_r. do 5 (split; [done|]). split; [by apply numbered_same | done]. }
  induction names as [|k names IH]; intros st st' ss r H; cbn [schedule_names]; [intros [= <- <- <-]; by apply Hstop|].
  case_bool_decide as Hk; [by apply IH|]. case_bool_decide; [by apply IH|].
  destruct (_at_concurrency_limit wf st) eqn:Hlim; [intros [= <- <- <-]; by apply Hstop|].
  destruct (_pop_trigger (ls_triggers st) k) as [l' [i|]] eqn:Hpop; [|by apply IH].
  destruct (pop_spec _ _ _ _ Hpop (li_keys _ _ H)) as (Hq & Hother & _).
  assert (is_Some (find_node (wf_graph wf) k)) as [n Hn].
  { unfold queue in Hq. destruct (dget k (ls_triggers st)) as [q|] eqn:E; [|done]. by apply (li_queue _ _ H k q). }
  unfold _get_static_node_by_name. rewrite Hn. destruct (start_run k i (set_triggers l' st)) as [st1 s] eqn:Es.
  destruct (start_run_inv wf k i st l' st1 s H Hlim Hk Hpop Es) as (H1 & [_ [q Hi] Hid] & Hp1 & Ho1 & Hs & Ht1 & Hc1 & Hw1).
  destruct (schedule_names wf names st1) as [[st2 ss2] r2] eqn:E2. intros [= <- <- <-].
  destruct (IH _ _ _ _ H1 E2) as (Hr & H2 & Hp2 & Ho2 & Hq2 & Hn2 & Hw2). split; [done|]. split; [done|].
  split; [by rewrite Hp2, Hp1, fmap_cons, Hs, <- app_assoc|]. split; [congruence|]. split; [|split].
  - intros x. rewrite starts_of_cons, Hs.
    destruct (decide (k = x)) as [<-|Hx].
    + rewrite bool_decide_true by done. rewrite fmap_cons. cbn [app]. rewrite <- Hq2, Ht1, Hq. f_equal. rewrite Hs, Hq in Hi. by injection Hi.
    + rewrite bool_decide_false by done. rewrite <- Hq2, Ht1. unfold queue. by rewrite Hother.
  - apply (numbered_app _ [s] st1); [|done]. intros x. rewrite starts_of_cons, Hs. unfold count_of. rewrite Hc1.
    destruct (decide (x = k)) as [->|Hx].
    + rewrite bool_decide_true by done. cbn [from_option id fmap list_fmap starts_of filterb List.filter]. rewrite Hid, Hs. split; [lia|].
      replace (_ + 1 - _)%Z with 1%Z by lia. done.
    + rewrite bool_decide_false by done. split; [lia|]. by rewrite Z.sub_diag.
  - intros W. by rewrite Hw2.
Qed.

(** ** Completions *)

Lemma finish_inv wf k s st :
  loop_inv wf st -> k ∈ ls_pending st -> s <> RunStatus.RUNNING -> loop_inv wf (set_run_status k s (drop_pending k st)).
Proof.
  intros [] Hk Hs. split; try done; cbn [set_run_status drop_pending ls_pending].
  - eapply sublist_NoDup; [exact li_pending0 | apply filterb_sublist].
  - intros x. rewrite elem_of_filterb, negb_true_iff, bool_decide_eq_false, li_running0.
    unfold run_status_of. cbn [ls_nodes set_run_status drop_pending]. rewrite dget_dupd. case_decide as Hx; [|naive_solver].
    subst. destruct (dget k (ls_nodes st)); cbn; naive_solver.
  - intros m Hm Hpos. specialize (li_limit0 m Hm Hpos).
    pose proof (sublist_length _ _ (filterb_sublist (fun x => negb (bool_decide (x = k))) (ls_pending st))). lia.
Qed.

(** Completions only add to the ends of the queues. *)
Definition queues_grow (st st' : LoopState) : Prop := forall k, exists new, queue (ls_triggers st') k = queue (ls_triggers st) k ++ new.

#[export] Instance queues_grow_preorder : PreOrder queues_grow.
Proof.
  split; [by intros st k; exists []; rewrite app_nil_r|]. intros a b c H K k. destruct (H k) as [x Hx], (K k) as [y Hy].
  exists (x ++ y). by rewrite Hy, Hx, app_assoc.
Qed.

Lemma push_grows k i st : queues_grow st (push_trigger k i st).
Proof.
  intros x. unfold queue, push_trigger. cbn [ls_triggers]. rewrite dget_dset. case_decide as Hx.
  - subst. exists [i]. done.
  - exists []. by rewrite app_nil_r.
Qed.

Lemma buffer_targets_grow g ts o : forall st st' r, buffer_targets g ts o st = (st', r) -> queues_grow st st'.
Proof.
  induction ts as [|t ts IH]; intros st st' r; cbn [buffer_targets]; [by intros [= <- <-]|].
  destruct (_get_static_node_by_name g t) as [n|e]; [|by intros [= <- <-]]. intros H. etrans; [|by eapply IH].
  destruct (wn_join n); [|apply push_grows]. destruct (barrier_cases g t st) as [->|[[i ->] _]]; [done | apply push_grows].
Qed.

(** What one completion does. *)
Lemma handle_facts wf k c st st' r :
  loop_inv wf st -> k ∈ ls_pending st -> _handle_completion (wf_graph wf) k c (drop_pending k st) = (st', r) ->
  loop_inv wf st' /\ ls_pending st' = filterb (fun x => negb (bool_decide (x = k))) (ls_pending st) /\
  ls_counters st' = ls_counters st /\ queues_grow st st' /\
  forall W, weight W st' + W k <= weight W st + sum_list_with W (get_next_pending_nodes (wf_graph wf) k (ch_route c)).
Proof.
  intros H Hk. unfold _handle_completion, _buffer_downstream_triggers. set (st1 := match ch_output c with JNull => _ | _ => _ end).
  assert (loop_inv wf st1 /\ ls_pending st1 = filterb (fun x => negb (bool_decide (x = k))) (ls_pending st) /\
    ls_counters st1 = ls_counters st /\ ls_triggers st1 = ls_triggers st) as (H1 & Hp & Hc & Ht).
  { assert (loop_inv wf (set_run_status k RunStatus.COMPLETED (drop_pending k st))) as Hf by by apply finish_inv.
    unfold st1. destruct (ch_output c); try done; (split; [by apply set_run_output_inv | done]). }
  intros Hb. destruct (buffer_targets_inv _ _ _ _ _ _ H1 Hb) as (H2 & Hp2 & _ & Hc2 & Hw2). split; [done|].
  split; [by rewrite Hp2|]. split; [by rewrite Hc2|]. split.
  - intros x. destruct (buffer_targets_grow _ _ _ _ _ _ Hb x) as [new Hnew]. exists new. by rewrite Hnew, Ht.
  - intros W. specialize (Hw2 W). unfold weight in *. rewrite Ht, Hp in Hw2.
    pose proof (runs_drop W (ls_pending st) k (li_pending _ _ H) Hk). lia.
Qed.

Lemma complete_facts wf ended : forall st st' r,
  loop_inv wf st -> NoDup (ended.*1) -> (forall k, k ∈ ended.*1 -> k ∈ ls_pending st) ->
  complete_all (wf_graph wf) ended st = (st', r) ->
  loop_inv wf st' /\ ls_counters st' = ls_counters st /\ queues_grow st st' /\
  forall W d, (forall k e, sum_list_with W (get_next_pending_nodes (wf_graph wf) k e) + d <= W k) ->
    weight W st' <= weight W st /\ (r = Ok tt -> weight W st' + length ended * d <= weight W st).
Proof.
  induction ended as [|[k c] ended IH]; intros st st' r H Hnd Hin; cbn [complete_all].
  - intros [= <- <-]. do 3 (split; [done|]). intros W d _. cbn. lia.
  - rewrite fmap_cons in Hnd. cbn [fst] in Hnd. apply NoDup_cons in Hnd as [Hk Hnd].
    assert (k ∈ ls_pending st) as Hkp by (apply Hin; by left). destruct (ch_error c) as [e|].
    + intros [= <- <-]. split; [by apply finish_inv|]. split; [done|]. split; [by intros x; exists []; rewrite app_nil_r|].
      intros W d _. split; [|done]. unfold weight. cbn [set_run_status drop_pending ls_triggers ls_pending].
      pose proof (runs_drop W (ls_pending st) k (li_pending _ _ H) Hkp). lia.
    + destruct (_handle_completion _ _ _ _) as [st1 r1] eqn:E1.
      destruct (handle_facts _ _ _ _ _ _ H Hkp E1) as (H1 & Hp1 & Hc1 & Hg1 & Hw1). destruct r1 as [[]|e].
      2: { intros [= <- <-]. do 3 (split; [done|]). intros W d Hd. split; [|done]. specialize (Hw1 W). specialize (Hd k (ch_route c)). lia. }
      intros E2. destruct (IH st1 st' r) as (H2 & Hc2 & Hg2 & Hw2); try done.
      { intros x Hx. rewrite Hp1. apply elem_of_filterb. split; [apply Hin; by right|]. apply negb_true_iff, bool_decide_eq_false. by intros ->. }
      split; [done|]. split; [congruence|]. split; [by etrans|]. intros W d Hd. destruct (Hw2 W d Hd) as [Ha Hb].
      specialize (Hw1 W). specialize (Hd k (ch_route c)). split; [lia|]. intros Hr. specialize (Hb Hr). cbn [length]. lia.
Qed.
