(* ===== verification/WorkflowRuns.v ===== *)
(** * Runs of the workflow loop

    What every turn and every run of the loop keeps; that a workflow without routes
    ends; and that the graph of the orchestrator runs one node at a time, along the
    routes its nodes emit. *)
From S2P Require Import Prelude PyStr Dict Json Dag Graph GraphFacts Workflow WorkflowFacts DagPlan DagRuntime.
From S2P Require Import Orchestrator.
Local Open Scope string_scope.
Local Open Scope list_scope.

(** ** One turn *)

Lemma order_done_keys env i l :
  (order_done env i l).*1 = filterb (fun k => match env i l k with Some _ => true | None => false end) l.
Proof.
  unfold order_done. generalize (env i l) as f. intros f. induction l as [|k l IH]; [done|]. cbn. destruct (f k); cbn; [|done].
  f_equal. apply IH.
Qed.

Lemma order_done_facts env i l :
  NoDup l -> NoDup ((order_done env i l).*1) /\ (forall k, k ∈ (order_done env i l).*1 -> k ∈ l).
Proof.
  intros H. rewrite order_done_keys. split; [eapply sublist_NoDup; [exact H | apply filterb_sublist]|].
  intros k Hk. by apply elem_of_filterb in Hk as [? _].
Qed.

Lemma order_done_some env i l : runs_ok env -> l <> [] -> 1 <= length (order_done env i l).
Proof.
  intros H Hl. destruct (H i l Hl) as (k & Hk & [c Hc]). rewrite <- (length_fmap fst), order_done_keys.
  assert (k ∈ filterb (fun k => match env i l k with Some _ => true | None => false end) l) as Hin.
  { apply elem_of_filterb. split; [done|]. by rewrite Hc. }
  destruct (filterb _ _); [by apply elem_of_nil in Hin | cbn; lia].
Qed.

(** When nothing is in flight and nothing could be started, nothing was waiting. *)
Lemma schedule_stops wf st st' ss r :
  loop_inv wf st -> _schedule_ready_nodes wf st = (st', ss, r) -> ls_pending st' = [] -> ls_triggers st' = [].
Proof.
  intros H Hs Hp. destruct (schedule_facts _ _ _ _ _ _ H Hs) as (_ & _ & Hp' & _). rewrite Hp in Hp'. symmetry in Hp'.
  apply app_nil in Hp' as [Hp0 Hss]. destruct ss; [|done]. clear Hss. unfold _schedule_ready_nodes in Hs.
  destruct (ls_triggers st) as [|[k q] l] eqn:E; [cbn in Hs; injection Hs as <- _; by rewrite E|]. exfalso.
  cbn [dkeys fmap list_fmap fst schedule_names] in Hs.
  rewrite Hp0, (bool_decide_false (k ∈ [])) in Hs by apply not_elem_of_nil.
  rewrite bool_decide_false in Hs by (intros Hr; apply (li_running _ _ H) in Hr; rewrite Hp0 in Hr; by apply elem_of_nil in Hr).
  assert (_at_concurrency_limit wf st = false) as Hl.
  { unfold _at_concurrency_limit. destruct (wf_max_concurrency wf) as [m|]; [|done]. rewrite Hp0. cbn [length].
    apply andb_false_iff. destruct (Z.ltb_spec 0 m); [right; apply Z.leb_gt; lia | by left]. }
  rewrite Hl in Hs. destruct (li_queue _ _ H k q) as [Hq [n Hn]]; [rewrite E; apply dget_hit|].
  rewrite E in Hs. unfold _pop_trigger in Hs. rewrite dget_hit in Hs. destruct q as [|i q]; [done|].
  unfold _get_static_node_by_name in Hs. rewrite Hn in Hs.
  destruct q; cbn in Hs; destruct (schedule_names _ _ _) as [[? ?] ?]; done.
Qed.

(** One turn of the loop starts, for each node, runs with the oldest triggers that
    wait for it, in order, numbered on from its last run; the others keep their
    places, and what the completions of the turn trigger comes after them. It keeps
    the invariant, in particular never more runs in flight than the limit allows and
    never two of one node; and it stops only when nothing runs and nothing waits. *)
Theorem loop_turn_spec wf env i st st' ss r :
  loop_inv wf st -> loop_iter wf env i st = (st', ss, r) ->
  loop_inv wf st' /\ numbered st ss st' /\
  (forall k, exists rest new, queue (ls_triggers st) k = (st_input <$> starts_of ss k) ++ rest /\
     queue (ls_triggers st') k = rest ++ new) /\
  (r = Stop -> ls_pending st' = [] /\ ls_triggers st' = []).
Proof.
  intros H. unfold loop_iter. destruct (_schedule_ready_nodes wf st) as [[st1 ss1] r1] eqn:Es.
  destruct (schedule_facts _ _ _ _ _ _ H Es) as (-> & H1 & Hp1 & _ & Hq1 & Hn1 & _).
  destruct (ls_pending st1) as [|p ps] eqn:Ep.
  - intros [= <- <- <-]. split; [done|]. split; [done|]. split.
    + intros k. eexists _, []. split; [apply Hq1 | by rewrite app_nil_r].
    + intros _. split; [done|]. exact (schedule_stops _ _ _ _ _ H Es Ep).
  - destruct (complete_all _ _ st1) as [st2 r2] eqn:Ec. intros Hr. rewrite <- Ep in Ec.
    destruct (order_done_facts env i (ls_pending st1) (li_pending _ _ H1)) as [Hnd Hin].
    destruct (complete_facts _ _ _ _ _ H1 Hnd Hin Ec) as (H2 & Hc2 & Hg2 & _).
    assert (st' = st2 /\ ss = ss1 /\ r <> Stop) as (-> & -> & Hns) by (by destruct r2; injection Hr as <- <- <-).
    split; [done|]. split; [|split; [|done]].
    + rewrite <- (app_nil_r ss1). by eapply numbered_app; [|by apply numbered_same].
    + intros k. destruct (Hg2 k) as [new Hnew]. eexists _, new. split; [apply Hq1 | done].
Qed.

(** The weight a turn takes away. *)
Lemma loop_turn_weight wf env i st st' ss r W d :
  loop_inv wf st -> loop_iter wf env i st = (st', ss, r) ->
  (forall k e, sum_list_with W (get_next_pending_nodes (wf_graph wf) k e) + d <= W k) ->
  weight W st' <= weight W st /\ (runs_ok env -> r = Continue -> weight W st' + d <= weight W st).
Proof.
  intros H Hi Hd. unfold loop_iter in Hi. destruct (_schedule_ready_nodes wf st) as [[st1 ss1] r1] eqn:Es.
  destruct (schedule_facts _ _ _ _ _ _ H Es) as (-> & H1 & _ & _ & _ & _ & Hw1).
  destruct (ls_pending st1) as [|p ps] eqn:Ep; [injection Hi as <- <- <-; by rewrite Hw1|].
  destruct (complete_all _ _ st1) as [st2 r2] eqn:Ec. rewrite <- Ep in Ec.
  destruct (order_done_facts env i (ls_pending st1) (li_pending _ _ H1)) as [Hnd Hin].
  destruct (complete_facts _ _ _ _ _ H1 Hnd Hin Ec) as (_ & _ & _ & Hw2). destruct (Hw2 W d Hd) as [Ha Hb]. rewrite Hw1 in Ha, Hb.
  assert (st' = st2) as -> by (by destruct r2; injection Hi as <- <- <-). split; [done|]. intros Hok ->.
  destruct r2 as [[]|e]; [|done]. specialize (Hb eq_refl).
  pose proof (order_done_some env i (ls_pending st1) Hok ltac:(by rewrite Ep)). nia.
Qed.

(** ** Runs *)

Definition well_formed (wf : Workflow) : Prop := forall e, e ∈ gr_edges (wf_graph wf) -> is_Some (find_node (wf_graph wf) (to_name e)).

Lemma make_graph_well_formed name edges m : one_name edges -> well_formed (mkWorkflow name (make_graph edges) m).
Proof.
  intros H e He. cbn in *. destruct (edge_names edges e H He) as [_ Ht]. apply list_elem_of_fmap in Ht as (n & Hn & Hin).
  unfold find_node. cbn [wf_graph gr_nodes make_graph].
  destruct (find_first (fun m => bool_decide (wn_name m = to_name e)) (infer_nodes edges)) eqn:E; [by eexists|]. rewrite find_first_none in E. cbn in E.
  specialize (E n Hin). by rewrite bool_decide_true in E.
Qed.

Lemma seed_facts wf input :
  well_formed wf ->
  let st := _seed_start_triggers (wf_graph wf) input new_loop in
  loop_inv wf st /\ ls_counters st = [] /\ ls_pending st = [] /\
  forall W, weight W st <= sum_list_with W (to_name <$> filterb (fun e => bool_decide (from_name e = START_NAME)) (gr_edges (wf_graph wf))).
Proof.
  intros Hwf. unfold _seed_start_triggers.
  assert (forall es st, (forall e, e ∈ es -> e ∈ gr_edges (wf_graph wf)) -> loop_inv wf st -> ls_counters st = [] -> ls_pending st = [] ->
    let st' := foldl (seed_edge (wf_graph wf) input) st es in
    loop_inv wf st' /\ ls_counters st' = [] /\ ls_pending st' = [] /\ forall W, weight W st' <= weight W st + sum_list_with W (to_name <$> es)) as Hall.
  { induction es as [|e es IH]; intros st Hes H Hc Hp; cbn [foldl]; [repeat (split; [done|]); intros W; cbn; lia|].
    assert (is_Some (find_node (wf_graph wf) (to_name e))) as Hf by (apply Hwf, Hes; by left).
    assert (let st1 := seed_edge (wf_graph wf) input st e in
      loop_inv wf st1 /\ ls_counters st1 = [] /\ ls_pending st1 = [] /\ forall W, weight W st1 <= weight W st + W (to_name e)) as (H1 & Hc1 & Hp1 & Hw1).
    { unfold seed_edge. destruct (wn_join (ed_to e)).
      - destruct (barrier_cases (wf_graph wf) (to_name e) (set_run_output START_NAME input st)) as [->|[[o ->] _]].
        + split; [by apply set_run_output_inv|]. repeat (split; [done|]). intros W. change (weight W (set_run_output START_NAME input st)) with (weight W st). lia.
        + split; [apply push_inv; [by apply set_run_output_inv | done]|]. repeat (split; [done|]). intros W.
          rewrite push_weight. change (weight W (set_run_output START_NAME input st)) with (weight W st). lia.
      - split; [by apply push_inv|]. repeat (split; [done|]). intros W. rewrite push_weight. lia. }
    destruct (IH (seed_edge (wf_graph wf) input st e)) as (H2 & Hc2 & Hp2 & Hw2); try done; [intros x Hx; apply Hes; by right|].
    split; [done|]. split; [done|]. split; [done|]. intros W. specialize (Hw1 W). specialize (Hw2 W). cbn. lia. }
  apply (Hall _ new_loop); [|apply new_loop_inv | done | done]. intros e He. by apply elem_of_filterb in He as [? _].
Qed.

Lemma run_loop_facts wf env fuel : forall i st st' ss r,
  loop_inv wf st -> _run_loop wf env fuel i st = (st', ss, r) ->
  loop_inv wf st' /\ numbered st ss st' /\ (r = Stop -> ls_pending st' = [] /\ ls_triggers st' = []).
Proof.
  induction fuel as [|fuel IH]; intros i st st' ss r H; cbn [_run_loop].
  - intros [= <- <- <-]. split; [done|]. split; [by apply numbered_same | done].
  - destruct (loop_iter wf env i st) as [[st1 ss1] r1] eqn:E1. destruct (loop_turn_spec _ _ _ _ _ _ _ H E1) as (H1 & Hn1 & _ & Hs1).
    destruct r1; try (by intros [= <- <- <-]).
    destruct (_run_loop wf env fuel (S i) st1) as [[st2 ss2] r2] eqn:E2. intros [= <- <- <-].
    destruct (IH _ _ _ _ _ H1 E2) as (H2 & Hn2 & Hs2). split; [done|]. split; [by eapply numbered_app | done].
Qed.

(** ** What can be seen of a run *)

(** A run of a node begins, or has ended. *)
Inductive loop_event := RunStarts (s : Start) | RunEnds (node : string).

(** A turn: the runs it starts, and then the runs that have ended when it looks. *)
Definition turn_events (wf : Workflow) (env : runs) (i : nat) (st : LoopState) : list loop_event :=
  match _schedule_ready_nodes wf st with
  | (st', ss, Ok _) => (RunStarts <$> ss) ++ ((RunEnds ∘ fst) <$> order_done env i (ls_pending st'))
  | (_, ss, Err _) => RunStarts <$> ss
  end.

Fixpoint loop_events (wf : Workflow) (env : runs) (fuel i : nat) (st : LoopState) : list loop_event :=
  match fuel with
  | O => []
  | S fuel' =>
      turn_events wf env i st ++
      match loop_iter wf env i st with (st', _, Continue) => loop_events wf env fuel' (S i) st' | _ => [] end
  end.

Definition started (events : list loop_event) : list Start :=
  omap (fun e => match e with RunStarts s => Some s | RunEnds _ => None end) events.

(** An abstract account of what runs: a run of a node may begin when the node has none
    that has not ended and, with a limit, fewer runs than that have not; a run may end
    that has begun and not yet ended. *)
Inductive flight_step (limit : option Z) : list string -> loop_event -> list string -> Prop :=
| flight_starts flight s :
    (st_node s ∉ flight) -> (forall m, limit = Some m -> (0 < m)%Z -> (Z.of_nat (length flight) < m)%Z) ->
    flight_step limit flight (RunStarts s) (flight ++ [st_node s])
| flight_ends flight k :
    k ∈ flight -> flight_step limit flight (RunEnds k) (filterb (fun x => negb (bool_decide (x = k))) flight).

Lemma started_app a b : started (a ++ b) = started a ++ started b.
Proof. apply omap_app. Qed.

Lemma started_starts ss : started (RunStarts <$> ss) = ss.
Proof. induction ss as [|s ss IH]; [done|]. cbn. by rewrite <- IH at 2. Qed.

Lemma started_ends (l : list string) : started (RunEnds <$> l) = [].
Proof. by induction l. Qed.

Lemma schedule_flight wf names : forall st st' ss r, schedule_names wf names st = (st', ss, r) ->
  steps (flight_step (wf_max_concurrency wf)) (ls_pending st) (RunStarts <$> ss) (ls_pending st').
Proof.
  induction names as [|k names IH]; intros st st' ss r; cbn [schedule_names]; [intros [= <- <- <-]; constructor|].
  case_bool_decide as Hk; [by apply IH|]. case_bool_decide; [by apply IH|].
  destruct (_at_concurrency_limit wf st) eqn:Hlim; [intros [= <- <- <-]; constructor|].
  destruct (_pop_trigger (ls_triggers st) k) as [l' [x|]]; [|by apply IH].
  destruct (_get_static_node_by_name (wf_graph wf) k); [|intros [= <- <- <-]; constructor].
  unfold start_run. cbn [ls_pending set_triggers]. rewrite bool_decide_false by done.
  match goal with |- context [schedule_names wf names ?st1] => destruct (schedule_names wf names st1) as [[st2 ss2] r2] eqn:E end.
  intros [= <- <- <-]. apply IH in E. rewrite fmap_cons. eapply steps_cons; [|exact E].
  cbn [ls_pending]. change k with (st_node (mkStart k x (pretty (default 0%Z (dget k (ls_counters (set_triggers l' st))) + 1)%Z))) at 2.
  constructor; [done|]. intros m Hm Hpos. unfold _at_concurrency_limit in Hlim. rewrite Hm in Hlim.
  apply andb_false_iff in Hlim as [?%Z.ltb_ge|?%Z.leb_gt]; lia.
Qed.

Definition drop_all (l flight : list string) : list string := foldl (fun fl k => filterb (fun x => negb (bool_decide (x = k))) fl) flight l.

Lemma ends_flight limit l : forall flight, NoDup l -> (forall k, k ∈ l -> k ∈ flight) ->
  steps (flight_step limit) flight (RunEnds <$> l) (drop_all l flight).
Proof.
  induction l as [|k l IH]; intros flight Hnd Hin; [constructor|]. apply NoDup_cons in Hnd as [Hk Hnd].
  rewrite fmap_cons. eapply steps_cons; [constructor; apply Hin; by left|]. apply IH; [done|]. intros x Hx. apply elem_of_filterb.
  split; [apply Hin; by right|]. apply negb_true_iff, bool_decide_eq_false. by intros ->.
Qed.

Lemma complete_flight g ended : forall st st', complete_all g ended st = (st', Ok tt) -> ls_pending st' = drop_all (ended.*1) (ls_pending st).
Proof.
  induction ended as [|[k c] ended IH]; intros st st'; cbn [complete_all]; [by intros [= <-]|].
  destruct (ch_error c); [done|]. destruct (_handle_completion g k c (drop_pending k st)) as [st1 [[]|e]] eqn:E; [|done].
  intros Hc. apply IH in Hc. rewrite Hc. cbn [fmap list_fmap drop_all foldl fst]. f_equal.
  assert (forall ts o st0 st0' r, buffer_targets g ts o st0 = (st0', r) -> ls_pending st0' = ls_pending st0) as Hb.
  { clear. induction ts as [|t ts IHt]; intros o st0 st0' r; cbn [buffer_targets]; [by intros [= <- _]|].
    destruct (_get_static_node_by_name g t) as [n|]; [|by intros [= <- _]]. intros H. apply IHt in H. rewrite H.
    destruct (wn_join n); [|done]. unfold _buffer_barrier_trigger. by destruct (forallb _ _). }
  unfold _handle_completion, _buffer_downstream_triggers in E. apply Hb in E. rewrite E. by destruct (ch_output c).
Qed.

(** One turn, and what it leaves in flight. *)
Lemma turn_flight wf env i st st' ss r :
  loop_inv wf st -> loop_iter wf env i st = (st', ss, r) ->
  started (turn_events wf env i st) = ss /\
  exists flight, steps (flight_step (wf_max_concurrency wf)) (ls_pending st) (turn_events wf env i st) flight /\
    ((forall e, r <> IterRaises e) -> flight = ls_pending st').
Proof.
  intros H. unfold loop_iter, turn_events. destruct (_schedule_ready_nodes wf st) as [[st1 ss1] r1] eqn:Es.
  destruct (schedule_facts _ _ _ _ _ _ H Es) as (-> & H1 & _). pose proof (schedule_flight _ _ _ _ _ _ Es) as Hf.
  destruct (order_done_facts env i (ls_pending st1) (li_pending _ _ H1)) as [Hnd Hin]. rewrite list_fmap_compose.
  pose proof (ends_flight (wf_max_concurrency wf) _ _ Hnd Hin) as He.
  rewrite started_app, started_starts, started_ends, app_nil_r. intros Hr.
  split; [by destruct (ls_pending st1); [|destruct (complete_all _ _ _) as [? []]]; injection Hr as <- <- <-|].
  eexists. split; [eapply steps_app; [exact Hf | exact He]|].
  destruct (ls_pending st1) as [|p ps] eqn:Ep; [by injection Hr as <- <- <-|]. rewrite <- Ep in *.
  destruct (complete_all _ _ st1) as [st2 r2] eqn:Ec. destruct r2 as [[]|e]; injection Hr as <- <- <-; intros Hne; [|by destruct (Hne e)].
  symmetry. by apply complete_flight in Ec.
Qed.

Lemma run_flight wf env fuel : forall i st st' ss r,
  loop_inv wf st -> _run_loop wf env fuel i st = (st', ss, r) ->
  started (loop_events wf env fuel i st) = ss /\
  exists flight, steps (flight_step (wf_max_concurrency wf)) (ls_pending st) (loop_events wf env fuel i st) flight /\
    ((forall e, r <> IterRaises e) -> flight = ls_pending st').
Proof.
  induction fuel as [|fuel IH]; intros i st st' ss r H; cbn [_run_loop loop_events].
  { intros [= <- <- <-]. split; [done|]. eexists. split; [constructor | done]. }
  destruct (loop_iter wf env i st) as [[st1 ss1] r1] eqn:E1. destruct (turn_flight _ _ _ _ _ _ _ H E1) as (Hs1 & fl1 & Hf1 & He1).
  destruct (loop_turn_spec _ _ _ _ _ _ _ H E1) as (H1 & _). rewrite started_app, Hs1.
  destruct r1; try (intros [= <- <- <-]; cbn; rewrite !app_nil_r; split; [done|]; by exists fl1).
  destruct (_run_loop wf env fuel (S i) st1) as [[st2 ss2] r2] eqn:E2. intros [= <- <- <-].
  destruct (IH _ _ _ _ _ H1 E2) as (Hs2 & fl2 & Hf2 & He2). rewrite Hs2. split; [done|]. exists fl2. split; [|done].
  rewrite He1 in Hf1 by done. by eapply steps_app.
Qed.

(** C32: In every run of a workflow, of what can be seen of it, the runs of nodes that begin
    and that end, in order: a run of a node begins only when no earlier run of that node is
    still going, and, with a concurrency limit, only when fewer runs than that are going;
    the runs of each node are numbered one, two, three and so on in the order they begin;
    and the loop ends by itself only when every run has ended and every trigger is
    consumed. *)
Theorem workflow_runs_spec wf env input fuel st ss r :
  well_formed wf -> _run_loop wf env fuel 0 (_seed_start_triggers (wf_graph wf) input new_loop) = (st, ss, r) ->
  let events := loop_events wf env fuel 0 (_seed_start_triggers (wf_graph wf) input new_loop) in
  started events = ss /\
  (exists flight, steps (flight_step (wf_max_concurrency wf)) [] events flight /\
     (r = Stop -> flight = [] /\ ls_triggers st = [])) /\
  (forall k, st_run_id <$> starts_of ss k = pretty <$> seqZ 1 (Z.of_nat (length (starts_of ss k)))).
Proof.
  intros Hwf Hrun. destruct (seed_facts wf input Hwf) as (H0 & Hc0 & Hp0 & _).
  destruct (run_loop_facts _ _ _ _ _ _ _ _ H0 Hrun) as (_ & Hn & Hs).
  destruct (run_flight _ _ _ _ _ _ _ _ H0 Hrun) as (Hst & flight & Hf & He). rewrite Hp0 in Hf. split; [done|]. split.
  { exists flight. split; [done|]. intros ->. rewrite He by done. by apply Hs. }
  intros k. destruct (Hn k) as [Hle Hids]. unfold count_of in Hle, Hids. rewrite Hc0 in Hle, Hids. cbn [dget from_option] in Hle, Hids.
  rewrite Hids. f_equal. rewrite <- (length_fmap st_run_id), Hids, length_fmap, length_seqZ.
  rewrite Z.sub_0_r in *. by rewrite Z2Nat.id.
Qed.

(** ** Termination *)

Lemma sum_mono (f g : string -> nat) l : (forall x, x ∈ l -> f x <= g x) -> sum_list_with f l <= sum_list_with g l.
Proof.
  induction l as [|x l IH]; intros H; cbn; [lia|]. specialize (H x ltac:(by left)) as Hx.
  assert (sum_list_with f l <= sum_list_with g l); [|lia]. apply IH. intros y Hy. apply H. by right.
Qed.

(** The number of ways on from a node, of at most [n] steps. *)
Fixpoint ways (next : string -> list string) (n : nat) (k : string) : nat :=
  match n with O => 1 | S n' => S (sum_list_with (ways next n') (next k)) end.

Lemma ways_stable next rank : (forall k t, t ∈ next k -> rank t < rank k) ->
  forall n k, rank k <= n -> ways next (S n) k <= ways next n k.
Proof.
  intros Hr. induction n as [|n IH]; intros k Hk.
  - cbn. destruct (next k) as [|t l] eqn:E; [cbn; lia|]. assert (rank t < rank k); [apply Hr; rewrite E; by left | lia].
  - change (S (sum_list_with (ways next (S n)) (next k)) <= S (sum_list_with (ways next n) (next k))).
    apply le_n_S, sum_mono. intros t Ht. apply IH. specialize (Hr k t Ht). lia.
Qed.

Definition no_routes (edges : list Edge) : Prop := forall e, e ∈ edges -> ed_route e = NoRoute.

(** Without routes, what a node triggers does not depend on what it emits. *)
Lemma plain_next edges n emitted :
  no_routes edges -> get_next_pending_nodes (make_graph edges) n emitted = plain_successors edges n.
Proof.
  intros H. unfold get_next_pending_nodes, make_graph, plain_successors. cbn [gr_edges].
  assert (forall es acc, (forall e, e ∈ es -> e ∈ edges) -> foldl (route_edge n emitted) (acc, [], false) es =
    (acc ++ (to_name <$> filterb (fun e => bool_decide (from_name e = n) && negb (has_route e)) es), [], false)) as Hf.
  { induction es as [|e es IH]; intros acc Hes; [cbn; by rewrite app_nil_r|]. cbn [foldl route_edge filterb List.filter].
    assert (ed_route e = NoRoute) as Hr by (apply H, Hes; by left). unfold has_route at 1. rewrite Hr. cbn [negb].
    rewrite andb_true_r. assert (forall x, x ∈ es -> x ∈ edges) as Hes' by (intros x Hx; apply Hes; by right).
    destruct (bool_decide (from_name e = n)); cbn [negb]; rewrite IH by done; [|done]. by rewrite fmap_cons, <- app_assoc. }
  by rewrite Hf, app_nil_r.
Qed.

Lemma run_loop_ends wf env W fuel : forall i st,
  runs_ok env -> loop_inv wf st ->
  (forall k e, sum_list_with W (get_next_pending_nodes (wf_graph wf) k e) + 1 <= W k) -> weight W st < fuel ->
  (_run_loop wf env fuel i st).2 <> Continue.
Proof.
  induction fuel as [|fuel IH]; intros i st Hok H HW Hf; [lia|]. cbn [_run_loop].
  destruct (loop_iter wf env i st) as [[st1 ss1] r1] eqn:E. destruct (loop_turn_weight _ _ _ _ _ _ _ W 1 H E HW) as [_ Hd].
  destruct r1; try done. specialize (Hd Hok eq_refl). destruct (loop_turn_spec _ _ _ _ _ _ _ H E) as (H1 & _).
  assert ((_run_loop wf env fuel (S i) st1).2 <> Continue) as Hr by (apply IH; [done | done | done | lia]).
  by destruct (_run_loop wf env fuel (S i) st1) as [[st2 ss2] r2].
Qed.

(** C20: A valid workflow without routes ends: there is a number of turns, for the graph
    alone, within which every run of it is over, whatever its nodes return and in
    whatever order they finish. *)
Theorem workflow_terminates name edges limit :
  one_name edges -> no_routes edges -> validate_graph (make_graph edges) = inr tt ->
  exists fuel, forall env late input, runs_ok env ->
    (run_workflow (mkWorkflow name (make_graph edges) limit) env late fuel input).2 <> None.
Proof.
  intros Hone Hnr Hv. set (wf := mkWorkflow name (make_graph edges) limit).
  apply validate_graph_iff in Hv as (_ & _ & _ & _ & _ & _ & _ & (rank & Hrank)); [|done].
  set (names := wn_name <$> infer_nodes edges) in *.
  assert (forall k t, t ∈ plain_successors edges k -> k ∈ names /\ t ∈ names /\ rank t < rank k) as Hsucc.
  { intros k t Ht. pose proof Ht as (e & He & <- & <- & _)%elem_plain_successors. destruct (edge_names edges e Hone He) as [Hf Hto].
    split; [done|]. split; [done|]. eapply Hrank; [unfold adj_graph; by rewrite bool_decide_true | done |].
    unfold adj_graph. rewrite bool_decide_true by done. by eexists. }
  set (R := max_rank rank names). set (W := ways (plain_successors edges) (S R)).
  assert (forall k e, sum_list_with W (get_next_pending_nodes (wf_graph wf) k e) + 1 <= W k) as HW.
  { intros k e. cbn [wf_graph wf]. rewrite plain_next by done. unfold W at 2. cbn [ways].
    assert (sum_list_with W (plain_successors edges k) <= sum_list_with (ways (plain_successors edges) R) (plain_successors edges k)); [|lia].
    apply sum_mono. intros t Ht. destruct (Hsucc k t Ht) as (_ & Htn & _).
    apply (ways_stable _ rank); [by intros; apply Hsucc | by apply max_rank_elem]. }
  exists (S (sum_list_with W (to_name <$> filterb (fun e => bool_decide (from_name e = START_NAME)) edges))).
  intros env late input Hok. destruct (seed_facts wf input (make_graph_well_formed name edges limit Hone)) as (H0 & _ & _ & Hw0).
  pose proof (run_loop_ends wf env W (S (sum_list_with W (to_name <$> filterb (fun e => bool_decide (from_name e = START_NAME)) edges)))
    0 _ Hok H0 HW (proj2 (Nat.lt_succ_r _ _) (Hw0 W))) as Hend.
  unfold run_workflow. fold wf. destruct (_run_loop wf env _ 0 _) as [[st ss] r]. by destruct r.
Qed.

(** ** The orchestrator *)

Definition exec_route (o : exec_outcome) : routes :=
  match o with
  | ToJudge _ => OneRoute (RStr "judge")
  | ToDone => OneRoute (RStr DEFAULT_ROUTE)
  | _ => NoRoute
  end.
Definition helper_route (o : helper_outcome) : routes :=
  match o with
  | ToExecute => OneRoute (RStr "execute")
  | ToPlanner => OneRoute (RStr DEFAULT_ROUTE)
  | HelperRaises _ => NoRoute
  end.

(** The node of the workflow that runs at a position. *)
Definition position_nodes (p : position) : list string :=
  match p with
  | AtPlanner => ["planner"]
  | AtExecutor _ => ["executor"]
  | AtHelper _ => ["helper"]
  | AtDone _ => ["done"]
  | Failed _ => []
  end.

Lemma orchestrator_one_name : one_name orchestrator_edges.
Proof.
  intros a b (e & He & Ha) (e' & He' & Hb).
  assert (forall n e, e ∈ orchestrator_edges -> n = ed_from e \/ n = ed_to e -> n ∈ [START; planner_node; executor_node; helper_node; done_node]) as Hn.
  { clear. intros n e He Hn. unfold orchestrator_edges in He.
    repeat (apply elem_of_cons in He as [->|He]; [destruct Hn as [-> | ->]; cbn; set_solver|]). by apply elem_of_nil in He. }
  apply (Hn _ e He) in Ha. apply (Hn _ e' He') in Hb. clear He He' e e' Hn.
  repeat (apply elem_of_cons in Ha as [->|Ha]; [repeat (apply elem_of_cons in Hb as [->|Hb]; [by cbn|]); by apply elem_of_nil in Hb|]).
  by apply elem_of_nil in Ha.
Qed.

Lemma orchestrator_single n emitted : length (get_next_pending_nodes (wf_graph build_workflow) n emitted) <= 1.
Proof.
  unfold get_next_pending_nodes.
  destruct (decide (START_NAME = n)) as [<-|H1]; [vm_compute; lia|].
  destruct (decide ("planner" = n)) as [<-|H2]; [vm_compute; lia|].
  destruct (decide ("executor" = n)) as [<-|H3]; [|destruct (decide ("helper" = n)) as [<-|H4]].
  - cbv -[edge_matched]. destruct (edge_matched _ emitted); lia.
  - cbv -[edge_matched]. destruct (edge_matched _ emitted); lia.
  - cbn [foldl wf_graph build_workflow make_graph gr_edges orchestrator_edges].
    unfold route_edge. cbn [from_name ed_from wn_name START planner_node executor_node helper_node].
    repeat (rewrite bool_decide_false by done). cbn. lia.
Qed.

Lemma run_loop_weight wf env W fuel : forall i st,
  loop_inv wf st -> (forall k e, sum_list_with W (get_next_pending_nodes (wf_graph wf) k e) <= W k) ->
  weight W (_run_loop wf env fuel i st).1.1 <= weight W st.
Proof.
  induction fuel as [|fuel IH]; intros i st H HW; cbn [_run_loop]; [done|].
  destruct (loop_iter wf env i st) as [[st1 ss1] r1] eqn:E.
  destruct (loop_turn_weight _ _ _ _ _ _ _ W 0 H E) as [Hle _]; [intros k e; specialize (HW k e); lia|].
  destruct (loop_turn_spec _ _ _ _ _ _ _ H E) as (H1 & _). destruct r1; try done.
  specialize (IH (S i) st1 H1 HW). destruct (_run_loop wf env fuel (S i) st1) as [[st2 ss2] r2]. cbn [fst] in *. lia.
Qed.

Lemma sum_ones l : sum_list_with (fun _ : string => 1) l = length l.
Proof. induction l as [|x l IH]; cbn; [done | by rewrite IH]. Qed.

(** The graph of the orchestrator is valid; along it the executor and the helper hand
    over to the node their route names, as the model of the orchestration has it;
    and in every run of the workflow there is never more than one node in flight or
    waiting, so that the nodes, which share their state, run one after the other. *)
Theorem orchestrator_workflow_spec :
  let next := get_next_pending_nodes (wf_graph build_workflow) in
  validate_graph (wf_graph build_workflow) = inr tt /\
  (forall r, next "planner" r = ["executor"]) /\
  (forall o rt, (forall e, o <> Raises e) -> o <> Draining -> next "executor" (exec_route o) = position_nodes (executor_next o rt)) /\
  (forall o, (forall e, o <> HelperRaises e) -> next "helper" (helper_route o) = position_nodes (helper_next o)) /\
  (forall r, next "done" r = []) /\
  (forall env fuel input,
     weight (fun _ => 1) (_run_loop build_workflow env fuel 0 (_seed_start_triggers (wf_graph build_workflow) input new_loop)).1.1 <= 1).
Proof.
  intros next. split; [vm_compute; reflexivity|]. split; [intros r; vm_compute; reflexivity|]. split; [|split; [|split]].
  - intros o rt He Hd. destruct o as [id| |e|]; [| |by destruct (He e)|by destruct Hd]; vm_compute; reflexivity.
  - intros o He. destruct o as [| |e]; [| |by destruct (He e)]; vm_compute; reflexivity.
  - intros r. vm_compute. reflexivity.
  - intros env fuel input. destruct (seed_facts build_workflow input) as (H & _ & _ & Hw).
    { apply make_graph_well_formed, orchestrator_one_name. }
    etrans; [apply run_loop_weight; [done|]; intros k e; rewrite sum_ones; apply orchestrator_single|]. apply Hw.
Qed.
