(* ===== verification/NodePath.v ===== *)
(** * Paths of workflow nodes (new_choirworks/core/events/node_path_builder.py)

    A path is a list of segments, each a node name with or without the number of a
    run; its text joins them with slashes. *)
From S2P Require Import Prelude PyStr Dict Json.
From Stdlib Require Import Ascii.
Local Open Scope string_scope.
Local Open Scope list_scope.

(** [NodePathBuilder]: its segments. *)
Abbreviation node_path := (list string).

Definition from_string (s : string) : node_path := if str_truthy s then split_on "/" s else [].
Definition path_str (p : node_path) : string := str_join "/" p.

(** [s.rsplit("@", 1)]: what is before the last mark, and what comes after it. *)
Fixpoint rsplit_at (s : string) : option (string * string) :=
  match s with
  | estr => None
  | String a s' =>
      match rsplit_at s' with
      | Some (x, y) => Some (String a x, y)
      | None => if Ascii.eqb a "@" then Some (estr, s') else None
      end
  end.

Definition segment_name (s : string) : string := match rsplit_at s with Some (x, _) => x | None => s end.

Definition node_name (p : node_path) : string := match last p with None => estr | Some s => segment_name s end.
Definition static_path (p : node_path) : string := str_join "/" (segment_name <$> p).
Definition leaf_segment (p : node_path) : string := default estr (last p).
Definition run_id (p : node_path) : option string := match last p with None => None | Some s => snd <$> rsplit_at s end.
Definition parent (p : node_path) : option node_path := if (length p <=? 1)%nat then None else Some (removelast p).

Definition append_node (p : node_path) (node_name : string) (run_id : option string) : node_path :=
  p ++ [if ostr_truthy run_id then node_name +:+ "@" +:+ default estr run_id else node_name].

Definition is_descendant_of (p ancestor : node_path) : bool :=
  if (length p <=? length ancestor)%nat then false else bool_decide (take (length ancestor) p = ancestor).
Definition is_direct_child_of (p parent : node_path) : bool :=
  if negb (length p =? length parent + 1)%nat then false else bool_decide (removelast p = parent).

Definition includes_node_path (p : node_path) (node_path : option string) : bool :=
  match node_path with
  | None => true
  | Some s => if str_truthy s then let q := from_string s in bool_decide (q = p) || is_descendant_of q p else true
  end.

Definition get_direct_child (p descendant : node_path) : res node_path :=
  if (length descendant <=? length p)%nat then Err (ValueError "Descendant path is not longer than self path")
  else if negb (bool_decide (take (length p) descendant = p)) then Err (ValueError "Descendant path does not start with self path")
  else Ok (take (length p + 1) descendant).

(** ** Facts *)

Lemma rsplit_at_spec s :
  match rsplit_at s with
  | Some (x, y) => s = x +:+ String "@" y /\ has_char "@" y = false
  | None => has_char "@" s = false
  end.
Proof.
  induction s as [|a s IH]; cbn; [done|]. destruct (rsplit_at s) as [[x y]|].
  - destruct IH as [-> Hy]. by rewrite sapp_cons.
  - destruct (Ascii.eqb a "@") eqn:E; cbn; [|done]. apply Ascii.eqb_eq in E as ->. by rewrite sapp_nil.
Qed.

Lemma rsplit_at_app x y : has_char "@" y = false -> rsplit_at (x +:+ String "@" y) = Some (x, y).
Proof.
  intros Hy. induction x as [|a x IH].
  - rewrite sapp_nil. cbn. pose proof (rsplit_at_spec y) as H. destruct (rsplit_at y) as [[u v]|]; [|done].
    destruct H as [-> _]. exfalso. clear -Hy. induction u as [|b u IHu]; cbn in Hy; [done|].
    apply orb_false_iff in Hy as [_ Hy]. by apply IHu.
  - rewrite sapp_cons. cbn. by rewrite IH.
Qed.

Lemma rsplit_none s : has_char "@" s = false -> rsplit_at s = None.
Proof.
  intros H. pose proof (rsplit_at_spec s) as Hs. destruct (rsplit_at s) as [[x y]|]; [|done]. destruct Hs as [-> _].
  exfalso. clear -H. induction x as [|b x IHx]; cbn in H; [done|]. apply orb_false_iff in H as [_ H]. by apply IHx.
Qed.

(** A segment that may stand in a path. *)
Definition plain_segment (s : string) : Prop := s <> estr /\ has_char "/" s = false.

(** A path and its text say the same: reading a text back gives it again, whatever it
    is, and reading the text of a path of plain segments gives the path. *)
Theorem path_roundtrip p s :
  Forall plain_segment p -> path_str (from_string s) = s /\ from_string (path_str p) = p.
Proof.
  intros Hp. split.
  - unfold path_str, from_string. destruct (str_truthy s) eqn:E; [apply (join_split_on "/")|].
    destruct s; [done|]. by apply not_true_iff_false in E; rewrite str_truthy_true in E; destruct E.
  - unfold path_str, from_string. destruct p as [|x p]; [done|].
    assert (str_truthy (str_join "/" (x :: p)) = true) as ->.
    { apply str_truthy_true. inversion Hp as [|? ? [Hx _] _]; subst. destruct p as [|y p]; [done|].
      rewrite str_join_cons by done. destruct x; [done|]. by rewrite sapp_cons. }
    change "/" with (String "/" estr). apply split_join; [done|]. eapply Forall_impl; [exact Hp|]. by intros y [_ Hy].
Qed.

(** What was appended is read back: the name and the run of the last segment, and
    the path before it. *)
Theorem append_read p name rid :
  has_char "@" rid = false -> rid <> estr ->
  let q := append_node p name (Some rid) in
  node_name q = name /\ run_id q = Some rid /\ removelast q = p /\
  (p <> [] -> parent q = Some p) /\ is_direct_child_of q p = true /\ get_direct_child p q = Ok q.
Proof.
  intros Hr Hne q. unfold q, append_node, ostr_truthy. rewrite (proj2 (str_truthy_true rid) Hne). cbn [default from_option id].
  change (name +:+ "@" +:+ rid) with (name +:+ (String "@" rid)).
  set (seg := name +:+ String "@" rid). assert (rsplit_at seg = Some (name, rid)) as Hs by by apply rsplit_at_app.
  unfold node_name, run_id, parent, is_direct_child_of, get_direct_child, segment_name. rewrite last_snoc, removelast_last, length_app, Hs.
  cbn [length]. rewrite Nat.eqb_refl. cbn [negb]. rewrite bool_decide_true by done.
  rewrite take_app_length, bool_decide_true by done. cbn [negb].
  split; [done|]. split; [done|]. split; [done|]. split; [|split; [done|]].
  - intros Hp. destruct p as [|x p]; [done|]. cbn. rewrite Nat.add_comm. done.
  - destruct (Nat.leb_spec (length p + 1) (length p)); [lia|]. f_equal. apply take_ge. rewrite length_app. cbn. lia.
Qed.

Lemma descendant_spec p a : is_descendant_of p a = true <-> exists x l, p = a ++ x :: l.
Proof.
  unfold is_descendant_of. destruct (Nat.leb_spec (length p) (length a)) as [Hl|Hl].
  - split; [done|]. intros (x & l & ->). rewrite length_app in Hl. cbn in Hl. lia.
  - rewrite bool_decide_eq_true. split.
    + intros E. destruct (drop (length a) p) as [|x l] eqn:Ed.
      * apply (f_equal length) in Ed. rewrite length_drop in Ed. cbn in Ed. lia.
      * exists x, l. by rewrite <- Ed, <- E at 1; rewrite take_drop.
    + intros (x & l & ->). by rewrite take_app_length.
Qed.

Lemma direct_child_spec p a : is_direct_child_of p a = true <-> exists x, p = a ++ [x].
Proof.
  unfold is_direct_child_of. destruct (Nat.eqb_spec (length p) (length a + 1)) as [Hl|Hl]; cbn [negb].
  - rewrite bool_decide_eq_true. destruct p as [|x p _] using rev_ind; [cbn in Hl; lia|]. rewrite removelast_last. split.
    + intros ->. by exists x.
    + intros (y & E). by apply app_inj_tail in E as [-> _].
  - split; [done|]. intros (x & ->). rewrite length_app in Hl. cbn in Hl. lia.
Qed.

(** The child on the way to a descendant is the direct child that is, or leads to,
    that descendant; there is one exactly for descendants. *)
Theorem get_direct_child_spec p d :
  match get_direct_child p d with
  | Ok c => is_descendant_of d p = true /\ is_direct_child_of c p = true /\ (c = d \/ is_descendant_of d c = true)
  | Err e => is_descendant_of d p = false /\ exists msg, e = ValueError msg
  end.
Proof.
  unfold get_direct_child. destruct (is_descendant_of d p) eqn:E.
  - pose proof E as (x & l & ->)%descendant_spec. rewrite length_app. cbn [length].
    destruct (Nat.leb_spec (length p + S (length l)) (length p)); [lia|].
    rewrite take_app_length, bool_decide_true by done. cbn [negb]. split; [done|].
    replace (take (length p + 1) (p ++ x :: l)) with (p ++ [x]) by (by rewrite take_app_add).
    split; [apply direct_child_spec; by exists x|]. destruct l as [|y l]; [by left | right]. apply descendant_spec.
    exists y, l. by rewrite <- app_assoc.
  - unfold is_descendant_of in E. destruct (Nat.leb_spec (length d) (length p)); [split; [done | by eexists]|].
    apply bool_decide_eq_false in E. rewrite bool_decide_false by done. cbn [negb]. split; [done | by eexists].
Qed.
