(* ===== verification/NewEvents.v ===== *)
(** * Events of a workflow run (new_choirworks/core/events/event.py, event_actions.py,
    core/a2a/events/event.py, core/models/llm_response.py)

    Messages, status updates and artifact updates, with the metadata the workflow
    keeps on them. An event is a value: what the code sets on it is a new value. *)
From S2P Require Import Prelude PyStr Dict Json Graph.
Local Open Scope string_scope.
Local Open Scope list_scope.

Module TaskState.
Inductive task_state :=
| UNSPECIFIED | SUBMITTED | WORKING | COMPLETED | FAILED | CANCELED | INPUT_REQUIRED | REJECTED | AUTH_REQUIRED.

#[export] Instance task_state_eq_dec : EqDecision task_state.
Proof. solve_decision. Defined.
End TaskState.
Export (hints) TaskState.
Abbreviation task_state := TaskState.task_state.

Definition TASK_RESPONSE_BOUNDARY_STATES : list task_state :=
  [TaskState.INPUT_REQUIRED; TaskState.AUTH_REQUIRED; TaskState.COMPLETED; TaskState.FAILED; TaskState.CANCELED; TaskState.REJECTED].
Definition NON_FINAL_TASK_STATES : list task_state :=
  [TaskState.UNSPECIFIED; TaskState.SUBMITTED; TaskState.WORKING; TaskState.INPUT_REQUIRED; TaskState.AUTH_REQUIRED].

(** ** Parts *)

Inductive part_type := FUNCTION_CALL | FUNCTION_RESPONSE.
#[export] Instance part_type_eq_dec : EqDecision part_type.
Proof. solve_decision. Defined.

(** A part holds a text or data; its metadata may mark it as a thought or type it. *)
Record EPart := mkEPart { pt_text : string; pt_data : json; pt_thought : bool; pt_type : option part_type }.
Definition text_part (s : string) : EPart := mkEPart s JNull false None.

Definition is_thought_part (p : EPart) : bool := pt_thought p.
Definition is_function_call_part (p : EPart) : bool := bool_decide (pt_type p = Some FUNCTION_CALL).
Definition is_function_response_part (p : EPart) : bool := bool_decide (pt_type p = Some FUNCTION_RESPONSE).

(** ** Events *)

Record NodeInfo := mkNodeInfo { ni_path : string; ni_output_for : option (list string); ni_message_as_output : option bool }.
Definition no_node_info : NodeInfo := mkNodeInfo estr None None.

(** The metadata: the fields of [EventMeta], the actions, and the ids of the remote
    task ([a2a:task_id], [a2a:context_id]). *)
Record EMeta := mkEMeta {
  em_author : string; em_output : option json; em_node_info : NodeInfo;
  em_branch : option string; em_isolation_scope : option string;
  em_state_delta : list (string * json); em_route : option route_value;
  em_a2a_task_id : option string; em_a2a_context_id : option string }.
Definition no_meta : EMeta := mkEMeta estr None no_node_info None None [] None None None.

Inductive EBody :=
| Status (state : task_state) (parts : list EPart)
| ArtifactUpdate (artifact_id : string) (parts : list EPart) (append last_chunk : bool)
| AMessage (from_user : bool) (parts : list EPart).

Record Event := mkEvent { ev_task_id : string; ev_context_id : string; ev_meta : EMeta; ev_body : EBody }.

Definition with_meta (f : EMeta -> EMeta) (e : Event) : Event :=
  mkEvent (ev_task_id e) (ev_context_id e) (f (ev_meta e)) (ev_body e).
Definition set_author (a : string) (m : EMeta) : EMeta :=
  mkEMeta a (em_output m) (em_node_info m) (em_branch m) (em_isolation_scope m) (em_state_delta m) (em_route m) (em_a2a_task_id m) (em_a2a_context_id m).
Definition set_output (o : json) (m : EMeta) : EMeta :=
  mkEMeta (em_author m) (Some o) (em_node_info m) (em_branch m) (em_isolation_scope m) (em_state_delta m) (em_route m) (em_a2a_task_id m) (em_a2a_context_id m).
Definition set_node_info (n : NodeInfo) (m : EMeta) : EMeta :=
  mkEMeta (em_author m) (em_output m) n (em_branch m) (em_isolation_scope m) (em_state_delta m) (em_route m) (em_a2a_task_id m) (em_a2a_context_id m).
Definition set_scope (branch scope : option string) (m : EMeta) : EMeta :=
  mkEMeta (em_author m) (em_output m) (em_node_info m) branch scope (em_state_delta m) (em_route m) (em_a2a_task_id m) (em_a2a_context_id m).
Definition set_a2a (task_id context_id : option string) (m : EMeta) : EMeta :=
  mkEMeta (em_author m) (em_output m) (em_node_info m) (em_branch m) (em_isolation_scope m) (em_state_delta m) (em_route m) task_id context_id.

Definition add_author (e : Event) (author : string) : Event := with_meta (set_author author) e.

(** ** Contents *)

Definition is_final_artifact (e : Event) : bool :=
  match ev_body e with ArtifactUpdate _ _ append last_chunk => negb append && last_chunk | _ => false end.
Definition is_partial_event (e : Event) : bool :=
  match ev_body e with ArtifactUpdate _ _ _ _ => negb (is_final_artifact e) | _ => false end.

Definition event_content_parts (e : Event) : list EPart :=
  match ev_body e with
  | AMessage _ parts => parts
  | ArtifactUpdate _ parts append last_chunk => if negb append && last_chunk then parts else []
  | Status state parts => if bool_decide (state ∈ TASK_RESPONSE_BOUNDARY_STATES) then parts else []
  end.

Definition has_function_calls (e : Event) : bool := existsb is_function_call_part (event_content_parts e).

Definition shows_text (include_thought : bool) (p : EPart) : bool :=
  str_truthy (pt_text p) && negb (is_function_call_part p) && negb (is_function_response_part p)
  && (include_thought || negb (is_thought_part p)).
Definition extract_text_with (include_thought : bool) (e : Event) : string :=
  str_join estr (pt_text <$> filterb (shows_text include_thought) (event_content_parts e)).
Definition extract_text (e : Event) : string := extract_text_with false e.

(** ** Responses of a model *)

Record FunctionCall := mkCall { fc_id : string; fc_name : string; fc_args : json }.
Record FunctionResponse := mkResponse { fr_id : string; fr_name : string; fr_response : json }.
Record LLMResponsePart := mkRPart {
  rp_text : option string; rp_thought : bool; rp_call : option FunctionCall; rp_response : option FunctionResponse }.
(** [content] is the list of its parts. *)
Record LLMResponse := mkLLMResponse { lr_content : option (list LLMResponsePart); lr_error_code : option string; lr_error_message : option string }.

Definition text_rpart (s : string) (thought : bool) : LLMResponsePart := mkRPart (Some s) thought None None.
Definition call_rpart (fc : FunctionCall) : LLMResponsePart := mkRPart None false (Some fc) None.
Definition from_function_response (fc : FunctionCall) (response : json) : LLMResponse :=
  mkLLMResponse (Some [mkRPart None false None (Some (mkResponse (fc_id fc) (fc_name fc) response))]) None None.

Definition call_data (fc : FunctionCall) : json := JObj [("id", JStr (fc_id fc)); ("name", JStr (fc_name fc)); ("args", fc_args fc)].
Definition response_data (fr : FunctionResponse) : json :=
  JObj [("id", JStr (fr_id fr)); ("name", JStr (fr_name fr)); ("response", fr_response fr)].

(** The parts of an artifact for one part of a response, in the order of the tests. *)
Definition artifact_parts (p : LLMResponsePart) : list EPart :=
  match rp_text p with Some t => [mkEPart t JNull (rp_thought p) None] | None => [] end
  ++ match rp_call p with Some fc => [mkEPart estr (call_data fc) false (Some FUNCTION_CALL)] | None => [] end
  ++ match rp_response p with Some fr => [mkEPart estr (response_data fr) false (Some FUNCTION_RESPONSE)] | None => [] end.

Definition to_a2a_artifact (task_id context_id : string) (parts : list LLMResponsePart) (artifact_id : string) (append last_chunk : bool) : Event :=
  mkEvent task_id context_id no_meta (ArtifactUpdate artifact_id (parts ≫= artifact_parts) append last_chunk).

(** ** Facts *)

Lemma str_join_nil_app l k : str_join estr (l ++ k) = str_join estr l +:+ str_join estr k.
Proof.
  induction l as [|x l IH]; [by rewrite sapp_nil|]. cbn [app]. destruct l as [|y l].
  - cbn [app]. destruct k; [by rewrite sapp_nil_r|]. rewrite str_join_cons by done. by rewrite sapp_nil.
  - change ((x :: y :: l) ++ k) with (x :: ((y :: l) ++ k)).
    rewrite (str_join_cons estr x ((y :: l) ++ k)), (str_join_cons estr x (y :: l)), IH by done. by rewrite !sapp_nil, sapp_assoc.
Qed.

(** Nothing shows of an event that is not complete. *)
Lemma partial_no_text e : is_partial_event e = true -> extract_text e = estr /\ has_function_calls e = false.
Proof.
  unfold is_partial_event, is_final_artifact, extract_text, extract_text_with, has_function_calls, event_content_parts.
  destruct (ev_body e) as [| ? parts append last|]; try done. intros ->%negb_true_iff. done.
Qed.
