(* ===== verification/Replay.v ===== *)
(** * Replay of a workflow (new_choirworks/core/workflow/utils/: rehydration_utils.py,
    replay_manager.py, replay_sequence_barrier.py; node_runner.py)

    The recorded events of a run give back what each node had come to, and the order
    in which the children of a node finished; a replay lets them go on in that order. *)
From S2P Require Import Prelude PyStr Dict Json Graph NewEvents NodePath.
Local Open Scope string_scope.
Local Open Scope list_scope.

(** ** Recovered states *)

Record ChildScanState := mkScan {
  cs_run_id : option string; cs_output : option json; cs_route : option route_value;
  cs_branch : option string; cs_isolation_scope : option string }.

Definition event_path (e : Event) : node_path := from_string (ni_path (em_node_info (ev_meta e))).
Definition output_for (e : Event) : list string := default [] (ni_output_for (em_node_info (ev_meta e))).
Definition message_as_output (e : Event) : bool := default false (ni_message_as_output (em_node_info (ev_meta e))).

Definition _owner_key (path : node_path) (base_path : string) (base : node_path) (group_by_direct_child : bool) : option string :=
  if negb group_by_direct_child then
    if bool_decide (path_str path = base_path) || is_descendant_of path base then Some base_path else None
  else if negb (is_descendant_of path base) then None
  else match get_direct_child base path with Ok c => Some (leaf_segment c) | Err _ => None end.

Definition _is_direct (path : node_path) (base_path : string) (base : node_path) (group_by_direct_child : bool) : bool :=
  if negb group_by_direct_child then bool_decide (path_str path = base_path) else is_direct_child_of path base.

(** The text that counts as output. *)
Definition output_text (e : Event) : string := if message_as_output e then extract_text e else estr.
Definition has_output (e : Event) : bool :=
  match em_output (ev_meta e) with Some _ => true | None => str_truthy (output_text e) end.

(** What an event adds to the state of its owner. *)
Definition scan_output (e : Event) (s : ChildScanState) : ChildScanState :=
  let s := match em_output (ev_meta e) with
           | Some o => mkScan (cs_run_id s) (Some o) (cs_route s) (em_branch (ev_meta e)) (cs_isolation_scope s)
           | None => if str_truthy (output_text e)
                     then mkScan (cs_run_id s) (Some (JStr (output_text e))) (cs_route s) (em_branch (ev_meta e)) (cs_isolation_scope s)
                     else s
           end in
  match em_route (ev_meta e) with
  | Some r => mkScan (cs_run_id s) (cs_output s) (Some r) (cs_branch s) (cs_isolation_scope s)
  | None => s
  end.
Definition scan_scope (e : Event) (s : ChildScanState) : ChildScanState :=
  match em_isolation_scope (ev_meta e) with
  | Some sc => mkScan (cs_run_id s) (cs_output s) (cs_route s) (cs_branch s) (Some sc)
  | None => s
  end.

Definition is_delegated (e : Event) (base_path : string) (base : node_path) (owner_key : string) (group_by_direct_child : bool) : bool :=
  has_output e &&
  (if group_by_direct_child then bool_decide (path_str (append_node base owner_key None) ∈ output_for e)
   else bool_decide (base_path ∈ output_for e)).

Definition scan_event (base_path : string) (group_by_direct_child : bool) (states : list (string * ChildScanState)) (e : Event)
  : list (string * ChildScanState) :=
  let base := from_string base_path in
  match _owner_key (event_path e) base_path base group_by_direct_child with
  | None => states
  | Some k =>
      let s := default (mkScan (run_id (from_string k)) None None None None) (dget k states) in
      let direct := _is_direct (event_path e) base_path base group_by_direct_child in
      let s' :=
        if is_partial_event e then s
        else if negb (direct || is_delegated e base_path base k group_by_direct_child) then s
        else let s := scan_output e s in if direct then scan_scope e s else s in
      dset k s' states
  end.
Definition reconstruct_node_states (events : list Event) (base_path : string) (group_by_direct_child : bool) : list (string * ChildScanState) :=
  foldl (scan_event base_path group_by_direct_child) [] events.

Definition is_terminal_event (e : Event) : bool :=
  if is_partial_event e then false
  else match em_output (ev_meta e) with
       | Some _ => true
       | None => (message_as_output e && str_truthy (extract_text e)) || match em_route (ev_meta e) with Some _ => true | None => false end
       end.

(** ** The recorded order *)

(** The segment of the child of [base] that the event settles. *)
Definition settles_child (base : node_path) (strict_direct_child : bool) (e : Event) : option string :=
  let path := event_path e in
  if negb (is_descendant_of path base) then None
  else match get_direct_child base path with
       | Err _ => None
       | Ok child_path =>
           if strict_direct_child && negb (bool_decide (path = child_path)) then None
           else if negb (bool_decide (path = child_path) || bool_decide (path_str child_path ∈ output_for e)) then None
           else if is_terminal_event e then Some (leaf_segment child_path) else None
       end.

(** [sequence] and [completed], whose elements are the same. *)
Definition scan_sequence_event (base : node_path) (strict : bool) (sequence : list string) (e : Event) : list string :=
  match settles_child base strict e with
  | Some segment => if bool_decide (segment ∈ sequence) then sequence else sequence ++ [segment]
  | None => sequence
  end.
Definition _scan_sequence (events : list Event) (base_path : string) (strict : bool) : list string :=
  foldl (scan_sequence_event (from_string base_path) strict) [] events.

(** ** The barrier *)

(** [events]: the keys that have been let go. *)
Record Barrier := mkBarrier { ba_sequence : list string; ba_index : nat; ba_set : list string }.

Definition new_barrier (sequence : list string) : Barrier :=
  mkBarrier sequence 0 (match sequence with k :: _ => [k] | [] => [] end).

(** Whether [wait] returns: at once for a key outside the sequence, and for another
    when its event is set (else it waits, and gives up after the timeout). *)
Definition unblocked (b : Barrier) (key : string) : bool :=
  negb (bool_decide (key ∈ ba_sequence b)) || bool_decide (key ∈ ba_set b).

Definition check_and_advance (key : string) (b : Barrier) : Barrier :=
  match ba_sequence b !! ba_index b with
  | None => b
  | Some expected =>
      if negb (bool_decide (key = expected)) then b
      else
        let i := S (ba_index b) in
        mkBarrier (ba_sequence b) i (match ba_sequence b !! i with Some next => ba_set b ++ [next] | None => ba_set b end)
  end.

(** ** The manager *)

Record ReplayManager := mkManager { rm_sequence_barrier : option Barrier; rm_parents : list (string * Barrier) }.

(** The barrier of the workflow is the one kept under its path. *)
Definition scan_workflow_events (events : list Event) (base_path : string) (rm : ReplayManager)
  : ReplayManager * (list (string * ChildScanState) * list string) :=
  let sequence := _scan_sequence events base_path false in
  let b := new_barrier sequence in
  (mkManager (Some b) (dset base_path b (rm_parents rm)), (reconstruct_node_states events base_path true, sequence)).

Definition prepare_parent_sequence_barrier (events : list Event) (parent_path : string) (rm : ReplayManager) : ReplayManager * Barrier :=
  match dget parent_path (rm_parents rm) with
  | Some b => (rm, b)
  | None =>
      let b := new_barrier (_scan_sequence events parent_path true) in
      (mkManager (rm_sequence_barrier rm) (dset parent_path b (rm_parents rm)), b)
  end.

Definition advance_sequence (parent_path key : string) (rm : ReplayManager) : ReplayManager :=
  mkManager (rm_sequence_barrier rm) (dupd parent_path (check_and_advance key) (rm_parents rm)).

Definition wait_returns (rm : ReplayManager) (parent_path key : string) : bool :=
  match dget parent_path (rm_parents rm) with Some b => unblocked b key | None => true end.

(** ** Replaying the children of a node *)

(** [run_replayed] of each child: it waits for its key, emits its events, and
    advances. A replay holds the keys that have not started, and those that have
    passed the wait and not advanced yet. *)
Record Replay := mkReplay { rp_waiting : list string; rp_running : list string; rp_barrier : Barrier }.

Inductive replay_step : Replay -> string -> Replay -> Prop :=
| replay_pass k w r b :
    k ∈ w -> unblocked b k = true ->
    replay_step (mkReplay w r b) k (mkReplay (filterb (fun x => negb (bool_decide (x = k))) w) (r ++ [k]) b).
Inductive replay_end : Replay -> Replay -> Prop :=
| replay_advance k w r b :
    k ∈ r -> replay_end (mkReplay w r b) (mkReplay w (filterb (fun x => negb (bool_decide (x = k))) r) (check_and_advance k b)).

(** A replay, with the keys in the order they pass the wait. *)
Inductive replays : Replay -> list string -> Replay -> Prop :=
| replays_nil s : replays s [] s
| replays_pass s k s' tr s'' : replay_step s k s' -> replays s' tr s'' -> replays s (k :: tr) s''
| replays_end s s' tr s'' : replay_end s s' -> replays s' tr s'' -> replays s tr s''.

(** *** A wait that gives up *)

Definition divergence (key : string) : exn :=
  WorkflowInvariantError ("Replay divergence detected: Timed out waiting for sequence key '" +:+ key +:+ "' to be unblocked.").

(** What happens in a replay in which waits have a timeout. *)
Inductive replay_move := Passes (key : string) | Advances | GivesUp (key : string) (e : exn).

(** A replay, with the keys whose wait has given up. The wait stands before the [try] of
    [run_replayed]: a child that gives up does not advance the barrier. *)
Inductive timed_step : Replay * list string -> replay_move -> Replay * list string -> Prop :=
| timed_passes s gone k s' :
    (k ∉ gone) -> replay_step s k s' -> timed_step (s, gone) (Passes k) (s', gone)
| timed_advances s gone s' :
    replay_end s s' -> timed_step (s, gone) Advances (s', gone)
| timed_gives_up s gone k :
    k ∈ rp_waiting s -> (k ∉ gone) -> unblocked (rp_barrier s) k = false ->
    timed_step (s, gone) (GivesUp k (divergence k)) (s, k :: gone).

(** The output of a replayed run: the last one recorded in its events, or the one
    given. *)
Definition replayed_output (events : list Event) (output : option json) : option json :=
  match output with
  | Some o => Some o
  | None => foldl (fun acc e => match em_output (ev_meta e) with Some o => Some o | None => acc end) None events
  end.
