(* ===== verification/ReplayFacts.v ===== *)
(** * What a replay does (facts of Replay.v)

    The recorded sequence holds each child once, in the order of its first outcome;
    whatever the interleaving, the replayed children go on in that order, and a
    replay of the children of the record always comes to its end. *)
From S2P Require Import Prelude PyStr Dict Json Graph NewEvents NodePath Replay.
Local Open Scope string_scope.
Local Open Scope list_scope.

(** ** The recorded sequence *)

Definition scan_segment (sequence : list string) (o : option string) : list string :=
  match o with Some k => if bool_decide (k ∈ sequence) then sequence else sequence ++ [k] | None => sequence end.

Lemma scan_from base strict events : forall acc,
  foldl (scan_sequence_event base strict) acc events = acc ++ dedup_from acc (omap (settles_child base strict) events).
Proof.
  assert (forall l (a b : list string), (forall x, x ∈ a <-> x ∈ b) -> dedup_from a l = dedup_from b l) as Hext.
  { induction l as [|x l IH]; intros a b Hab; [done|]. cbn [dedup_from]. rewrite (bool_decide_ext (x ∈ a) (x ∈ b)) by done.
    case_bool_decide; [by apply IH|]. f_equal. apply IH. intros y. rewrite !elem_of_cons. naive_solver. }
  induction events as [|e events IH]; intros acc; [by rewrite app_nil_r|].
  cbn [foldl]. rewrite IH. cbn. unfold scan_sequence_event. destruct (settles_child base strict e) as [k|]; [|done].
  cbn [dedup_from]. case_bool_decide; [done|]. rewrite <- app_assoc. cbn. do 2 f_equal.
  apply Hext. intros x. set_solver.
Qed.

(** The sequence of a record: the children it settles, each once, at the place of
    the first event that settles it. *)
Theorem scan_sequence_spec events base_path strict :
  _scan_sequence events base_path strict = fromkeys (omap (settles_child (from_string base_path) strict) events) /\
  NoDup (_scan_sequence events base_path strict) /\
  (forall k, k ∈ _scan_sequence events base_path strict <->
     exists e, e ∈ events /\ settles_child (from_string base_path) strict e = Some k) /\
  (forall later, _scan_sequence events base_path strict `prefix_of` _scan_sequence (events ++ later) base_path strict).
Proof.
  assert (forall l, _scan_sequence l base_path strict = fromkeys (omap (settles_child (from_string base_path) strict) l)) as E.
  { intros l. unfold _scan_sequence. by rewrite scan_from. }
  split; [done|]. split; [rewrite E; apply NoDup_fromkeys|]. split.
  - intros k. rewrite E, elem_of_fromkeys, list_elem_of_omap. done.
  - intros later. unfold _scan_sequence. rewrite foldl_app, (scan_from _ _ later). by eexists.
Qed.

(** ** Replays *)

Definition start_replay (keys : list string) (sequence : list string) : Replay :=
  mkReplay keys [] (new_barrier sequence).

Definition in_sequence (sequence : list string) (k : string) : bool := bool_decide (k ∈ sequence).

(** What has passed the wait is the sequence up to the index, and the key at the
    index when it is being replayed. *)
Record replay_inv (keys sequence : list string) (tr : list string) (s : Replay) : Prop := mkReplayInv {
  ri_seq : ba_sequence (rp_barrier s) = sequence;
  ri_index : (ba_index (rp_barrier s) <= length sequence)%nat;
  ri_set : ba_set (rp_barrier s) = take (S (ba_index (rp_barrier s))) sequence;
  ri_keys : keys ≡ₚ rp_waiting s ++ tr;
  ri_running : rp_running s `sublist_of` tr;
  ri_passed : filterb (in_sequence sequence) tr = take (ba_index (rp_barrier s)) sequence /\
                (forall k, k ∈ rp_running s -> k ∉ sequence) \/
              exists k, sequence !! ba_index (rp_barrier s) = Some k /\ k ∈ rp_running s /\
                filterb (in_sequence sequence) tr = take (S (ba_index (rp_barrier s))) sequence /\
                (forall k', k' ∈ rp_running s -> k' ∈ sequence -> k' = k)
}.

(** [k] taken out. *)
Abbreviation without k := (filterb (fun x : string => negb (bool_decide (x = k)))).

Lemma without_cons (k x : string) l : without k (x :: l) = if decide (x = k) then without k l else x :: without k l.
Proof. cbn. by destruct (decide (x = k)) as [->|]; [rewrite bool_decide_eq_true_2 | rewrite bool_decide_eq_false_2]. Qed.

Lemma without_absent (k : string) l : k ∉ l -> without k l = l.
Proof.
  induction l as [|x l IH]; intros Hk; [done|]. apply not_elem_of_cons in Hk as [Hx Hk].
  rewrite without_cons, decide_False by done. by rewrite IH.
Qed.

Lemma without_perm (k : string) w : NoDup w -> k ∈ w -> w ≡ₚ k :: without k w.
Proof.
  induction 1 as [|x w Hx Hw IH]; intros Hk; [by apply elem_of_nil in Hk|]. rewrite without_cons. destruct (decide (x = k)) as [->|Hne].
  - by rewrite without_absent.
  - rewrite (IH ltac:(apply elem_of_cons in Hk; naive_solver)) at 1. apply Permutation_swap.
Qed.

Section invariant.
Context (keys sequence : list string) (Hkeys : NoDup keys) (Hseq : NoDup sequence).

Lemma replay_inv_start : replay_inv keys sequence [] (start_replay keys sequence).
Proof.
  split; cbn; try done.
  - lia.
  - by rewrite app_nil_r.
  - left. split; [done|]. intros k Hk. by apply elem_of_nil in Hk.
Qed.

Lemma replay_trace_nodup tr s : replay_inv keys sequence tr s -> NoDup tr /\ NoDup (rp_waiting s) /\ forall k, k ∈ rp_waiting s -> k ∉ tr.
Proof.
  intros [_ _ _ Hp _ _]. rewrite Hp in Hkeys. apply NoDup_app in Hkeys as (? & ? & ?). done.
Qed.

Lemma seq_take_lookup k i : k ∈ take (S i) sequence -> k ∉ take i sequence -> sequence !! i = Some k.
Proof.
  intros Hk Hn. destruct (sequence !! i) as [k'|] eqn:E.
  - rewrite (take_S_r _ _ _ E), elem_of_app, list_elem_of_singleton in Hk. destruct Hk as [Hk| ->]; done.
  - apply lookup_ge_None in E. rewrite take_ge in Hk by lia. rewrite take_ge in Hn by lia. done.
Qed.

Lemma replay_inv_pass tr s k s' :
  replay_inv keys sequence tr s -> replay_step s k s' -> replay_inv keys sequence (tr ++ [k]) s'.
Proof.
  intros Hinv Hs. destruct (replay_trace_nodup _ _ Hinv) as (Htr & Hw & Hd). destruct Hs as [k w r b Hk Hu], Hinv as [Es Hi Eset Hp Hr Hpass].
  cbn [rp_waiting rp_running rp_barrier] in *. split; cbn [rp_waiting rp_running rp_barrier]; try done.
  - rewrite Hp, (without_perm k w Hw Hk) at 1. cbn. rewrite Permutation_middle, (Permutation_app_comm tr). done.
  - by apply sublist_app.
  - unfold unblocked in Hu. rewrite Es in Hu. rewrite filterb_app. cbn [filterb List.filter].
    unfold in_sequence at 2 4. case_bool_decide as Hin; cbn in Hu |- *.
    + apply bool_decide_eq_true in Hu. rewrite Eset in Hu.
      assert (k ∉ filterb (in_sequence sequence) tr) as Hnew by (intros [? _]%elem_of_filterb; by apply (Hd k)).
      right. destruct Hpass as [[Ef Hrun]|(k' & E & Hk' & Ef & Hrun)]; rewrite Ef in Hnew |- *; [|done].
      pose proof (seq_take_lookup _ _ Hu Hnew) as E. exists k. split; [done|]. split; [set_solver|].
      split; [by rewrite (take_S_r _ _ _ E)|]. intros x. rewrite elem_of_app, list_elem_of_singleton.
      intros [Hx| ->] Hxs; [|done]. by apply Hrun in Hx.
    + rewrite app_nil_r. destruct Hpass as [[Ef Hrun]|(k' & E & Hk' & Ef & Hrun)]; [left|right].
      * split; [done|]. intros x. rewrite elem_of_app, list_elem_of_singleton. naive_solver.
      * exists k'. split; [done|]. split; [set_solver|]. split; [done|]. intros x. rewrite elem_of_app, list_elem_of_singleton. naive_solver.
Qed.

Lemma replay_inv_end tr s s' : replay_inv keys sequence tr s -> replay_end s s' -> replay_inv keys sequence tr s'.
Proof.
  intros Hinv Hs. destruct (replay_trace_nodup _ _ Hinv) as (Htr & _ & _). destruct Hs as [k w r b Hk], Hinv as [Es Hi Eset Hp Hr Hpass].
  cbn [rp_waiting rp_running rp_barrier] in *.
  assert (filterb (fun x => negb (bool_decide (x = k))) r `sublist_of` tr) as Hr' by (etrans; [apply filterb_sublist | done]).
  assert (forall x, x ∈ filterb (fun x => negb (bool_decide (x = k))) r <-> x ∈ r /\ x <> k) as Hmem.
  { intros x. rewrite elem_of_filterb, negb_true_iff, bool_decide_eq_false. done. }
  destruct (decide (sequence !! ba_index b = Some k)) as [Ek|Ek].
  - assert (k ∈ sequence) as Hks by (by eapply list_elem_of_lookup_2).
    destruct Hpass as [[_ Hrun]|(k' & E & Hk' & Ef & Hrun)]; [by apply Hrun in Hk|].
    assert (check_and_advance k b =
            mkBarrier sequence (S (ba_index b)) (take (S (S (ba_index b))) sequence)) as ->.
    { unfold check_and_advance. rewrite Es, Ek, bool_decide_eq_true_2 by done. cbn [negb]. f_equal. rewrite Eset.
      destruct (sequence !! S (ba_index b)) as [n|] eqn:En; [by rewrite (take_S_r _ _ _ En)|].
      apply lookup_ge_None in En. by rewrite !take_ge by lia. }
    apply lookup_lt_Some in Ek as Hlt.
    split; cbn [rp_waiting rp_running rp_barrier ba_sequence ba_index ba_set]; try done. left. split; [done|].
    intros x [Hx Hne]%Hmem Hxs. apply Hne. rewrite (Hrun x Hx Hxs). symmetry. by apply Hrun.
  - assert (check_and_advance k b = b) as ->.
    { unfold check_and_advance. rewrite Es. destruct (sequence !! ba_index b) as [x|] eqn:E; [|done].
      rewrite bool_decide_eq_false_2 by congruence. done. }
    split; cbn [rp_waiting rp_running rp_barrier]; try done.
    destruct Hpass as [[Ef Hrun]|(k' & E & Hk' & Ef & Hrun)]; [left|right].
    + split; [done|]. intros x [Hx _]%Hmem. by apply Hrun.
    + exists k'. split; [done|]. split; [apply Hmem; split; [done|congruence]|]. split; [done|]. intros x [Hx _]%Hmem. by apply Hrun.
Qed.

Lemma replays_inv tr0 s tr s' : replay_inv keys sequence tr0 s -> replays s tr s' -> replay_inv keys sequence (tr0 ++ tr) s'.
Proof.
  intros Hinv Hr. revert tr0 Hinv. induction Hr as [s|s k s' tr s'' Hs Hr IH|s s' tr s'' Hs Hr IH]; intros tr0 Hinv.
  - by rewrite app_nil_r.
  - specialize (IH _ (replay_inv_pass _ _ _ _ Hinv Hs)). by rewrite <- app_assoc in IH.
  - by apply IH, (replay_inv_end _ _ _ Hinv).
Qed.

(** Something can always happen in a replay of the children of the record. *)
Lemma replay_inv_progress tr s : replay_inv keys sequence tr s -> (forall k, k ∈ sequence -> k ∈ keys) ->
  (rp_waiting s = [] /\ rp_running s = []) \/ (exists k s', replay_step s k s') \/ (exists s', replay_end s s').
Proof.
  intros [Es Hi Eset Hp Hr Hpass] Hsub. destruct s as [w r b]. cbn [rp_waiting rp_running rp_barrier] in *.
  destruct r as [|k r]; [|right; right; eexists; apply (replay_advance k), elem_of_cons; by left].
  destruct w as [|k w]; [by left|]. right; left.
  destruct Hpass as [[Ef _]|(k' & _ & Hk' & _)]; [|by apply elem_of_nil in Hk'].
  destruct (sequence !! ba_index b) as [n|] eqn:En.
  - assert (n ∈ k :: w) as Hn.
    { assert (n ∈ keys) as Hn by (eapply Hsub, list_elem_of_lookup_2; done). rewrite Hp, elem_of_app in Hn. destruct Hn as [|Hn]; [done|].
      exfalso. assert (n ∈ filterb (in_sequence sequence) tr) as Hf.
      { apply elem_of_filterb. split; [done|]. apply bool_decide_eq_true. by eapply list_elem_of_lookup_2. }
      rewrite Ef in Hf. apply list_elem_of_lookup in Hf as (j & Hj). apply lookup_take_Some in Hj as [Hj Hlt].
      pose proof (NoDup_lookup _ _ _ _ Hseq En Hj). lia. }
    exists n. eexists. apply replay_pass; [done|]. unfold unblocked. rewrite Es, Eset, (take_S_r _ _ _ En).
    rewrite (bool_decide_eq_true_2 (n ∈ take _ _ ++ [n])) by (apply elem_of_app; right; by apply list_elem_of_singleton). by rewrite orb_true_r.
  - exists k. eexists. apply replay_pass; [apply elem_of_cons; by left|]. unfold unblocked. rewrite Es, Eset.
    apply lookup_ge_None in En. rewrite take_ge by lia. by case_bool_decide.
Qed.
End invariant.

(** What is left of a replay. *)
Definition replay_left (s : Replay) : nat := 2 * length (rp_waiting s) + length (rp_running s).

Lemma without_shorter (k : string) l : k ∈ l -> (S (length (filterb (fun x => negb (bool_decide (x = k))) l)) <= length l)%nat.
Proof.
  induction l as [|x l IH]; [by intros ?%elem_of_nil|]. intros Hk. rewrite without_cons. destruct (decide (x = k)) as [E|E]; cbn [length].
  - apply le_n_S, (sublist_length _ _ (filterb_sublist _ _)).
  - apply elem_of_cons in Hk as [?|Hk]; [congruence|]. by apply le_n_S, IH.
Qed.

(** Each step leaves less to do. *)
Lemma replay_left_decreases s s' : (exists k, replay_step s k s') \/ replay_end s s' -> (replay_left s' < replay_left s)%nat.
Proof.
  unfold replay_left. intros [[k Hs]|Hs]; destruct Hs as [k w r b Hk]; cbn [rp_waiting rp_running]; pose proof (without_shorter k _ Hk);
    rewrite ?length_app; cbn [length]; lia.
Qed.

(** C16: A replay of the children of a record, in any interleaving: the recorded children
    that have gone on have done so in the order of the record; a child that is not
    in the record never waits; some step is possible until all have ended, each step
    leaves less to do, and in the end the children have gone on in the recorded order. *)
Theorem replay_follows_the_record events base_path strict keys tr s
    (Hkeys : NoDup keys)
    (Hrun : replays (start_replay keys (_scan_sequence events base_path strict)) tr s) :
  let sequence := _scan_sequence events base_path strict in
  filterb (in_sequence sequence) tr `prefix_of` sequence /\
  (forall k, k ∈ rp_waiting s -> k ∉ sequence -> unblocked (rp_barrier s) k = true) /\
  (forall s', (exists k, replay_step s k s') \/ replay_end s s' -> (replay_left s' < replay_left s)%nat) /\
  ((forall k, k ∈ sequence -> k ∈ keys) ->
   (rp_waiting s = [] /\ rp_running s = [] /\ filterb (in_sequence sequence) tr = sequence /\ tr ≡ₚ keys) \/
   (exists k s', replay_step s k s') \/ (exists s', replay_end s s')).
Proof.
  intros sequence. assert (NoDup sequence) as Hseq by apply scan_sequence_spec.
  pose proof (replays_inv keys sequence Hkeys Hseq [] _ _ _ (replay_inv_start keys sequence) Hrun) as Hinv. cbn [app] in Hinv.
  split_and!.
  - destruct Hinv as [_ _ _ _ _ [[-> _]|(k & _ & _ & -> & _)]]; eexists; symmetry; apply take_drop.
  - intros k _ Hk. unfold unblocked. rewrite (ri_seq _ _ _ _ Hinv). by rewrite bool_decide_eq_false_2.
  - apply replay_left_decreases.
  - intros Hsub. destruct (replay_inv_progress keys sequence Hseq _ _ Hinv Hsub) as [[Ew Er]|H]; [left|by right].
    pose proof (ri_keys _ _ _ _ Hinv) as Hp. rewrite Ew in Hp. cbn in Hp. split_and!; try done.
    destruct Hinv as [_ Hi _ _ _ [[Ef _]|(k & _ & Hk & _)]]; [|rewrite Er in Hk; by apply elem_of_nil in Hk].
    rewrite Ef. apply take_ge. destruct (sequence !! ba_index (rp_barrier s)) as [n|] eqn:En; [|by apply lookup_ge_None in En].
    exfalso. assert (n ∈ filterb (in_sequence sequence) tr) as Hf.
    { assert (n ∈ sequence) by (by eapply list_elem_of_lookup_2). apply elem_of_filterb. split; [rewrite <- Hp; by apply Hsub|]. by apply bool_decide_eq_true. }
    rewrite Ef in Hf. apply list_elem_of_lookup in Hf as (j & Hj). apply lookup_take_Some in Hj as [Hj Hlt].
    pose proof (NoDup_lookup _ _ _ _ Hseq En Hj). lia.
Qed.

(** ** Replays with timeouts *)

Definition passed_key (m : replay_move) : option string := match m with Passes k => Some k | _ => None end.

(** Without the timeouts it is a replay in which those that gave up still wait. *)
Lemma timed_replays st tr st' : steps timed_step st tr st' ->
  (forall k, k ∈ st.2 -> k ∈ rp_waiting st.1) ->
  replays st.1 (omap passed_key tr) st'.1 /\ forall k, k ∈ st'.2 -> k ∈ rp_waiting st'.1.
Proof.
  induction 1 as [st|st m st1 tr st2 Hstep _ IH]; intros Hg; [split; [constructor | done]|].
  destruct Hstep as [s gone k s' Hk Hs | s gone s' Hs | s gone k Hw Hk Hu]; cbn [fst snd omap list_omap passed_key] in *.
  - destruct IH as [Hr Hg']; [|split; [by econstructor | done]].
    intros x Hx. destruct Hs as [k w r b _ _]. cbn in *. apply elem_of_filterb. split; [by apply Hg|].
    rewrite negb_true_iff, bool_decide_eq_false. by intros ->.
  - destruct IH as [Hr Hg']; [|split; [by eapply replays_end | done]]. destruct Hs as [k w r b _]. exact Hg.
  - apply IH. intros x [->|Hx]%elem_of_cons; [done | by apply Hg].
Qed.

(** What is left, when those that gave up have nothing left to do but not to pass. *)
Definition timed_left (st : Replay * list string) : nat :=
  replay_left st.1 + length (filterb (fun k => bool_decide (k ∉ st.2)) (rp_waiting st.1)).

Lemma filterb_shrinks (p q : string -> bool) l : (forall k, q k = true -> p k = true) -> length (filterb q l) <= length (filterb p l).
Proof.
  intros H. induction l as [|x l IH]; [done|]. cbn [filterb List.filter].
  change (List.filter q l) with (filterb q l). change (List.filter p l) with (filterb p l).
  destruct (q x) eqn:E; [rewrite (H x E); cbn [length]; lia | destruct (p x); cbn [length]; lia].
Qed.
Lemma filterb_drops (p q : string -> bool) l k : (forall x, q x = true -> p x = true) -> k ∈ l -> p k = true -> q k = false ->
  length (filterb q l) < length (filterb p l).
Proof.
  intros H Hk Hp Hq. induction l as [|x l IH]; [by apply elem_of_nil in Hk|]. cbn [filterb List.filter].
  change (List.filter q l) with (filterb q l). change (List.filter p l) with (filterb p l).
  pose proof (filterb_shrinks p q l H). apply elem_of_cons in Hk as [->|Hk].
  - rewrite Hp, Hq. cbn [length]. lia.
  - specialize (IH Hk). destruct (q x) eqn:E; [rewrite (H x E); cbn [length]; lia | destruct (p x); cbn [length]; lia].
Qed.

Lemma timed_left_decreases st m st' : timed_step st m st' -> timed_left st' < timed_left st.
Proof.
  unfold timed_left. destruct 1 as [s gone k s' Hk Hs | s gone s' Hs | s gone k Hw Hk Hu]; cbn [fst snd].
  - pose proof (replay_left_decreases s s' (or_introl (ex_intro _ k Hs))). destruct Hs as [k w r b _ _]. cbn [rp_waiting] in *.
    assert (length (filterb (fun x => bool_decide (x ∉ gone)) (without k w)) <= length (filterb (fun x => bool_decide (x ∉ gone)) w)); [|lia].
    apply sublist_length. clear. induction w as [|x w IH]; [done|]. rewrite without_cons. cbn [filterb List.filter].
    change (List.filter _ w) with (filterb (fun x => bool_decide (x ∉ gone)) w).
    destruct (decide (x = k)); [destruct (bool_decide _); [by apply sublist_cons | done]|].
    cbn [filterb List.filter]. destruct (bool_decide _); [by apply sublist_skip | done].
  - pose proof (replay_left_decreases s s' (or_intror Hs)). destruct Hs as [k w r b _]. cbn [rp_waiting] in *. lia.
  - apply Nat.add_lt_mono_l, (filterb_drops _ _ _ k); [|done|by apply bool_decide_eq_true|by apply bool_decide_eq_false; set_solver].
    intros x Hx%bool_decide_eq_true. apply bool_decide_eq_true. set_solver.
Qed.

(** What has passed is a part of the sequence from its start: with a key all before it. *)
Lemma passed_before keys sequence tr s i j k k' : NoDup sequence -> replay_inv keys sequence tr s ->
  sequence !! i = Some k -> sequence !! j = Some k' -> i < j -> k' ∈ tr -> k ∈ tr.
Proof.
  intros Hseq Hinv Hi Hj Hlt Hk'. assert (exists n, filterb (in_sequence sequence) tr = take n sequence) as [n En].
  { destruct (ri_passed _ _ _ _ Hinv) as [[E _]|(x & _ & _ & E & _)]; by eexists. }
  assert (k' ∈ take n sequence) as Hin.
  { rewrite <- En. apply elem_of_filterb. split; [done|]. apply bool_decide_eq_true. by eapply list_elem_of_lookup_2. }
  apply list_elem_of_lookup in Hin as (m & Hm). apply lookup_take_Some in Hm as [Hm Hmn].
  pose proof (NoDup_lookup _ _ _ _ Hseq Hj Hm) as ->.
  assert (k ∈ take n sequence) as Hin by (apply (list_elem_of_lookup_2 _ i), lookup_take_Some; split; [done | lia]).
  rewrite <- En in Hin. by apply elem_of_filterb in Hin as [? _].
Qed.

(** A blocked child is recorded behind one that has not ended. *)
Lemma blocked_behind keys sequence tr s k : NoDup sequence -> replay_inv keys sequence tr s -> unblocked (rp_barrier s) k = false ->
  exists i j k0, sequence !! i = Some k0 /\ sequence !! j = Some k /\ i < j /\ (k0 ∉ tr \/ k0 ∈ rp_running s).
Proof.
  intros Hseq Hinv Hu. unfold unblocked in Hu. rewrite (ri_seq _ _ _ _ Hinv), (ri_set _ _ _ _ Hinv) in Hu.
  apply orb_false_elim in Hu as [Hin Hn]. apply negb_false_iff, bool_decide_eq_true in Hin. apply bool_decide_eq_false in Hn.
  apply list_elem_of_lookup in Hin as (j & Hj). set (i := ba_index (rp_barrier s)) in *.
  assert (i < j) as Hlt.
  { apply Nat.nle_gt. intros Hle. apply Hn, (list_elem_of_lookup_2 _ j), lookup_take_Some. split; [done | lia]. }
  destruct (lookup_lt_is_Some_2 sequence i) as [k0 Hk0]; [apply lookup_lt_Some in Hj; lia|].
  exists i, j, k0. split; [done|]. split; [done|]. split; [done|].
  destruct (ri_passed _ _ _ _ Hinv) as [[E _]|(x & Ex & Hx & _)]; [left | right; fold i in Ex; congruence].
  intros Hp. assert (k0 ∈ take i sequence) as Ht.
  { fold i in E. rewrite <- E. apply elem_of_filterb. split; [done|]. apply bool_decide_eq_true. by eapply list_elem_of_lookup_2. }
  apply list_elem_of_lookup in Ht as (m & Hm). apply lookup_take_Some in Hm as [Hm Hmi].
  pose proof (NoDup_lookup _ _ _ _ Hseq Hk0 Hm). lia.
Qed.

(** Somebody can move, or nothing runs and all who wait have given up. *)
Lemma timed_moves s gone : (exists m st', timed_step (s, gone) m st') \/ (rp_running s = [] /\ forall k, k ∈ rp_waiting s -> k ∈ gone).
Proof.
  destruct s as [w r b]. cbn [rp_running rp_waiting]. destruct r as [|k r].
  - destruct (filterb (fun k => bool_decide (k ∉ gone)) w) as [|k l] eqn:E.
    + right. split; [done|]. intros k Hk. apply dec_stable. intros Hn.
      assert (k ∈ filterb (fun k => bool_decide (k ∉ gone)) w) as Hin by (apply elem_of_filterb; split; [done | by apply bool_decide_eq_true]).
      rewrite E in Hin. by apply elem_of_nil in Hin.
    + left. assert (k ∈ filterb (fun k => bool_decide (k ∉ gone)) w) as [Hk Hn%bool_decide_eq_true]%elem_of_filterb by (rewrite E; by left).
      destruct (unblocked b k) eqn:Hu; eexists _, _; [apply timed_passes; [exact Hn | by constructor] | by apply timed_gives_up].
  - left. eexists _, _. apply timed_advances, (replay_advance k). by left.
Qed.

(** C37: A replay whose waits time out: a recorded child that gave up, or that is not
    started at all, stops every child recorded after it, none of which passes; a
    child gives up only with a child recorded before it that has not ended, with the
    error that says so. Every step leaves
    less to do, and when no step is possible each child has passed or given up. *)
Theorem replay_divergence events base_path strict keys tr s gone
    (Hkeys : NoDup keys)
    (Hrun : steps timed_step (start_replay keys (_scan_sequence events base_path strict), []) tr (s, gone)) :
  let sequence := _scan_sequence events base_path strict in
  let passed := omap passed_key tr in
  (forall i j k k', sequence !! i = Some k -> sequence !! j = Some k' -> i < j -> k ∈ gone \/ k ∉ keys -> k' ∉ passed) /\
  (forall k e st', timed_step (s, gone) (GivesUp k e) st' ->
     e = divergence k /\ exists i j k0, sequence !! i = Some k0 /\ sequence !! j = Some k /\ i < j /\ (k0 ∉ passed \/ k0 ∈ rp_running s)) /\
  (forall m st', timed_step (s, gone) m st' -> timed_left st' < timed_left (s, gone)) /\
  ((exists m st', timed_step (s, gone) m st') \/ (rp_running s = [] /\ forall k, k ∈ keys -> k ∈ passed \/ k ∈ gone)).
Proof.
  intros sequence passed. assert (NoDup sequence) as Hseq by apply scan_sequence_spec.
  destruct (timed_replays _ _ _ Hrun) as [Hr Hg]; [by intros k ?%elem_of_nil|]. cbn [fst snd] in Hr, Hg.
  pose proof (replays_inv keys sequence Hkeys Hseq [] _ _ _ (replay_inv_start keys sequence) Hr) as Hinv. cbn [app] in Hinv. fold passed in Hinv.
  destruct (replay_trace_nodup keys sequence Hkeys _ _ Hinv) as (_ & _ & Hfresh).
  pose proof (ri_keys _ _ _ _ Hinv) as Hp. split_and!.
  - intros i j k k' Hi Hj Hlt Hk Hk'. pose proof (passed_before _ _ _ _ _ _ _ _ Hseq Hinv Hi Hj Hlt Hk') as Hin.
    destruct Hk as [Hk|Hk]; [by apply (Hfresh k); [apply Hg|]|]. apply Hk. rewrite Hp, elem_of_app. by right.
  - intros k e st' Hstep. inversion Hstep as [| |? ? ? Hw Hk Hu]; subst. split; [done|]. by eapply blocked_behind.
  - apply timed_left_decreases.
  - destruct (timed_moves s gone) as [?|[Hrn Hw]]; [by left|]. right. split; [done|]. intros k Hk.
    rewrite Hp, elem_of_app in Hk. destruct Hk as [Hk|Hk]; [right; by apply Hw | by left].
Qed.
