(* ===== verification/NodeRunner.v ===== *)
(** * Running one node (new_choirworks/core/workflow/node_runner.py, context.py,
    core/agents/base_agent.py, invocation_context.py, core/sessions/)

    A node is an asynchronous generator that yields events and writes on its
    context. The runner puts the node's identity on each event, records the
    complete ones and forwards them all; a replay forwards recorded events and
    records nothing. *)
From S2P Require Import Prelude PyStr Dict Json Graph NewEvents NodePath.
Local Open Scope string_scope.
Local Open Scope list_scope.

(** The events of the invocation, and what has been put on its queue ([None]: it has none). *)
Record Invocation := mkInvocation { iv_events : list Event; iv_queue : option (list Event) }.

Record Context := mkContext {
  cx_name : string; cx_node_path : string; cx_run_id : option string;
  cx_branch : option string; cx_isolation_scope : option string;
  cx_output : option json; cx_route : routes; cx_error : option exn }.

Definition set_cx_output (o : option json) (c : Context) : Context :=
  mkContext (cx_name c) (cx_node_path c) (cx_run_id c) (cx_branch c) (cx_isolation_scope c) o (cx_route c) (cx_error c).
Definition set_cx_route (r : routes) (c : Context) : Context :=
  mkContext (cx_name c) (cx_node_path c) (cx_run_id c) (cx_branch c) (cx_isolation_scope c) (cx_output c) r (cx_error c).
Definition set_cx_error (e : exn) (c : Context) : Context :=
  mkContext (cx_name c) (cx_node_path c) (cx_run_id c) (cx_branch c) (cx_isolation_scope c) (cx_output c) (cx_route c) (Some e).

(** What a node does, in order, and the exception it ends in. *)
Inductive node_action := Yield (e : Event) | SetOutput (o : option json) | SetRoute (r : routes).
Record NodeBody := mkBody { nb_actions : list node_action; nb_end : option exn }.

(** The node, and [timeout] (its text: it is only printed and compared to none). *)
Record RunnerNode := mkRunnerNode { rn_name : string; rn_timeout : option string }.

(** ** Events *)

Definition _enrich_event (ctx : Context) (e : Event) : Event :=
  let m := ev_meta e in
  let m := if str_truthy (em_author m) then m else set_author (cx_name ctx) m in
  let ni := em_node_info m in
  let m := if str_truthy (ni_path ni) then m
           else set_node_info (mkNodeInfo (cx_node_path ctx) (ni_output_for ni) (ni_message_as_output ni)) m in
  let branch := match em_branch m with None => cx_branch ctx | b => b end in
  let scope := match em_isolation_scope m with None => cx_isolation_scope ctx | s => s end in
  mkEvent (ev_task_id e) (ev_context_id e) (set_scope branch scope m) (ev_body e).

Definition append_event (e : Event) (iv : Invocation) : Invocation := mkInvocation (iv_events iv ++ [e]) (iv_queue iv).
(** [event_queue.enqueue_event], when there is a queue. *)
Definition put_event (e : Event) (iv : Invocation) : Invocation := mkInvocation (iv_events iv) ((fun q => q ++ [e]) <$> iv_queue iv).

Definition _enqueue_event (e : Event) (ctx : Context) (iv : Invocation) : res Invocation :=
  match iv_queue iv with
  | None => Err AssertionError
  | Some _ =>
      let e := _enrich_event ctx e in
      let iv := if negb (is_partial_event e) then append_event e iv else iv in
      Ok (put_event e iv)
  end.

Definition _emit_replayed_event (e : Event) (ctx : Context) (iv : Invocation) : Invocation := put_event (_enrich_event ctx e) iv.

(** ** Runs *)

Definition runner_path (parent_path : string) (node : RunnerNode) (run_id : string) : string :=
  path_str (append_node (from_string parent_path) (rn_name node) (Some run_id)).

Definition _create_ctx (parent : Context) (parent_path : string) (node : RunnerNode) (run_id : string) : Context :=
  mkContext (rn_name node) (runner_path parent_path node run_id) (Some run_id) (cx_branch parent) (cx_isolation_scope parent) None NoRoute None.

Fixpoint _run_node_loop (actions : list node_action) (fin : option exn) (ctx : Context) (iv : Invocation) : Context * Invocation * option exn :=
  match actions with
  | [] => (ctx, iv, fin)
  | Yield e :: actions' =>
      match _enqueue_event e ctx iv with
      | Ok iv' => _run_node_loop actions' fin ctx iv'
      | Err x => (ctx, iv, Some x)
      end
  | SetOutput o :: actions' => _run_node_loop actions' fin (set_cx_output o ctx) iv
  | SetRoute r :: actions' => _run_node_loop actions' fin (set_cx_route r ctx) iv
  end.

(** [expires]: the number of actions done when the timeout strikes, if it does. *)
Definition _run_node_loop_with_timeout (node : RunnerNode) (timeout : string) (expires : option nat) (body : NodeBody)
  (ctx : Context) (iv : Invocation) : Context * Invocation * option exn :=
  let '(ctx, iv, x) :=
    match expires with
    | Some n => _run_node_loop (take n (nb_actions body)) (Some TimeoutError) ctx iv
    | None => _run_node_loop (nb_actions body) (nb_end body) ctx iv
    end in
  (ctx, iv, match x with Some TimeoutError => Some (NodeTimeoutError (rn_name node) timeout) | _ => x end).

Definition _execute_node (node : RunnerNode) (expires : option nat) (body : NodeBody) (ctx : Context) (iv : Invocation)
  : Context * Invocation * option exn :=
  match rn_timeout node with
  | Some timeout => _run_node_loop_with_timeout node timeout expires body ctx iv
  | None => _run_node_loop (nb_actions body) (nb_end body) ctx iv
  end.

(** [Err]: a cancellation, which is not caught. *)
Definition run_node (parent : Context) (parent_path : string) (node : RunnerNode) (run_id : string) (expires : option nat)
  (body : NodeBody) (iv : Invocation) : Invocation * res Context :=
  let '(ctx, iv, x) := _execute_node node expires body (_create_ctx parent parent_path node run_id) iv in
  match x with
  | None => (iv, Ok ctx)
  | Some e => if is_exception e then (iv, Ok (set_cx_error e ctx)) else (iv, Err e)
  end.

Definition replay_one (acc : Context * Invocation) (e : Event) : Context * Invocation :=
  let '(ctx, iv) := acc in
  let iv := _emit_replayed_event e ctx iv in
  (match em_output (ev_meta e) with Some o => set_cx_output (Some o) ctx | None => ctx end, iv).
Definition run_replayed (parent : Context) (parent_path : string) (node : RunnerNode) (run_id : string)
  (events : list Event) (output : option json) (iv : Invocation) : Invocation * Context :=
  let '(ctx, iv) := foldl replay_one (_create_ctx parent parent_path node run_id, iv) events in
  (iv, match output with Some o => set_cx_output (Some o) ctx | None => ctx end).

(** [BaseAgent.run_async]: an event without an author gets the agent's name. *)
Definition run_async (name : string) (e : Event) : Event :=
  if str_truthy (em_author (ev_meta e)) then e else add_author e name.

(** ** Sessions *)

Record NewSession := mkNewSession { ns_id : string; ns_events : list Event; ns_state : list (string * json) }.

Definition _update_session_state (e : Event) (s : NewSession) : NewSession :=
  mkNewSession (ns_id s) (ns_events s) (foldl (fun st p => dset p.1 p.2 st) (ns_state s) (em_state_delta (ev_meta e))).
Definition _commit_event_to_session (s : NewSession) (e : Event) : NewSession :=
  let s := _update_session_state e s in mkNewSession (ns_id s) (ns_events s ++ [e]) (ns_state s).
Definition session_append_event (s : NewSession) (e : Event) : NewSession :=
  if is_partial_event e then s else _commit_event_to_session s e.

(** A stored task: its ids, and its artifacts with the metadata kept on them. *)
Record StoredArtifact := mkStored { sa_id : string; sa_parts : list EPart; sa_meta : EMeta }.
Record StoredTask := mkStoredTask { st_task_id : string; st_context_id : string; st_artifacts : list StoredArtifact }.

Definition _event_from_artifact (task : StoredTask) (a : StoredArtifact) : Event :=
  if bool_decide (em_author (sa_meta a) = "user")
  then mkEvent (st_task_id task) (st_context_id task) (sa_meta a) (AMessage true (sa_parts a))
  else mkEvent (st_task_id task) (st_context_id task) (sa_meta a) (ArtifactUpdate (sa_id a) (sa_parts a) false true).

(** The pages of the store, newest task first. *)
Definition _list_tasks (pages : list (list StoredTask)) : list StoredTask := rev (concat pages).
Definition get_session (session_id : string) (pages : list (list StoredTask)) : option NewSession :=
  match _list_tasks pages with
  | [] => None
  | tasks =>
      Some (foldl (fun s task => foldl (fun s a => _commit_event_to_session s (_event_from_artifact task a)) s (st_artifacts task))
        (mkNewSession session_id [] []) tasks)
  end.

(** ** Facts *)

Definition complete (e : Event) : bool := negb (is_partial_event e).
Definition yields (actions : list node_action) : list Event :=
  omap (fun a => match a with Yield e => Some e | _ => None end) actions.
(** The context after the actions. *)
Definition act (ctx : Context) (a : node_action) : Context :=
  match a with Yield _ => ctx | SetOutput o => set_cx_output o ctx | SetRoute r => set_cx_route r ctx end.

Lemma enrich_idempotent ctx e : _enrich_event ctx (_enrich_event ctx e) = _enrich_event ctx e.
Proof.
  destruct e as [tid cid [author output [path ofor mao] branch scope delta route aid acid] body], ctx as [n p rid br sc o r x].
  unfold _enrich_event. cbn. destruct (str_truthy author) eqn:Ea; cbn; destruct (str_truthy path) eqn:Ep; cbn;
    rewrite ?Ea, ?Ep; cbn; try destruct (str_truthy n); cbn; rewrite ?Ep; cbn; try destruct (str_truthy p); cbn;
    by destruct branch, br, scope, sc.
Qed.

Lemma enrich_body ctx e : ev_body (_enrich_event ctx e) = ev_body e.
Proof. done. Qed.

Lemma enrich_same_node ctx ctx' e :
  cx_name ctx = cx_name ctx' -> cx_node_path ctx = cx_node_path ctx' -> cx_branch ctx = cx_branch ctx' ->
  cx_isolation_scope ctx = cx_isolation_scope ctx' -> _enrich_event ctx e = _enrich_event ctx' e.
Proof. unfold _enrich_event. by intros -> -> -> ->. Qed.

Lemma enrich_act ctx a e : _enrich_event (act ctx a) e = _enrich_event ctx e.
Proof. by destruct a. Qed.

Lemma run_loop_spec actions fin : forall ctx events q,
  _run_node_loop actions fin ctx (mkInvocation events (Some q)) =
  (foldl act ctx actions,
   mkInvocation (events ++ filterb complete (_enrich_event ctx <$> yields actions)) (Some (q ++ (_enrich_event ctx <$> yields actions))),
   fin).
Proof.
  assert (forall ctx a (l : list Event), _enrich_event (act ctx a) <$> l = _enrich_event ctx <$> l) as Hact.
  { intros ctx a l. apply list_fmap_ext. intros. apply enrich_act. }
  induction actions as [|a actions IH]; intros ctx events q; [cbn; by rewrite !app_nil_r|].
  cbn [_run_node_loop foldl]. destruct a as [e|o|r]; [|rewrite IH; by cbn [act yields omap list_omap]..].
  unfold _enqueue_event. cbn [iv_queue]. fold (complete (_enrich_event ctx e)).
  change (yields (Yield e :: actions)) with (e :: yields actions). rewrite fmap_cons. cbn [act filterb List.filter].
  destruct (complete (_enrich_event ctx e)); unfold append_event, put_event; cbn [iv_events iv_queue fmap option_fmap option_map];
    rewrite IH, <- !app_assoc; done.
Qed.

(** The actions that are done before the timeout. *)
Definition done_actions (node : RunnerNode) (expires : option nat) (body : NodeBody) : list node_action :=
  match rn_timeout node, expires with Some _, Some n => take n (nb_actions body) | _, _ => nb_actions body end.
Definition end_of (node : RunnerNode) (expires : option nat) (body : NodeBody) : option exn :=
  match rn_timeout node with
  | None => nb_end body
  | Some t =>
      match (match expires with Some _ => Some TimeoutError | None => nb_end body end) with
      | Some TimeoutError => Some (NodeTimeoutError (rn_name node) t)
      | x => x
      end
  end.

(** A run of a node: the events it yielded before its end carry the node's identity,
    all of them are forwarded in order and the complete ones recorded in order; the
    context holds what the node last wrote, and the exception, a timeout under the
    node's name; only a cancellation goes through. *)
Theorem node_run_spec parent path node rid expires body events q :
  let ctx := _create_ctx parent path node rid in
  let done := done_actions node expires body in
  let seen := _enrich_event ctx <$> yields done in
  run_node parent path node rid expires body (mkInvocation events (Some q)) =
  (mkInvocation (events ++ filterb complete seen) (Some (q ++ seen)),
   match end_of node expires body with
   | None => Ok (foldl act ctx done)
   | Some x => if is_exception x then Ok (set_cx_error x (foldl act ctx done)) else Err x
   end).
Proof.
  cbn zeta. unfold run_node, _execute_node, done_actions, end_of, _run_node_loop_with_timeout.
  destruct (rn_timeout node) as [t|]; [destruct expires as [n|]|]; rewrite run_loop_spec; try done;
    destruct (nb_end body) as [x|]; try destruct x; try done; by destruct (is_exception _).
Qed.

Lemma replay_fold ctx0 l : forall ctx events q,
  cx_name ctx = cx_name ctx0 -> cx_node_path ctx = cx_node_path ctx0 -> cx_branch ctx = cx_branch ctx0 ->
  cx_isolation_scope ctx = cx_isolation_scope ctx0 ->
  foldl replay_one (ctx, mkInvocation events (Some q)) l =
  (foldl (fun c e => match em_output (ev_meta e) with Some o => set_cx_output (Some o) c | None => c end) ctx l,
   mkInvocation events (Some (q ++ (_enrich_event ctx0 <$> l)))).
Proof.
  induction l as [|e l IH]; intros ctx events q Hn Hp Hb Hs; [cbn; by rewrite app_nil_r|].
  cbn [foldl]. unfold replay_one at 2, _emit_replayed_event, put_event. cbn [iv_events iv_queue fmap option_fmap option_map].
  rewrite (enrich_same_node ctx ctx0) by done. rewrite IH by (by destruct (em_output (ev_meta e))).
  by rewrite fmap_cons, <- app_assoc.
Qed.

(** The output of a replay: the one given, or the last in the record. *)
Lemma replay_output parent path node rid l output events q :
  cx_output (run_replayed parent path node rid l output (mkInvocation events (Some q))).2 =
  match output with Some o => Some o | None => last (omap (fun e => em_output (ev_meta e)) l) end.
Proof.
  unfold run_replayed. rewrite (replay_fold (_create_ctx parent path node rid)) by done. cbn [snd]. destruct output as [o|]; [done|].
  assert (forall k c, cx_output (foldl (fun c e => match em_output (ev_meta e) with Some o => set_cx_output (Some o) c | None => c end) c k) =
            match last (omap (fun e => em_output (ev_meta e)) k) with Some o => Some o | None => cx_output c end) as ->; [|by destruct (last _)].
  induction k as [|e k IH]; intros c; [done|]. cbn [foldl]. rewrite IH. cbn [omap list_omap].
  destruct (em_output (ev_meta e)) as [o|]; [|done]. cbn [set_cx_output cx_output]. rewrite last_cons.
  by destruct (last (omap _ k)).
Qed.

(** C36: Replaying the record of a run: the recorded events are forwarded as they were
    recorded, nothing is recorded again, and the context has the output that is
    given, or else the last one in the record. *)
Theorem replay_reemits_record parent path node rid expires body events q events' q' output :
  let recorded := filterb complete (_enrich_event (_create_ctx parent path node rid) <$> yields (done_actions node expires body)) in
  iv_events (run_node parent path node rid expires body (mkInvocation events (Some q))).1 = events ++ recorded /\
  (run_replayed parent path node rid recorded output (mkInvocation events' (Some q'))).1 = mkInvocation events' (Some (q' ++ recorded)) /\
  cx_output (run_replayed parent path node rid recorded output (mkInvocation events' (Some q'))).2 =
    match output with Some o => Some o | None => last (omap (fun e => em_output (ev_meta e)) recorded) end.
Proof.
  cbn zeta. rewrite node_run_spec. split; [done|]. split; [|apply replay_output]. unfold run_replayed.
  set (ctx := _create_ctx parent path node rid). set (l := _enrich_event ctx <$> _).
  rewrite (replay_fold ctx) by done.
  assert (_enrich_event ctx <$> filterb complete l = filterb complete l) as ->.
  { assert (forall e, e ∈ filterb complete l -> _enrich_event ctx e = e) as Hid.
    { intros e [He _]%elem_of_filterb. apply list_elem_of_fmap in He as (e0 & -> & _). apply enrich_idempotent. }
    revert Hid. generalize (filterb complete l). intros k. induction k as [|e k IH]; intros Hid; [done|].
    rewrite fmap_cons. f_equal; [apply Hid; by left | apply IH; intros; apply Hid; by right]. }
  done.
Qed.

Lemma dset_all_dget k (delta : list (string * json)) : forall st,
  dget k (foldl (fun st p => dset p.1 p.2 st) st delta) =
  match last (omap (fun p => if decide (p.1 = k) then Some p.2 else None) delta) with Some v => Some v | None => dget k st end.
Proof.
  induction delta as [|[k' v] delta IH]; intros st; [done|]. cbn [foldl fst snd]. rewrite IH, dget_dset. cbn [omap list_omap fst snd].
  destruct (decide (k' = k)) as [->|]; [rewrite decide_True by done | by rewrite decide_False by congruence].
  rewrite last_cons. by destruct (last (omap _ delta)).
Qed.

(** A session holds the complete events it was given, in order, and its state the
    last value written under each key. *)
Theorem session_keeps_complete_events id events :
  let s := foldl session_append_event (mkNewSession id [] []) events in
  ns_events s = filterb complete events /\
  forall k, dget k (ns_state s) =
    last (omap (fun p => if decide (p.1 = k) then Some p.2 else None) (filterb complete events ≫= fun e => em_state_delta (ev_meta e))).
Proof.
  cbn zeta. assert (forall evs s, let s' := foldl session_append_event s evs in
    ns_events s' = ns_events s ++ filterb complete evs /\
    ns_state s' = foldl (fun st p => dset p.1 p.2 st) (ns_state s) (filterb complete evs ≫= fun e => em_state_delta (ev_meta e))) as H.
  { induction evs as [|e evs IH]; intros s; [cbn; by rewrite app_nil_r|]. cbn [foldl]. destruct (IH (session_append_event s e)) as [E1 E2].
    cbn zeta. rewrite E1, E2. cbn [filterb List.filter]. unfold session_append_event, complete. destruct (is_partial_event e); [done|]. cbn.
    by rewrite <- app_assoc, foldl_app. }
  destruct (H events (mkNewSession id [] [])) as [-> ->]. split; [done|]. intros k. rewrite dset_all_dget. by destruct (last _).
Qed.
