(* ===== verification/RemoteA2a.v ===== *)
(** * Calling a remote agent (new_choirworks/core/a2a/agent/remote_a2a_agent.py,
    orchestrator/executor_node.py: run_remote_node)

    The responses of a remote agent become events of the caller: the chunks of an
    artifact are put together, a snapshot of the task is unfolded. The node that
    runs the agent fails when the remote task fails or pauses. *)
From S2P Require Import Prelude PyStr Dict Json Graph NewEvents NodePath Contents NodeRunner DagPlan DagRuntime.
From S2P Require Import Orchestrator.
Local Open Scope string_scope.
Local Open Scope list_scope.

Definition FAILURE_TERMINAL_STATES : list task_state := [TaskState.FAILED; TaskState.REJECTED; TaskState.CANCELED].
(** The name of a state, [TaskState.Name]. *)
Definition _state_name (s : task_state) : string :=
  "TASK_STATE_" +:+
  match s with
  | TaskState.UNSPECIFIED => "UNSPECIFIED" | TaskState.SUBMITTED => "SUBMITTED" | TaskState.WORKING => "WORKING"
  | TaskState.COMPLETED => "COMPLETED" | TaskState.FAILED => "FAILED" | TaskState.CANCELED => "CANCELED"
  | TaskState.INPUT_REQUIRED => "INPUT_REQUIRED" | TaskState.REJECTED => "REJECTED" | TaskState.AUTH_REQUIRED => "AUTH_REQUIRED"
  end.

(** ** Responses *)

(** A message of the history of a task: whether the agent wrote it. *)
Record HistoryMessage := mkHistory { hm_from_agent : bool; hm_task_id : string; hm_context_id : string; hm_meta : EMeta; hm_parts : list EPart }.
(** A snapshot of a remote task: its status with the parts of its message, the parts
    of each artifact. *)
Record RemoteTask := mkRemoteTask {
  rt_id : string; rt_context : string; rt_state : task_state; rt_status_parts : list EPart;
  rt_task_artifacts : list (list EPart); rt_history : list HistoryMessage }.

(** [StreamResponse]: a message, a status update or an artifact update; a snapshot; none. *)
Inductive StreamResponse := Content (e : Event) | Snapshot (task : RemoteTask) | NoPayload.

(** ** Snapshots *)

Definition status_event (task : RemoteTask) : Event :=
  mkEvent (rt_id task) (rt_context task) no_meta (Status (rt_state task) (rt_status_parts task)).

Definition last_agent_message (task : RemoteTask) : option HistoryMessage :=
  find_first (fun m => hm_from_agent m && match hm_parts m with [] => false | _ => true end) (rev (rt_history task)).

Definition nonempty {A} (l : list A) : bool := match l with [] => false | _ => true end.

Definition keeps_status (task : RemoteTask) (artifact_parts : list EPart) : bool :=
  bool_decide (rt_state task ∈ FAILURE_TERMINAL_STATES)
  || (nonempty (rt_status_parts task)
      && (bool_decide (rt_state task ∈ [TaskState.INPUT_REQUIRED; TaskState.AUTH_REQUIRED])
          || (negb (nonempty artifact_parts) && bool_decide (rt_state task ∈ TASK_RESPONSE_BOUNDARY_STATES)))).

Definition _events_from_task (task : RemoteTask) : list Event :=
  let artifact_parts := concat (rt_task_artifacts task) in
  let events :=
    if nonempty artifact_parts
    then [mkEvent (rt_id task) (rt_context task) no_meta
            (ArtifactUpdate (rt_id task) artifact_parts false (negb (bool_decide (rt_state task ∈ NON_FINAL_TASK_STATES))))]
    else [] in
  let events := if keeps_status task artifact_parts then events ++ [status_event task] else events in
  let events :=
    if negb (nonempty events) && bool_decide (rt_state task ∈ TASK_RESPONSE_BOUNDARY_STATES) && nonempty (rt_history task)
    then match last_agent_message task with
         | Some m => events ++ [mkEvent (hm_task_id m) (hm_context_id m) (hm_meta m) (AMessage false (hm_parts m))]
         | None => events
         end
    else events in
  if negb (nonempty events) then events ++ [status_event task] else events.

(** ** Chunks *)

Abbreviation buffers := (list (string * list EPart)).

Definition _aggregate_artifact_update (bufs : buffers) (e : Event) (artifact_id : string) (parts : list EPart) (append last_chunk : bool)
  : buffers * list Event :=
  let buffer := if append then default [] (dget artifact_id bufs) ++ parts else parts in
  let bufs := dset artifact_id buffer bufs in
  if last_chunk then
    (ddel artifact_id bufs,
     [e] ++ if append then [mkEvent (ev_task_id e) (ev_context_id e) (ev_meta e) (ArtifactUpdate artifact_id buffer false true)] else [])
  else (bufs, [e]).

(** ** Responses to events *)

Record RemoteA2aAgent := mkRemoteAgent { ra_name : string; ra_url : string }.

(** The event as one of the caller's task; where it came from is kept in its metadata. *)
Definition own_event (agent : RemoteA2aAgent) (task_id context_id : string) (e : Event) : Event :=
  let m := ev_meta e in
  let remote_context := if str_truthy (ev_context_id e) then Some (ev_context_id e) else em_a2a_context_id m in
  mkEvent task_id context_id (set_author (ra_name agent) (set_a2a (Some (ev_task_id e)) remote_context m)) (ev_body e).

Definition response_events (bufs : buffers) (r : StreamResponse) : buffers * list Event :=
  match r with
  | Content e =>
      match ev_body e with
      | ArtifactUpdate artifact_id parts append last_chunk => _aggregate_artifact_update bufs e artifact_id parts append last_chunk
      | _ => (bufs, [e])
      end
  | Snapshot task => (bufs, _events_from_task task)
  | NoPayload => (bufs, [])
  end.
Definition _handle_a2a_response (agent : RemoteA2aAgent) (task_id context_id : string) (bufs : buffers) (r : StreamResponse) : buffers * list Event :=
  let '(bufs, events) := response_events bufs r in (bufs, own_event agent task_id context_id <$> events).

Fixpoint handle_responses (agent : RemoteA2aAgent) (task_id context_id : string) (bufs : buffers) (rs : list StreamResponse) : list Event :=
  match rs with
  | [] => []
  | r :: rs' =>
      let '(bufs, events) := _handle_a2a_response agent task_id context_id bufs r in
      events ++ handle_responses agent task_id context_id bufs rs'
  end.

(** ** The request *)

Definition _is_remote_response (agent : RemoteA2aAgent) (e : Event) : bool :=
  bool_decide (em_author (ev_meta e) = ra_name agent) && match em_a2a_task_id (ev_meta e) with Some _ => true | None => false end.

(** ** The agent's card *)

(** The card: its description and its interfaces, each a protocol binding and a url. *)
Record AgentCard := mkCard { ac_description : string; ac_interfaces : list (string * string) }.

(** What the network gives: how a url parses ([urlparse]: scheme, netloc, path), the
    card at a base url and a path, whether a client can be made for a card, then the
    responses to the request, and the exception the stream broke on. *)
Record Remote := mkRemote {
  re_parse : string -> res (string * string * string);
  re_get_card : string -> string -> res AgentCard;
  re_create : AgentCard -> res unit;
  re_responses : list StreamResponse;
  re_broken : option exn }.

Definition _get_card_rpc_url (card : AgentCard) : option string :=
  match ac_interfaces card with
  | [] => None
  | i :: _ =>
      match find_first (fun i => bool_decide (i.1 = "JSONRPC")) (ac_interfaces card) with
      | Some j => Some j.2
      | None => Some i.2
      end
  end.

(** The parsed url, which must have a scheme and a netloc. *)
Definition checked_url (remote : Remote) (url : string) : res (string * string * string) :=
  '(scheme, netloc, path) ← re_parse remote url;
  if negb (str_truthy scheme) || negb (str_truthy netloc) then Err (ValueError ("Invalid URL: " +:+ url)) else Ok (scheme, netloc, path).

(** [try: ... except Exception as e: raise AgentCardResolutionError(prefix + str(e))]. *)
Definition card_error {A} (prefix : string) (r : res A) : res A :=
  match r with Ok a => Ok a | Err x => Err (AgentCardResolutionError (prefix +:+ exn_str x)) end.

Definition _resolve_agent_card_from_url (remote : Remote) (url : string) : res AgentCard :=
  card_error ("Failed to resolve agent card from URL: " +:+ url +:+ " - ")
    ('(scheme, netloc, path) ← checked_url remote url; re_get_card remote (scheme +:+ "://" +:+ netloc) path).

Definition _validate_agent_card (agent : RemoteA2aAgent) (remote : Remote) (card : AgentCard) : res unit :=
  let no_rpc := Err (AgentCardResolutionError ("Agent card " +:+ ra_name agent +:+ " does not have a valid RPC communication")) in
  match _get_card_rpc_url card with
  | Some url =>
      if str_truthy url
      then card_error ("Invalid RPC URL for agent card " +:+ url +:+ " - error: ") ('_ ← checked_url remote url; Ok tt)
      else no_rpc
  | None => no_rpc
  end.

(** The first call, which caches the card and the client. *)
Definition _ensure_resolved (agent : RemoteA2aAgent) (remote : Remote) : res unit :=
  card_error ("Failed to initialize remote A2A agent " +:+ ra_name agent +:+ " - ")
    (card ← _resolve_agent_card_from_url remote (ra_url agent);
     _ ← _validate_agent_card agent remote card;
     re_create remote card).

Section request.
Context (py_repr : json -> string) (sort_items : list (string * json) -> list (string * json)).

(** What one event adds to the request. *)
Definition request_parts (agent : RemoteA2aAgent) (e : Event) : res (list EPart) :=
  if is_other_agent_reply (ra_name agent) e then
    msg ← present_other_agent_message py_repr sort_items e false;
    Ok (match msg with Some m => event_content_parts m | None => [] end)
  else match ev_body e with AMessage true parts => Ok parts | _ => Ok [] end.

(** [for event in reversed(ctx.events)]. *)
Fixpoint collect_parts (agent : RemoteA2aAgent) (reversed_events : list Event) (parts : list EPart) : res (list EPart * option string) :=
  match reversed_events with
  | [] => Ok (parts, None)
  | e :: es =>
      if _is_remote_response agent e then Ok (parts, em_a2a_context_id (ev_meta e))
      else ps ← request_parts agent e; collect_parts agent es (ps ++ parts)
  end.
Definition _construct_message_parts_from_session (agent : RemoteA2aAgent) (events : list Event) : res (list EPart * option string) :=
  collect_parts agent (rev events) [].

(** ** The run of the agent *)

(** A request: its parts, the context it continues. *)
Record Request := mkRequest { rq_parts : list EPart; rq_context_id : option string }.

Definition failed_status (agent : RemoteA2aAgent) (task_id context_id text : string) : Event :=
  add_author (mkEvent task_id context_id no_meta (Status TaskState.FAILED [text_part text])) (ra_name agent).

(** The request that is sent, and the events that are yielded. *)
Definition _run_async_impl (agent : RemoteA2aAgent) (remote : Remote) (task_id context_id : string) (events : list Event)
  : res (option Request * list Event) :=
  match _ensure_resolved agent remote with
  | Err x => Ok (None, [failed_status agent task_id context_id ("Failed to initialize remote A2A agent " +:+ ra_name agent +:+ " - " +:+ exn_str x)])
  | Ok _ =>
      '(parts, remote_context) ← _construct_message_parts_from_session agent events;
      if negb (nonempty parts) then
        Ok (None, [failed_status agent task_id context_id ("No parts to send to remote A2A agent " +:+ ra_name agent)])
      else
        Ok (Some (mkRequest parts remote_context),
            handle_responses agent task_id context_id [] (re_responses remote)
            ++ match re_broken remote with
               | Some x => [failed_status agent task_id context_id ("Failed to send message to remote A2A agent " +:+ ra_name agent +:+ " - " +:+ exn_str x)]
               | None => []
               end)
  end.

(** The text the event gives the node as output, if it does. *)
Definition promotes (e : Event) : option string :=
  if is_partial_event e then None
  else if match ev_body e with Status s _ => bool_decide (s ∈ NON_FINAL_TASK_STATES) | _ => false end then None
  else let text := extract_text e in if str_truthy text then Some text else None.

(** The first of them does: its output is set, and the node's. *)
Fixpoint promote_events (promoted : option string) (events : list Event) : option string * list Event :=
  match events with
  | [] => (promoted, [])
  | e :: es =>
      match promoted, promotes e with
      | None, Some text =>
          let '(o, es) := promote_events (Some text) es in (o, with_meta (set_output (JStr text)) e :: es)
      | _, _ => let '(o, es) := promote_events promoted es in (o, e :: es)
      end
  end.

(** ** The node *)

Definition FAILURE_STATES : list task_state := [TaskState.FAILED; TaskState.REJECTED; TaskState.CANCELED].
Definition PAUSE_STATES : list task_state := [TaskState.INPUT_REQUIRED; TaskState.AUTH_REQUIRED].

Definition _status_state (e : Event) : option task_state := match ev_body e with Status s _ => Some s | _ => None end.

(** [failure] and [pause] after an event. *)
Definition note_status (acc : option string * option string) (e : Event) : option string * option string :=
  let '(failure, pause) := acc in
  match _status_state e with
  | None => acc
  | Some state =>
      let text := extract_text e in
      if bool_decide (state ∈ FAILURE_STATES) && negb (match failure with Some _ => true | None => false end)
      then (Some (str_or text ("remote task ended in " +:+ _state_name state)), pause)
      else if bool_decide (state ∈ PAUSE_STATES) && negb (match pause with Some _ => true | None => false end)
      then (failure, Some ("remote task paused in " +:+ _state_name state
                           +:+ (if str_truthy text then ": " +:+ text else estr) +:+ " (resume not supported in v0)"))
      else acc
  end.

Definition user_message (message : string) : Event := add_author (mkEvent estr estr no_meta (AMessage true [text_part message])) "user".

(** The invocation keeps and forwards the events; the node ends as the remote task did. *)
Definition run_remote_node (remote : Remote) (task_id context_id : string) (node : PlanNode) (info : AgentInfo) (message : string) (iv : Invocation)
  : Invocation * task_end :=
  let agent := mkRemoteAgent (dn_agent_name node) (ai_url info) in
  match _run_async_impl agent remote task_id context_id [user_message message] with
  | Err x => (iv, Raised (exn_str x))
  | Ok (_, events) =>
      let '(output, events) := promote_events None (run_async (ra_name agent) <$> events) in
      let iv := foldl (fun iv e => put_event e (if negb (is_partial_event e) then append_event e iv else iv)) iv events in
      let '(failure, pause) := foldl note_status (None, None) events in
      (iv,
       match failure, pause with
       | Some f, _ => Raised ("remote agent " +:+ dn_agent_name node +:+ " failed: " +:+ f)
       | None, Some p => Raised ("remote agent " +:+ dn_agent_name node +:+ ": " +:+ p)
       | None, None => Returned (default estr output)
       end)
  end.
End request.

(** ** The HTTP client of a remote agent *)

(** Clients by number: the agent's ([httpx_client]), that of the factory, that of the
    resolved A2A client; whether the card is known, the agent is resolved and the client
    is its own to close; the number of the next client, and the clients that are open. *)
Record Clients := mkClients {
  cl_httpx : option nat; cl_factory : option nat; cl_a2a : option nat;
  cl_card : bool; cl_resolved : bool; cl_owned : bool; cl_next : nat; cl_open : gset nat }.

(** What one attempt to resolve the agent meets: a url that parses, a card that can be
    fetched and is valid, a factory that accepts it. *)
Record Attempt := mkAttempt { at_url : bool; at_card : bool; at_valid : bool; at_create : bool }.

Definition own_client (st : Clients) : Clients :=
  match cl_httpx st with
  | Some _ => st
  | None => mkClients (Some (cl_next st)) (cl_factory st) (cl_a2a st) (cl_card st) (cl_resolved st) true
              (S (cl_next st)) ({[cl_next st]} ∪ cl_open st)
  end.
Definition _ensure_httpx_client (st : Clients) : Clients :=
  let st := own_client st in
  mkClients (cl_httpx st) (match cl_factory st with Some f => Some f | None => cl_httpx st end) (cl_a2a st)
    (cl_card st) (cl_resolved st) (cl_owned st) (cl_next st) (cl_open st).

(** [if not self._agent_card]: fetched, checked, and only then kept. *)
Definition find_card (at_ : Attempt) (st : Clients) : Clients * bool :=
  if cl_card st then (st, true)
  else if negb (at_url at_) then (st, false)
  else
    let st := _ensure_httpx_client st in
    if at_card at_ && at_valid at_ then
      (mkClients (cl_httpx st) (cl_factory st) (cl_a2a st) true (cl_resolved st) (cl_owned st) (cl_next st) (cl_open st), true)
    else (st, false).

(** [if not self._a2a_client]: made by the factory, over the client of the factory. *)
Definition make_a2a (at_ : Attempt) (st : Clients) : Clients * bool :=
  match cl_a2a st with
  | Some _ => (st, true)
  | None =>
      let st := _ensure_httpx_client st in
      if at_create at_ then
        (mkClients (cl_httpx st) (cl_factory st) (cl_factory st) (cl_card st) (cl_resolved st) (cl_owned st) (cl_next st) (cl_open st), true)
      else (st, false)
  end.

(** The clients in a call of [_ensure_resolved]: the client it returns, if it returns. *)
Definition resolve_clients (at_ : Attempt) (st : Clients) : Clients * option nat :=
  match cl_resolved st, cl_a2a st with
  | true, Some c => (st, Some c)
  | _, _ =>
      match find_card at_ st with
      | (st, false) => (st, None)
      | (st, true) =>
          match make_a2a at_ st with
          | (st, false) => (st, None)
          | (st, true) =>
              (mkClients (cl_httpx st) (cl_factory st) (cl_a2a st) (cl_card st) true (cl_owned st) (cl_next st) (cl_open st), cl_a2a st)
          end
      end
  end.

(** [cleanup]: its own client is closed, whatever closing raises, and forgotten. *)
Definition cleanup (st : Clients) : Clients :=
  match cl_httpx st with
  | Some c =>
      if cl_owned st then
        mkClients None (cl_factory st) (cl_a2a st) (cl_card st) (cl_resolved st) (cl_owned st) (cl_next st) (cl_open st ∖ {[c]})
      else st
  | None => st
  end.

Inductive client_step : Clients -> option (option nat) -> Clients -> Prop :=
| client_resolves at_ st st' c : resolve_clients at_ st = (st', c) -> client_step st (Some c) st'
| client_cleans st : client_step st None (cleanup st).

(** An agent at the start, with the client and the factory it was given. *)
Definition given_clients (httpx factory : option nat) (next : nat) (given : gset nat) : Clients :=
  mkClients httpx factory None false false false next given.
