(* ===== verification/RemoteFacts.v ===== *)
(** * What a call of a remote agent comes to (facts of RemoteA2a.v)

    The chunks of an artifact show once, complete; a snapshot shows something, and
    a failed one its failure; the node that runs the agent raises exactly when the
    call or the remote task failed, or paused and said so. *)
From S2P Require Import Prelude PyStr Dict Json Graph NewEvents NodePath Contents NodeRunner DagPlan DagRuntime Orchestrator RemoteA2a.
Local Open Scope string_scope.
Local Open Scope list_scope.

(** ** Chunks *)

(** The parts of an artifact that have come since it was last begun or ended. *)
Definition pending_step (k : string) (acc : list EPart) (e : Event) : list EPart :=
  match ev_body e with
  | ArtifactUpdate id ps append last =>
      if decide (id = k) then if last then [] else (if append then acc else []) ++ ps else acc
  | _ => acc
  end.
Definition pending_parts (k : string) (l : list Event) : list EPart := foldl (pending_step k) [] l.

Definition buffers_after (l : list Event) : buffers := foldl (fun b e => (response_events b (Content e)).1) [] l.

Lemma buffers_step k b e : NoDup (dkeys b) ->
  NoDup (dkeys (response_events b (Content e)).1) /\
  default [] (dget k (response_events b (Content e)).1) = pending_step k (default [] (dget k b)) e.
Proof.
  intros Hb. unfold response_events, pending_step. destruct (ev_body e) as [| id ps append last|]; [done| |done].
  unfold _aggregate_artifact_update. destruct last; cbn [fst].
  - split; [by apply NoDup_ddel, NoDup_dset|]. rewrite dget_ddel by (by apply NoDup_dset).
    destruct (decide (id = k)) as [->|]; [done|]. by rewrite dget_dset_ne by congruence.
  - split; [by apply NoDup_dset|]. destruct (decide (id = k)) as [->|].
    + rewrite dget_dset_eq. by destruct append.
    + by rewrite dget_dset_ne by congruence.
Qed.

Lemma buffers_pending l k : NoDup (dkeys (buffers_after l)) /\ default [] (dget k (buffers_after l)) = pending_parts k l.
Proof.
  unfold buffers_after, pending_parts. induction l as [|e l [IHn IH]] using rev_ind; [by split; [constructor|]|].
  rewrite !foldl_app. cbn [foldl]. rewrite <- IH. by apply buffers_step.
Qed.

(** C19: The chunks of the artifacts of a stream, in any interleaving: a chunk shows
    nothing until the last one of its artifact, and then the parts that have come
    since the artifact was begun, in order and once. *)
Theorem chunks_assemble l e k ps append last_chunk (He : ev_body e = ArtifactUpdate k ps append last_chunk) :
  let out := (response_events (buffers_after l) (Content e)).2 in
  (out ≫= event_content_parts) = (if last_chunk then (if append then pending_parts k l else []) ++ ps else []) /\
  filterb complete out =
    (if last_chunk then [mkEvent (ev_task_id e) (ev_context_id e) (ev_meta e)
                           (ArtifactUpdate k ((if append then pending_parts k l else []) ++ ps) false true)] else []).
Proof.
  cbn zeta. unfold response_events. rewrite He. unfold _aggregate_artifact_update.
  pose proof (buffers_pending l k) as [_ ->]. destruct e as [tid cid m body]. cbn in He. subst body.
  unfold complete, is_partial_event, is_final_artifact, event_content_parts.
  destruct last_chunk, append; cbn; rewrite ?app_nil_r; done.
Qed.

(** ** Snapshots *)

Definition is_status (e : Event) : bool := match ev_body e with Status _ _ => true | _ => false end.

Definition has_artifact_parts (task : RemoteTask) : bool := nonempty (concat (rt_task_artifacts task)).

(** Whether the state of the snapshot is told. *)
Definition tells_state (task : RemoteTask) : bool :=
  keeps_status task (concat (rt_task_artifacts task))
  || negb (has_artifact_parts task)
     && (negb (bool_decide (rt_state task ∈ TASK_RESPONSE_BOUNDARY_STATES)) || negb (bool_decide (is_Some (last_agent_message task)))).

Lemma last_agent_history task : rt_history task = [] -> last_agent_message task = None.
Proof. unfold last_agent_message. by intros ->. Qed.

(** The events are the status, or another event before what [Hs] and [Hn] speak of. *)
Ltac tells Hs Hn Hc := split; [done|]; first [exact Hn | exact Hs | apply Hc; [done | first [exact Hn | exact Hs]]].

Lemma snapshot_tells task :
  existsb is_status (_events_from_task task) = tells_state task /\
  forall e, e ∈ _events_from_task task -> is_status e = true -> e = status_event task.
Proof.
  unfold _events_from_task, tells_state, has_artifact_parts.
  assert (forall e, e ∈ [status_event task] -> is_status e = true -> e = status_event task) as Hs by (by intros e ->%list_elem_of_singleton).
  assert (forall e (l : list Event), is_status e = false -> (forall x, x ∈ l -> is_status x = true -> x = status_event task) ->
    forall x, x ∈ e :: l -> is_status x = true -> x = status_event task) as Hc.
  { intros e l He Hl x Hx Hsx. apply elem_of_cons in Hx as [->|Hx]; [congruence|by apply Hl]. }
  assert (forall x : Event, x ∈ [] -> is_status x = true -> x = status_event task) as Hn by (intros x Hx; by apply elem_of_nil in Hx).
  destruct (nonempty (concat (rt_task_artifacts task))) eqn:Ea, (keeps_status task _) eqn:Ek; cbn -[status_event]; rewrite ?orb_true_r;
    [tells Hs Hn Hc..|].
  destruct (bool_decide (rt_state task ∈ TASK_RESPONSE_BOUNDARY_STATES)); cbn -[status_event]; [|tells Hs Hn Hc].
  destruct (rt_history task) as [|h hs] eqn:Eh.
  - rewrite (last_agent_history _ Eh). cbn -[status_event]. tells Hs Hn Hc.
  - cbn -[status_event last_agent_message]. destruct (last_agent_message task) as [m|] eqn:Em; cbn -[status_event]; tells Hs Hn Hc.
Qed.

(** A snapshot of the remote task always yields something; that of a task that
    failed ends with its status; that of a task that is over, when it has artifacts,
    shows all their parts in order. *)
Theorem snapshot_spec task :
  _events_from_task task <> [] /\
  (rt_state task ∈ FAILURE_TERMINAL_STATES -> last (_events_from_task task) = Some (status_event task)) /\
  (rt_state task ∉ NON_FINAL_TASK_STATES -> has_artifact_parts task = true ->
     head (filterb complete (_events_from_task task)) =
     Some (mkEvent (rt_id task) (rt_context task) no_meta (ArtifactUpdate (rt_id task) (concat (rt_task_artifacts task)) false true))) /\
  (existsb is_status (_events_from_task task) = true <->
     rt_state task ∈ FAILURE_TERMINAL_STATES \/
     (rt_status_parts task <> [] /\
      (rt_state task ∈ PAUSE_STATES \/ (has_artifact_parts task = false /\ rt_state task ∈ TASK_RESPONSE_BOUNDARY_STATES))) \/
     (has_artifact_parts task = false /\
      (rt_state task ∉ TASK_RESPONSE_BOUNDARY_STATES \/ last_agent_message task = None))).
Proof.
  split_and!.
  - unfold _events_from_task. destruct (nonempty (concat _)), (keeps_status task _); cbn -[status_event]; try done.
    destruct (bool_decide _ && _); cbn -[status_event]; [|done]. by destruct (last_agent_message task).
  - intros Hf. unfold _events_from_task. assert (keeps_status task (concat (rt_task_artifacts task)) = true) as ->
      by (unfold keeps_status; by rewrite bool_decide_eq_true_2).
    by destruct (nonempty (concat _)).
  - intros Hf Ha. unfold _events_from_task. unfold has_artifact_parts in Ha. rewrite Ha, bool_decide_eq_false_2 by done.
    by destruct (keeps_status task _).
  - pose proof (snapshot_tells task) as [-> _]. unfold tells_state, keeps_status. fold (has_artifact_parts task).
    rewrite !orb_true_iff, !andb_true_iff, !orb_true_iff, !andb_true_iff, !bool_decide_eq_true, !negb_true_iff, !bool_decide_eq_false.
    change [TaskState.INPUT_REQUIRED; TaskState.AUTH_REQUIRED] with PAUSE_STATES.
    assert (nonempty (rt_status_parts task) = true <-> rt_status_parts task <> []) as -> by (by destruct (rt_status_parts task)).
    rewrite <- eq_None_not_Some. tauto.
Qed.

(** ** The node *)

Lemma exists_cons {A} (P : A -> Prop) x l : (exists y, y ∈ x :: l /\ P y) <-> P x \/ exists y, y ∈ l /\ P y.
Proof. setoid_rewrite elem_of_cons. naive_solver. Qed.
Lemma exists_app {A} (P : A -> Prop) l k : (exists y, y ∈ l ++ k /\ P y) <-> (exists y, y ∈ l /\ P y) \/ exists y, y ∈ k /\ P y.
Proof. setoid_rewrite elem_of_app. naive_solver. Qed.
Lemma exists_nil {A} (P : A -> Prop) : (exists y, y ∈ [] /\ P y) <-> False.
Proof. split; [|done]. intros (y & Hy & _). by apply elem_of_nil in Hy. Qed.

Section facts.
Context (py_repr : json -> string) (sort_items : list (string * json) -> list (string * json)).

(** The request holds what the user and the other agents have said since the
    agent's own last response, in order, and continues the context of that response. *)
Theorem request_since_last_response agent before response since (g : Event -> list EPart)
    (Hresponse : _is_remote_response agent response = true)
    (Hsince : forall e, e ∈ since -> _is_remote_response agent e = false /\ request_parts py_repr sort_items agent e = Ok (g e)) :
  _construct_message_parts_from_session py_repr sort_items agent since = Ok (since ≫= g, None) /\
  _construct_message_parts_from_session py_repr sort_items agent (before ++ response :: since) =
    Ok (since ≫= g, em_a2a_context_id (ev_meta response)).
Proof.
  assert (forall k acc, collect_parts py_repr sort_items agent (rev since ++ k) acc = collect_parts py_repr sort_items agent k ((since ≫= g) ++ acc)) as H.
  { induction since as [|e l IH] using rev_ind; [done|]. intros k acc. rewrite rev_unit. cbn [app collect_parts].
    destruct (Hsince e) as [-> ->]; [set_solver|]. cbn [mbind res_bind]. rewrite IH by (intros; apply Hsince; set_solver).
    rewrite bind_app. cbn. by rewrite app_nil_r, app_assoc. }
  unfold _construct_message_parts_from_session. split.
  - rewrite <- (app_nil_r (rev since)), H. cbn. by rewrite app_nil_r.
  - rewrite rev_app_distr. cbn [rev]. rewrite <- app_assoc, H. cbn [app collect_parts]. by rewrite Hresponse, app_nil_r.
Qed.

Lemma promote_output l : forall o, (promote_events o l).1 = match o with Some t => Some t | None => head (omap promotes l) end.
Proof.
  induction l as [|e l IH]; intros o; [by destruct o|]. cbn [promote_events omap list_omap].
  destruct o as [t|]; [|destruct (promotes e) as [t|]];
    (destruct (promote_events _ l) as [o' es] eqn:E; cbn [fst]; apply (f_equal fst) in E; rewrite IH in E; cbn in E |- *; done).
Qed.

(** Only the body of an event counts. *)
Lemma promote_bodies l : forall o, ev_body <$> (promote_events o l).2 = ev_body <$> l.
Proof.
  induction l as [|e l IH]; intros o; [done|]. cbn [promote_events].
  destruct o as [t|]; [|destruct (promotes e) as [t|]];
    (destruct (promote_events _ l) as [o' es] eqn:E; cbn [snd]; apply (f_equal snd) in E; cbn in E; rewrite !fmap_cons, <- E, IH; done).
Qed.

Definition body_fails (b : EBody) : Prop := match b with Status s _ => s ∈ FAILURE_STATES | _ => False end.
Definition body_pauses (b : EBody) : Prop := match b with Status s _ => s ∈ PAUSE_STATES | _ => False end.

Lemma note_status_spec l : forall f p,
  (is_Some (foldl note_status (f, p) l).1 <-> is_Some f \/ exists b, b ∈ ev_body <$> l /\ body_fails b) /\
  (is_Some (foldl note_status (f, p) l).2 <-> is_Some p \/ exists b, b ∈ ev_body <$> l /\ body_pauses b).
Proof.
  assert (forall f p e, (is_Some (note_status (f, p) e).1 <-> is_Some f \/ body_fails (ev_body e)) /\
                        (is_Some (note_status (f, p) e).2 <-> is_Some p \/ body_pauses (ev_body e))) as Hone.
  { intros f p e. unfold note_status, _status_state, body_fails, body_pauses. destruct (ev_body e) as [s ps| |]; [|cbn; tauto..].
    assert (s ∈ FAILURE_STATES -> s ∉ PAUSE_STATES) as Hdisj by (intros H; unfold FAILURE_STATES, PAUSE_STATES in *; set_solver).
    destruct (bool_decide (s ∈ FAILURE_STATES)) eqn:Ef, f as [f|]; bool_prop; cbn;
      destruct (bool_decide (s ∈ PAUSE_STATES)) eqn:Ep, p as [p|]; bool_prop; cbn; rewrite ?is_Some_alt; naive_solver. }
  induction l as [|e l IH]; intros f p; [cbn -[elem_of]; rewrite !exists_nil; tauto|].
  cbn [foldl]. destruct (Hone f p e) as [H1 H2], (note_status (f, p) e) as [f' p'] eqn:E. cbn [fst snd] in H1, H2.
  destruct (IH f' p') as [-> ->]. rewrite H1, H2, fmap_cons, !exists_cons. split; naive_solver.
Qed.

(** Whether the caller is told that the remote task failed or paused. *)
Definition stops (r : StreamResponse) : Prop :=
  match r with
  | Content e => body_fails (ev_body e) \/ body_pauses (ev_body e)
  | Snapshot task => (rt_state task ∈ FAILURE_STATES \/ rt_state task ∈ PAUSE_STATES) /\ tells_state task = true
  | NoPayload => False
  end.

Lemma response_stops b r :
  (exists x, x ∈ ev_body <$> (response_events b r).2 /\ (body_fails x \/ body_pauses x)) <-> stops r.
Proof.
  destruct r as [e|task|]; cbn [response_events stops].
  - unfold _aggregate_artifact_update. destruct (ev_body e) as [| id ps [] []|] eqn:E; cbn -[elem_of]; rewrite ?E, ?exists_cons, ?exists_nil; cbn; naive_solver.
  - cbn [snd]. destruct (snapshot_tells task) as [<- Hs]. rewrite existsb_elem. setoid_rewrite list_elem_of_fmap. split.
    + intros (x & (e & -> & He) & Hx). assert (is_status e = true) as Hst by (unfold is_status; by destruct (ev_body e); [|destruct Hx..]).
      rewrite (Hs e He Hst) in Hx. eauto.
    + intros (Hx & e & He & Hst). exists (ev_body e). split; [by exists e|]. by rewrite (Hs e He Hst).
  - apply exists_nil.
Qed.

Lemma handle_stops agent tid cid rs : forall b,
  (exists x, x ∈ ev_body <$> handle_responses agent tid cid b rs /\ (body_fails x \/ body_pauses x)) <-> exists r, r ∈ rs /\ stops r.
Proof.
  induction rs as [|r rs IH]; intros b; [cbn -[elem_of]; by rewrite !exists_nil|].
  cbn [handle_responses]. unfold _handle_a2a_response. pose proof (response_stops b r) as Hr.
  destruct (response_events b r) as [b' es]. cbn [snd] in Hr. rewrite fmap_app.
  assert (ev_body <$> (own_event agent tid cid <$> es) = ev_body <$> es) as -> by (rewrite <- list_fmap_compose; by apply list_fmap_ext).
  rewrite exists_app, exists_cons, (IH b'), Hr. done.
Qed.

Lemma run_async_bodies name (l : list Event) : ev_body <$> (run_async name <$> l) = ev_body <$> l.
Proof. rewrite <- list_fmap_compose. apply list_fmap_ext. intros _ e _. unfold compose, run_async. by destruct (str_truthy _). Qed.

Lemma promotes_body e e' : ev_body e = ev_body e' -> promotes e = promotes e'.
Proof.
  unfold promotes, is_partial_event, is_final_artifact, extract_text, extract_text_with, event_content_parts. by intros ->.
Qed.
Lemma promotes_bodies (l k : list Event) : ev_body <$> l = ev_body <$> k -> omap promotes l = omap promotes k.
Proof.
  revert k. induction l as [|e l IH]; intros [|e' k] H; try done. rewrite !fmap_cons in H. simplify_eq. cbn [omap list_omap].
  rewrite (promotes_body e e') by done. by rewrite (IH k).
Qed.

Lemma message_request agent message :
  _construct_message_parts_from_session py_repr sort_items agent [user_message message] = Ok ([text_part message], None).
Proof.
  unfold _construct_message_parts_from_session. cbn [rev app collect_parts].
  assert (_is_remote_response agent (user_message message) = false) as -> by (unfold _is_remote_response; by rewrite andb_false_r).
  assert (is_other_agent_reply (ra_name agent) (user_message message) = false) as E.
  { unfold is_other_agent_reply. cbn. by rewrite andb_false_r. }
  unfold request_parts. by rewrite E.
Qed.

(** What is forwarded. *)
Definition node_events (remote : Remote) (agent : RemoteA2aAgent) (task_id context_id : string) : list Event :=
  match _ensure_resolved agent remote with
  | Err x => [failed_status agent task_id context_id ("Failed to initialize remote A2A agent " +:+ ra_name agent +:+ " - " +:+ exn_str x)]
  | Ok _ =>
      handle_responses agent task_id context_id [] (re_responses remote)
      ++ match re_broken remote with
         | Some x => [failed_status agent task_id context_id ("Failed to send message to remote A2A agent " +:+ ra_name agent +:+ " - " +:+ exn_str x)]
         | None => []
         end
  end.

Lemma run_async_impl_events remote agent task_id context_id message :
  exists rq, _run_async_impl py_repr sort_items agent remote task_id context_id [user_message message] =
    Ok (rq, node_events remote agent task_id context_id) /\
    rq = match _ensure_resolved agent remote with Ok _ => Some (mkRequest [text_part message] None) | Err _ => None end.
Proof.
  unfold _run_async_impl, node_events. rewrite message_request.
  destruct (_ensure_resolved agent remote); cbn; by eexists.
Qed.

Lemma owned tid cid agent e :
  ev_task_id (own_event agent tid cid e) = tid /\ ev_context_id (own_event agent tid cid e) = cid /\
  em_author (ev_meta (own_event agent tid cid e)) = ra_name agent.
Proof. done. Qed.

Definition is_owned (tid cid name : string) (e : Event) : Prop :=
  ev_task_id e = tid /\ ev_context_id e = cid /\ em_author (ev_meta e) = name.

Lemma node_events_owned remote agent tid cid : Forall (is_owned tid cid (ra_name agent)) (node_events remote agent tid cid).
Proof.
  assert (forall rs b, Forall (is_owned tid cid (ra_name agent)) (handle_responses agent tid cid b rs)) as H.
  { induction rs as [|r rs IH]; intros b; [constructor|]. cbn [handle_responses]. unfold _handle_a2a_response.
    destruct (response_events b r) as [b' es]. apply Forall_app. split; [|apply IH]. apply Forall_fmap, Forall_true. intros e. apply owned. }
  unfold node_events. destruct (_ensure_resolved agent remote); [|by repeat constructor].
  apply Forall_app. split; [apply H|]. destruct (re_broken remote); by repeat constructor.
Qed.

Lemma promote_owned P l : (forall e o, P e -> P (with_meta (set_output o) e)) -> forall o, Forall P l -> Forall P (promote_events o l).2.
Proof.
  intros HP. induction l as [|e l IH]; intros o Hl; [done|]. apply Forall_cons in Hl as [He Hl]. cbn [promote_events].
  destruct o as [t|]; [|destruct (promotes e) as [t|]];
    (destruct (promote_events _ l) as [o' es] eqn:E; cbn [snd]; apply (f_equal snd) in E; cbn in E; subst es; constructor; auto).
Qed.

Lemma forward_spec (l : list Event) : forall iv,
  foldl (fun iv e => put_event e (if negb (is_partial_event e) then append_event e iv else iv)) iv l =
  mkInvocation (iv_events iv ++ filterb complete l) ((fun q => q ++ l) <$> iv_queue iv).
Proof.
  induction l as [|e l IH]; intros [evs q]; [cbn; rewrite app_nil_r; f_equal; destruct q; cbn; by rewrite ?app_nil_r|].
  cbn [foldl]. rewrite IH. fold (complete e). cbn [filterb List.filter].
  destruct (complete e); unfold put_event, append_event; cbn; f_equal; rewrite <- ?app_assoc; try done; destruct q; cbn; by rewrite <- ?app_assoc.
Qed.

Lemma remote_node_facts remote task_id context_id node info message iv :
  let agent := mkRemoteAgent (dn_agent_name node) (ai_url info) in
  let '(iv', outcome) := run_remote_node py_repr sort_items remote task_id context_id node info message iv in
  ((exists msg, outcome = Raised msg) <->
     is_ok (_ensure_resolved agent remote) = false \/ is_Some (re_broken remote) \/ exists r, r ∈ re_responses remote /\ stops r) /\
  (forall o, outcome = Returned o ->
     o = default estr (head (omap promotes (handle_responses agent task_id context_id [] (re_responses remote))))) /\
  (exists forwarded, iv' = mkInvocation (iv_events iv ++ filterb complete forwarded) ((fun q => q ++ forwarded) <$> iv_queue iv) /\
     Forall (is_owned task_id context_id (dn_agent_name node)) forwarded /\
     ev_body <$> forwarded = ev_body <$> node_events remote agent task_id context_id).
Proof.
  cbn zeta. set (agent := mkRemoteAgent _ _). unfold run_remote_node. fold agent.
  destruct (run_async_impl_events remote agent task_id context_id message) as (rq & -> & _).
  set (evs := node_events remote agent task_id context_id).
  pose proof (promote_output (run_async (ra_name agent) <$> evs) None) as Ho.
  pose proof (promote_bodies (run_async (ra_name agent) <$> evs) None) as Hb.
  pose proof (promote_owned (is_owned task_id context_id (ra_name agent)) (run_async (ra_name agent) <$> evs) ltac:(done) None) as Hown.
  destruct (promote_events None _) as [output fwd]. cbn [fst snd] in Ho, Hb, Hown.
  rewrite run_async_bodies in Hb. rewrite (promotes_bodies _ evs (run_async_bodies _ _)) in Ho.
  pose proof (note_status_spec fwd None None) as [Hf Hp]. rewrite Hb in Hf, Hp. destruct (foldl note_status _ fwd) as [f p]. cbn [fst snd] in Hf, Hp.
  assert (is_Some f \/ is_Some p <->
    is_ok (_ensure_resolved agent remote) = false \/ is_Some (re_broken remote) \/ exists r, r ∈ re_responses remote /\ stops r) as Hraise.
  { transitivity (exists b, b ∈ ev_body <$> evs /\ (body_fails b \/ body_pauses b)); [rewrite Hf, Hp, <- !not_eq_None_Some; naive_solver|].
    unfold evs, node_events. destruct (_ensure_resolved agent remote) as [u|x]; cbn [is_ok].
    - rewrite fmap_app, exists_app, handle_stops. destruct (re_broken remote) as [x|]; cbn -[elem_of]; rewrite ?exists_cons, ?exists_nil.
      + split; [intros _; right; left; by eexists | intros _; right; left; left; cbn; unfold FAILURE_STATES; set_solver].
      + rewrite is_Some_alt. naive_solver.
    - cbn -[elem_of]. rewrite exists_cons. split; [by left | intros _; left; left; cbn; unfold FAILURE_STATES; set_solver]. }
  split_and!.
  - rewrite <- Hraise. destruct f as [f|]; [|destruct p as [p|]]; rewrite ?is_Some_alt; naive_solver.
  - intros o Hout. destruct f as [f|]; [done|]. destruct p as [p|]; [done|]. injection Hout as <-. rewrite Ho. f_equal.
    unfold evs, node_events in *. destruct (_ensure_resolved agent remote) as [u|x].
    + destruct (re_broken remote) as [x|]; [|by rewrite app_nil_r]. destruct Hraise as [_ H]. rewrite !is_Some_alt in H. naive_solver.
    + destruct Hraise as [_ H]. rewrite !is_Some_alt in H. naive_solver.
  - exists fwd. split; [by rewrite forward_spec|]. split; [|done]. apply Hown.
    apply Forall_fmap. eapply Forall_impl; [apply node_events_owned|]. intros e (? & ? & Ha). unfold compose, run_async.
    destruct (str_truthy _); done.
Qed.

(** The agent can be reached: its url has a scheme and a host, a card is found there,
    whose url (that of its first JSON-RPC interface, or else of its first) has both too,
    and a client can be made for the card. *)
Definition parses (remote : Remote) (url scheme netloc path : string) : Prop :=
  re_parse remote url = Ok (scheme, netloc, path) /\ scheme <> estr /\ netloc <> estr.
Definition reaches_agent (remote : Remote) (url : string) : Prop :=
  exists scheme netloc path card first others rpc,
    parses remote url scheme netloc path /\ re_get_card remote (scheme +:+ "://" +:+ netloc) path = Ok card /\
    ac_interfaces card = first :: others /\
    rpc = match find_first (fun i => bool_decide (i.1 = "JSONRPC")) (first :: others) with Some i => i.2 | None => first.2 end /\
    rpc <> estr /\ (exists s n p, parses remote rpc s n p) /\ re_create remote card = Ok tt.

Lemma checked_iff remote url s n p : checked_url remote url = Ok (s, n, p) <-> parses remote url s n p.
Proof.
  unfold checked_url, parses. destruct (re_parse remote url) as [[[s' n'] p']|e]; cbn; [|naive_solver].
  destruct (str_truthy s') eqn:Es, (str_truthy n') eqn:En; cbn; split; try done; try (intros [[= <- <- <-] [H1 H2]]).
  - intros [= <- <- <-]. apply str_truthy_true in Es, En. done.
  - done.
  - by apply str_truthy_true in H2; rewrite H2 in En.
  - by apply str_truthy_true in H1; rewrite H1 in Es.
  - by apply str_truthy_true in H1; rewrite H1 in Es.
Qed.

Lemma resolved_iff remote agent : is_ok (_ensure_resolved agent remote) = true <-> reaches_agent remote (ra_url agent).
Proof.
  unfold _ensure_resolved, _resolve_agent_card_from_url, _validate_agent_card, _get_card_rpc_url, reaches_agent.
  assert (forall A pre (r : res A), is_ok (card_error pre r) = true <-> is_ok r = true) as Hc by (by intros A pre []).
  rewrite Hc. destruct (checked_url remote (ra_url agent)) as [[[s n] p]|e] eqn:Eu.
  2: { split; [done|]. intros (s & n & p & card & _ & _ & _ & Hp & _). apply checked_iff in Hp. congruence. }
  cbn [mbind res_bind]. pose proof (proj1 (checked_iff _ _ _ _ _) Eu) as Hu.
  assert (forall s' n' p', parses remote (ra_url agent) s' n' p' -> s' = s /\ n' = n /\ p' = p) as Huniq.
  { intros s' n' p' Hp. apply checked_iff in Hp. rewrite Eu in Hp. by injection Hp. }
  destruct (re_get_card remote (s +:+ "://" +:+ n) p) as [card|e] eqn:Eg; cbn.
  2: { split; [done|]. intros (s' & n' & p' & card & _ & _ & _ & (-> & -> & ->)%Huniq & Hg & _). congruence. }
  transitivity (exists first others rpc, ac_interfaces card = first :: others /\
    rpc = match find_first (fun i => bool_decide (i.1 = "JSONRPC")) (first :: others) with Some i => i.2 | None => first.2 end /\
    rpc <> estr /\ (exists s n p, parses remote rpc s n p) /\ re_create remote card = Ok tt).
  2: { split; [intros (f & o & rpc & ?); by exists s, n, p, card, f, o, rpc|].
       intros (s' & n' & p' & card' & f & o & rpc & (-> & -> & ->)%Huniq & Hg & H). exists f, o, rpc. by assert (card' = card) as -> by congruence. }
  destruct (ac_interfaces card) as [|f o]; cbn [mbind res_bind]; [split; [done | by intros (? & ? & ? & ? & _)]|].
  set (rpc := match find_first (fun i : string * string => bool_decide (i.1 = "JSONRPC")) (f :: o) with Some i => i.2 | None => f.2 end).
  assert (match find_first (fun i => bool_decide (i.1 = "JSONRPC")) (f :: o) with Some j => Some j.2 | None => Some f.2 end = Some rpc) as ->
    by (unfold rpc; by destruct (find_first _ _)).
  transitivity (rpc <> estr /\ (exists s n p, parses remote rpc s n p) /\ re_create remote card = Ok tt).
  2: { split; [intros H; by exists f, o, rpc | intros (f' & o' & rpc' & [= <- <-] & -> & H); exact H]. }
  rewrite <- str_truthy_true. destruct (str_truthy rpc); [|split; [done | by intros [? _]]].
  destruct (checked_url remote rpc) as [[[s1 n1] p1]|e] eqn:Er; cbn.
  - apply checked_iff in Er. destruct (re_create remote card) as [[]|e]; cbn; [|naive_solver]. split; [|done]. intros _. split; [done|]. split; [eauto|done].
  - split; [done|]. intros (_ & (s1 & n1 & p1 & Hp) & _). apply checked_iff in Hp. congruence.
Qed.

(** A response says that the remote task failed: a status update or a snapshot with one
    of the states of failure, whatever else it carries. *)
Definition tells_failure (r : StreamResponse) : Prop :=
  match r with
  | Content e => exists s parts, ev_body e = Status s parts /\ s ∈ [TaskState.FAILED; TaskState.REJECTED; TaskState.CANCELED]
  | Snapshot task => rt_state task ∈ [TaskState.FAILED; TaskState.REJECTED; TaskState.CANCELED]
  | NoPayload => False
  end.

(** A response says that it paused: a status update with a pausing state; or a snapshot
    with one, when the status has a message, or there is nothing else to show (no
    artifact with parts, no message of the agent with parts in the history). *)
Definition tells_pause (r : StreamResponse) : Prop :=
  match r with
  | Content e => exists s parts, ev_body e = Status s parts /\ s ∈ [TaskState.INPUT_REQUIRED; TaskState.AUTH_REQUIRED]
  | Snapshot task =>
      rt_state task ∈ [TaskState.INPUT_REQUIRED; TaskState.AUTH_REQUIRED] /\
      (rt_status_parts task <> [] \/
       concat (rt_task_artifacts task) = [] /\ forall m, m ∈ rt_history task -> hm_from_agent m = true -> hm_parts m = [])
  | NoPayload => False
  end.

Lemma no_agent_message task :
  last_agent_message task = None <-> forall m, m ∈ rt_history task -> hm_from_agent m = true -> hm_parts m = [].
Proof.
  unfold last_agent_message. rewrite find_first_none. setoid_rewrite list_elem_of_In. setoid_rewrite <- in_rev. setoid_rewrite <- list_elem_of_In.
  split; intros H m Hm; specialize (H m Hm).
  - intros Hf. rewrite Hf in H. by destruct (hm_parts m).
  - destruct (hm_from_agent m); [|done]. by rewrite H.
Qed.

Lemma stops_iff r : stops r <-> tells_failure r \/ tells_pause r.
Proof.
  destruct r as [e|task|]; cbn [stops tells_failure tells_pause]; [| |tauto].
  - unfold body_fails, body_pauses. change FAILURE_STATES with [TaskState.FAILED; TaskState.REJECTED; TaskState.CANCELED].
    change PAUSE_STATES with [TaskState.INPUT_REQUIRED; TaskState.AUTH_REQUIRED]. destruct (ev_body e) as [s ps| |]; naive_solver.
  - rewrite <- no_agent_message. unfold tells_state, keeps_status, has_artifact_parts.
    destruct (decide (rt_state task ∈ FAILURE_STATES)) as [Hf|Hf].
    { change FAILURE_TERMINAL_STATES with FAILURE_STATES. rewrite (bool_decide_true (_ ∈ FAILURE_STATES)) by done.
      split; [by left|]. intros _. split; [by left | done]. }
    change FAILURE_TERMINAL_STATES with FAILURE_STATES. rewrite (bool_decide_false (_ ∈ FAILURE_STATES)) by done.
    change [TaskState.FAILED; TaskState.REJECTED; TaskState.CANCELED] with FAILURE_STATES.
    change [TaskState.INPUT_REQUIRED; TaskState.AUTH_REQUIRED] with PAUSE_STATES. cbn [orb].
    destruct (decide (rt_state task ∈ PAUSE_STATES)) as [Hp|Hp]; [|tauto].
    assert (rt_state task ∈ TASK_RESPONSE_BOUNDARY_STATES) as Hb.
    { unfold PAUSE_STATES in Hp. repeat (apply elem_of_cons in Hp as [->|Hp]; [apply (bool_decide_unpack _); by vm_compute|]). by apply elem_of_nil in Hp. }
    rewrite (bool_decide_true (_ ∈ PAUSE_STATES)), (bool_decide_true (_ ∈ TASK_RESPONSE_BOUNDARY_STATES)) by done. cbn [negb orb].
    rewrite andb_true_r, orb_true_iff, andb_true_iff, !negb_true_iff, bool_decide_eq_false, <- eq_None_not_Some.
    destruct (rt_status_parts task), (concat (rt_task_artifacts task)); cbn; naive_solver.
Qed.

(** The text that what has come to an end says: a message, a complete artifact or the
    status of a task that is over; less thoughts, calls and responses of tools. *)
Definition ended_text (b : EBody) : option string :=
  let text parts :=
    let t := str_join estr (pt_text <$> filterb (fun p => negb (pt_thought p) && bool_decide (pt_type p = None)) parts) in
    if bool_decide (t = estr) then None else Some t in
  match b with
  | AMessage _ parts => text parts
  | ArtifactUpdate _ parts append last_chunk => if last_chunk && negb append then text parts else None
  | Status s parts =>
      if bool_decide (s ∈ [TaskState.COMPLETED; TaskState.FAILED; TaskState.CANCELED; TaskState.REJECTED]) then text parts else None
  end.

Lemma shown_text parts :
  str_join estr (pt_text <$> filterb (shows_text false) parts) =
  str_join estr (pt_text <$> filterb (fun p => negb (pt_thought p) && bool_decide (pt_type p = None)) parts).
Proof.
  assert (forall x ys, str_join estr (x :: ys) = x +:+ str_join estr ys) as Hj
    by (intros x [|y ys]; [cbn; by rewrite sapp_nil_r | rewrite str_join_cons by done; by rewrite sapp_nil]).
  induction parts as [|p parts IH]; [done|]. cbn [filterb List.filter]. fold (filterb (shows_text false) parts).
  fold (filterb (fun p => negb (pt_thought p) && bool_decide (pt_type p = None)) parts).
  assert (shows_text false p = str_truthy (pt_text p) && (negb (pt_thought p) && bool_decide (pt_type p = None))) as ->.
  { destruct p as [[|a t] d [] [[]|]]; done. }
  destruct (negb (pt_thought p) && bool_decide (pt_type p = None)); [|by rewrite andb_false_r]. rewrite andb_true_r.
  destruct (str_truthy (pt_text p)) eqn:Et; rewrite !fmap_cons, ?Hj, IH; [done|].
  by destruct (pt_text p).
Qed.

Lemma promotes_ended e : promotes e = ended_text (ev_body e).
Proof.
  unfold promotes, ended_text, is_partial_event, is_final_artifact, extract_text, extract_text_with, event_content_parts.
  assert (forall t : string, (if str_truthy t then Some t else None) = if bool_decide (t = estr) then None else Some t) as Ht by (by intros []).
  destruct (ev_body e) as [s ps|id ps append last|u ps].
  - rewrite Ht, shown_text. destruct s; try done; cbn; by rewrite Ht.
  - destruct append, last; cbn; rewrite ?Ht, ?shown_text; done.
  - by rewrite Ht, shown_text.
Qed.

(** C33: A remote node raises exactly when the agent could not be reached, the stream broke,
    or a response said that the remote task failed (any status or snapshot with a state
    of failure, whatever else it carries) or paused (such a status; or such a snapshot,
    when its status has a message or it has nothing else to show). Otherwise its output
    is the first text that comes to an end among what it forwards, or empty. What it
    forwards, complete events also recorded, belongs to the caller's task, bears the
    agent's name, and is what the responses come to. *)
Theorem remote_node_spec remote task_id context_id node info message iv :
  let agent := mkRemoteAgent (dn_agent_name node) (ai_url info) in
  let '(iv', outcome) := run_remote_node py_repr sort_items remote task_id context_id node info message iv in
  ((exists msg, outcome = Raised msg) <->
     ~ reaches_agent remote (ai_url info) \/ is_Some (re_broken remote) \/
     exists r, r ∈ re_responses remote /\ (tells_failure r \/ tells_pause r)) /\
  (exists forwarded, iv' = mkInvocation (iv_events iv ++ filterb complete forwarded) ((fun q => q ++ forwarded) <$> iv_queue iv) /\
     Forall (is_owned task_id context_id (dn_agent_name node)) forwarded /\
     ev_body <$> forwarded = ev_body <$> node_events remote agent task_id context_id /\
     forall o, outcome = Returned o -> o = default estr (head (omap ended_text (ev_body <$> forwarded)))).
Proof.
  intros agent. pose proof (remote_node_facts remote task_id context_id node info message iv) as H. cbv zeta in H. fold agent in H.
  destruct (run_remote_node _ _ _ _ _ _ _ _ _) as [iv' outcome]. destruct H as (Hr & Ho & fwd & Eiv & Hown & Hb). split.
  - rewrite Hr. setoid_rewrite stops_iff. change (ai_url info) with (ra_url agent). rewrite <- resolved_iff. by rewrite not_true_iff_false.
  - exists fwd. split; [done|]. split; [done|]. split; [done|]. intros o Hout. rewrite (Ho o Hout), Hb. f_equal. f_equal.
    assert (~ exists msg, outcome = Raised msg) as Hno by (rewrite Hout; by intros [? ?]). rewrite Hr in Hno.
    assert (node_events remote agent task_id context_id = handle_responses agent task_id context_id [] (re_responses remote)) as ->.
    { unfold node_events. destruct (_ensure_resolved agent remote); [|destruct Hno; by left].
      destruct (re_broken remote); [destruct Hno; right; left; by eexists | by rewrite app_nil_r]. }
    generalize (handle_responses agent task_id context_id [] (re_responses remote)). intros l. induction l as [|e l IH]; [done|].
    rewrite fmap_cons. cbn [omap list_omap]. by rewrite promotes_ended, IH.
Qed.
End facts.

(** ** Pauses that are not told *)

Lemma pause_state s : s ∈ PAUSE_STATES -> s ∈ NON_FINAL_TASK_STATES /\ s ∈ TASK_RESPONSE_BOUNDARY_STATES /\ s ∉ FAILURE_TERMINAL_STATES.
Proof. intros [->|[->|Hn%elem_of_nil]%elem_of_cons]%elem_of_cons; [by apply (bool_decide_unpack _)..|done]. Qed.

Lemma silent_pause_untold task :
  rt_state task ∈ PAUSE_STATES -> rt_status_parts task = [] ->
  has_artifact_parts task = true \/ is_Some (last_agent_message task) -> tells_state task = false.
Proof.
  intros Hs Hp Ha. unfold tells_state, keeps_status. rewrite Hp. cbn [nonempty andb].
  destruct (pause_state _ Hs) as (_ & Hb & Hf). rewrite (bool_decide_eq_false_2 _ Hf), (bool_decide_eq_true_2 _ Hb).
  cbn. destruct Ha as [->|Hm]; [done|]. rewrite (bool_decide_eq_true_2 _ Hm). by rewrite andb_false_r.
Qed.

(** A pause without a status message: when the snapshot has artifacts, or the
    question stands in the history, no status is told, and the node succeeds, with
    an empty output or with the question as its output. *)
Theorem silent_pause_succeeds py_repr sort_items remote task_id context_id node info message iv task
    (Hpaused : rt_state task ∈ PAUSE_STATES)
    (Hsilent : rt_status_parts task = [])
    (Hcontent : has_artifact_parts task = true \/ is_Some (last_agent_message task))
    (Hresolved : _ensure_resolved (mkRemoteAgent (dn_agent_name node) (ai_url info)) remote = Ok tt)
    (Hresponses : re_responses remote = [Snapshot task])
    (Hbroken : re_broken remote = None) :
  (run_remote_node py_repr sort_items remote task_id context_id node info message iv).2 =
  Returned (if has_artifact_parts task then estr
            else match last_agent_message task with
                 | Some m => extract_text (mkEvent estr estr no_meta (AMessage false (hm_parts m)))
                 | None => estr
                 end).
Proof.
  pose proof (remote_node_facts py_repr sort_items remote task_id context_id node info message iv) as H. cbn zeta in H.
  destruct (run_remote_node _ _ _ _ _ _ _ _ _) as [iv' outcome]. destruct H as (Hr & Ho & _). cbn [snd].
  destruct outcome as [o|msg].
  - rewrite (Ho o eq_refl), Hresponses. cbn [handle_responses]. unfold _handle_a2a_response, response_events. rewrite app_nil_r. f_equal.
    rewrite (promotes_bodies _ (_events_from_task task)) by (rewrite <- list_fmap_compose; by apply list_fmap_ext).
    pose proof (silent_pause_untold _ Hpaused Hsilent Hcontent) as Ht. unfold tells_state in Ht. apply orb_false_iff in Ht as [Hk Ht].
    unfold _events_from_task. rewrite Hk.
    destruct (pause_state _ Hpaused) as (Hn & Hb & _). rewrite (bool_decide_eq_true_2 _ Hn), (bool_decide_eq_true_2 _ Hb).
    fold (has_artifact_parts task). destruct (has_artifact_parts task) eqn:Ea; [done|]. cbn [negb nonempty andb].
    destruct Hcontent as [|[m Em]]; [done|]. rewrite Em. destruct (rt_history task) eqn:Eh; [by rewrite last_agent_history in Em|].
    cbn [nonempty app negb omap list_omap]. unfold promotes, is_partial_event. cbn [ev_body].
    match goal with |- context [str_truthy ?t] => set (txt := t) end.
    destruct (str_truthy txt) eqn:E; [done|]. apply not_true_iff_false in E. rewrite str_truthy_true in E.
    apply dec_stable in E. change (default estr (head (@nil string)) = txt). by rewrite E.
  - exfalso. destruct Hr as [Hr _]. destruct (Hr (ex_intro _ msg eq_refl)) as [H|[H|(r & Hin & Hst)]].
    + by rewrite Hresolved in H.
    + rewrite Hbroken in H. by destruct H.
    + rewrite Hresponses in Hin. apply list_elem_of_singleton in Hin as ->. destruct Hst as [_ Hst].
      by rewrite silent_pause_untold in Hst.
Qed.

(** ** The HTTP client of a remote agent *)

Section clients.
Context (httpx factory : option nat) (given : gset nat) (next : nat).
Context (Hgiven : forall c, c ∈ given -> c < next) (Hhttpx : forall c, httpx = Some c -> c ∈ given)
  (Hfactory : forall c, factory = Some c -> c ∈ given).

(** The clients that are open: those given, and the one the agent owns. *)
Record clients_ok (st : Clients) : Prop := {
  ck_open : cl_open st = match cl_httpx st with Some c => if cl_owned st then {[c]} ∪ given else given | None => given end;
  ck_given : cl_owned st = false -> cl_httpx st = httpx;
  ck_own : forall c, cl_owned st = true -> cl_httpx st = Some c -> (c ∉ given) /\ c < cl_next st;
  ck_next : next <= cl_next st;
  ck_ready : cl_resolved st = true -> is_Some (cl_a2a st)
}.

Lemma own_client_ok st : clients_ok st -> clients_ok (own_client st) /\ is_Some (cl_httpx (own_client st)).
Proof.
  intros [Ho Hg Hn Hm Hr]. unfold own_client. destruct (cl_httpx st) as [c|] eqn:E; [split; [split; rewrite ?E in *; done | rewrite E; by eexists]|].
  split; [|by eexists]. split; cbn; try done.
  - by rewrite Ho.
  - intros c _ [= <-]. split; [|lia]. intros Hin. apply Hgiven in Hin. lia.
  - lia.
Qed.

Lemma ensure_ok st : clients_ok st -> clients_ok (_ensure_httpx_client st) /\ is_Some (cl_factory (_ensure_httpx_client st)).
Proof.
  intros H. destruct (own_client_ok st H) as [[? ? ? ? ?] [c Hc]]. split; [by split|]. cbn. destruct (cl_factory (own_client st)); [by eexists|].
  rewrite Hc. by eexists.
Qed.

Lemma find_card_ok at_ st : clients_ok st -> clients_ok (find_card at_ st).1.
Proof.
  intros H. unfold find_card. destruct (cl_card st); [done|]. destruct (at_url at_); cbn [negb]; [|done].
  destruct (ensure_ok st H) as [[? ? ? ? ?] _]. by destruct (at_card at_ && at_valid at_).
Qed.

Lemma make_a2a_ok at_ st : clients_ok st ->
  clients_ok (make_a2a at_ st).1 /\ ((make_a2a at_ st).2 = true -> is_Some (cl_a2a (make_a2a at_ st).1)).
Proof.
  intros H. unfold make_a2a. destruct (cl_a2a st) as [c|] eqn:E; [cbn; rewrite E; split; [done | intros _; by eexists]|].
  destruct (ensure_ok st H) as [[? ? ? ? Hr] Hf]. destruct (at_create at_); cbn; [split; [by split | done]|]. by split; [split|].
Qed.

Lemma resolve_ok at_ st st' c : clients_ok st -> resolve_clients at_ st = (st', c) -> clients_ok st'.
Proof.
  intros H. unfold resolve_clients. pose proof (find_card_ok at_ st H) as H1.
  destruct (find_card at_ st) as [st1 [|]] eqn:E1; cbn [fst] in H1.
  - destruct (make_a2a_ok at_ st1 H1) as [H2 Hc].
    destruct (make_a2a at_ st1) as [st2 [|]]; cbn [fst snd] in H2, Hc.
    + intros E. assert (clients_ok (mkClients (cl_httpx st2) (cl_factory st2) (cl_a2a st2) (cl_card st2) true (cl_owned st2) (cl_next st2) (cl_open st2))) as H3.
      { destruct H2. by split. }
      destruct (cl_resolved st), (cl_a2a st); by injection E as <- _.
    + destruct (cl_resolved st), (cl_a2a st); by intros [= <- _].
  - destruct (cl_resolved st), (cl_a2a st); by intros [= <- _].
Qed.

Lemma cleanup_ok st : clients_ok st -> clients_ok (cleanup st) /\ cl_open (cleanup st) = given.
Proof.
  intros [Ho Hg Hn Hm Hr]. unfold cleanup. destruct (cl_httpx st) as [c|] eqn:E; [|split; [split; rewrite ?E; done | done]].
  destruct (cl_owned st) eqn:Ew; [|split; [split; rewrite ?E, ?Ew; done | done]]. cbn. destruct (Hn c eq_refl eq_refl) as [Hc _].
  assert (cl_open st ∖ {[c]} = given) as -> by (rewrite Ho; set_solver). split; [split; cbn; try done; by rewrite Ew | done].
Qed.

Lemma clients_steps tr st : steps client_step (given_clients httpx factory next given) tr st -> clients_ok st.
Proof.
  intros H. apply (steps_invariant client_step clients_ok) in H; [done | |].
  - intros s l s' [at_ st0 st' c E|st0] Hs; [by eapply resolve_ok | by apply cleanup_ok].
  - split; cbn; try done. destruct httpx as [c|]; done.
Qed.

(** C40: Whatever attempts to resolve an agent meet, and in whatever order it is resolved
    and cleaned up: of the clients the agent opened itself at most one is open at a
    time, [cleanup] leaves none, and a client it was given is never closed. An agent that
    was resolved with a client of its own is not resolved anew after [cleanup]: it goes on
    with the client that was closed. *)
Theorem clients_are_closed tr st :
  steps client_step (given_clients httpx factory next given) tr st ->
  (cl_open st = given \/ exists c, cl_open st = {[c]} ∪ given /\ cl_httpx st = Some c) /\
  cl_open (cleanup st) = given /\
  forall at_ c, cl_resolved st = true -> cl_a2a st = Some c -> (c ∉ given) ->
    resolve_clients at_ (cleanup st) = (cleanup st, Some c) /\ c ∉ cl_open (cleanup st).
Proof.
  intros Hrun. pose proof (clients_steps _ _ Hrun) as H. destruct (cleanup_ok st H) as [_ Hc]. rewrite Hc. split; [|split; [done|]].
  - rewrite (ck_open _ H). destruct (cl_httpx st) as [c|]; [|by left]. destruct (cl_owned st); [right; by exists c | by left].
  - intros at_ c Hr Ha Hn. split; [|done]. unfold resolve_clients.
    assert (cl_resolved (cleanup st) = true /\ cl_a2a (cleanup st) = Some c) as [-> ->]; [|done].
    unfold cleanup. destruct (cl_httpx st); [|done]. by destruct (cl_owned st).
Qed.
End clients.
