(* ===== verification/LlmAgent.v ===== *)
(** * An agent that runs a model (new_choirworks/core/agents/llm_agent.py,
    core/models/llm_response.py, core/tools/base_tool.py)

    A loop: the events so far become messages, the model's answer is streamed as the
    chunks of an artifact and then given again whole, its tool calls are run and
    their results become events, until an answer calls no tool. *)
From S2P Require Import Prelude PyStr Dict Json Graph NewEvents NodePath Contents NodeRunner.
Local Open Scope string_scope.
Local Open Scope list_scope.

(** The stream of one answer, and the exception it broke on. *)
Record LlmStream := mkStream { ls_responses : list LLMResponse; ls_end : option exn }.

Record LLMAgent := mkLLMAgent {
  ag_name : string; ag_tools : list string; ag_max_retries : Z;
  (** [validate_schema] with the agent's [output_schema], if it has one *)
  ag_output_schema : option (string -> res json) }.

(** [ctx.events] (the consumer of the agent records each complete event before it asks
    for the next one), what has been yielded, how many ids have been drawn and tools
    run, [retry_count], and the requests made. *)
Record AgentRun := mkRun {
  ar_events : list Event; ar_yielded : list Event; ar_uuids : nat; ar_tool_runs : nat;
  ar_retry_count : Z; ar_requests : list (list ChatMessage) }.
Definition start_agent (events : list Event) : AgentRun := mkRun events [] 0 0 0 [].

(** [thought_buf], [text_buf], [function_calls], [error_message]. *)
Record TurnBuffers := mkTurn { tb_thought : list string; tb_text : list string; tb_calls : list FunctionCall; tb_error : string }.
Definition no_turn : TurnBuffers := mkTurn [] [] [] estr.

Definition close (b : TurnBuffers) : option (list LLMResponsePart) :=
  let parts := (match tb_thought b with [] => [] | l => [text_rpart (str_join estr l) true] end)
               ++ (match tb_text b with [] => [] | l => [text_rpart (str_join estr l) false] end)
               ++ (call_rpart <$> tb_calls b) in
  match parts with [] => None | _ => Some parts end.

(** One part of a response, into the buffers. *)
Definition buffer_part (b : TurnBuffers) (p : LLMResponsePart) : TurnBuffers :=
  let b := match rp_text p with
           | Some t => if rp_thought p then mkTurn (tb_thought b ++ [t]) (tb_text b) (tb_calls b) (tb_error b)
                       else mkTurn (tb_thought b) (tb_text b ++ [t]) (tb_calls b) (tb_error b)
           | None => b
           end in
  match rp_call p with Some fc => mkTurn (tb_thought b) (tb_text b) (tb_calls b ++ [fc]) (tb_error b) | None => b end.

Definition buffer_error (r : LLMResponse) (b : TurnBuffers) : TurnBuffers :=
  if ostr_truthy (lr_error_code r) then mkTurn (tb_thought b) (tb_text b) (tb_calls b) (ostr_or (lr_error_message r) estr) else b.

Inductive turn_end := Break | Again | Raising (x : exn).

Section agent.
Context (dumps py_repr : json -> string) (sort_items : list (string * json) -> list (string * json)).
(** The [n]-th id of [uuid4]; the model's answer to the [i]-th request; the result of the
    [i]-th run of a tool. *)
Context (uuid : nat -> string) (generate : nat -> list ChatMessage -> LlmStream) (run_tool : nat -> string -> json -> res json).
Context (agent : LLMAgent) (task_id context_id : string).

(** [yield], through [run_async], to a consumer that records the complete events. *)
Definition yield_event (e : Event) (st : AgentRun) : AgentRun :=
  let e := run_async (ag_name agent) e in
  mkRun (if is_partial_event e then ar_events st else ar_events st ++ [e]) (ar_yielded st ++ [e])
    (ar_uuids st) (ar_tool_runs st) (ar_retry_count st) (ar_requests st).

Definition draw_uuid (st : AgentRun) : string * AgentRun :=
  (uuid (ar_uuids st),
   mkRun (ar_events st) (ar_yielded st) (S (ar_uuids st)) (ar_tool_runs st) (ar_retry_count st) (ar_requests st)).

(** One response of the stream: a response without content is passed over. *)
Definition stream_response (artifact_id : string) (acc : TurnBuffers * AgentRun) (r : LLMResponse) : TurnBuffers * AgentRun :=
  let '(b, st) := acc in
  match lr_content r with
  | None => acc
  | Some parts =>
      let append := (match tb_thought b with [] => false | _ => true end) || (match tb_text b with [] => false | _ => true end) in
      let st := yield_event (to_a2a_artifact task_id context_id parts artifact_id append false) st in
      (buffer_error r (foldl buffer_part b parts), st)
  end.

(** An event with the response to a call. *)
Definition yield_response (fc : FunctionCall) (response : json) (st : AgentRun) : AgentRun :=
  let '(id, st) := draw_uuid st in
  yield_event (to_a2a_artifact task_id context_id (default [] (lr_content (from_function_response fc response))) id false true) st.

(** [fc.args or {}]. *)
Definition args_or_empty (args : json) : json := if py_bool args then args else JObj [].

Definition normalize_result (result : json) : json :=
  match result with JObj _ => result | _ => JObj [("result", result)] end.

Fixpoint _execute_tools (calls : list FunctionCall) (st : AgentRun) : AgentRun * res unit :=
  match calls with
  | [] => (st, Ok tt)
  | fc :: calls' =>
      if negb (bool_decide (fc_name fc ∈ ag_tools agent)) then (st, Err (KeyError (fc_name fc)))
      else
        let i := ar_tool_runs st in
        let st := mkRun (ar_events st) (ar_yielded st) (ar_uuids st) (S i) (ar_retry_count st) (ar_requests st) in
        match run_tool i (fc_name fc) (args_or_empty (fc_args fc)) with
        | Err x => (st, Err x)
        | Ok result => _execute_tools calls' (yield_response fc (normalize_result result) st)
        end
  end.

(** The output is checked against the schema when the answer calls no tool. (What the
    schema makes of it is also written to the metadata of the event, where nothing reads
    it; events do not carry it here.) *)
Definition check_output (b : TurnBuffers) : res unit :=
  match tb_calls b, ag_output_schema agent with
  | [], Some validate => _ ← validate (str_join estr (tb_text b)); Ok tt
  | _, _ => Ok tt
  end.

Definition count_retry (st : AgentRun) : AgentRun :=
  mkRun (ar_events st) (ar_yielded st) (ar_uuids st) (ar_tool_runs st) (ar_retry_count st + 1) (ar_requests st).
Definition record_request (messages : list ChatMessage) (st : AgentRun) : AgentRun :=
  mkRun (ar_events st) (ar_yielded st) (ar_uuids st) (ar_tool_runs st) (ar_retry_count st) (ar_requests st ++ [messages]).

(** After the stream: the whole answer, then the calls. *)
Definition finish_turn (artifact_id : string) (b : TurnBuffers) (st : AgentRun) : AgentRun * turn_end :=
  match check_output b with
  | Err x => (st, Raising x)
  | Ok _ =>
      let st := match close b with
                | Some parts => yield_event (to_a2a_artifact task_id context_id parts artifact_id false true) st
                | None => st
                end in
      match tb_calls b with
      | [] => (st, Break)
      | calls =>
          if str_truthy (tb_error b) then
            let st := count_retry st in
            let st := foldl (fun st fc => yield_response fc (JObj [("error", JStr (tb_error b))]) st) st calls in
            (st, if (ag_max_retries agent <=? ar_retry_count st)%Z then Break else Again)
          else
            match _execute_tools calls st with
            | (st, Err x) => (st, Raising x)
            | (st, Ok _) => (st, Again)
            end
      end
  end.

Definition agent_turn (st : AgentRun) : AgentRun * turn_end :=
  match get_contents dumps py_repr sort_items (ar_events st) (ag_name agent) None None None with
  | Err x => (st, Raising x)
  | Ok messages =>
      let answer := generate (length (ar_requests st)) messages in
      let st := record_request messages st in
      let '(artifact_id, st) := draw_uuid st in
      let '(b, st) := foldl (stream_response artifact_id) (no_turn, st) (ls_responses answer) in
      match ls_end answer with
      | Some x => (st, Raising x)
      | None => finish_turn artifact_id b st
      end
  end.

(** [while True]; [None]: not within the fuel (the model may call tools for ever). *)
Fixpoint agent_loop (fuel : nat) (st : AgentRun) : AgentRun * option (res unit) :=
  match fuel with
  | O => (st, None)
  | S fuel' =>
      match agent_turn st with
      | (st, Break) => (st, Some (Ok tt))
      | (st, Raising x) => (st, Some (Err x))
      | (st, Again) => agent_loop fuel' st
      end
  end.
End agent.
