(* ===== verification/LlmAgentFacts.v ===== *)
(** * What an agent's run does (facts of LlmAgent.v)

    The whole answer repeats what was streamed; every call of an answer has its
    response before the model is asked again, so that what the model is sent is a
    well-formed exchange; failed calls are bounded. *)
From S2P Require Import Prelude PyStr Dict Json Graph NewEvents NodePath Contents NodeRunner LlmAgent.
Local Open Scope string_scope.
Local Open Scope list_scope.

(** ** Parts *)

Definition thought_texts (ps : list LLMResponsePart) : list string := omap (fun p => if rp_thought p then rp_text p else None) ps.
Definition plain_texts (ps : list LLMResponsePart) : list string := omap (fun p => if rp_thought p then None else rp_text p) ps.
Definition part_calls (ps : list LLMResponsePart) : list FunctionCall := omap rp_call ps.

Lemma call_read fc : function_call_of (call_data fc) = Ok fc.
Proof. by destruct fc. Qed.
Lemma response_read fr : function_response_of (response_data fr) = Ok fr.
Proof. by destruct fr. Qed.

Lemma read_parts_app ps qs ts cs rs ts' cs' rs' :
  read_parts ps = Ok (ts, cs, rs) -> read_parts qs = Ok (ts', cs', rs') -> read_parts (ps ++ qs) = Ok (ts ++ ts', cs ++ cs', rs ++ rs').
Proof.
  intros Hp Hq. revert ts cs rs Hp. induction ps as [|p ps IH]; intros ts cs rs; cbn [app read_parts]; [by intros [= <- <- <-]|].
  destruct (str_truthy (pt_text p) && negb (is_thought_part p)).
  { intros ([[ts1 cs1] rs1] & H1 & [= <- <- <-])%res_bind_ok. by rewrite (IH _ _ _ H1). }
  destruct (is_function_call_part p).
  { intros (c & -> & ([[ts1 cs1] rs1] & H1 & [= <- <- <-])%res_bind_ok)%res_bind_ok. cbn. by rewrite (IH _ _ _ H1). }
  destruct (is_function_response_part p); [|apply IH].
  intros (c & -> & ([[ts1 cs1] rs1] & H1 & [= <- <- <-])%res_bind_ok)%res_bind_ok. cbn. by rewrite (IH _ _ _ H1).
Qed.

Lemma read_calls cs : read_parts ((call_rpart <$> cs) ≫= artifact_parts) = Ok ([], cs, []).
Proof.
  induction cs as [|c cs IH]; [done|]. rewrite fmap_cons, bind_cons. apply (read_parts_app _ _ [] [c] [] [] cs []); [|done].
  cbn. by destruct c.
Qed.

(** The parts of the whole answer, as they will be read. *)
Lemma read_close b parts : close b = Some parts ->
  exists ts, read_parts (parts ≫= artifact_parts) = Ok (ts, tb_calls b, []) /\ str_join estr ts = str_join estr (tb_text b).
Proof.
  unfold close. intros Hc. assert (parts = (match tb_thought b with [] => [] | l => [text_rpart (str_join estr l) true] end)
               ++ (match tb_text b with [] => [] | l => [text_rpart (str_join estr l) false] end)
               ++ (call_rpart <$> tb_calls b)) as -> by (by destruct (_ ++ _ ++ _); simplify_eq).
  set (tl := match tb_text b with [] => [] | l => if str_truthy (str_join estr l) then [str_join estr l] else [] end).
  exists tl. split.
  - assert (read_parts ((match tb_text b with [] => [] | l => [text_rpart (str_join estr l) false] end) ≫= artifact_parts) = Ok (tl, [], [])) as Ht.
    { unfold tl. destruct (tb_text b); [done|]. cbn. rewrite andb_true_r. by destruct (str_truthy _). }
    pose proof (read_parts_app _ _ _ _ _ _ _ _ Ht (read_calls (tb_calls b))) as H. rewrite app_nil_r in H. cbn [app] in H.
    rewrite !bind_app. apply (read_parts_app _ _ [] [] [] tl (tb_calls b) []); [|done].
    destruct (tb_thought b); [done|]. cbn. by rewrite andb_false_r.
  - unfold tl. destruct (tb_text b) as [|t l]; [done|]. destruct (str_truthy (str_join estr (t :: l))) eqn:E; [done|].
    apply not_true_iff_false in E. rewrite str_truthy_true in E. by apply dec_stable in E.
Qed.

Lemma buffer_parts ps : forall b,
  foldl buffer_part b ps = mkTurn (tb_thought b ++ thought_texts ps) (tb_text b ++ plain_texts ps) (tb_calls b ++ part_calls ps) (tb_error b).
Proof.
  induction ps as [|p ps IH]; intros [th tx cs er]; [cbn; by rewrite !app_nil_r|]. cbn [foldl]. rewrite IH.
  unfold buffer_part, thought_texts, plain_texts, part_calls. cbn.
  destruct (rp_text p), (rp_thought p), (rp_call p); cbn; rewrite <- ?app_assoc; done.
Qed.

(** ** Messages *)

(** Every tool call of an assistant message has its result among the tool messages
    that follow it, in order. *)
Inductive answered : list ChatMessage -> Prop :=
| answered_nil : answered []
| answered_user c l : answered l -> answered (UserMessage c :: l)
| answered_assistant c calls results l :
    Forall2 (fun t m => exists content, m = ToolMessage content (tc_id t)) calls results ->
    answered l -> answered (AssistantMessage c calls :: results ++ l).

Lemma answered_app l k : answered l -> answered k -> answered (l ++ k).
Proof.
  induction 1 as [|c l Hl IH|c calls results l Hr Hl IH]; intros Hk; [done|..]; cbn [app].
  - by constructor; apply IH.
  - rewrite <- app_assoc. constructor; [done | by apply IH].
Qed.

Section facts.
Context (dumps py_repr : json -> string) (sort_items : list (string * json) -> list (string * json)).
Context (uuid : nat -> string) (generate : nat -> list ChatMessage -> LlmStream) (run_tool : nat -> string -> json -> res json).
Context (agent : LLMAgent) (task_id context_id : string).

Local Abbreviation contents events := (get_contents dumps py_repr sort_items events (ag_name agent) None None None).
Local Abbreviation turn := (agent_turn dumps py_repr sort_items uuid generate run_tool agent task_id context_id).
Local Abbreviation loop := (agent_loop dumps py_repr sort_items uuid generate run_tool agent task_id context_id).

Lemma contents_app es es' ms ms' :
  contents es = Ok ms -> contents_of dumps py_repr sort_items (ag_name agent) None None None es' = Ok ms' -> contents (es ++ es') = Ok (ms ++ ms').
Proof.
  unfold get_contents. destruct (str_truthy (ag_name agent)); [|done]. revert ms. induction es as [|e es IH]; intros ms; cbn [app contents_of].
  - by intros [= <-].
  - intros (m & -> & (rest & H1 & [= <-])%res_bind_ok)%res_bind_ok Hms'. cbn [mbind res_bind]. rewrite (IH _ H1 Hms'). cbn. by rewrite app_assoc.
Qed.

(** An artifact the agent has just yielded. *)
Definition own_artifact (id : string) (parts : list LLMResponsePart) : Event :=
  run_async (ag_name agent) (to_a2a_artifact task_id context_id parts id false true).

Lemma own_content id parts : content_of dumps py_repr sort_items (ag_name agent) None None None (own_artifact id parts) =
  artifact_messages dumps (parts ≫= artifact_parts).
Proof.
  unfold content_of. assert (is_other_agent_reply (ag_name agent) (own_artifact id parts) = false) as ->; [|done].
  unfold is_other_agent_reply, own_artifact, run_async. cbn. rewrite (bool_decide_eq_true_2 (ag_name agent = ag_name agent)) by done.
  by rewrite andb_false_r.
Qed.

(** ** The stream of one answer *)

(** The parts of the contents of an answer. *)
Definition answer_parts (rs : list LLMResponse) : list LLMResponsePart := concat (omap lr_content rs).
Definition raw_parts (e : Event) : list EPart := match ev_body e with ArtifactUpdate _ ps _ _ => ps | _ => [] end.

Lemma yield_partial e st : is_partial_event e = true ->
  yield_event agent e st = mkRun (ar_events st) (ar_yielded st ++ [run_async (ag_name agent) e])
    (ar_uuids st) (ar_tool_runs st) (ar_retry_count st) (ar_requests st).
Proof.
  intros H. unfold yield_event. assert (is_partial_event (run_async (ag_name agent) e) = true) as ->; [|done].
  unfold run_async. by destruct (str_truthy _).
Qed.

Lemma chunk_partial parts id append : is_partial_event (to_a2a_artifact task_id context_id parts id append false) = true.
Proof. by destruct append. Qed.

Lemma stream_spec aid rs : forall b st,
  let '(b', st') := foldl (stream_response agent task_id context_id aid) (b, st) rs in
  tb_thought b' = tb_thought b ++ thought_texts (answer_parts rs) /\
  tb_text b' = tb_text b ++ plain_texts (answer_parts rs) /\
  tb_calls b' = tb_calls b ++ part_calls (answer_parts rs) /\
  exists ys, st' = mkRun (ar_events st) (ar_yielded st ++ ys) (ar_uuids st) (ar_tool_runs st) (ar_retry_count st) (ar_requests st) /\
    Forall (fun e => is_partial_event e = true) ys /\ ys ≫= raw_parts = answer_parts rs ≫= artifact_parts.
Proof.
  induction rs as [|r rs IH]; intros b st.
  { cbn. rewrite !app_nil_r. do 3 (split; [done|]). exists []. rewrite app_nil_r. by destruct st. }
  cbn [foldl]. unfold stream_response at 2, answer_parts. cbn [omap list_omap]. destruct (lr_content r) as [parts|]; [|by apply IH].
  rewrite yield_partial by apply chunk_partial. rewrite buffer_parts.
  match goal with |- context [foldl _ (?b1, ?s1) rs] => specialize (IH b1 s1); destruct (foldl _ (b1, s1) rs) as [b' st'] end.
  fold (answer_parts rs). destruct IH as (-> & -> & -> & ys & -> & Hp & Hr).
  assert (forall t, tb_thought (buffer_error r t) = tb_thought t /\ tb_text (buffer_error r t) = tb_text t /\ tb_calls (buffer_error r t) = tb_calls t) as Hbe
    by (intros t; unfold buffer_error; by destruct (ostr_truthy _)).
  match goal with |- context [buffer_error r ?t] => destruct (Hbe t) as (-> & -> & ->) end. cbn [tb_thought tb_text tb_calls concat].
  unfold thought_texts, plain_texts, part_calls. rewrite !omap_app, <- !app_assoc. do 3 (split; [done|]).
  cbn [ar_events ar_yielded ar_uuids ar_tool_runs ar_retry_count ar_requests]. eexists (_ :: ys). rewrite <- app_assoc. split; [done|].
  split; [constructor; [unfold run_async; destruct (str_truthy _); exact (chunk_partial parts aid _) | done]|].
  rewrite bind_cons, bind_app, Hr. f_equal.
Qed.

(** ** The responses to the calls *)

Definition response_of (id : string) (fc : FunctionCall) (r : json) : Event :=
  own_artifact id (default [] (lr_content (from_function_response fc r))).

Lemma yield_own id parts st :
  yield_event agent (to_a2a_artifact task_id context_id parts id false true) st =
  mkRun (ar_events st ++ [own_artifact id parts]) (ar_yielded st ++ [own_artifact id parts])
    (ar_uuids st) (ar_tool_runs st) (ar_retry_count st) (ar_requests st).
Proof.
  unfold yield_event, own_artifact. assert (is_partial_event (run_async (ag_name agent) (to_a2a_artifact task_id context_id parts id false true)) = false) as ->; [|done].
  unfold run_async. by destruct (str_truthy _).
Qed.

Definition is_response (fc : FunctionCall) (e : Event) : Prop := exists id r, e = response_of id fc r.

(** A run whose record has grown by [es]. *)
Definition grown (st st' : AgentRun) (es : list Event) : Prop :=
  ar_events st' = ar_events st ++ es /\ ar_yielded st' = ar_yielded st ++ es /\
  ar_retry_count st' = ar_retry_count st /\ ar_requests st' = ar_requests st.

Lemma agent_grown_trans st st' st'' es es' : grown st st' es -> grown st' st'' es' -> grown st st'' (es ++ es').
Proof. unfold grown. intros (E1 & E2 & E3 & E4) (-> & -> & -> & ->). by rewrite E1, E2, E3, E4, !app_assoc. Qed.

Lemma yield_response_grown fc r st : exists id, grown st (yield_response uuid agent task_id context_id fc r st) [response_of id fc r].
Proof. eexists. unfold yield_response. cbn [draw_uuid]. rewrite yield_own. split_and!; cbn; done. Qed.

Lemma error_responses r calls : forall st, exists es,
  grown st (foldl (fun st fc => yield_response uuid agent task_id context_id fc r st) st calls) es /\ Forall2 is_response calls es.
Proof.
  induction calls as [|fc calls IH]; intros st; cbn [foldl].
  - exists []. split; [unfold grown; by rewrite !app_nil_r | constructor].
  - destruct (yield_response_grown fc r st) as (id & H). destruct (IH (yield_response uuid agent task_id context_id fc r st)) as (es & Hg & Hf).
    exists (response_of id fc r :: es). split; [apply (agent_grown_trans _ _ _ [_] _ H Hg) | constructor; [by exists id, r | done]].
Qed.

Lemma tools_responses calls : forall st st' u,
  _execute_tools uuid run_tool agent task_id context_id calls st = (st', Ok u) -> exists es, grown st st' es /\ Forall2 is_response calls es.
Proof.
  induction calls as [|fc calls IH]; intros st st' u; cbn [_execute_tools].
  - intros [= -> _]. exists []. split; [unfold grown; by rewrite !app_nil_r | constructor].
  - destruct (negb _); [done|]. destruct (run_tool _ _ _) as [r|]; [|done]. intros H.
    match type of H with _execute_tools _ _ _ _ _ _ (yield_response _ _ _ _ _ ?r1 ?s1) = _ =>
      destruct (yield_response_grown fc r1 s1) as (id & Hg1); set (st1 := s1) in *; set (r' := r1) in * end.
    destruct (IH _ _ _ H) as (es & Hg & Hf). exists (response_of id fc r' :: es).
    split; [|constructor; [by exists id, r' | done]].
    assert (grown st (yield_response uuid agent task_id context_id fc r' st1) [response_of id fc r']) as Hg1' by exact Hg1.
    apply (agent_grown_trans _ _ _ [_] _ Hg1' Hg).
Qed.

(** ** A turn *)

(** What a turn that goes on has recorded: the whole answer, then a response to each
    of its calls, in order. *)
Definition turn_events (rs : list LLMResponse) (es : list Event) : Prop :=
  exists id b parts responses, es = own_artifact id parts :: responses /\ close b = Some parts /\
    tb_text b = plain_texts (answer_parts rs) /\ tb_calls b = part_calls (answer_parts rs) /\
    Forall2 is_response (part_calls (answer_parts rs)) responses.

Lemma tools_requests calls : forall st, ar_requests (_execute_tools uuid run_tool agent task_id context_id calls st).1 = ar_requests st /\
  ar_retry_count (_execute_tools uuid run_tool agent task_id context_id calls st).1 = ar_retry_count st.
Proof.
  induction calls as [|fc calls IH]; intros st; [done|]. cbn [_execute_tools]. destruct (negb _); [done|].
  destruct (run_tool _ _ _) as [r|]; [|done]. match goal with |- context [_execute_tools _ _ _ _ _ calls ?s] => by destruct (IH s) as [-> ->] end.
Qed.

Lemma turn_spec st st' e ms : contents (ar_events st) = Ok ms -> turn st = (st', e) ->
  let rs := ls_responses (generate (length (ar_requests st)) ms) in
  ar_requests st' = ar_requests st ++ [ms] /\
  (ar_retry_count st' <= ar_retry_count st + 1)%Z /\
  (e = Again ->
   (exists es, ar_events st' = ar_events st ++ es /\ turn_events rs es) /\
   part_calls (answer_parts rs) <> [] /\
   (ar_retry_count st' = ar_retry_count st \/ (ar_retry_count st' = ar_retry_count st + 1 /\ ar_retry_count st' < ag_max_retries agent)%Z)) /\
  (e = Break ->
   part_calls (answer_parts rs) = [] \/ (ag_max_retries agent <= ar_retry_count st')%Z /\ ar_retry_count st' = (ar_retry_count st + 1)%Z).
Proof.
  intros Hms. unfold agent_turn. rewrite Hms. cbn [draw_uuid]. set (aid := uuid _). set (answer := generate _ ms).
  match goal with |- context [foldl (stream_response agent task_id context_id aid) (no_turn, ?s1) _] => pose proof (stream_spec aid (ls_responses answer) no_turn s1) as Hs end.
  destruct (foldl _ _ _) as [b st1]. cbn in Hs. destruct Hs as (Hth & Htx & Hcs & ys & -> & _ & _).
  cbn [ar_events ar_yielded ar_uuids ar_tool_runs ar_retry_count ar_requests].
  destruct (ls_end answer) as [x|]; [intros [= <- <-]; split_and!; by try (cbn; lia)|]. unfold finish_turn.
  destruct (check_output agent b) as [u|x]; [|intros [= <- <-]; split_and!; by try (cbn; lia)].
  destruct (tb_calls b) as [|fc calls] eqn:Ecalls.
  { intros [= <- <-]. rewrite <- Hcs. split_and!; [| |done|by left]; (destruct (close b); [rewrite yield_own|]; cbn; done || lia). }
  assert (exists parts, close b = Some parts) as [parts Hparts].
  { unfold close. rewrite Ecalls. destruct (_ ++ _ ++ _) eqn:E; [|eauto]. apply app_nil in E as [_ [_ E]%app_nil]. done. }
  rewrite Hparts, yield_own. cbn [ar_events ar_yielded ar_uuids ar_tool_runs ar_retry_count ar_requests]. rewrite <- Hcs.
  destruct (str_truthy (tb_error b)).
  - match goal with |- context [foldl _ ?s1 (fc :: calls)] => destruct (error_responses (JObj [("error", JStr (tb_error b))]) (fc :: calls) s1) as (es & (E1 & E2 & E3 & E4) & Hf); set (s2 := foldl _ s1 (fc :: calls)) in * end.
    clearbody s2. cbn zeta. intros H. injection H as <- He. subst e. rewrite E4. split_and!; [done|rewrite E3; cbn; lia|intros He|intros He].
    + split; [eexists (_ :: es); split; [rewrite E1; cbn [count_retry ar_events]; by rewrite <- app_assoc | exists aid, b, parts, es; by rewrite Ecalls, <- Hcs]|].
      split; [done|]. right. rewrite E3 in He |- *. cbn [count_retry ar_retry_count] in He |- *. destruct (_ <=? _)%Z eqn:El; [done|lia].
    + right. rewrite E3 in He |- *. cbn [count_retry ar_retry_count] in He |- *. destruct (_ <=? _)%Z eqn:El; [lia|done].
  - destruct (_execute_tools _ _ _ _ _ _ _) as [st2 [u'|x]] eqn:Et.
    + intros [= <- <-]. destruct (tools_responses _ _ _ _ Et) as (es & (E1 & E2 & E3 & E4) & Hf). rewrite E3, E4. split_and!; [done|cbn; lia|intros _|done].
      split; [eexists (_ :: es); split; [rewrite E1; cbn; by rewrite <- app_assoc | exists aid, b, parts, es; by rewrite Ecalls, <- Hcs]|].
      split; [done|by left].
    + intros [= <- <-]. split; [|split; [|by split]]; match type of Et with _execute_tools _ _ _ _ _ ?c ?s = _ => pose proof (tools_requests c s) as [Hq Hq'] end;
      rewrite Et in Hq, Hq'; [done|]. cbn [fst] in Hq'. rewrite Hq'. cbn. lia.
Qed.

(** ** The exchange with the model *)

Lemma responses_content calls es : Forall2 is_response calls es ->
  exists results, contents_of dumps py_repr sort_items (ag_name agent) None None None es = Ok results /\
    Forall2 (fun t m => exists content, m = ToolMessage content (tc_id t)) (tool_call_of dumps <$> calls) results.
Proof.
  induction 1 as [|fc e calls es (id & r & ->) Hf (results & Hc & Hr)]; [exists []; split; [done|constructor]|].
  exists (tool_message_of dumps (mkResponse (fc_id fc) (fc_name fc) r) :: results). rewrite fmap_cons. split; [|constructor; [by eexists | done]].
  cbn [contents_of]. unfold response_of. rewrite own_content, Hc. done.
Qed.

(** A turn that goes on leaves a record from which the next request is well formed. *)
Lemma turn_events_answered rs es : turn_events rs es -> part_calls (answer_parts rs) <> [] ->
  exists ms, contents_of dumps py_repr sort_items (ag_name agent) None None None es = Ok ms /\ answered ms.
Proof.
  intros (id & b & parts & responses & -> & Hclose & Htext & Hcalls & Hresp) Hne.
  destruct (responses_content _ _ Hresp) as (results & Hc & Hr). destruct (read_close _ _ Hclose) as (ts & Hread & Hts).
  exists (AssistantMessage (text_or_none (str_join estr ts)) (tool_call_of dumps <$> tb_calls b) :: results ++ []). split.
  - cbn [contents_of]. rewrite own_content. unfold artifact_messages. rewrite Hread. cbn. rewrite Hc, Hcalls.
    rewrite (bool_decide_eq_false_2 _ Hne). cbn. by rewrite orb_true_r, !app_nil_r.
  - constructor; [by rewrite Hcalls | constructor].
Qed.

(** Every request of a run, and its record when it goes on. *)
Lemma loop_answered fuel : forall st,
  (forall ms, contents (ar_events st) = Ok ms -> answered ms) -> Forall answered (ar_requests st) ->
  Forall answered (ar_requests (loop fuel st).1).
Proof.
  induction fuel as [|fuel IH]; intros st Hc Hr; [done|]. cbn [agent_loop]. destruct (turn st) as [st' e] eqn:Et.
  destruct (contents (ar_events st)) as [ms|x] eqn:Ems.
  - destruct (turn_spec _ _ _ _ Ems Et) as (Hreq & _ & Hagain & _).
    assert (Forall answered (ar_requests st')) as Hr'.
    { rewrite Hreq. apply Forall_app. split; [done|]. constructor; [by apply Hc | constructor]. }
    destruct e; try done. destruct (Hagain eq_refl) as ((es & Ees & Hes) & Hne & _).
    apply IH; [|done]. intros ms' Hms'. destruct (turn_events_answered _ _ Hes Hne) as (ms1 & H1 & Ha).
    rewrite Ees, (contents_app _ _ _ _ Ems H1) in Hms'. injection Hms' as <-. by apply answered_app; [apply Hc|].
  - unfold agent_turn in Et. rewrite Ems in Et. by injection Et as <- <-.
Qed.

(** C15: What the model is sent: in every request of a run, every tool call has its result
    among the messages that follow it, provided it was so in what the run began with. *)
Theorem requests_are_answered fuel events
    (Hstart : forall ms, contents events = Ok ms -> answered ms) :
  Forall answered (ar_requests (loop fuel (start_agent events)).1).
Proof. apply loop_answered; [done | constructor]. Qed.

Lemma loop_retries fuel : forall st,
  (ar_retry_count st < ag_max_retries agent)%Z -> (ar_retry_count (loop fuel st).1 <= ag_max_retries agent)%Z.
Proof.
  induction fuel as [|fuel IH]; intros st Hst; [cbn; lia|]. cbn [agent_loop]. destruct (turn st) as [st' e] eqn:Et.
  destruct (contents (ar_events st)) as [ms|x] eqn:Ems.
  - destruct (turn_spec _ _ _ _ Ems Et) as (_ & Hle & Hagain & _). destruct e; cbn [fst]; [lia| |lia].
    apply IH. destruct (Hagain eq_refl) as (_ & _ & [|[_ ?]]); lia.
  - unfold agent_turn in Et. rewrite Ems in Et. injection Et as <- <-. cbn. lia.
Qed.

Lemma loop_out_of_fuel fuel : forall st, (loop fuel st).2 = None ->
  forall i, (length (ar_requests st) <= i < length (ar_requests st) + fuel)%nat ->
  exists ms, part_calls (answer_parts (ls_responses (generate i ms))) <> [].
Proof.
  induction fuel as [|fuel IH]; intros st Hn i Hi; [lia|]. cbn [agent_loop] in Hn. destruct (turn st) as [st' e] eqn:Et.
  destruct e; [done| |done]. destruct (contents (ar_events st)) as [ms|x] eqn:Ems; [|unfold agent_turn in Et; by rewrite Ems in Et].
  destruct (turn_spec _ _ _ _ Ems Et) as (Hreq & _ & Hagain & _). destruct (Hagain eq_refl) as (_ & Hne & _).
  destruct (decide (i = length (ar_requests st))) as [->|]; [by exists ms|].
  apply (IH st' Hn). rewrite Hreq, length_app. cbn. lia.
Qed.

(** The bounds of a run: the retries never pass [max_retries]; and a run whose model
    calls no tool in its answer to the [n]-th request has come to its end after
    [S n] turns. *)
Theorem agent_run_bounds fuel events n (Hmax : (0 < ag_max_retries agent)%Z)
    (Hstops : forall ms, part_calls (answer_parts (ls_responses (generate n ms))) = []) :
  (ar_retry_count (loop fuel (start_agent events)).1 <= ag_max_retries agent)%Z /\
  (loop (S n) (start_agent events)).2 <> None.
Proof.
  split; [by apply loop_retries|]. intros Hn. destruct (loop_out_of_fuel _ _ Hn n) as (ms & Hms); [cbn; lia|]. by rewrite Hstops in Hms.
Qed.

(** ** The whole answer *)

Definition call_part (fc : FunctionCall) : EPart := mkEPart estr (call_data fc) false (Some FUNCTION_CALL).

Lemma shown_texts ps : str_join estr (pt_text <$> filterb (shows_text false) (ps ≫= artifact_parts)) = str_join estr (plain_texts ps).
Proof.
  induction ps as [|[t th c r] ps IH]; [done|]. rewrite bind_cons, filterb_app, fmap_app, str_join_nil_app, IH.
  unfold plain_texts at 2. cbn [omap list_omap rp_text rp_thought].
  assert (forall o : option string, str_join estr (match o with Some y => y :: plain_texts ps | None => plain_texts ps end) =
    default estr o +:+ str_join estr (plain_texts ps)) as Ho.
  { intros [y|]; [|done]. change (y :: plain_texts ps) with ([y] ++ plain_texts ps). by rewrite str_join_nil_app. }
  fold (plain_texts ps). rewrite Ho. f_equal. unfold artifact_parts. cbn [rp_text rp_thought rp_call rp_response].
  rewrite !filterb_app, !fmap_app, !str_join_nil_app.
  assert (str_join estr (pt_text <$> filterb (shows_text false) (match c with Some fc => [mkEPart estr (call_data fc) false (Some FUNCTION_CALL)] | None => [] end)) = estr) as -> by (by destruct c).
  assert (str_join estr (pt_text <$> filterb (shows_text false) (match r with Some fr => [mkEPart estr (response_data fr) false (Some FUNCTION_RESPONSE)] | None => [] end)) = estr) as -> by (by destruct r).
  rewrite !sapp_nil_r. destruct t as [t|]; [|by destruct th]. unfold shows_text. cbn. destruct th; cbn; [by rewrite andb_false_r|].
  rewrite !andb_true_r. destruct (str_truthy t) eqn:E; [done|]. apply not_true_iff_false in E. rewrite str_truthy_true in E. by apply dec_stable in E.
Qed.

Lemma shown_calls ps : filterb is_function_call_part (ps ≫= artifact_parts) = call_part <$> part_calls ps.
Proof.
  induction ps as [|[t th c r] ps IH]; [done|]. rewrite bind_cons, filterb_app, IH. unfold part_calls at 2. cbn [omap list_omap rp_call].
  fold (part_calls ps). destruct t, c, r; done.
Qed.

Lemma call_rparts calls :
  omap (fun p => if rp_thought p then None else rp_text p) (call_rpart <$> calls) = [] /\ omap rp_call (call_rpart <$> calls) = calls.
Proof. induction calls as [|c l [IH1 IH2]]; [done|]. rewrite fmap_cons. split; [exact IH1|]. cbn [omap list_omap call_rpart rp_call]. f_equal. exact IH2. Qed.

(** The whole answer repeats what was streamed: the same text, and the same tool calls
    in the same order; the chunks themselves are never recorded. *)
Theorem whole_answer_repeats_stream id rs st b st' parts
    (Hstream : foldl (stream_response agent task_id context_id id) (no_turn, st) rs = (b, st'))
    (Hclose : close b = Some parts) :
  exists chunks, ar_yielded st' = ar_yielded st ++ chunks /\ ar_events st' = ar_events st /\
    extract_text (own_artifact id parts) = str_join estr (pt_text <$> filterb (shows_text false) (chunks ≫= raw_parts)) /\
    filterb is_function_call_part (event_content_parts (own_artifact id parts)) = filterb is_function_call_part (chunks ≫= raw_parts).
Proof.
  pose proof (stream_spec id rs no_turn st) as Hs. rewrite Hstream in Hs. cbn [no_turn tb_thought tb_text tb_calls app] in Hs.
  destruct Hs as (Hth & Htx & Hcs & chunks & -> & _ & Hraw). exists chunks. cbn [ar_yielded ar_events]. do 2 (split; [done|]).
  rewrite Hraw, shown_texts, shown_calls.
  assert (event_content_parts (own_artifact id parts) = parts ≫= artifact_parts) as E
    by (unfold own_artifact, run_async; by destruct (str_truthy _)).
  unfold extract_text, extract_text_with. rewrite E, shown_texts, shown_calls, <- Htx, <- Hcs.
  unfold close in Hclose. assert (parts = (match tb_thought b with [] => [] | l => [text_rpart (str_join estr l) true] end)
               ++ (match tb_text b with [] => [] | l => [text_rpart (str_join estr l) false] end)
               ++ (call_rpart <$> tb_calls b)) as -> by (by destruct (_ ++ _ ++ _); simplify_eq).
  unfold plain_texts, part_calls. rewrite !omap_app.
  destruct (call_rparts (tb_calls b)) as [-> ->].
  rewrite app_nil_r. split; destruct (tb_thought b), (tb_text b); done.
Qed.
End facts.
