(* ===== verification/LiteLlm.v ===== *)
(** * The model client (new_choirworks/core/models/lite_llm.py)

    The chunks of the client library become responses: texts as they come, the
    fragments of each tool call put together by its index at the end. *)
From S2P Require Import Prelude PyStr Dict Json NewEvents.
Local Open Scope string_scope.
Local Open Scope list_scope.

(** A fragment of a tool call; what a chunk brings. *)
Record CallDelta := mkCallDelta { cd_index : Z; cd_id : option string; cd_name : option string; cd_arguments : option string }.
Record Delta := mkDelta { de_tool_calls : list CallDelta; de_reasoning : option string; de_content : option string }.
(** A call of a message that is not streamed. *)
Record MessageCall := mkMessageCall { mc_id : option string; mc_name : option string; mc_arguments : option string }.
Record ChatResult := mkChatResult { cr_calls : list MessageCall; cr_reasoning : option string; cr_content : option string }.

Record _ToolCallBuffer := mkToolBuffer { bu_id : string; bu_name : string; bu_args : list string }.

(** A string that is given and not empty. *)
Definition given (o : option string) (d : string) : string := ostr_or o d.

Definition buffer_delta (d : CallDelta) (b : _ToolCallBuffer) : _ToolCallBuffer :=
  mkToolBuffer (given (cd_id d) (bu_id b)) (given (cd_name d) (bu_name b))
    (bu_args b ++ match cd_arguments d with Some a => if str_truthy a then [a] else [] | None => [] end).

(** [tool_call_buffer], in the order of the dict. *)
Fixpoint buffer_call (d : CallDelta) (bufs : list (Z * _ToolCallBuffer)) : list (Z * _ToolCallBuffer) :=
  match bufs with
  | [] => [(cd_index d, buffer_delta d (mkToolBuffer (given (cd_id d) estr) (given (cd_name d) estr) []))]
  | (i, b) :: bufs' => if (i =? cd_index d)%Z then (i, buffer_delta d b) :: bufs' else (i, b) :: buffer_call d bufs'
  end.

Definition _build_parts (reasoning content : option string) : list LLMResponsePart :=
  (match reasoning with Some r => if str_truthy r then [text_rpart r true] else [] | None => [] end)
  ++ (match content with Some c => if str_truthy c then [text_rpart c false] else [] | None => [] end).

Definition text_responses (parts : list LLMResponsePart) : list LLMResponse :=
  match parts with [] => [] | _ => [mkLLMResponse (Some parts) None None] end.

Section client.
(** [json.loads]: the value, or the text of the error. *)
Context (loads : string -> json + string).

Definition MALFORMED : string := "MALFORMED_FUNCTION_CALL".

Definition _build_function_call_response (function_name function_args call_id : option string) : LLMResponse :=
  let '(args, error) :=
    if negb (ostr_truthy function_name) then
      (JObj [], Some ("missing function name, call_id=" +:+ match call_id with Some i => i | None => "None" end))
    else match function_args with
         | Some a =>
             if str_truthy a then
               match loads a with
               | inl v => (v, None)
               | inr e => (JObj [], Some ("invalid arguments JSON for " +:+ given function_name estr +:+ ": " +:+ e))
               end
             else (JObj [], None)
         | None => (JObj [], None)
         end in
  mkLLMResponse (Some [call_rpart (mkCall (given call_id estr) (given function_name estr) args)])
    ((fun _ => MALFORMED) <$> error) error.

Definition buffered_response (b : _ToolCallBuffer) : LLMResponse :=
  _build_function_call_response (Some (bu_name b)) (Some (str_join estr (bu_args b))) (Some (bu_id b)).

(** [None]: a chunk without choices. *)
Definition stream_chunk (acc : list (Z * _ToolCallBuffer) * list LLMResponse) (chunk : option Delta) : list (Z * _ToolCallBuffer) * list LLMResponse :=
  match chunk with
  | None => acc
  | Some delta =>
      (foldl (fun bufs d => buffer_call d bufs) acc.1 (de_tool_calls delta),
       acc.2 ++ text_responses (_build_parts (de_reasoning delta) (de_content delta)))
  end.
Definition _stream (chunks : list (option Delta)) : list LLMResponse :=
  let '(bufs, responses) := foldl stream_chunk ([], []) chunks in
  responses ++ (buffered_response <$> bufs.*2).

Definition _text (message : ChatResult) : list LLMResponse :=
  text_responses (_build_parts (cr_reasoning message) (cr_content message))
  ++ ((fun c => _build_function_call_response (mc_name c) (mc_arguments c) (mc_id c)) <$> cr_calls message).

(** ** Facts *)

(** The fragments of the chunks, in order. *)
Definition fragments (chunks : list (option Delta)) : list CallDelta := omap id chunks ≫= de_tool_calls.
Definition of_index (i : Z) (ds : list CallDelta) : list CallDelta := filterb (fun d => (cd_index d =? i)%Z) ds.
Definition last_given (l : list (option string)) : string := default estr (last (filterb str_truthy (omap id l))).
Definition all_given (l : list (option string)) : list string := filterb str_truthy (omap id l).

Definition buffer_of (ds : list CallDelta) : _ToolCallBuffer :=
  mkToolBuffer (last_given (cd_id <$> ds)) (last_given (cd_name <$> ds)) (all_given (cd_arguments <$> ds)).

Lemma given_last o l : given o (last_given l) = last_given (l ++ [o]).
Proof.
  unfold given, ostr_or, last_given. rewrite omap_app, filterb_app. destruct o as [s|]; cbn; [|by rewrite app_nil_r].
  destruct (str_truthy s); [by rewrite last_snoc | by rewrite app_nil_r].
Qed.

Lemma buffer_delta_of d ds : buffer_delta d (buffer_of ds) = buffer_of (ds ++ [d]).
Proof.
  unfold buffer_delta, buffer_of. cbn [bu_id bu_name bu_args]. rewrite !fmap_app, !given_last. f_equal.
  unfold all_given. rewrite omap_app, filterb_app. f_equal. cbn. destruct (cd_arguments d) as [a|]; [|done]. cbn. by destruct (str_truthy a).
Qed.

Lemma buffer_first d : buffer_delta d (mkToolBuffer (given (cd_id d) estr) (given (cd_name d) estr) []) = buffer_of [d].
Proof.
  change estr with (last_given []). rewrite !given_last. unfold buffer_delta. cbn [bu_id bu_name bu_args app].
  unfold buffer_of, given, ostr_or, last_given, all_given. cbn.
  f_equal; [destruct (cd_id d) as [s|] | destruct (cd_name d) as [s|] | destruct (cd_arguments d) as [s|]]; cbn; try done; by destruct (str_truthy s) eqn:E; cbn.
Qed.

Lemma dedup_from_snoc {A} `{EqDecision A} (l : list A) x : forall seen,
  dedup_from seen (l ++ [x]) = dedup_from seen l ++ (if bool_decide (x ∈ seen ++ l) then [] else [x]).
Proof.
  induction l as [|y l IH]; intros seen; cbn [app dedup_from].
  - rewrite app_nil_r. by case_bool_decide.
  - case_bool_decide as Hy; rewrite IH; cbn [app]; do 2 f_equal; [|f_equal]; rewrite (bool_decide_ext _ (x ∈ seen ++ y :: l)); try done; set_solver.
Qed.

Lemma buffer_call_keys d (f : Z -> _ToolCallBuffer) ks : NoDup ks ->
  buffer_call d ((fun i => (i, f i)) <$> ks) =
  ((fun i => (i, if (i =? cd_index d)%Z then buffer_delta d (f i) else f i)) <$> ks)
  ++ (if bool_decide (cd_index d ∈ ks) then [] else [(cd_index d, buffer_of [d])]).
Proof.
  induction 1 as [|k ks Hk Hks IH]; [cbn; by rewrite buffer_first|]. rewrite !fmap_cons. cbn [buffer_call]. destruct (k =? cd_index d)%Z eqn:E.
  - apply Z.eqb_eq in E. subst k. rewrite bool_decide_eq_true_2 by (by left). rewrite app_nil_r. f_equal.
    apply list_fmap_ext. intros n i Hi. apply list_elem_of_lookup_2 in Hi. destruct (i =? cd_index d)%Z eqn:E; [|done].
    apply Z.eqb_eq in E. by subst.
  - rewrite IH. cbn [app]. f_equal. f_equal. apply Z.eqb_neq in E. rewrite (bool_decide_ext (cd_index d ∈ k :: ks) (cd_index d ∈ ks)); [done|].
    rewrite elem_of_cons. naive_solver.
Qed.

Lemma buffers_spec ds : foldl (fun bufs d => buffer_call d bufs) [] ds =
  (fun i => (i, buffer_of (of_index i ds))) <$> fromkeys (cd_index <$> ds).
Proof.
  induction ds as [|d ds IH] using rev_ind; [done|]. rewrite foldl_app. cbn [foldl]. rewrite IH, buffer_call_keys by apply NoDup_fromkeys.
  unfold fromkeys. rewrite fmap_app, list_fmap_singleton, dedup_from_snoc, fmap_app. cbn [app].
  assert (forall i, of_index i (ds ++ [d]) = of_index i ds ++ (if (cd_index d =? i)%Z then [d] else [])) as Hof.
  { intros i. unfold of_index. rewrite filterb_app. cbn. by destruct (cd_index d =? i)%Z. }
  f_equal.
  - apply list_fmap_ext. intros _ i _. rewrite Hof, (Z.eqb_sym i). destruct (cd_index d =? i)%Z; [by rewrite buffer_delta_of | by rewrite app_nil_r].
  - fold (fromkeys (cd_index <$> ds)). rewrite (bool_decide_ext _ (cd_index d ∈ cd_index <$> ds)) by apply elem_of_fromkeys.
    case_bool_decide as Hin; [done|]. cbn. rewrite Hof, Z.eqb_refl. do 3 f_equal.
    assert (of_index (cd_index d) ds = []) as ->; [|done]. apply filterb_nil. intros x Hx. apply Z.eqb_neq. intros E. apply Hin.
    rewrite <- E. by apply list_elem_of_fmap_2.
Qed.

(** A streamed answer: the texts as they come, then one response per tool call, in the
    order in which the calls began; a call has the last id and the last name that
    were given for its index and the arguments of all its fragments, in order,
    however the fragments of the calls are interleaved. *)
Theorem litellm_stream_spec chunks :
  _stream chunks =
  (omap id chunks ≫= fun delta => text_responses (_build_parts (de_reasoning delta) (de_content delta)))
  ++ ((fun i => buffered_response (buffer_of (of_index i (fragments chunks)))) <$> fromkeys (cd_index <$> fragments chunks)).
Proof.
  assert (forall acc, foldl stream_chunk acc chunks =
    (foldl (fun bufs d => buffer_call d bufs) acc.1 (fragments chunks),
     acc.2 ++ (omap id chunks ≫= fun delta => text_responses (_build_parts (de_reasoning delta) (de_content delta))))) as H.
  { unfold fragments. induction chunks as [|c chunks IH]; intros [bufs rs]; [cbn; by rewrite app_nil_r|]. cbn [foldl]. rewrite IH.
    destruct c as [delta|]; [|done]. cbn [stream_chunk fst snd omap list_omap id]. rewrite !bind_cons, foldl_app, app_assoc. done. }
  unfold _stream. rewrite H. cbn [fst snd app]. rewrite buffers_spec. f_equal. by rewrite <- !list_fmap_compose.
Qed.

(** A call reaches the agent with an error exactly when it has no name or its
    arguments are not JSON; an error always has a text. *)
Theorem function_call_response_spec name args call_id :
  let r := _build_function_call_response name args call_id in
  (is_Some (lr_error_code r) <-> ostr_truthy name = false \/ exists a e, args = Some a /\ a <> estr /\ loads a = inr e) /\
  (is_Some (lr_error_code r) -> ostr_truthy (lr_error_message r) = true) /\
  exists call, lr_content r = Some [call_rpart call] /\ fc_id call = given call_id estr /\ fc_name call = given name estr /\
    fc_args call = (if ostr_truthy name then match args with
                                             | Some a => if str_truthy a then match loads a with inl v => v | inr _ => JObj [] end else JObj []
                                             | None => JObj [] end
                    else JObj []).
Proof.
  cbn zeta. unfold _build_function_call_response. destruct (ostr_truthy name) eqn:En; cbn [negb].
  - destruct args as [a|]; [destruct (str_truthy a) eqn:Ea; [destruct (loads a) as [v|e] eqn:El|]|]; cbn;
      rewrite ?is_Some_alt; split_and!; try (by eexists); try done.
    + split; [done|]. intros [|(a' & e & [= <-] & _ & He)]; [done|]. by rewrite El in He.
    + split; [|done]. intros _. right. exists a, e. by apply str_truthy_true in Ea.
    + split; [done|]. intros [|(a' & e & [= <-] & Hne & He)]; [done|]. apply str_truthy_true in Hne. congruence.
    + split; [done|]. by intros [|(a' & e & ? & _)].
  - cbn. split_and!; [rewrite is_Some_alt; tauto|done|by eexists].
Qed.
End client.
