(* ===== verification/A2aServer.v ===== *)
(** * Serving an agent over A2A (new_choirworks/a2a/executor.py)

    One request runs the agent and publishes what it yields on the queue of its
    task, between the opening statuses and one final status. Requests run beside
    each other; a cancellation stops the run of its task, waits for it, and
    publishes the last word. *)
From S2P Require Import Prelude PyStr Dict Json Graph NewEvents NodePath Contents NodeRunner RemoteA2a.
Local Open Scope string_scope.
Local Open Scope list_scope.

(** ** One request *)

Section request.
(** The name of the class of an exception. *)
Context (type_name : exn -> string).
(** [agent.run_async] on the events of an invocation: what it yields, to a consumer
    that records the complete events, and the exception it ends in. *)
Context (run_agent : list Event -> list Event * option exn).

Definition status_item (task_id context_id : string) (state : task_state) (parts : list EPart) : StreamResponse :=
  Content (mkEvent task_id context_id no_meta (Status state parts)).
Definition new_task (task_id context_id : string) : RemoteTask := mkRemoteTask task_id context_id TaskState.SUBMITTED [] [] [].

(** [_run]: what it publishes, and the cancellation it lets through. *)
Definition _run (task_id context_id user_text : string) : list StreamResponse * option exn :=
  let start := [Snapshot (new_task task_id context_id); status_item task_id context_id TaskState.WORKING []] in
  let '(events, fin) := run_agent [user_message user_text] in
  let published := start ++ (Content <$> events) in
  match fin with
  | None => (published ++ [status_item task_id context_id TaskState.COMPLETED []], None)
  | Some x =>
      if is_exception x
      then (published ++ [status_item task_id context_id TaskState.FAILED [text_part (type_name x +:+ ": " +:+ exn_str x)]], None)
      else (published, Some x)
  end.
End request.

(** ** The requests of a server *)

(** A run of a request: its task, and what it has left to publish. [sv_active] is
    [_active]; the runs have numbers for names; [sv_log] is what has been published,
    on all the queues. *)
Record ServedRun := mkServed { sr_task : string; sr_left : list StreamResponse }.
Record Server := mkServer {
  sv_runs : list (nat * ServedRun); sv_active : list (string * nat);
  sv_log : list (string * StreamResponse); sv_next : nat }.
Definition new_server : Server := mkServer [] [] [] 0.

Inductive call :=
| Execute (task_id : string) (items : list StreamResponse)   (** a request comes in *)
| Publish (run : nat)                                        (** a run publishes its next item *)
| Return (run : nat)                                         (** a run ends *)
| Cancel (task_id context_id : string)                       (** a cancellation *)
| Disconnect (run : nat).                                    (** the request itself is cancelled *)

(** The finally clause of [execute]: whatever run the entry names goes. *)
Definition end_run (n : nat) (t : string) (s : Server) : Server :=
  mkServer (ddel n (sv_runs s)) (ddel t (sv_active s)) (sv_log s) (sv_next s).
Definition publish (t : string) (i : StreamResponse) (s : Server) : Server :=
  mkServer (sv_runs s) (sv_active s) (sv_log s ++ [(t, i)]) (sv_next s).
Definition canceled_item (t c : string) : StreamResponse := status_item t c TaskState.CANCELED [].

Inductive serve_step : Server -> call -> Server -> Prop :=
| serve_execute t items s :
    serve_step s (Execute t items)
      (mkServer (dset (sv_next s) (mkServed t items) (sv_runs s)) (dset t (sv_next s) (sv_active s)) (sv_log s) (S (sv_next s)))
| serve_publish n t i items s :
    dget n (sv_runs s) = Some (mkServed t (i :: items)) ->
    serve_step s (Publish n) (publish t i (mkServer (dset n (mkServed t items) (sv_runs s)) (sv_active s) (sv_log s) (sv_next s)))
| serve_return n t s :
    dget n (sv_runs s) = Some (mkServed t []) -> serve_step s (Return n) (end_run n t s)
| serve_cancel n t c s :
    dget t (sv_active s) = Some n -> serve_step s (Cancel t c) (publish t (canceled_item t c) (end_run n t s))
| serve_cancel_idle t c s :
    dget t (sv_active s) = None -> serve_step s (Cancel t c) (publish t (canceled_item t c) s)
| serve_disconnect n t items s :
    dget n (sv_runs s) = Some (mkServed t items) -> serve_step s (Disconnect n) (end_run n t s).

(** The requests of a task come one after the other. *)
Definition comes_alone (s : Server) (l : call) : Prop := match l with Execute t _ => dget t (sv_active s) = None | _ => True end.
Definition apart_step (s : Server) (l : call) (s' : Server) : Prop := serve_step s l s' /\ comes_alone s l.

(** ** The life of a task

    What the server promises for each task: its queue gets the items of its runs, one
    run after the other, each from the first item on; a run that returns has
    published all of them; a cancellation ends the run and has the last word. *)

Inductive task_life := Idle (h : list StreamResponse) | Running (h left : list StreamResponse).
Inductive life_call := LExecute (items : list StreamResponse) | LPublish | LReturn | LCancel (context_id : string) | LDisconnect.

Inductive life_step (t : string) : task_life -> life_call -> task_life -> Prop :=
| life_execute h items : life_step t (Idle h) (LExecute items) (Running h items)
| life_publish h i left : life_step t (Running h (i :: left)) LPublish (Running (h ++ [i]) left)
| life_return h : life_step t (Running h []) LReturn (Idle h)
| life_cancel h left c : life_step t (Running h left) (LCancel c) (Idle (h ++ [canceled_item t c]))
| life_cancel_idle h c : life_step t (Idle h) (LCancel c) (Idle (h ++ [canceled_item t c]))
| life_disconnect h left : life_step t (Running h left) LDisconnect (Idle h).

Definition history (t : string) (s : Server) : list StreamResponse :=
  omap (fun p => if bool_decide (p.1 = t) then Some p.2 else None) (sv_log s).
Arguments history : simpl never.
Definition life_of (s : Server) (t : string) : task_life :=
  match dget t (sv_active s) with
  | None => Idle (history t s)
  | Some n => Running (history t s) (default [] (sr_left <$> dget n (sv_runs s)))
  end.

Definition requests_of (t : string) (tr : list call) : list (list StreamResponse) :=
  omap (fun l => match l with Execute t' items => if bool_decide (t' = t) then Some items else None | _ => None end) tr.
Definition life_requests (tr : list life_call) : list (list StreamResponse) :=
  omap (fun l => match l with LExecute items => Some items | _ => None end) tr.

(** ** Facts *)

(** The entries of [_active] are the runs, one for each task. *)
Record server_inv (s : Server) : Prop := mkServerInv {
  si_keys : NoDup (dkeys (sv_runs s)) /\ NoDup (dkeys (sv_active s));
  si_fresh : forall n, is_Some (dget n (sv_runs s)) -> n < sv_next s;
  si_active : forall t n, dget t (sv_active s) = Some n <-> exists items, dget n (sv_runs s) = Some (mkServed t items) }.

Lemma new_server_inv : server_inv new_server.
Proof. split; cbn; [by split; constructor | by intros n [] | intros t n; split; [done | by intros []]]. Qed.

Lemma history_publish t i s : history t (publish t i s) = history t s ++ [i].
Proof. unfold history. cbn. rewrite omap_app. cbn. by rewrite bool_decide_true. Qed.

Section step.
Context (s : Server) (Hinv : server_inv s).

Lemma run_is_active n t items : dget n (sv_runs s) = Some (mkServed t items) -> dget t (sv_active s) = Some n.
Proof. intros H. apply (si_active s Hinv). by exists items. Qed.

Lemma end_run_inv n t items : dget n (sv_runs s) = Some (mkServed t items) -> server_inv (end_run n t s).
Proof.
  intros Hn. destruct (si_keys s Hinv) as [Hr Ha]. pose proof (run_is_active _ _ _ Hn) as Ht. split; cbn.
  - split; by apply NoDup_ddel.
  - intros m. rewrite dget_ddel by done. case_decide; [by intros []|]. apply (si_fresh s Hinv).
  - intros t' m. rewrite !dget_ddel by done. destruct (decide (n = m)) as [<-|Hm].
    + split; [|by intros []]. case_decide; [done|]. intros (l & Hl)%(si_active s Hinv). congruence.
    + case_decide as Hd; [subst t'|apply (si_active s Hinv)]. split; [done|]. intros (l & Hl%run_is_active). congruence.
Qed.

Lemma publish_inv t i : server_inv s -> server_inv (publish t i s).
Proof. by intros [H1 H2 H3]. Qed.

Lemma executed_inv t items : dget t (sv_active s) = None ->
  server_inv (mkServer (dset (sv_next s) (mkServed t items) (sv_runs s)) (dset t (sv_next s) (sv_active s)) (sv_log s) (S (sv_next s))).
Proof.
  intros Ht. destruct (si_keys s Hinv) as [Hr Ha]. split; cbn.
  - split; by apply NoDup_dset.
  - intros m. rewrite dget_dset. case_decide; [lia|]. intros Hm%(si_fresh s Hinv). lia.
  - intros t' m. rewrite !dget_dset. destruct (decide (t' = t)) as [->|Hne]; destruct (decide (m = sv_next s)) as [->|Hm].
    + split; [by eexists | done].
    + split; [congruence|]. intros (l & H%run_is_active). congruence.
    + split; [|intros (l & H); congruence]. intros (l & H)%(si_active s Hinv).
      assert (sv_next s < sv_next s) by (apply (si_fresh s Hinv); by eexists). lia.
    + apply (si_active s Hinv).
Qed.

Lemma progressed_inv n t i items : dget n (sv_runs s) = Some (mkServed t (i :: items)) ->
  server_inv (mkServer (dset n (mkServed t items) (sv_runs s)) (sv_active s) (sv_log s) (sv_next s)).
Proof.
  intros Hn. destruct (si_keys s Hinv) as [Hr Ha]. split; cbn.
  - split; [by apply NoDup_dset | done].
  - intros m. rewrite dget_dset. case_decide; [subst; intros _; apply (si_fresh s Hinv); by eexists | apply (si_fresh s Hinv)].
  - intros t' m. rewrite dget_dset, (si_active s Hinv). case_decide; [subst m|done]. rewrite Hn.
    split; intros (l & [= <- <-]); by eexists.
Qed.

(** What a call leaves of the other tasks. *)
Lemma life_other t t' n i (s' : Server) : t' <> t ->
  (forall m, dget t' (sv_active s) = Some m -> m <> n) ->
  dget t' (sv_active s') = dget t' (sv_active s) -> (forall m, m <> n -> dget m (sv_runs s') = dget m (sv_runs s)) ->
  sv_log s' = sv_log s \/ sv_log s' = sv_log s ++ [(t, i)] ->
  life_of s' t' = life_of s t'.
Proof.
  intros Hne Hn Ea Er El. unfold life_of. rewrite Ea. assert (history t' s' = history t' s) as ->.
  { unfold history. destruct El as [->| ->]; [done|]. rewrite omap_app. cbn. rewrite bool_decide_false by done. by rewrite app_nil_r. }
  destruct (dget t' (sv_active s)) as [m|] eqn:E; [|done]. by rewrite Er by by apply Hn.
Qed.

Lemma other_run t t' n m items : t' <> t -> dget n (sv_runs s) = Some (mkServed t items) -> dget t' (sv_active s) = Some m -> m <> n.
Proof. intros Hne Hn (l & Hl)%(si_active s Hinv) ->. congruence. Qed.

Lemma fresh_run t m : dget t (sv_active s) = Some m -> m <> sv_next s.
Proof. intros (l & Hl)%(si_active s Hinv) ->. assert (sv_next s < sv_next s) by (apply (si_fresh s Hinv); by eexists). lia. Qed.
End step.

(** Every call is a call on one task, and no other task notices it. *)
Lemma step_refines s l s' : server_inv s -> apart_step s l s' ->
  server_inv s' /\ exists t ll, life_step t (life_of s t) ll (life_of s' t) /\
    (forall t', t' <> t -> life_of s' t' = life_of s t') /\
    (forall t', requests_of t' [l] = if bool_decide (t' = t) then life_requests [ll] else []).
Proof.
  intros Hinv [Hstep Halone]. destruct (si_keys s Hinv) as [Hr Ha].
  destruct Hstep as [t items s | n t i items s Hn | n t s Hn | n t c s Ht | t c s Ht | n t items s Hn]; cbn in Halone.
  - split; [by apply executed_inv|]. exists t, (LExecute items). unfold life_of at 1 2. cbn. rewrite Halone, !dget_dset_eq. cbn.
    split; [constructor|]. split.
    + intros t' Hne. apply (life_other s t t' (sv_next s) NoPayload); try done; cbn; [by apply fresh_run | by rewrite dget_dset_ne | | by left].
      intros m Hm. by rewrite dget_dset_ne.
    + intros t'. cbn. rewrite (bool_decide_ext (t = t') (t' = t)) by done. by case_bool_decide.
  - split; [by apply publish_inv; eapply progressed_inv|]. exists t, LPublish. unfold life_of at 1 2. cbn.
    rewrite (run_is_active s Hinv _ _ _ Hn), dget_dset_eq, Hn. cbn. rewrite history_publish.
    split; [constructor|]. split; [|intros t'; by case_bool_decide].
    intros t' Hne. apply (life_other s t t' n i); try done; cbn; [intros m; by eapply other_run | | by right].
    intros m Hm. by rewrite dget_dset_ne.
  - split; [by eapply end_run_inv|]. exists t, LReturn. unfold life_of at 1 2. cbn.
    rewrite (run_is_active s Hinv _ _ _ Hn), dget_ddel_eq, Hn by done. cbn. split; [constructor|]. split; [|intros t'; by case_bool_decide].
    intros t' Hne. apply (life_other s t t' n NoPayload); try done; cbn; [intros m; by eapply other_run | by rewrite dget_ddel_ne | | by left].
    intros m Hm. by rewrite dget_ddel_ne.
  - destruct (proj1 (si_active s Hinv _ _) Ht) as (left & Hn). split; [by apply publish_inv; eapply end_run_inv|]. exists t, (LCancel c).
    unfold life_of at 1 2. cbn. rewrite Ht, dget_ddel_eq, Hn by done. rewrite history_publish.
    split; [constructor|]. split; [|intros t'; by case_bool_decide].
    intros t' Hne. apply (life_other s t t' n (canceled_item t c)); try done; cbn; [intros m; by eapply other_run | by rewrite dget_ddel_ne | | by right].
    intros m Hm. by rewrite dget_ddel_ne.
  - split; [by apply publish_inv|]. exists t, (LCancel c).
    unfold life_of at 1 2. cbn. rewrite Ht, history_publish.
    split; [constructor|]. split; [|intros t'; by case_bool_decide].
    intros t' Hne. apply (life_other s t t' (sv_next s) (canceled_item t c)); try done; cbn; [by apply fresh_run | by right].
  - split; [by eapply end_run_inv|]. exists t, LDisconnect. unfold life_of at 1 2. cbn.
    rewrite (run_is_active s Hinv _ _ _ Hn), dget_ddel_eq, Hn by done. cbn. split; [constructor|]. split; [|intros t'; by case_bool_decide].
    intros t' Hne. apply (life_other s t t' n NoPayload); try done; cbn; [intros m; by eapply other_run | by rewrite dget_ddel_ne | | by left].
    intros m Hm. by rewrite dget_ddel_ne.
Qed.

Lemma steps_refine s tr s' : server_inv s -> steps apart_step s tr s' -> forall t,
  exists ltr, steps (life_step t) (life_of s t) ltr (life_of s' t) /\ life_requests ltr = requests_of t tr.
Proof.
  intros Hinv Hs t. revert Hinv. induction Hs as [s | s l s' tr s'' Hstep Hs IH]; intros Hinv; [exists []; split; [constructor | done]|].
  destruct (step_refines _ _ _ Hinv Hstep) as (Hinv' & t0 & ll & Hl & Hother & Hreq). destruct (IH Hinv') as (ltr & Hltr & Hrs).
  assert (requests_of t (l :: tr) = requests_of t [l] ++ requests_of t tr) as -> by (unfold requests_of; by rewrite <- omap_app).
  rewrite Hreq. destruct (decide (t = t0)) as [->|Hne].
  - exists (ll :: ltr). split; [by econstructor|]. rewrite bool_decide_true by done. rewrite <- Hrs. unfold life_requests. by rewrite <- omap_app.
  - exists ltr. rewrite bool_decide_false by done. split; [by rewrite <- Hother | done].
Qed.

(** C23: When the requests of each task come one after the other, every task lives its own
    life: its queue gets, request by request and in their order, the items of the
    request from the first on and nothing else; all of them when the run returns; and
    a cancellation ends the run, whatever the other tasks do, and has the last word. *)
Theorem requests_live_apart tr s t : steps apart_step new_server tr s ->
  exists ltr, steps (life_step t) (Idle []) ltr (life_of s t) /\ life_requests ltr = requests_of t tr.
Proof. intros Hs. apply (steps_refine new_server tr s new_server_inv Hs t). Qed.

(** Two requests of one task at once: the first to return takes the entry of the
    second out of [_active], so that a cancellation does not reach it, and it goes on
    after the task was reported canceled. *)
Example overlapping_requests (i j : StreamResponse) :
  exists s, steps serve_step new_server
      [Execute "t" [i]; Execute "t" [j]; Publish 0; Return 0; Cancel "t" "c"; Publish 1] s /\
    history "t" s = [i; canceled_item "t" "c"; j].
Proof.
  eexists. split; [|shelve]. econstructor; [apply serve_execute|]. econstructor; [apply serve_execute|].
  econstructor; [by apply serve_publish|]. econstructor; [by apply serve_return|].
  econstructor; [by apply serve_cancel_idle|]. econstructor; [by apply serve_publish|]. constructor.
  Unshelve. done.
Qed.
