(* ===== verification/ServedAgent.v ===== *)
(** * An agent that runs a model, served and called over A2A

    The two sides of the protocol put together: [BaseAgentExecutor] serves an
    [LLMAgent] ([A2aServer], [LlmAgent]), and a node of the orchestrator calls it
    ([RemoteA2a]). Between them the queue of the task is the stream of responses. *)
From S2P Require Import Prelude PyStr Dict Json Graph NewEvents NodePath Contents NodeRunner DagPlan DagRuntime.
From S2P Require Import Orchestrator RemoteA2a RemoteFacts LlmAgent LlmAgentFacts A2aServer.
Local Open Scope string_scope.
Local Open Scope list_scope.

(** ** What a stream of artifacts comes to *)

(** An artifact update that is a chunk before the last one, or a whole artifact. *)
Definition whole_or_chunk (e : Event) : Prop :=
  exists id ps append last_chunk, ev_body e = ArtifactUpdate id ps append last_chunk /\ (last_chunk = true -> append = false).

Lemma handle_wholes agent tid cid es rest : Forall whole_or_chunk es -> forall bufs, exists bufs',
  handle_responses agent tid cid bufs ((Content <$> es) ++ rest) =
  (own_event agent tid cid <$> es) ++ handle_responses agent tid cid bufs' rest.
Proof.
  induction 1 as [|e es (id & ps & append & last_chunk & E & Hl) Hes IH]; intros bufs; [by exists bufs|].
  cbn [fmap list_fmap app handle_responses]. unfold _handle_a2a_response, response_events. rewrite E.
  unfold _aggregate_artifact_update. destruct last_chunk.
  - rewrite (Hl eq_refl). match goal with |- context [handle_responses _ _ _ ?b _] => destruct (IH b) as (b' & ->) end. by exists b'.
  - match goal with |- context [handle_responses _ _ _ ?b _] => destruct (IH b) as (b' & ->) end. by exists b'.
Qed.

Lemma owned_bodies agent tid cid (es : list Event) : ev_body <$> (own_event agent tid cid <$> es) = ev_body <$> es.
Proof. rewrite <- list_fmap_compose. by apply list_fmap_ext. Qed.

(** ** The outcome of a remote node *)

(** How a node ends, from the events of its agent. *)
Definition end_of_events (name : string) (es : list Event) : task_end :=
  match foldl note_status (None, None) es with
  | (Some f, _) => Raised ("remote agent " +:+ name +:+ " failed: " +:+ f)
  | (None, Some p) => Raised ("remote agent " +:+ name +:+ ": " +:+ p)
  | (None, None) => Returned (default estr (head (omap promotes es)))
  end.

Lemma note_status_bodies l : forall k acc, ev_body <$> l = ev_body <$> k -> foldl note_status acc l = foldl note_status acc k.
Proof.
  induction l as [|e l IH]; intros [|e' k] acc H; try done. rewrite !fmap_cons in H. injection H as He Hl. cbn [foldl].
  assert (note_status acc e = note_status acc e') as ->; [|by apply IH].
  unfold note_status, _status_state, extract_text, extract_text_with, event_content_parts. by rewrite He.
Qed.

Lemma end_of_bodies name l k : ev_body <$> l = ev_body <$> k -> end_of_events name l = end_of_events name k.
Proof. intros H. unfold end_of_events. by rewrite (note_status_bodies l k), (promotes_bodies l k). Qed.

Lemma note_nothing es acc : Forall whole_or_chunk es -> foldl note_status acc es = acc.
Proof.
  intros H. revert acc. induction H as [|e es (id & ps & a & lc & E & _) Hes IH]; intros [f p]; [done|]. cbn [foldl].
  unfold note_status at 2, _status_state. rewrite E. apply IH.
Qed.

Section remote.
Context (py_repr : json -> string) (sort_items : list (string * json) -> list (string * json)).

Lemma remote_outcome remote tid cid node info message iv :
  (run_remote_node py_repr sort_items remote tid cid node info message iv).2 =
  end_of_events (dn_agent_name node) (node_events remote (mkRemoteAgent (dn_agent_name node) (ai_url info)) tid cid).
Proof.
  unfold run_remote_node. set (agent := mkRemoteAgent _ _).
  destruct (run_async_impl_events py_repr sort_items remote agent tid cid message) as (rq & -> & _). set (evs := node_events remote agent tid cid).
  pose proof (promote_output (run_async (ra_name agent) <$> evs) None) as Ho.
  pose proof (promote_bodies (run_async (ra_name agent) <$> evs) None) as Hb.
  destruct (promote_events None _) as [output fwd]. cbn [fst snd] in Ho, Hb. rewrite run_async_bodies in Hb.
  rewrite (promotes_bodies _ evs (run_async_bodies _ _)) in Ho. unfold end_of_events. rewrite (note_status_bodies fwd evs) by done.
  destruct (foldl note_status _ evs) as [[f|] [p|]]; try done. cbn [snd]. by rewrite Ho.
Qed.
End remote.

(** ** The events of the agent *)

Section agent.
Context (dumps py_repr : json -> string) (sort_items : list (string * json) -> list (string * json)).
Context (uuid : nat -> string) (generate : nat -> list ChatMessage -> LlmStream) (run_tool : nat -> string -> json -> res json).
Context (agent : LLMAgent) (task_id context_id : string).

Local Abbreviation turn := (agent_turn dumps py_repr sort_items uuid generate run_tool agent task_id context_id).
Local Abbreviation loop := (agent_loop dumps py_repr sort_items uuid generate run_tool agent task_id context_id).

(** The text of the answer to each request. *)
Definition answer_text (i : nat) (ms : list ChatMessage) : string := str_join estr (plain_texts (answer_parts (ls_responses (generate i ms)))).
Definition answer_texts (st : AgentRun) : list string := imap answer_text (ar_requests st).

(** The agent as [BaseAgentExecutor] runs it. *)
Definition llm_behaviour (fuel : nat) (events : list Event) : list Event * option exn :=
  let '(st, r) := loop fuel (start_agent events) in (ar_yielded st, match r with Some (Err x) => Some x | _ => None end).

(** [es] has been yielded: whole artifacts and chunks, in which these texts come to an end. *)
Definition tells (st st' : AgentRun) (texts : list string) : Prop :=
  exists es, ar_yielded st' = ar_yielded st ++ es /\ Forall whole_or_chunk es /\ omap promotes es = texts.

Lemma tells_app st st' st'' ts ts' : tells st st' ts -> tells st' st'' ts' -> tells st st'' (ts ++ ts').
Proof.
  intros (es & E & H & <-) (es' & E' & H' & <-). exists (es ++ es'). rewrite E', E, app_assoc, omap_app. split_and!; try done. by apply Forall_app.
Qed.

Lemma tells_nothing st st' : ar_yielded st' = ar_yielded st -> tells st st' [].
Proof. intros E. exists []. rewrite app_nil_r. by split_and!. Qed.

Lemma own_artifact_whole id parts : whole_or_chunk (own_artifact agent task_id context_id id parts).
Proof. unfold own_artifact, run_async. by destruct (str_truthy _); do 4 eexists. Qed.

Lemma own_artifact_text id parts :
  promotes (own_artifact agent task_id context_id id parts) =
  let t := str_join estr (plain_texts parts) in if str_truthy t then Some t else None.
Proof.
  transitivity (promotes (to_a2a_artifact task_id context_id parts id false true)).
  { apply promotes_body. unfold own_artifact, run_async. by destruct (str_truthy _). }
  unfold promotes, extract_text, extract_text_with. cbn. by rewrite shown_texts.
Qed.

Lemma partial_tells_nothing es : Forall (fun e => is_partial_event e = true) es -> omap promotes es = [].
Proof. induction 1 as [|e es He Hes IH]; [done|]. cbn [omap list_omap]. unfold promotes at 1. by rewrite He. Qed.

Lemma stream_tells aid rs b st b' st' : foldl (stream_response agent task_id context_id aid) (b, st) rs = (b', st') -> tells st st' [].
Proof.
  assert (forall r b st, let '(b', st') := stream_response agent task_id context_id aid (b, st) r in tells st st' []) as Hone.
  { intros r b0 st0. unfold stream_response. destruct (lr_content r) as [parts|]; [|by apply tells_nothing].
    exists [run_async (ag_name agent) (to_a2a_artifact task_id context_id parts aid
       ((match tb_thought b0 with [] => false | _ => true end) || (match tb_text b0 with [] => false | _ => true end)) false)].
    split; [by rewrite yield_partial by (apply chunk_partial)|]. split.
    - constructor; [|done]. unfold run_async. by destruct (str_truthy _); do 4 eexists.
    - apply partial_tells_nothing. constructor; [|done]. unfold run_async. destruct (str_truthy _); exact (chunk_partial task_id context_id parts aid _). }
  revert b st. induction rs as [|r rs IH]; intros b st; cbn [foldl]; [intros [= -> ->]; by apply tells_nothing|].
  specialize (Hone r b st). destruct (stream_response _ _ _ _ (b, st) r) as [b1 st1]. intros H.
  apply (tells_app _ _ _ [] [] Hone). by apply (IH b1 st1).
Qed.

Lemma response_tells fc r st : tells st (yield_response uuid agent task_id context_id fc r st) [].
Proof.
  destruct (yield_response_grown uuid agent task_id context_id fc r st) as (id & _ & E & _). eexists. split; [exact E|].
  split; [constructor; [apply own_artifact_whole | done]|]. cbn [omap list_omap]. unfold response_of. by rewrite own_artifact_text.
Qed.

Lemma responses_tell r calls : forall st, tells st (foldl (fun st fc => yield_response uuid agent task_id context_id fc r st) st calls) [].
Proof.
  induction calls as [|fc calls IH]; intros st; cbn [foldl]; [by apply tells_nothing|].
  apply (tells_app _ _ _ [] [] (response_tells fc r st)), IH.
Qed.

Lemma tools_tell calls : forall st, tells st (_execute_tools uuid run_tool agent task_id context_id calls st).1 [].
Proof.
  induction calls as [|fc calls IH]; intros st; cbn [_execute_tools]; [by apply tells_nothing|].
  destruct (negb _); [by apply tells_nothing|]. destruct (run_tool _ _ _) as [r|]; [|by apply tells_nothing].
  match goal with |- tells _ (_execute_tools _ _ _ _ _ _ (yield_response _ _ _ _ _ ?r1 ?s1)).1 _ =>
    pose proof (response_tells fc r1 s1) as (es & E & H & Ht) end.
  eapply (tells_app _ _ _ [] []); [|apply IH]. by exists es.
Qed.

Lemma close_text b parts : close b = Some parts -> str_join estr (plain_texts parts) = str_join estr (tb_text b).
Proof.
  unfold close. intros Hc. assert (parts = (match tb_thought b with [] => [] | l => [text_rpart (str_join estr l) true] end)
               ++ (match tb_text b with [] => [] | l => [text_rpart (str_join estr l) false] end)
               ++ (call_rpart <$> tb_calls b)) as -> by (by destruct (_ ++ _ ++ _); simplify_eq).
  unfold plain_texts. rewrite !omap_app. destruct (call_rparts (tb_calls b)) as [-> _]. rewrite app_nil_r.
  by destruct (tb_thought b), (tb_text b).
Qed.

Lemma whole_tells id b st :
  tells st (match close b with
            | Some parts => yield_event agent (to_a2a_artifact task_id context_id parts id false true) st
            | None => st
            end) (filterb str_truthy [str_join estr (tb_text b)]).
Proof.
  destruct (close b) as [parts|] eqn:Ec.
  - rewrite yield_own. exists [own_artifact agent task_id context_id id parts]. split; [done|].
    split; [constructor; [apply own_artifact_whole|done]|]. cbn [omap list_omap]. rewrite own_artifact_text, (close_text _ _ Ec).
    cbn. by destruct (str_truthy _).
  - unfold close in Ec. destruct (tb_text b) eqn:E; [by apply tells_nothing|]. destruct (tb_thought b); done.
Qed.

(** A turn says the text of its answer. *)
Lemma turn_tells st st' e ms : get_contents dumps py_repr sort_items (ar_events st) (ag_name agent) None None None = Ok ms ->
  turn st = (st', e) -> exists ts, tells st st' ts /\
    match e with Raising _ => True | _ => ts = filterb str_truthy [answer_text (length (ar_requests st)) ms] end.
Proof.
  intros Hms. unfold agent_turn. rewrite Hms. cbn [draw_uuid record_request ar_uuids]. set (aid := uuid _).
  unfold answer_text. set (answer := generate _ ms).
  match goal with |- context [foldl (stream_response agent task_id context_id aid) (no_turn, ?s1) _] =>
    pose proof (stream_spec agent task_id context_id aid (ls_responses answer) no_turn s1) as Hs;
    pose proof (stream_tells aid (ls_responses answer) no_turn s1) as Ht end.
  destruct (foldl _ _ _) as [b st1]. cbn in Hs. destruct Hs as (_ & Htx & _). specialize (Ht _ _ eq_refl). rewrite <- Htx.
  assert (forall ts s, tells st1 s ts -> tells st s ts) as Hbegin.
  { intros ts s (es & E & Hf & Hp). destruct Ht as (es0 & E0 & Hf0 & Hp0). cbn in E0. exists (es0 ++ es).
    rewrite E, E0, app_assoc, omap_app, Hp0, Hp. split_and!; try done. by apply Forall_app. }
  destruct (ls_end answer) as [x|]; [intros [= <- <-]; exists []; split; [by apply Hbegin, tells_nothing|done]|].
  unfold finish_turn. destruct (check_output agent b) as [u|x]; [|intros [= <- <-]; exists []; split; [by apply Hbegin, tells_nothing|done]].
  pose proof (Hbegin _ _ (whole_tells aid b st1)) as Hw. clear Hbegin Ht. set (st2 := match close b with Some _ => _ | None => _ end) in *. clearbody st2.
  set (ts := filterb str_truthy _) in *. intros He. exists ts.
  destruct (tb_calls b) as [|fc calls]; [by injection He as <- <-|].
  destruct (str_truthy (tb_error b)).
  - pose proof (responses_tell (JObj [("error", JStr (tb_error b))]) (fc :: calls) (count_retry st2)) as Hr.
    injection He as <- He. split; [|by subst e; case_match]. rewrite <- (app_nil_r ts). apply (tells_app _ st2); [done|].
    destruct Hr as (es & E & Hf). by exists es.
  - pose proof (tools_tell (fc :: calls) st2) as Hr.
    destruct (_execute_tools _ _ _ _ _ _ _) as [st3 [?|?]]; injection He as <- <-; (split; [|done]); rewrite <- (app_nil_r ts); by apply (tells_app _ st2).
Qed.

Lemma loop_tells fuel : forall st st' r, loop fuel st = (st', Some r) -> exists ts, tells st st' ts /\
  (is_ok r = true -> exists qs, ar_requests st' = ar_requests st ++ qs /\
     ts = filterb str_truthy (imap (fun i => answer_text (length (ar_requests st) + i)) qs)).
Proof.
  induction fuel as [|fuel IH]; intros st st' r; [done|]. cbn [agent_loop]. destruct (turn st) as [st1 e] eqn:Et.
  destruct (get_contents dumps py_repr sort_items (ar_events st) (ag_name agent) None None None) as [ms|x] eqn:Ems.
  - destruct (turn_tells _ _ _ _ Ems Et) as (ts & Hts & He).
    destruct (turn_spec dumps py_repr sort_items uuid generate run_tool agent task_id context_id _ _ _ _ Ems Et) as (Hreq & _).
    destruct e as [| |x].
    + intros [= <- <-]. exists ts. split; [done|]. intros _. exists [ms]. split; [done|]. rewrite He. cbn. by rewrite Nat.add_0_r.
    + intros Hl. destruct (IH _ _ _ Hl) as (ts' & Hts' & Hr). exists (ts ++ ts'). split; [by apply (tells_app _ st1)|].
      intros Hok. destruct (Hr Hok) as (qs & Eq & ->). exists (ms :: qs). rewrite Eq, Hreq, <- app_assoc. split; [done|].
      rewrite He, imap_cons, <- filterb_app, length_app. cbn [app length]. rewrite Nat.add_0_r. do 2 f_equal.
      apply imap_ext. intros i q _. unfold compose. f_equal. lia.
    + intros [= <- <-]. by exists ts.
  - unfold agent_turn in Et. rewrite Ems in Et. injection Et as <- <-. intros [= <- <-]. exists []. split; [by apply tells_nothing|done].
Qed.
End agent.

(** ** The call *)

Section served.
Context (dumps py_repr : json -> string) (sort_items : list (string * json) -> list (string * json)).
Context (uuid : nat -> string) (generate : nat -> list ChatMessage -> LlmStream) (run_tool : nat -> string -> json -> res json).
Context (type_name : exn -> string).

(** The events of the caller, when the remote agent is one of these. *)
Lemma served_bodies ra tid cid t c es i :
  Forall whole_or_chunk es -> (match ev_body i with Status _ _ => True | _ => False end) ->
  ev_body <$> handle_responses ra tid cid []
    (([Snapshot (new_task t c); status_item t c TaskState.WORKING []] ++ (Content <$> es)) ++ [Content i]) =
  [Status TaskState.SUBMITTED []; Status TaskState.WORKING []] ++ (ev_body <$> es) ++ [ev_body i].
Proof.
  intros Hes Hi. cbn [app]. change (handle_responses ra tid cid [] (Snapshot (new_task t c) :: status_item t c TaskState.WORKING [] :: (Content <$> es) ++ [Content i]))
    with (own_event ra tid cid (status_event (new_task t c)) :: own_event ra tid cid (mkEvent t c no_meta (Status TaskState.WORKING [])) ::
          handle_responses ra tid cid [] ((Content <$> es) ++ [Content i])).
  destruct (handle_wholes ra tid cid es [Content i] Hes []) as (bufs & ->). rewrite !fmap_cons, fmap_app, owned_bodies. cbn [app].
  destruct i as [it ic im [s ps| |]]; [done|by destruct Hi..].
Qed.

Lemma served_end name es b l : Forall whole_or_chunk es ->
  ev_body <$> l = [Status TaskState.SUBMITTED []; Status TaskState.WORKING []] ++ (ev_body <$> es) ++ [b] ->
  end_of_events name l =
  match foldl note_status (None, None) [mkEvent estr estr no_meta b] with
  | (Some f, _) => Raised ("remote agent " +:+ name +:+ " failed: " +:+ f)
  | (None, Some p) => Raised ("remote agent " +:+ name +:+ ": " +:+ p)
  | (None, None) => Returned (default estr (head (omap promotes (es ++ [mkEvent estr estr no_meta b]))))
  end.
Proof.
  intros Hes Hl. set (e := mkEvent estr estr no_meta b). set (st s := mkEvent estr estr no_meta (Status s [])).
  rewrite (end_of_bodies name l ([st TaskState.SUBMITTED; st TaskState.WORKING] ++ es ++ [e])) by (by rewrite Hl, !fmap_app).
  unfold end_of_events. rewrite !foldl_app, (note_nothing es) by done. done.
Qed.

(** The agent ended well: the node returns what it said first. *)
Lemma served_returns fuel (agent : LLMAgent) t c remote tid cid node info message iv st
    (Hrun : agent_loop dumps py_repr sort_items uuid generate run_tool agent t c fuel (start_agent [user_message message]) = (st, Some (Ok tt)))
    (Hresolved : is_ok (_ensure_resolved (mkRemoteAgent (dn_agent_name node) (ai_url info)) remote) = true)
    (Hserved : re_responses remote =
       (_run type_name (llm_behaviour dumps py_repr sort_items uuid generate run_tool agent t c fuel) t c message).1)
    (Hbroken : re_broken remote = None) :
  (run_remote_node py_repr sort_items remote tid cid node info message iv).2 =
  Returned (default estr (head (filterb str_truthy (answer_texts generate st)))).
Proof.
  rewrite remote_outcome. unfold node_events. destruct (_ensure_resolved _ remote); [|done]. rewrite Hserved, Hbroken, app_nil_r.
  destruct (loop_tells _ _ _ _ _ _ _ _ _ _ _ _ _ Hrun) as (ts & (es & Ees & Hes & Hts) & Hr). cbn in Ees.
  unfold _run, llm_behaviour. rewrite Hrun, Ees. cbn [fst].
  erewrite served_end; [|exact Hes|by apply served_bodies]. cbn. rewrite omap_app, Hts. cbn. rewrite app_nil_r.
  destruct (Hr eq_refl) as (qs & Eq & ->). cbn in Eq. by rewrite <- Eq.
Qed.

(** C24: A node whose remote agent runs a model, as [BaseAgentExecutor] serves it: it ends
    as the run of the agent did, raising with the name and the text of the
    exception, or returning the text of the first answer that has any, whether or
    not that answer went on to call tools. *)
Theorem served_agent_spec fuel (agent : LLMAgent) t c remote tid cid node info message iv st r
    (Hrun : agent_loop dumps py_repr sort_items uuid generate run_tool agent t c fuel (start_agent [user_message message]) = (st, Some r))
    (Hexn : match r with Err x => is_exception x = true | Ok _ => True end)
    (Hresolved : is_ok (_ensure_resolved (mkRemoteAgent (dn_agent_name node) (ai_url info)) remote) = true)
    (Hserved : re_responses remote =
       (_run type_name (llm_behaviour dumps py_repr sort_items uuid generate run_tool agent t c fuel) t c message).1)
    (Hbroken : re_broken remote = None) :
  (run_remote_node py_repr sort_items remote tid cid node info message iv).2 =
  match r with
  | Ok _ => Returned (default estr (head (filterb str_truthy (answer_texts generate st))))
  | Err x => Raised ("remote agent " +:+ dn_agent_name node +:+ " failed: " +:+ type_name x +:+ ": " +:+ exn_str x)
  end.
Proof.
  destruct r as [[]|x]; [by eapply served_returns|].
  rewrite remote_outcome. unfold node_events. destruct (_ensure_resolved _ remote); [|done]. rewrite Hserved, Hbroken, app_nil_r.
  destruct (loop_tells _ _ _ _ _ _ _ _ _ _ _ _ _ Hrun) as (ts & (es & Ees & Hes & Hts) & _). cbn in Ees.
  unfold _run, llm_behaviour. rewrite Hrun, Ees, Hexn. cbn [fst].
  erewrite served_end; [|exact Hes|by apply served_bodies].
  assert (str_truthy (type_name x +:+ ": " +:+ exn_str x) = true) as Ht by (by destruct (type_name x)).
  set (text := type_name x +:+ ": " +:+ exn_str x) in *. clearbody text.
  assert (extract_text (mkEvent estr estr no_meta (Status TaskState.FAILED [text_part text])) = text) as Et.
  { unfold extract_text, extract_text_with. change (event_content_parts _) with [text_part text]. unfold shows_text. cbn. by rewrite Ht. }
  unfold foldl, note_status. cbn [_status_state ev_body]. rewrite Et.
  unfold str_or. by rewrite Ht.
Qed.
End served.
