(* ===== verification/AgentNode.v ===== *)
(** * Agents as nodes (new_choirworks/core/workflow/llm_agent_wrapper.py,
    core/utils/schema_utils.py, orchestrator/planner.py, orchestrator/orchestrator.py)

    A node of a workflow runs an agent on its input: the text of the answer that
    calls no tool, checked against the schema, is the output of the node. The planner
    of the orchestrator is such a node. *)
From S2P Require Import Prelude PyStr Dict Json Graph NewEvents NodePath Contents NodeRunner DagPlan DagRuntime.
From S2P Require Import Orchestrator.
From S2P Require Import RemoteA2a LlmAgent LlmAgentFacts ServedAgent.
From Stdlib Require Import Ascii.
Local Open Scope string_scope.
Local Open Scope list_scope.

(** ** Schemas *)

Definition fence : string := "```".
(** [[A-Za-z0-9_]], [[ \t]]. *)
Definition is_tag (a : ascii) : bool :=
  let n := nat_of_ascii a in
  ((65 <=? n) && (n <=? 90) || (97 <=? n) && (n <=? 122) || (48 <=? n) && (n <=? 57) || (n =? 95))%nat.
Definition is_blank (a : ascii) : bool := bool_decide (a = " "%char \/ a = "009"%char).
Fixpoint skip_while (p : ascii -> bool) (s : string) : string :=
  match s with String a s' => if p a then skip_while p s' else s | EmptyString => s end.
(** [_FENCE_LANG_RE.sub("", s, count=1)]: each of the three parts takes what it can. *)
Definition drop_fence_lang (s : string) : string :=
  let s := skip_while is_blank (skip_while is_tag s) in
  match s with String "010"%char s' => s' | _ => s end.

Definition ends_with (p s : string) : bool :=
  (String.length p <=? String.length s)%nat && bool_decide (String.substring (String.length s - String.length p) (String.length p) s = p).
Definition _strip_json_code_fence (json_text : string) : string :=
  let stripped := ustrip json_text in
  if (6 <=? String.length stripped)%nat && starts_with fence stripped && ends_with fence stripped
  then ustrip (drop_fence_lang (String.substring 3 (String.length stripped - 6) stripped))
  else json_text.

(** [model_validate_json] and [model_dump] of the schema. *)
Definition validate_schema (model : string -> res json) (json_text : string) : res json := model (_strip_json_code_fence json_text).

(** ** The wrapper *)

Section wrapper.
Context (dumps py_repr : json -> string) (sort_items : list (string * json) -> list (string * json)).
Context (uuid : nat -> string) (generate : nat -> list ChatMessage -> LlmStream) (run_tool : nat -> string -> json -> res json).
(** [json.dumps(node_input, ensure_ascii=False, default=str)]. *)
Context (dumps_input : json -> string).
Context (agent : LLMAgent) (task_id context_id : string).

(** [include_contents]: the events of the invocation are copied, or left out. *)
Definition prepare_llm_agent_context (include_contents : bool) (iv : Invocation) : list Event := if include_contents then iv_events iv else [].
Definition prepare_llm_agent_input (events : list Event) (node_input : json) : list Event :=
  match node_input with
  | JNull => events
  | JStr s => events ++ [user_message s]
  | _ => events ++ [user_message (dumps_input node_input)]
  end.

(** What an event does to the node's context, and the event as it goes on. *)
Definition process_llm_agent_output (e : Event) : res (list node_action * Event) :=
  if negb (is_final_artifact e) || has_function_calls e then Ok ([], e) else
  let text := extract_text e in
  output ← match ag_output_schema agent with
           | Some validate => if str_truthy (ustrip text) then d ← validate text; Ok (Some d) else Ok None
           | None => Ok (Some (JStr text))
           end;
  Ok ([SetOutput output], if str_truthy text then with_meta (set_output (JStr text)) e else e).

Fixpoint node_body (events : list Event) (fin : option exn) : NodeBody :=
  match events with
  | [] => mkBody [] fin
  | e :: events' =>
      match process_llm_agent_output e with
      | Err x => mkBody [] (Some x)
      | Ok (actions, e') => let body := node_body events' fin in mkBody (actions ++ Yield e' :: nb_actions body) (nb_end body)
      end
  end.

(** [None]: the agent has not ended within the fuel. *)
Definition run_llm_agent_as_node (fuel : nat) (include_contents : bool) (iv : Invocation) (node_input : json) : option NodeBody :=
  let events := prepare_llm_agent_input (prepare_llm_agent_context include_contents iv) node_input in
  match agent_loop dumps py_repr sort_items uuid generate run_tool agent task_id context_id fuel (start_agent events) with
  | (_, None) => None
  | (st, Some r) => Some (node_body (ar_yielded st) (match r with Ok _ => None | Err x => Some x end))
  end.
End wrapper.

(** ** The planner *)

Definition build_planner_instruction (agents : list AgentInfo) : string :=
  let capability_lines := str_join nl ((fun a => "- " +:+ ai_name a +:+ ": " +:+ ai_description a) <$> agents) in
  str_join nl
    ["You are the planning brain of a multi-agent orchestration platform.";
     "You are the SOLE decision point: after every node completion you evaluate the";
     "full context and output the complete new plan (never a diff / change list).";
     "";
     "Available agents:";
     capability_lines;
     "";
     "Rules:";
     "- agent_name is enum-constrained to the registered agents listed above.";
     "- Use deps to express ordering; independent nodes run in parallel.";
     "- Each instruction MUST be self-contained: restate everything the agent needs";
     "  (including its slice of the user goal); agents have no conversation memory.";
     "- Reference another node's output in an instruction as {{output:<node_id>}}.";
     "- Keep completed nodes (same id) in the plan when their output is still needed;";
     "  completed nodes are never re-run, their output stays available.";
     "- Keep waiting nodes and their deps intact: a node waiting for assist results";
     "  must continue (its next round receives the assist output).";
     "- Do not invent node ids that already finished under a different meaning;";
     "  reuse the same id only to keep the same task.";
     "- Empty nodes list means the whole job is complete: nothing more to run.";
     ""].

(** An agent with the instruction it is given. [model]: the plan of a text, or its
    errors, for the schema that [constrained_plan_schema] makes. *)
Record Planner := mkPlanner { pl_agent : LLMAgent; pl_instruction : string }.
Definition build_planner (model : (DagPlan -> bool) -> string -> res json) (agents : list AgentInfo) : res Planner :=
  schema ← constrained_plan_schema (ai_name <$> agents);
  Ok (mkPlanner (mkLLMAgent "planner" [] 3 (Some (validate_schema (model schema)))) (build_planner_instruction agents)).

(** ** The orchestrator *)

Fixpoint extract_user_task_from (reversed_events : list Event) : string :=
  match reversed_events with
  | [] => estr
  | e :: es => match ev_body e with AMessage true _ => extract_text e | _ => extract_user_task_from es end
  end.
Definition extract_user_task (events : list Event) : string := extract_user_task_from (rev events).

(** [{a.name: a for a in self.agents}]. *)
Definition agents_by_name (agents : list AgentInfo) : list (string * AgentInfo) := foldl (fun d a => dset (ai_name a) a d) [] agents.
(** The run begins at the planner. *)
Definition start_orchestrator (agents : list AgentInfo) (events : list Event) : res Orch :=
  let by_name := agents_by_name agents in
  _ ← constrained_plan_schema (ai_name <$> (snd <$> by_name)); Ok (orch_start by_name (extract_user_task events)).

Section planner.
Context (dumps py_repr : json -> string) (sort_items : list (string * json) -> list (string * json)).
Context (uuid : nat -> string) (generate : nat -> list ChatMessage -> LlmStream) (run_tool : nat -> string -> json -> res json).
Context (dumps_input : json -> string) (task_id context_id : string).

(** [PlannerNode]: [include_contents="none"]. *)
Definition planner_run (planner : Planner) (rt : DagRuntime) (fuel : nat) (iv : Invocation) : option NodeBody :=
  run_llm_agent_as_node dumps py_repr sort_items uuid generate run_tool dumps_input (pl_agent planner) task_id context_id
    fuel false iv (JStr (build_planner_brief rt)).
(** [DoneNode]. *)
Definition done_body (rt : DagRuntime) : NodeBody :=
  mkBody [SetOutput (Some (JObj (prod_map id JStr <$> rt_outputs rt)))] None.
End planner.

(** ** Facts: schemas *)

Lemma substring_prefix s t : String.substring 0 (String.length s) (s +:+ t) = s.
Proof. induction s as [|a s IH]; [by destruct t|]. rewrite sapp_cons. cbn [String.length String.substring]. by rewrite IH. Qed.
Lemma substring_skip s t n : String.substring (String.length s) n (s +:+ t) = String.substring 0 n t.
Proof. induction s as [|a s IH]; [done|]. rewrite sapp_cons. cbn [String.length String.substring]. exact IH. Qed.
Lemma substring_all s : String.substring 0 (String.length s) s = s.
Proof. pose proof (substring_prefix s estr) as H. by rewrite sapp_nil_r in H. Qed.

Lemma ends_with_true p s : ends_with p s = true <-> exists r, s = r +:+ p.
Proof.
  unfold ends_with. rewrite andb_true_iff, Nat.leb_le, bool_decide_eq_true. split.
  - intros [Hl <-]. exists (String.substring 0 (String.length s - String.length p) s).
    assert (forall n s, n <= String.length s -> s = String.substring 0 n s +:+ String.substring n (String.length s - n) s) as Hcut.
    { clear. intros n s. revert n. induction s as [|a s IH]; intros [|n] Hn; cbn [String.length] in Hn; try lia; try done.
      - rewrite Nat.sub_0_r. by rewrite substring_all.
      - cbn [String.length String.substring Nat.sub]. rewrite sapp_cons. f_equal. apply IH. lia. }
    rewrite (Hcut (String.length s - String.length p) s) at 1 by lia. do 2 f_equal. lia.
  - intros (r & ->). rewrite slength_app. split; [lia|].
    replace (String.length r + String.length p - String.length p) with (String.length r) by lia.
    by rewrite substring_skip, substring_all.
Qed.

(** Nothing is stripped around a string whose ends are not spaces. *)
Lemma strip_nothing a s b :
  is_cont b = false -> starts_cont s = false -> is_space (String a estr) = false -> is_space (String b estr) = false ->
  ustrip (String a (s +:+ String b estr)) = String a (s +:+ String b estr).
Proof.
  intros Hb Hs Ha Hb'. assert (uchars (String a (s +:+ String b estr)) = String a estr :: uchars s ++ [String b estr]) as E.
  { change (String a (s +:+ String b estr)) with (String a estr +:+ (s +:+ String b estr)). rewrite uchars_app by (by destruct s).
    by rewrite uchars_app by done. }
  unfold ustrip. rewrite E. cbn [drop_while]. rewrite Ha. rewrite reverse_cons, reverse_app. cbn [app].
  change (reverse [String b estr]) with [String b estr]. cbn [app drop_while]. rewrite Hb'.
  rewrite reverse_cons, reverse_app, reverse_involutive. change (reverse [String a estr]) with [String a estr]. cbn [app].
  rewrite <- (uconcat_uchars (String a (s +:+ String b estr))), E. done.
Qed.

Fixpoint all_chars (p : ascii -> bool) (s : string) : bool := match s with String a s' => p a && all_chars p s' | EmptyString => true end.
Lemma skip_all p s t : all_chars p s = true -> skip_while p (s +:+ t) = skip_while p t.
Proof. induction s as [|a s IH]; [done|]. rewrite sapp_cons. cbn [all_chars skip_while]. intros [-> H]%andb_prop. by apply IH. Qed.

Definition fenced (tag blanks body : string) : string := fence +:+ ((tag +:+ (blanks +:+ String "010" body)) +:+ fence).

Lemma strip_fenced tag blanks body : all_chars is_tag tag = true -> all_chars is_blank blanks = true ->
  _strip_json_code_fence (fenced tag blanks body) = ustrip body.
Proof.
  intros Ht Hb. unfold _strip_json_code_fence, fenced. set (mid := tag +:+ (blanks +:+ String "010" body)).
  assert (ustrip (fence +:+ (mid +:+ fence)) = fence +:+ (mid +:+ fence)) as ->.
  { pose proof (strip_nothing "`" ("``" +:+ (mid +:+ "``")) "`" eq_refl eq_refl ltac:(by vm_compute) ltac:(by vm_compute)) as H.
    replace (fence +:+ (mid +:+ fence)) with (String "`" (("``" +:+ (mid +:+ "``")) +:+ String "`" estr)); [exact H|].
    unfold fence. rewrite <- !sapp_assoc. done. }
  assert (String.length (fence +:+ (mid +:+ fence)) = String.length mid + 6) as El by (rewrite !slength_app; cbn; lia).
  rewrite El, (proj2 (Nat.leb_le _ _)) by lia.
  assert (starts_with fence (fence +:+ (mid +:+ fence)) = true) as -> by (apply starts_with_true; by eexists).
  assert (ends_with fence (fence +:+ (mid +:+ fence)) = true) as -> by (apply ends_with_true; exists (fence +:+ mid); by rewrite sapp_assoc).
  cbn [andb]. replace (String.length mid + 6 - 6) with (String.length mid) by lia.
  change 3 with (String.length fence) at 1. rewrite substring_skip, substring_prefix. f_equal. unfold drop_fence_lang, mid.
  rewrite skip_all by done. assert (skip_while is_tag (blanks +:+ String "010" body) = blanks +:+ String "010" body) as ->.
  { destruct blanks as [|a blanks]; [done|]. rewrite sapp_cons. cbn [all_chars skip_while] in Hb |- *. apply andb_prop in Hb as [Ha _].
    unfold is_blank in Ha. apply bool_decide_eq_true in Ha as [->| ->]; done. }
  by rewrite skip_all.
Qed.

(** The answer of a model that wraps its JSON in a code fence is read as what the
    fence holds; an answer that is not one fenced block is read as it is. *)
Theorem code_fences_are_read_through model text :
  (forall tag blanks body, all_chars is_tag tag = true -> all_chars is_blank blanks = true -> text = fenced tag blanks body ->
     validate_schema model text = model (ustrip body)) /\
  (~ (exists r, ustrip text = fence +:+ r) \/ ~ (exists r, ustrip text = r +:+ fence) -> validate_schema model text = model text).
Proof.
  split.
  - intros tag blanks body Ht Hb ->. unfold validate_schema. by rewrite strip_fenced.
  - intros H. unfold validate_schema, _strip_json_code_fence.
    assert ((6 <=? String.length (ustrip text))%nat && starts_with fence (ustrip text) && ends_with fence (ustrip text) = false) as ->; [|done].
    apply not_true_iff_false. rewrite !andb_true_iff, starts_with_true, ends_with_true. tauto.
Qed.

(** ** Facts: the wrapper *)

Section facts.
Context (dumps py_repr : json -> string) (sort_items : list (string * json) -> list (string * json)).
Context (uuid : nat -> string) (generate : nat -> list ChatMessage -> LlmStream) (run_tool : nat -> string -> json -> res json).
Context (dumps_input : json -> string) (agent : LLMAgent) (task_id context_id : string).

Local Abbreviation contents events := (get_contents dumps py_repr sort_items events (ag_name agent) None None None).
Local Abbreviation turn := (agent_turn dumps py_repr sort_items uuid generate run_tool agent task_id context_id).
Local Abbreviation loop := (agent_loop dumps py_repr sort_items uuid generate run_tool agent task_id context_id).
Local Abbreviation answer i ms := (ls_responses (generate i ms)).

(** What the runner and the wrapper write on an event the agent has recorded does not
    change what the agent reads of it. *)
Lemma content_reads name e e' :
  ev_body e = ev_body e' -> em_author (ev_meta e) = em_author (ev_meta e') -> em_isolation_scope (ev_meta e) = em_isolation_scope (ev_meta e') ->
  content_of dumps py_repr sort_items name None None None e = content_of dumps py_repr sort_items name None None None e'.
Proof.
  intros Hb Ha Hs. unfold content_of, _is_visible, is_other_agent_reply, present_other_agent_message, event_messages, extract_text, extract_text_with,
    event_content_parts, is_final_artifact. by rewrite Hb, Ha, Hs.
Qed.
Lemma content_marked name ctx o e : str_truthy (em_author (ev_meta e)) = true -> cx_isolation_scope ctx = None ->
  content_of dumps py_repr sort_items name None None None (_enrich_event ctx (with_meta (set_output o) e)) =
  content_of dumps py_repr sort_items name None None None e.
Proof.
  intros Ha Hs. apply content_reads; [done|..]; destruct e as [tid cid [author output [path ofor mao] branch scope delta route aid acid] body], ctx as [n p rid br sc out r x];
    cbn in Ha, Hs |- *; rewrite Ha; cbn; by destruct (str_truthy path), scope, sc.
Qed.

Lemma enrich_output ctx e : em_output (ev_meta (_enrich_event ctx e)) = em_output (ev_meta e).
Proof.
  destruct e as [tid cid [author output [path ofor mao] branch scope delta route aid acid] body]. unfold _enrich_event. cbn.
  destruct (str_truthy author); cbn; by destruct (str_truthy path).
Qed.

Lemma acts_error l : forall c, cx_error (foldl act c l) = cx_error c.
Proof. induction l as [|a l IH]; intros c; [done|]. cbn [foldl]. rewrite IH. by destruct a. Qed.

(** An event after which the node goes on as it was, or without output. *)
Definition quiet (e : Event) : Prop := is_partial_event e = true \/ has_function_calls e = true \/ extract_text e = estr.
Definition quiet_growth (st st' : AgentRun) : Prop := exists es, ar_yielded st' = ar_yielded st ++ es /\ Forall quiet es.

Lemma quiet_processed e : quiet e -> exists actions, process_llm_agent_output agent e = Ok (actions, e) /\ yields actions = [].
Proof.
  unfold process_llm_agent_output. intros H. destruct (negb (is_final_artifact e) || has_function_calls e) eqn:E; [by exists []|].
  apply orb_false_iff in E as [E1 E2]. destruct H as [H|[H|H]]; [|congruence|].
  - unfold is_partial_event in H. destruct (ev_body e) eqn:Eb; try done. apply negb_true_iff in H. by rewrite H in E1.
  - rewrite H. destruct (ag_output_schema agent); by eexists.
Qed.

Lemma grown_quiet st st' es : grown st st' es -> Forall quiet es -> quiet_growth st st'.
Proof. intros (_ & E & _) H. by exists es. Qed.
Lemma quiet_trans st st' st'' : quiet_growth st st' -> quiet_growth st' st'' -> quiet_growth st st''.
Proof. intros (es & E & H) (es' & E' & H'). exists (es ++ es'). rewrite E', E, app_assoc. split; [done|]. by apply Forall_app. Qed.

Lemma responses_quiet calls es : Forall2 (is_response agent task_id context_id) calls es -> Forall quiet es.
Proof.
  induction 1 as [|fc e calls es (id & r & ->) _ IH]; constructor; [|done]. right. right. unfold response_of, own_artifact, run_async.
  by destruct (str_truthy _).
Qed.

Lemma own_calls id parts : has_function_calls (own_artifact agent task_id context_id id parts) = negb (bool_decide (part_calls parts = [])).
Proof.
  unfold has_function_calls. assert (event_content_parts (own_artifact agent task_id context_id id parts) = parts ≫= artifact_parts) as ->
    by (unfold own_artifact, run_async; by destruct (str_truthy _)).
  pose proof (shown_calls parts) as H. destruct (part_calls parts) as [|c cs] eqn:E; cbn [fmap list_fmap] in H.
  - rewrite bool_decide_eq_true_2 by done. cbn. apply not_true_iff_false. rewrite existsb_elem. intros (p & Hp & Hc).
    assert (p ∈ filterb is_function_call_part (parts ≫= artifact_parts)) as Hin by (by apply elem_of_filterb). rewrite H in Hin. by apply elem_of_nil in Hin.
  - rewrite bool_decide_eq_false_2 by done. cbn. apply existsb_elem.
    assert (call_part c ∈ filterb is_function_call_part (parts ≫= artifact_parts)) as [H1 H2]%elem_of_filterb by (rewrite H; by left). by exists (call_part c).
Qed.

Lemma close_calls b parts : close b = Some parts -> part_calls parts = tb_calls b.
Proof.
  unfold close. intros Hc. assert (parts = (match tb_thought b with [] => [] | l => [text_rpart (str_join estr l) true] end)
               ++ (match tb_text b with [] => [] | l => [text_rpart (str_join estr l) false] end)
               ++ (call_rpart <$> tb_calls b)) as -> by (by destruct (_ ++ _ ++ _); simplify_eq).
  unfold part_calls. rewrite !omap_app. destruct (call_rparts (tb_calls b)) as [_ ->]. by destruct (tb_thought b), (tb_text b).
Qed.

(** The chunks of an answer, then its last one. *)
Lemma turn_quiet st st' e ms : contents (ar_events st) = Ok ms -> turn st = (st', e) ->
  let rs := answer (length (ar_requests st)) ms in
  match e with
  | Again => quiet_growth st st'
  | Break => part_calls (answer_parts rs) = [] -> forall text, text = str_join estr (plain_texts (answer_parts rs)) -> str_truthy text = true ->
      exists st1 id parts, quiet_growth st st1 /\ ar_yielded st' = ar_yielded st1 ++ [own_artifact agent task_id context_id id parts] /\
        extract_text (own_artifact agent task_id context_id id parts) = text /\ part_calls parts = [] /\
        match ag_output_schema agent with Some validate => is_ok (validate text) = true | None => True end
  | Raising _ => True
  end.
Proof.
  intros Hms. unfold agent_turn. rewrite Hms. cbn [draw_uuid]. set (aid := uuid _). set (ans := generate _ ms).
  match goal with |- context [foldl (stream_response agent task_id context_id aid) (no_turn, ?s1) _] =>
    pose proof (stream_spec agent task_id context_id aid (ls_responses ans) no_turn s1) as Hs end.
  destruct (foldl _ _ _) as [b st1]. cbn in Hs. destruct Hs as (Hth & Htx & Hcs & ys & E1 & Hp & _).
  assert (quiet_growth st st1) as Hst1.
  { exists ys. rewrite E1. split; [done|]. eapply Forall_impl; [exact Hp|]. by left. }
  clear E1. destruct (ls_end ans) as [x|]; [by intros [= <- <-]|]. unfold finish_turn.
  destruct (check_output agent b) as [u|x] eqn:Eo; [|by intros [= <- <-]]. cbn zeta. rewrite <- Htx, <- Hcs.
  destruct (tb_calls b) as [|fc calls] eqn:Ecalls.
  - intros [= <- <-] _ text -> Ht. destruct (close b) as [parts|] eqn:Ec.
    2:{ unfold close in Ec. destruct (tb_thought b), (tb_text b); done. }
    rewrite yield_own. exists st1, aid, parts. pose proof (own_artifact_text agent task_id context_id aid parts) as Hpr.
    cbn zeta in Hpr. rewrite (close_text _ _ Ec), Ht in Hpr. split_and!; [done|done| | |].
    + unfold promotes in Hpr. repeat case_match; try done. by injection Hpr.
    + by rewrite (close_calls _ _ Ec).
    + unfold check_output in Eo. rewrite Ecalls in Eo. destruct (ag_output_schema agent) as [v|]; [|done]. by destruct (v _).
  - assert (exists parts, close b = Some parts) as [parts Hparts].
    { unfold close. rewrite Ecalls. destruct (_ ++ _ ++ _) eqn:E; [|eauto]. apply app_nil in E as [_ [_ E]%app_nil]. done. }
    rewrite Hparts, yield_own. set (st2 := mkRun _ _ _ _ _ _).
    assert (quiet_growth st st2) as Hst2.
    { apply (quiet_trans _ st1); [done|]. exists [own_artifact agent task_id context_id aid parts]. split; [done|]. constructor; [|done]. right. left.
      by rewrite own_calls, (close_calls _ _ Hparts), Ecalls. }
    clearbody st2. destruct (str_truthy (tb_error b)).
    + intros [= <- <-].
      destruct (error_responses uuid agent task_id context_id (JObj [("error", JStr (tb_error b))]) (fc :: calls) (count_retry st2)) as (es & Hg & Hf).
      destruct (_ <=? _)%Z; [done|]. apply (quiet_trans _ (count_retry st2)); [by destruct Hst2 as (es0 & ?); exists es0|].
      by eapply grown_quiet, responses_quiet.
    + destruct (_execute_tools _ _ _ _ _ _ _) as [st3 [u'|x]] eqn:Et; intros [= <- <-]; [|done].
      destruct (tools_responses _ _ _ _ _ _ _ _ _ Et) as (es & Hg & Hf). apply (quiet_trans _ st2); [done|]. by eapply grown_quiet, responses_quiet.
Qed.

Lemma loop_end fuel : forall st st' u, loop fuel st = (st', Some (Ok u)) ->
  exists stl ms, quiet_growth st stl /\ contents (ar_events stl) = Ok ms /\ turn stl = (st', Break) /\ ar_requests st' = ar_requests stl ++ [ms].
Proof.
  induction fuel as [|fuel IH]; intros st st' u; [done|]. cbn [agent_loop]. destruct (turn st) as [st1 e] eqn:Et.
  destruct (contents (ar_events st)) as [ms|x] eqn:Ems.
  - pose proof (turn_quiet _ _ _ _ Ems Et) as Hq. cbn zeta in Hq.
    destruct (turn_spec dumps py_repr sort_items uuid generate run_tool agent task_id context_id _ _ _ _ Ems Et) as (Hreq & _).
    destruct e; [intros [= <- <-] | intros Hl | done].
    + exists st, ms. split_and!; [|done..]. exists []. by rewrite app_nil_r.
    + destruct (IH _ _ _ Hl) as (stl & ms' & Hg & H). exists stl, ms'. split; [by apply (quiet_trans _ st1)|done].
  - unfold agent_turn in Et. rewrite Ems in Et. by injection Et as <- <-.
Qed.

Lemma quiet_body es rest fin : Forall quiet es -> exists actions,
  node_body agent (es ++ rest) fin = mkBody (actions ++ nb_actions (node_body agent rest fin)) (nb_end (node_body agent rest fin)) /\ yields actions = es.
Proof.
  induction 1 as [|e es He _ (acts & IH & Hy)]; [exists []; by destruct (node_body _ _ _)|]. cbn [app node_body].
  destruct (quiet_processed e He) as (a & -> & Ha). exists (a ++ Yield e :: acts). rewrite IH. cbn [nb_actions nb_end]. split; [by rewrite <- app_assoc|].
  unfold yields in *. rewrite omap_app, Ha. cbn [app omap list_omap]. by rewrite Hy.
Qed.

(** The body of the node, when the last answer calls no tool and says something. *)
Lemma agent_body fuel include_contents iv node_input st u ms text :
  loop fuel (start_agent (prepare_llm_agent_input dumps_input (prepare_llm_agent_context include_contents iv) node_input)) = (st, Some (Ok u)) ->
  last (ar_requests st) = Some ms ->
  let rs := answer (pred (length (ar_requests st))) ms in
  part_calls (answer_parts rs) = [] -> text = str_join estr (plain_texts (answer_parts rs)) -> str_truthy (ustrip text) = true ->
  exists actions e output,
    run_llm_agent_as_node dumps py_repr sort_items uuid generate run_tool dumps_input agent task_id context_id fuel include_contents iv node_input =
      Some (mkBody (actions ++ [SetOutput (Some output); Yield (with_meta (set_output (JStr text)) e)]) None) /\
    is_partial_event e = false /\
    match ag_output_schema agent with Some validate => validate text = Ok output | None => output = JStr text end.
Proof.
  intros Hl Hms rs Hcalls Htext Hblank. unfold run_llm_agent_as_node. rewrite Hl.
  destruct (loop_end _ _ _ _ Hl) as (stl & ms' & (es0 & E0 & Hq0) & Hc & Ht & Hr).
  rewrite Hr, last_snoc in Hms. injection Hms as ->. unfold rs in *. rewrite Hr, length_app in Hcalls, Htext. cbn [length] in Hcalls, Htext.
  rewrite Nat.add_1_r in Hcalls, Htext. cbn [pred] in Hcalls, Htext.
  assert (str_truthy text = true) as Htr by (destruct text; [by vm_compute in Hblank | done]).
  destruct (turn_quiet _ _ _ _ Hc Ht Hcalls text Htext Htr) as (st1 & id & parts & (es1 & E1 & Hq1) & Ey & Ex & Hno & Hv).
  cbn [start_agent ar_yielded app] in E0. rewrite Ey, E1, E0.
  destruct (quiet_body (es0 ++ es1) [own_artifact agent task_id context_id id parts] None) as (acts & -> & _); [by apply Forall_app|].
  set (e := own_artifact _ _ _ _ _) in *. assert (is_final_artifact e = true) as Hfin by (unfold e, own_artifact, run_async; by destruct (str_truthy _)).
  assert (has_function_calls e = false) as Hfc by (unfold e; by rewrite own_calls, Hno, bool_decide_eq_true_2).
  assert (is_partial_event e = false) as Hp by (unfold is_partial_event; rewrite Hfin; by destruct (ev_body e)).
  cbn [node_body]. unfold process_llm_agent_output. rewrite Hfin, Hfc, Ex, Htr. cbn [negb orb].
  destruct (ag_output_schema agent) as [v|].
  - rewrite Hblank. destruct (v text) as [d|x] eqn:Ev; [|done]. by exists acts, e, d.
  - by exists acts, e, (JStr text).
Qed.

(** C26: A node that runs an agent whose last answer calls no tool and says something: the
    node ends without an error, and its output is what the agent's schema makes of
    the text of that answer, or the text itself. The record of the run gives the
    text: that is the output of a replay, whatever the schema. *)
Theorem agent_node_spec fuel include_contents node_input st u ms text parent path node rid events q events' q'
    (Hrun : loop fuel (start_agent (prepare_llm_agent_input dumps_input
              (prepare_llm_agent_context include_contents (mkInvocation events (Some q))) node_input)) = (st, Some (Ok u)))
    (Hlast : last (ar_requests st) = Some ms)
    (Hcalls : part_calls (answer_parts (answer (pred (length (ar_requests st))) ms)) = [])
    (Htext : text = str_join estr (plain_texts (answer_parts (answer (pred (length (ar_requests st))) ms))))
    (Hblank : str_truthy (ustrip text) = true)
    (Hnode : rn_timeout node = None) :
  exists body iv ctx output,
    run_llm_agent_as_node dumps py_repr sort_items uuid generate run_tool dumps_input agent task_id context_id
      fuel include_contents (mkInvocation events (Some q)) node_input = Some body /\
    run_node parent path node rid None body (mkInvocation events (Some q)) = (iv, Ok ctx) /\
    cx_error ctx = None /\ cx_output ctx = Some output /\
    match ag_output_schema agent with Some validate => validate text = Ok output | None => output = JStr text end /\
    exists recorded, iv_events iv = events ++ recorded /\
      cx_output (run_replayed parent path node rid recorded None (mkInvocation events' (Some q'))).2 = Some (JStr text).
Proof.
  destruct (agent_body _ _ _ _ _ _ _ _ Hrun Hlast Hcalls Htext Hblank) as (acts & e & output & -> & Hp & Hout).
  eexists _, _, _, output. split; [done|]. split; [rewrite node_run_spec; unfold end_of, done_actions; by rewrite Hnode|].
  unfold done_actions. rewrite ?Hnode. cbn [nb_actions]. rewrite foldl_app. cbn [foldl act]. split; [|split; [done|split; [done|]]].
  - cbn [set_cx_output cx_error]. by rewrite acts_error.
  - eexists. split; [done|]. rewrite replay_output.
    unfold yields. rewrite omap_app, fmap_app, filterb_app, omap_app. cbn [omap list_omap fmap list_fmap filterb List.filter].
    assert (complete (_enrich_event (_create_ctx parent path node rid) (with_meta (set_output (JStr text)) e)) = true) as ->.
    { unfold complete. change (is_partial_event (_enrich_event _ _)) with (is_partial_event e). by rewrite Hp. }
    cbn [omap list_omap]. rewrite last_app, enrich_output. done.
Qed.

(** One answer, without calls, against a schema. *)
Lemma answer_turn st ms rs validate text :
  contents (ar_events st) = Ok ms -> generate (length (ar_requests st)) ms = mkStream rs None -> part_calls (answer_parts rs) = [] ->
  text = str_join estr (plain_texts (answer_parts rs)) -> ag_output_schema agent = Some validate ->
  exists st', turn st = (st', match validate text with Ok _ => Break | Err x => Raising x end) /\
    (is_ok (validate text) = false -> quiet_growth st st').
Proof.
  intros Hms Hg Hno -> Hv. unfold agent_turn. rewrite Hms, Hg. cbn [draw_uuid]. set (aid := uuid _).
  match goal with |- context [foldl (stream_response agent task_id context_id aid) (no_turn, ?s1) _] =>
    pose proof (stream_spec agent task_id context_id aid rs no_turn s1) as Hs end.
  cbn [ls_responses ls_end]. destruct (foldl _ _ _) as [b st1]. cbn in Hs. destruct Hs as (_ & Htx & Hcs & ys & E1 & Hp & _).
  unfold finish_turn, check_output. rewrite Hv, Hcs, Hno, <- Htx. destruct (validate _) as [d|x]; cbn; eexists; (split; [done|]); [done|].
  intros _. exists ys. rewrite E1. split; [done|]. eapply Forall_impl; [exact Hp|]. by left.
Qed.
End facts.

(** ** Facts: the orchestrator's planner *)

Lemma brief_truthy rt : str_truthy (build_planner_brief rt) = true.
Proof. unfold build_planner_brief. cbn. by case_match. Qed.

Lemma user_contents dumps py_repr sort_items name t : str_truthy name = true -> str_truthy t = true ->
  get_contents dumps py_repr sort_items [user_message t] name None None None = Ok [UserMessage t].
Proof.
  intros Hn Ht. unfold get_contents. rewrite Hn. cbn [contents_of]. unfold content_of.
  change (_is_visible (user_message t) None None None) with true.
  assert (is_other_agent_reply name (user_message t) = false) as -> by (unfold is_other_agent_reply; cbn; by rewrite andb_false_r).
  unfold event_messages. cbn. rewrite Ht. cbn. by rewrite Ht.
Qed.

(** The planner is asked once, with the brief alone. Its answer, when it calls no tool
    and says something, is checked against the schema of the catalog: what the schema
    makes of it is the output of the node, and the node fails when it does not fit. *)
Theorem planner_node_spec dumps py_repr sort_items uuid generate run_tool dumps_input task_id context_id
    model agents planner rt rs text fuel parent path node rid events q
    (Hplanner : build_planner model agents = Ok planner)
    (Hanswer : generate 0 [UserMessage (build_planner_brief rt)] = mkStream rs None)
    (Hcalls : part_calls (answer_parts rs) = [])
    (Htext : text = str_join estr (plain_texts (answer_parts rs)))
    (Hblank : str_truthy (ustrip text) = true)
    (Hnode : rn_timeout node = None)
    (Hexn : forall schema x, model schema (_strip_json_code_fence text) = Err x -> is_exception x = true) :
  exists schema body iv ctx,
    constrained_plan_schema (ai_name <$> agents) = Ok schema /\
    planner_run dumps py_repr sort_items uuid generate run_tool dumps_input task_id context_id planner rt (S fuel) (mkInvocation events (Some q)) = Some body /\
    run_node parent path node rid None body (mkInvocation events (Some q)) = (iv, Ok ctx) /\
    match validate_schema (model schema) text with
    | Ok plan => cx_error ctx = None /\ cx_output ctx = Some plan
    | Err x => cx_error ctx = Some x
    end.
Proof.
  unfold build_planner in Hplanner. destruct (constrained_plan_schema (ai_name <$> agents)) as [schema|x]; [|done]. injection Hplanner as <-.
  set (agent := mkLLMAgent "planner" [] 3 (Some (validate_schema (model schema)))).
  set (start := start_agent [user_message (build_planner_brief rt)]).
  assert (get_contents dumps py_repr sort_items (ar_events start) (ag_name agent) None None None = Ok [UserMessage (build_planner_brief rt)]) as Hc.
  { apply user_contents; [done | apply brief_truthy]. }
  destruct (answer_turn dumps py_repr sort_items uuid generate run_tool agent task_id context_id start _ rs _ text Hc Hanswer Hcalls Htext eq_refl)
    as (st & Ht & Hq).
  exists schema. unfold planner_run. cbn [pl_agent]. fold agent.
  destruct (validate_schema (model schema) text) as [d|x] eqn:Ed.
  - assert (agent_loop dumps py_repr sort_items uuid generate run_tool agent task_id context_id (S fuel) start = (st, Some (Ok tt))) as Hl
      by (cbn [agent_loop]; by rewrite Ht).
    assert (ar_requests st = [[UserMessage (build_planner_brief rt)]]) as Hr.
    { by destruct (turn_spec dumps py_repr sort_items uuid generate run_tool agent task_id context_id _ _ _ _ Hc Ht) as (-> & _). }
    destruct (agent_body dumps py_repr sort_items uuid generate run_tool dumps_input agent task_id context_id (S fuel) false
      (mkInvocation events (Some q)) (JStr (build_planner_brief rt)) st tt [UserMessage (build_planner_brief rt)] text) as (acts & e & output & E & Hp & Hout);
      [exact Hl | by rewrite Hr | by rewrite Hr; cbn [length pred]; rewrite Hanswer | by rewrite Hr; cbn [length pred]; rewrite Hanswer | done |].
    cbn [ag_output_schema agent] in Hout. rewrite Ed in Hout. injection Hout as <-.
    exists (mkBody (acts ++ [SetOutput (Some d); Yield (with_meta (set_output (JStr text)) e)]) None).
    do 2 eexists. split; [done|]. split; [exact E|]. split; [rewrite node_run_spec; unfold end_of, done_actions; by rewrite Hnode|].
    unfold done_actions. rewrite ?Hnode. cbn [nb_actions]. rewrite foldl_app. cbn [foldl act set_cx_output cx_error cx_output]. split; [|done].
    by rewrite acts_error.
  - destruct (Hq eq_refl) as (es & Ees & Hes). cbn [start ar_yielded start_agent app] in Ees.
    destruct (quiet_body agent es [] (Some x) Hes) as (acts & E & _). rewrite app_nil_r in E. cbn in E. rewrite app_nil_r in E.
    assert (is_exception x = true) as Hx by (by apply (Hexn schema)).
    exists (mkBody acts (Some x)). do 2 eexists. split; [done|]. split.
    { unfold run_llm_agent_as_node. cbn [prepare_llm_agent_input prepare_llm_agent_context app]. fold start. cbn [agent_loop]. by rewrite Ht, Ees, E. }
    split; [rewrite node_run_spec; unfold end_of; rewrite Hnode; cbn [nb_end]; by rewrite Hx|]. done.
Qed.

Lemma by_name_dget name agents : forall d,
  dget name (foldl (fun d a => dset (ai_name a) a d) d agents) =
  match last (filterb (fun a => bool_decide (ai_name a = name)) agents) with Some a => Some a | None => dget name d end.
Proof.
  induction agents as [|a agents IH]; intros d; [done|]. cbn [foldl]. rewrite IH, dget_dset. cbn [filterb List.filter].
  match goal with |- context [List.filter ?f agents] => change (List.filter f agents) with (filterb f agents) end.
  case_bool_decide as Hn; [rewrite last_cons, decide_True by done | rewrite decide_False by congruence];
    match goal with |- context [last ?l] => by destruct (last l) end.
Qed.

Definition is_user_message (e : Event) : bool := match ev_body e with AMessage from_user _ => from_user | _ => false end.
Lemma user_task_of pre e post : is_user_message e = true -> Forall (fun e => is_user_message e = false) post ->
  extract_user_task (pre ++ e :: post) = extract_text e.
Proof.
  intros He Hp. unfold extract_user_task. rewrite rev_app_distr. cbn [rev]. rewrite <- app_assoc.
  apply Forall_rev in Hp. induction Hp as [|p l Hx _ IH]; cbn [app extract_user_task_from]; [|unfold is_user_message in Hx; by destruct (ev_body p) as [| |[]]].
  unfold is_user_message in He. by destruct (ev_body e) as [| |[]].
Qed.

(** A run of the orchestrator begins at the planner, with the last entry of the
    catalog under each name and the text of the last message of the user, unless the
    catalog is empty. *)
Theorem start_orchestrator_spec agents events :
  (agents = [] <-> exists x, start_orchestrator agents events = Err x) /\
  forall o, start_orchestrator agents events = Ok o ->
    or_pos o = AtPlanner /\
    (forall name, dget name (rt_agents (or_rt o)) = last (filterb (fun a => bool_decide (ai_name a = name)) agents)) /\
    (forall pre e post, events = pre ++ e :: post -> is_user_message e = true -> Forall (fun e => is_user_message e = false) post ->
       rt_user_task (or_rt o) = extract_text e).
Proof.
  unfold start_orchestrator. split.
  - assert (agents = [] <-> agents_by_name agents = []) as ->.
    { split; [by intros ->|]. destruct agents as [|a agents]; [done|]. intros H. exfalso.
      pose proof (by_name_dget (ai_name a) (a :: agents) []) as Hd. fold (agents_by_name (a :: agents)) in Hd. rewrite H in Hd.
      cbn [filterb List.filter] in Hd. rewrite bool_decide_eq_true_2, last_cons in Hd by done. by destruct (last _). }
    destruct (agents_by_name agents); cbn; split; [by eexists | done | done | by intros []].
  - intros o H. destruct (constrained_plan_schema _); [|done]. injection H as <-. split; [done|]. split.
    + intros name. cbn. unfold agents_by_name. rewrite by_name_dget. by destruct (last _).
    + intros pre e post -> He Hp. cbn. by apply user_task_of.
Qed.
