(* ===== verification/LlmRequest.v ===== *)
(** * Requests to a model (new_choirworks/core/models/lite_llm.py: generate_content_async
    and the schema of an answer; llm_request.py; llm_agent.py: the request of a turn)

    The schema of the answer is made strict in place before it is sent: every object
    that lists properties is closed and requires them all, and a reference stands alone;
    an object that lists none is left open. *)
From S2P Require Import Prelude PyStr Dict Json NewEvents NodePath Contents LiteLlm LlmAgent LlmAgentFacts.
Local Open Scope string_scope.
Local Open Scope list_scope.

(** ** Strict schemas *)

Abbreviation schema := (list (string * json)).

Definition is_object_type (s : schema) : bool := match dget "type" s with Some (JStr t) => bool_decide (t = "object") | _ => false end.

(** An object with properties is closed, and requires all of them. *)
Definition close_object (s : schema) : res schema :=
  match dget "properties" s with
  | Some properties =>
      if is_object_type s then
        match properties with
        | JObj m => Ok (dset "required" (JArr (JStr <$> py_sorted (dkeys m))) (dset "additionalProperties" (JBool false) s))
        | _ => Err (AttributeError "keys")
        end
      else Ok s
  | None => Ok s
  end.

(** The value under a key is transformed, when there is one. *)
Definition at_key (k : string) (f : json -> res json) (s : schema) : res schema :=
  match dget k s with
  | None => Ok s
  | Some v => v' ← f v; Ok (dset k v' s)
  end.
Fixpoint at_keys (l : list (string * (json -> res json))) (s : schema) : res schema :=
  match l with
  | [] => Ok s
  | (k, f) :: l' => s ← at_key k f s; at_keys l' s
  end.

(** [for v in x.values()], [for v in x], each transformed by [f]. *)
Definition each_value (f : json -> res json) (x : json) : res json :=
  match x with
  | JObj m => m' ← res_mapM (fun p => v ← f p.2; Ok (p.1, v)) m; Ok (JObj m')
  | _ => Err (AttributeError "values")
  end.
Definition each_item (f : json -> res json) (x : json) : res json :=
  match x with
  | JArr l => l' ← res_mapM f l; Ok (JArr l')
  | JStr _ | JObj _ => Ok x
  | _ => Err (TypeError "object is not iterable")
  end.

(** Where schemas are looked for, in the order of the function. *)
Definition visited (node : json -> res json) : list (string * (json -> res json)) :=
  [("$defs", each_value node); ("properties", each_value node); ("anyOf", each_item node); ("oneOf", each_item node);
   ("allOf", each_item node); ("items", node)].

(** The fuel bounds the depth. *)
Fixpoint enforce (fuel : nat) (s : schema) : res schema :=
  match fuel with
  | O => Err Unmodelled
  | S fuel' =>
      if dmem "$ref" s then Ok (filterb (fun p => bool_decide (p.1 = "$ref")) s)
      else s ← close_object s;
           at_keys (visited (fun x => match x with JObj s => s' ← enforce fuel' s; Ok (JObj s') | _ => Ok x end)) s
  end.

Fixpoint json_depth (j : json) : nat :=
  match j with
  | JObj kvs => S ((fix go (l : list (string * json)) := match l with [] => 0 | (_, v) :: l' => max (json_depth v) (go l') end) kvs)
  | JArr l => S ((fix go (l : list json) := match l with [] => 0 | v :: l' => max (json_depth v) (go l') end) l)
  | _ => 0
  end.
Definition _enforce_strict_openai_schema (s : schema) : res schema := enforce (json_depth (JObj s)) s.

(** [_to_response_format], of the name of a model and its JSON schema. *)
Definition _to_response_format (name : string) (s : schema) : res json :=
  s ← _enforce_strict_openai_schema s;
  Ok (JObj [("type", JStr "json_schema");
            ("json_schema", JObj [("name", JStr name); ("strict", JBool true); ("schema", JObj s)])]).

(** ** Requests *)

Record LLMRequest := mkLLMRequest {
  lq_model : option string; lq_messages : list ChatMessage; lq_system_instruction : option string;
  lq_tools : list json; lq_response_schema : option (string * schema) }.

Inductive SentMessage := SystemMessage (content : string) | Sent (m : ChatMessage).
(** The keywords of the call; the tools and the format are given when there are any. *)
Record Completion := mkCompletion {
  co_model : string; co_messages : list SentMessage; co_stream : bool; co_base_url : option string;
  co_tools : option (list json); co_response_format : option json }.
(** What the client library returns: the chunks of a stream, which may break, or a message. *)
Inductive CompletionResult := Streamed (chunks : list (option Delta)) (broken : option exn) | Whole (r : ChatResult).

Record LiteLLM := mkLiteLLM { lm_model : string; lm_base_url : option string }.

Definition completion_of (llm : LiteLLM) (request : LLMRequest) (stream : bool) : res Completion :=
  format ← match lq_response_schema request with
           | Some (name, s) => f ← _to_response_format name s; Ok (Some f)
           | None => Ok None
           end;
  Ok (mkCompletion (ostr_or (lq_model request) (lm_model llm))
        ((match lq_system_instruction request with Some i => if str_truthy i then [SystemMessage i] else [] | None => [] end)
         ++ (Sent <$> lq_messages request))
        stream (lm_base_url llm)
        (match lq_tools request with [] => None | l => Some l end) format).

Section client.
Context (loads : string -> json + string) (completion_fn : Completion -> res CompletionResult).

Definition generate_content_async (llm : LiteLLM) (request : LLMRequest) (stream : bool) : LlmStream :=
  match (kwargs ← completion_of llm request stream; completion_fn kwargs) with
  | Err x => mkStream [] (Some x)
  | Ok response =>
      if stream then
        match response with
        | Streamed chunks None => mkStream (_stream loads chunks) None
        | Streamed chunks (Some x) => mkStream (foldl stream_chunk ([], []) chunks).2 (Some x)
        | Whole _ => mkStream [] (Some (ValueError "Expected a CustomStreamWrapper for streaming response."))
        end
      else
        match response with
        | Whole message => mkStream (_text loads message) None
        | Streamed _ _ => mkStream [] (Some (ValueError "Expected a ModelResponse for non-streaming response."))
        end
  end.

(** The request of a turn of an agent, with its instruction, the declarations of its
    tools and the schema of its output. *)
Definition turn_request (instruction : string) (tools : list json) (output_schema : option (string * schema)) (messages : list ChatMessage) : LLMRequest :=
  mkLLMRequest None messages (if str_truthy instruction then Some instruction else None) tools output_schema.
(** The model of an agent, as [LlmAgent] has it. *)
Definition agent_model (llm : LiteLLM) (instruction : string) (tools : list json) (output_schema : option (string * schema))
  (messages : list ChatMessage) : LlmStream :=
  generate_content_async llm (turn_request instruction tools output_schema messages) true.
End client.

(** ** Facts: dictionaries under transformation *)

Lemma dset_same {V} k (v : V) (d : list (string * V)) : dget k d = Some v -> dset k v d = d.
Proof.
  induction d as [|[k' v'] d IH]; [done|]. cbn. case_decide as Hk; [subst; by intros [= ->] | intros H; by rewrite IH].
Qed.

Lemma at_key_spec k f s s' : at_key k f s = Ok s' ->
  (forall k', k' <> k -> dget k' s' = dget k' s) /\
  match dget k s with None => dget k s' = None | Some v => exists v', f v = Ok v' /\ dget k s' = Some v' end.
Proof.
  unfold at_key. destruct (dget k s) as [v|] eqn:E; [|by intros [= ->]]. intros (v' & Hf & [= <-])%res_bind_ok. split.
  - intros k' Hk. by apply dget_dset_ne.
  - exists v'. split; [done | apply dget_dset_eq].
Qed.

Lemma at_keys_spec l : forall s s', NoDup (dkeys l) -> at_keys l s = Ok s' ->
  (forall k, k ∉ dkeys l -> dget k s' = dget k s) /\
  forall k f, (k, f) ∈ l -> match dget k s with None => dget k s' = None | Some v => exists v', f v = Ok v' /\ dget k s' = Some v' end.
Proof.
  induction l as [|[k f] l IH]; intros s s' Hn; [intros [= ->]; split; [done|]; by intros ? ? ?%elem_of_nil|].
  apply NoDup_cons in Hn as [Hk Hn]. cbn [at_keys]. intros (s1 & H1 & H2)%res_bind_ok.
  destruct (at_key_spec _ _ _ _ H1) as [Ho1 Hk1]. destruct (IH _ _ Hn H2) as [Ho2 Hk2]. split.
  - intros k' Hk'. change (dkeys ((k, f) :: l)) with (k :: dkeys l) in Hk'. apply not_elem_of_cons in Hk' as [Hne Hk']. rewrite Ho2 by done. by apply Ho1.
  - intros k' f' [[= -> ->]|Hin]%elem_of_cons.
    + rewrite Ho2 by done. exact Hk1.
    + assert (k' ∈ dkeys l) as Hkl by (change (dkeys l) with (l.*1); by apply (list_elem_of_fmap_2 fst) in Hin).
      specialize (Hk2 _ _ Hin). rewrite Ho1 in Hk2 by (intros ->; by apply Hk). exact Hk2.
Qed.

Lemma at_keys_fixed l s : (forall k f v, (k, f) ∈ l -> dget k s = Some v -> f v = Ok v) -> at_keys l s = Ok s.
Proof.
  induction l as [|[k f] l IH]; intros H; [done|]. cbn [at_keys]. unfold at_key. destruct (dget k s) as [v|] eqn:E.
  - rewrite (H k f v) by first [by left | done]. cbn. rewrite dset_same by done. apply IH. intros. eapply H; [by right | done].
  - apply IH. intros. eapply H; [by right | done].
Qed.

Lemma at_keys_total l : forall s, NoDup (dkeys l) -> (forall k f v, (k, f) ∈ l -> dget k s = Some v -> exists v', f v = Ok v') -> exists s', at_keys l s = Ok s'.
Proof.
  induction l as [|[k f] l IH]; intros s Hn H; [by eexists|]. apply NoDup_cons in Hn as [Hk Hn]. cbn [at_keys].
  assert (exists s1, at_key k f s = Ok s1) as (s1 & E1).
  { unfold at_key. destruct (dget k s) as [v|] eqn:E; [|by eexists]. destruct (H k f v) as (v' & ->); [by left|done|]. by eexists. }
  rewrite E1. cbn. apply IH; [done|]. intros k' f' v Hin Hv. destruct (at_key_spec _ _ _ _ E1) as [Ho _].
  rewrite Ho in Hv; [by apply (H k' f' v); [right|]|]. intros ->. apply Hk. change (dkeys l) with (l.*1). by apply (list_elem_of_fmap_2 fst) in Hin.
Qed.

Lemma res_mapM_forall {A B} (f : A -> res B) l l' : res_mapM f l = Ok l' <-> Forall2 (fun x y => f x = Ok y) l l'.
Proof.
  revert l'. induction l as [|x l IH]; intros l'; cbn; [by split; [intros [= <-] | inversion 1]|]. split.
  - intros (y & Hy & (ys & Hys & [= <-])%res_bind_ok)%res_bind_ok. constructor; [done|]. by apply IH.
  - intros H. inversion H as [|? y ? ys Hy Hys]; subst. rewrite Hy. cbn. by rewrite (proj2 (IH ys) Hys).
Qed.

Lemma dkeys_forall2 {V W} (P : V -> W -> Prop) (m : list (string * V)) (m' : list (string * W)) :
  Forall2 (fun p q => p.1 = q.1 /\ P p.2 q.2) m m' -> dkeys m' = dkeys m.
Proof. induction 1 as [|[k v] [k' v'] m m' [E _] _ IH]; [done|]. cbn in E. subst. unfold dkeys in *. cbn. by rewrite IH. Qed.

(** ** Facts: the strict schema *)

(** A schema that the function comes to from another. *)
Inductive subschema (s : schema) : schema -> Prop :=
| sub_value k m name c : dmem "$ref" s = false -> k ∈ ["$defs"; "properties"] -> dget k s = Some (JObj m) -> (name, JObj c) ∈ m -> subschema s c
| sub_item k l c : dmem "$ref" s = false -> k ∈ ["anyOf"; "oneOf"; "allOf"] -> dget k s = Some (JArr l) -> JObj c ∈ l -> subschema s c
| sub_items c : dmem "$ref" s = false -> dget "items" s = Some (JObj c) -> subschema s c.

(** What the function makes of one schema: a reference stands alone, and an object that
    lists its properties is closed and requires them all. Of an object that lists none
    nothing is asked. *)
Definition strict (s : schema) : Prop :=
  if dmem "$ref" s then Forall (fun k => k = "$ref") (dkeys s)
  else is_object_type s = true -> forall properties, dget "properties" s = Some properties ->
    exists m, properties = JObj m /\ dget "additionalProperties" s = Some (JBool false) /\
      dget "required" s = Some (JArr (JStr <$> py_sorted (dkeys m))).

(** The shape a schema needs: the keywords hold what they should. *)
Definition well_shaped (s : schema) : Prop :=
  (forall k v, k ∈ ["$defs"; "properties"] -> dget k s = Some v -> exists m, v = JObj m) /\
  (forall k v, k ∈ ["anyOf"; "oneOf"; "allOf"] -> dget k s = Some v -> exists l, v = JArr l).

Lemma close_object_spec s s' : close_object s = Ok s' ->
  (forall k, k <> "required" -> k <> "additionalProperties" -> dget k s' = dget k s) /\
  (is_object_type s = true -> forall properties, dget "properties" s = Some properties ->
     exists m, properties = JObj m /\ dget "additionalProperties" s' = Some (JBool false) /\
       dget "required" s' = Some (JArr (JStr <$> py_sorted (dkeys m)))) /\
  (close_object s' = Ok s').
Proof.
  unfold close_object. destruct (dget "properties" s) as [p|] eqn:Ep; [|intros [= <-]; rewrite Ep; split_and!; done].
  destruct (is_object_type s) eqn:Et; [|intros [= <-]; rewrite Ep, Et; split_and!; try done].
  destruct p as [| | | | |m]; try done. intros [= <-]. split_and!.
  - intros k H1 H2. by rewrite !dget_dset_ne.
  - intros _ properties [= <-]. exists m. split; [done|]. rewrite (dget_dset_ne _ "required") by done. by rewrite !dget_dset_eq.
  - unfold is_object_type in *. rewrite !(dget_dset_ne "properties"), !(dget_dset_ne "type"), Ep, Et by done. f_equal.
    rewrite (dset_same "additionalProperties"); [apply dset_same, dget_dset_eq|]. rewrite dget_dset_ne by done. apply dget_dset_eq.
Qed.

Lemma strict_closed s : dmem "$ref" s = false -> strict s -> close_object s = Ok s.
Proof.
  unfold strict, close_object. intros ->. destruct (dget "properties" s) as [p|]; [|done]. destruct (is_object_type s); [|done].
  intros H. destruct (H eq_refl p eq_refl) as (m & -> & Ha & Hr). by rewrite (dset_same "additionalProperties"), dset_same by done.
Qed.

Lemma visited_NoDup node : NoDup (dkeys (visited node)).
Proof. apply (bool_decide_unpack _). by vm_compute. Qed.

Lemma depth_value k v kvs : (k, v) ∈ kvs -> json_depth v < json_depth (JObj kvs).
Proof.
  cbn [json_depth]. induction kvs as [|[k' v'] kvs IH]; [by intros ?%elem_of_nil|].
  intros [[= -> ->]|Hin]%elem_of_cons; [lia | specialize (IH Hin); lia].
Qed.
Lemma depth_item v l : v ∈ l -> json_depth v < json_depth (JArr l).
Proof.
  cbn [json_depth]. induction l as [|v' l IH]; [by intros ?%elem_of_nil|]. intros [->|Hin]%elem_of_cons; [lia | specialize (IH Hin); lia].
Qed.

Section step.
Context (n : nat).
Definition node_step (x : json) : res json := match x with JObj s => s' ← enforce n s; Ok (JObj s') | _ => Ok x end.

Lemma node_object x c : node_step x = Ok (JObj c) -> exists c0, x = JObj c0 /\ enforce n c0 = Ok c.
Proof. destruct x as [| | | | |s]; try done. cbn. intros (s' & Hs & [= <-])%res_bind_ok. by exists s. Qed.

Lemma each_value_ok v v' : each_value node_step v = Ok v' -> exists m m', v = JObj m /\ v' = JObj m' /\
  Forall2 (fun p q => p.1 = q.1 /\ node_step p.2 = Ok q.2) m m'.
Proof.
  destruct v as [| | | | |m]; try done. cbn [each_value]. intros (m' & Hm%res_mapM_forall & [= <-])%res_bind_ok. exists m, m'. split_and!; [done..|].
  eapply Forall2_impl; [exact Hm|]. intros p q (y & Hy & [= <-])%res_bind_ok. done.
Qed.
Lemma each_item_ok v v' : each_item node_step v = Ok v' ->
  (exists l l', v = JArr l /\ v' = JArr l' /\ Forall2 (fun x y => node_step x = Ok y) l l') \/ (v' = v /\ forall l, v <> JArr l).
Proof.
  destruct v as [| | |s|l|m]; try done; [by intros [= <-]; right | |by intros [= <-]; right].
  cbn [each_item]. intros (l' & Hl%res_mapM_forall & [= <-])%res_bind_ok. left. by exists l, l'.
Qed.

(** A value that is visited comes from the value that stood there. *)
Lemma enforce_back s s' : dmem "$ref" s = false -> enforce (S n) s = Ok s' ->
  exists s1, close_object s = Ok s1 /\ (forall k, k ∉ dkeys (visited node_step) -> dget k s' = dget k s1) /\
  forall k f v', (k, f) ∈ visited node_step -> dget k s' = Some v' -> exists v, dget k s = Some v /\ f v = Ok v'.
Proof.
  intros Hr. cbn [enforce]. rewrite Hr. fold node_step. intros (s1 & Hc & Hk)%res_bind_ok. exists s1. split; [done|].
  destruct (close_object_spec _ _ Hc) as (Ho1 & _). destruct (at_keys_spec _ _ _ (visited_NoDup _) Hk) as [Ho2 Hv]. split; [done|].
  intros k f v' Hin Hg. specialize (Hv _ _ Hin). rewrite Ho1 in Hv by (intros ->; cbn in Hin; set_solver).
  destruct (dget k s) as [v|]; [|congruence]. destruct Hv as (v1 & Hf & Hg'). exists v. split; [done|]. congruence.
Qed.

(** One level: the schema is strict itself, and its parts are the parts it had, made
    strict. *)
Lemma enforce_level s s' : dmem "$ref" s = false -> enforce (S n) s = Ok s' ->
  dmem "$ref" s' = false /\ strict s' /\ forall c', subschema s' c' -> exists c, subschema s c /\ enforce n c = Ok c'.
Proof.
  intros Hr He. destruct (enforce_back _ _ Hr He) as (s1 & Hc & Ho2 & Hv). destruct (close_object_spec _ _ Hc) as (Ho1 & Hobj & _).
  assert (dget "type" s' = dget "type" s) as Et by (rewrite Ho2, Ho1 by (done || (cbn; set_solver)); done).
  assert (dmem "$ref" s' = false) as Hr' by (unfold dmem in *; by rewrite Ho2, Ho1 by (done || (cbn; set_solver))).
  split; [done|]. split.
  - unfold strict. rewrite Hr'. intros Hot p Hp. unfold is_object_type in Hot. rewrite Et in Hot.
    destruct (Hv "properties" (each_value node_step) p) as (p0 & Ep & Hf); [right; by left | done|].
    destruct (Hobj Hot p0 Ep) as (m & -> & Ha & Hq). destruct (each_value_ok _ _ Hf) as (m0 & m' & [= <-] & -> & Hm).
    exists m'. rewrite !Ho2 by (cbn; set_solver). by rewrite (dkeys_forall2 (fun x y => node_step x = Ok y) _ _ Hm).
  - intros c' H. inversion H as [k m name ? _ Hk' Hg Hin|k l ? _ Hk' Hg Hin|? _ Hg]; subst.
    + destruct (Hv k (each_value node_step) (JObj m)) as (v & Ek & Hf); [cbn; set_solver | done|].
      destruct (each_value_ok _ _ Hf) as (m0 & m' & -> & [= <-] & Hm).
      apply list_elem_of_lookup in Hin as (i & Hi). destruct (Forall2_lookup_r _ _ _ _ _ Hm Hi) as ([name0 x] & Hi0 & _ & Hx).
      destruct (node_object _ _ Hx) as (c & Ec & Hen). cbn in Ec. subst x. exists c. split; [|done].
      eapply sub_value; [done.. | by eapply list_elem_of_lookup_2].
    + destruct (Hv k (each_item node_step) (JArr l)) as (v & Ek & Hf); [cbn; set_solver | done|].
      destruct (each_item_ok _ _ Hf) as [(l0 & l' & -> & [= <-] & Hl)|[<- Hno]]; [|by destruct (Hno l)].
      apply list_elem_of_lookup in Hin as (i & Hi). destruct (Forall2_lookup_r _ _ _ _ _ Hl Hi) as (x & Hi0 & Hx).
      destruct (node_object _ _ Hx) as (c & -> & Hen). exists c. split; [|done]. eapply sub_item; [done.. | by eapply list_elem_of_lookup_2].
    + destruct (Hv "items" node_step (JObj c')) as (v & Ek & Hf); [cbn; set_solver | done|]. destruct (node_object _ _ Hf) as (c & -> & Hen).
      exists c. split; [by apply sub_items | done].
Qed.
End step.

Lemma enforce_ref n s s' : dmem "$ref" s = true -> enforce (S n) s = Ok s' -> dmem "$ref" s' = true /\ Forall (fun k => k = "$ref") (dkeys s') /\ enforce (S n) s' = Ok s'.
Proof.
  intros Hr. cbn [enforce]. rewrite Hr. intros [= <-].
  assert (Forall (fun p : string * json => p.1 = "$ref") (filterb (fun p => bool_decide (p.1 = "$ref")) s)) as Hall.
  { apply Forall_forall. intros p [_ Hp]%elem_of_filterb. by apply bool_decide_eq_true in Hp. }
  assert (dmem "$ref" (filterb (fun p => bool_decide (p.1 = "$ref")) s) = true) as Hm.
  { apply dmem_true in Hr as (v & Hv%dget_elem)%dkeys_dget. apply dmem_true. change (dkeys ?l) with (l.*1).
    apply (list_elem_of_fmap_2 fst _ ("$ref", v)), elem_of_filterb. by rewrite bool_decide_eq_true. }
  rewrite Hm. split; [done|]. split; [by apply Forall_fmap|]. f_equal. clear Hm. induction Hall as [|p l Hp _ IH]; [done|]. cbn [filterb List.filter]. rewrite (bool_decide_eq_true_2 _ Hp). f_equal. exact IH.
Qed.

Lemma enforced_strict n : forall s s' c, enforce n s = Ok s' -> rtc subschema s' c -> strict c.
Proof.
  induction n as [|n IH]; intros s s' c He Hc; [done|]. destruct (dmem "$ref" s) eqn:Hr.
  - destruct (enforce_ref _ _ _ Hr He) as (Hr' & Hk & _). inversion Hc as [|? c1 ? H1 _]; subst; [by unfold strict; rewrite Hr'|].
    inversion H1; congruence.
  - destruct (enforce_level _ _ _ Hr He) as (_ & Hs & Hsub). inversion Hc as [|? c1 ? H1 H2]; subst; [done|].
    destruct (Hsub _ H1) as (c0 & _ & He0). by apply (IH _ _ _ He0).
Qed.

Lemma enforced_fixed n : forall s s', enforce n s = Ok s' -> enforce n s' = Ok s'.
Proof.
  induction n as [|n IH]; intros s s' He; [done|]. destruct (dmem "$ref" s) eqn:Hr; [by apply (enforce_ref _ _ _ Hr He)|].
  destruct (enforce_level _ _ _ Hr He) as (Hr' & Hs & _). destruct (enforce_back _ _ _ Hr He) as (s1 & _ & _ & Hv).
  cbn [enforce]. rewrite Hr'. rewrite strict_closed by done. cbn [mbind res_bind]. fold (node_step n).
  assert (forall x y, node_step n x = Ok y -> node_step n y = Ok y) as Hnode.
  { intros x y. destruct x as [| | | | |c]; try by intros [= <-]. cbn. intros (c' & Hc & [= <-])%res_bind_ok. cbn. by rewrite (IH _ _ Hc). }
  apply at_keys_fixed. intros k f v Hin Hg. destruct (Hv _ _ _ Hin Hg) as (v0 & _ & Hf). clear Hg. unfold visited in Hin.
  assert (f = each_value (node_step n) \/ f = each_item (node_step n) \/ f = node_step n) as [->|[->| ->]] by (cbn in Hin; set_solver).
  - destruct (each_value_ok _ _ _ Hf) as (m & m' & -> & -> & Hm). cbn [each_value].
    assert (res_mapM (fun p : string * json => v ← node_step n p.2; Ok (p.1, v)) m' = Ok m') as ->; [|done].
    apply res_mapM_forall. clear Hf. induction Hm as [|p [k' y] m m' [_ Hy] _ IHm]; constructor; [|done]. cbn in Hy |- *. by rewrite (Hnode _ _ Hy).
  - destruct (each_item_ok _ _ _ Hf) as [(l & l' & -> & -> & Hl)|[-> _]]; [|done]. cbn [each_item].
    assert (res_mapM (node_step n) l' = Ok l') as ->; [|done].
    apply res_mapM_forall. clear Hf. induction Hl as [|x y l l' Hy _ IHl]; constructor; [|done]. by apply (Hnode x).
  - by apply (Hnode v0).
Qed.

Lemma each_value_total n m : (forall k x, (k, x) ∈ m -> exists y, node_step n x = Ok y) -> exists v', each_value (node_step n) (JObj m) = Ok v'.
Proof.
  intros H. cbn [each_value]. assert (exists m', res_mapM (fun p : string * json => v ← node_step n p.2; Ok (p.1, v)) m = Ok m') as (m' & ->); [|by eexists].
  induction m as [|[k x] m IH]; [by eexists|]. cbn [res_mapM snd fst]. destruct (H k x) as (y & ->); [by left|]. cbn.
  destruct IH as (m' & ->); [|by eexists]. intros k' x' Hin. apply (H k'). by right.
Qed.
Lemma each_item_total n l : (forall x, x ∈ l -> exists y, node_step n x = Ok y) -> exists v', each_item (node_step n) (JArr l) = Ok v'.
Proof.
  intros H. cbn [each_item]. assert (exists l', res_mapM (node_step n) l = Ok l') as (l' & ->); [|by eexists].
  induction l as [|x l IH]; [by eexists|]. cbn [res_mapM]. destruct (H x) as (y & ->); [by left|]. cbn.
  destruct IH as (l' & ->); [|by eexists]. intros x' Hin. apply H. by right.
Qed.

Lemma close_object_total s : well_shaped s -> exists s', close_object s = Ok s'.
Proof.
  intros [H _]. unfold close_object. destruct (dget "properties" s) as [p|] eqn:E; [|by eexists]. destruct (is_object_type s); [|by eexists].
  destruct (H "properties" p) as (m & ->); [set_solver|done|]. by eexists.
Qed.

Lemma enforce_total n : forall s, json_depth (JObj s) <= n -> (forall c, rtc subschema s c -> well_shaped c) -> exists s', enforce n s = Ok s'.
Proof.
  induction n as [|n IH]; intros s Hd Hw; [cbn in Hd; lia|]. cbn [enforce]. destruct (dmem "$ref" s) eqn:Hr; [by eexists|].
  destruct (close_object_total s) as (s1 & Hc); [by apply Hw|]. rewrite Hc. cbn [mbind res_bind]. fold (node_step n).
  destruct (close_object_spec _ _ Hc) as (Ho1 & _). destruct (Hw s) as [Hv Hi]; [done|].
  assert (forall x, (forall c, x = JObj c -> subschema s c) -> json_depth x < json_depth (JObj s) -> exists y, node_step n x = Ok y) as Hnode.
  { intros x Hsub Hlt. destruct x as [| | | | |c]; try by eexists. destruct (IH c) as (c' & Hc'); [lia| |cbn; rewrite Hc'; by eexists].
    intros c' Hcc. apply Hw. eapply rtc_l; [by apply Hsub | done]. }
  apply at_keys_total; [apply visited_NoDup|]. intros k f v Hin Hg. rewrite Ho1 in Hg by (intros ->; cbn in Hin; set_solver).
  pose proof (depth_value _ _ _ (dget_elem _ _ _ Hg)) as Hdv. unfold visited in Hin.
  assert ((k ∈ ["$defs"; "properties"] /\ f = each_value (node_step n)) \/ (k ∈ ["anyOf"; "oneOf"; "allOf"] /\ f = each_item (node_step n)) \/
          (k = "items" /\ f = node_step n)) as [[Hk ->]|[[Hk ->]|[-> ->]]] by (clear -Hin; cbn in Hin; set_solver).
  - destruct (Hv _ _ Hk Hg) as (m & ->). apply each_value_total. intros name x Hx. apply Hnode.
    + intros c ->. by eapply sub_value.
    + pose proof (depth_value _ _ _ Hx). lia.
  - destruct (Hi _ _ Hk Hg) as (l & ->). apply each_item_total. intros x Hx. apply Hnode.
    + intros c ->. by eapply sub_item.
    + pose proof (depth_item _ _ Hx). lia.
  - apply Hnode; [|done]. intros c ->. by apply sub_items.
Qed.

(** C27: The schema that is sent: a schema whose keywords hold what they should is made
    strict, everywhere the function comes to: every object that lists properties is
    closed and requires them all, and a reference stands alone; what has been made strict
    is left as it is. An object that lists no properties stays open
    ([bare_object_stays_open]). *)
Theorem schemas_are_made_strict s :
  ((forall c, rtc subschema s c -> well_shaped c) -> exists s', _enforce_strict_openai_schema s = Ok s') /\
  (forall s', _enforce_strict_openai_schema s = Ok s' ->
     (forall c, rtc subschema s' c -> strict c) /\
     (forall fuel, json_depth (JObj s) = fuel -> enforce fuel s' = Ok s')).
Proof.
  unfold _enforce_strict_openai_schema. split; [by apply enforce_total|]. intros s' Hs. split.
  - intros c Hc. by apply (enforced_strict _ _ _ _ Hs).
  - intros fuel <-. by apply (enforced_fixed _ _ _ Hs).
Qed.

(** An object without properties is left open, although strict mode, as the docstring of
    the function has it, wants every object closed. *)
Example bare_object_stays_open :
  _enforce_strict_openai_schema [("type", JStr "object"); ("properties", JObj [("args", JObj [("type", JStr "object")])])] =
  Ok [("type", JStr "object"); ("properties", JObj [("args", JObj [("type", JStr "object")])]);
      ("additionalProperties", JBool false); ("required", JArr [JStr "args"])].
Proof. by vm_compute. Qed.

(** The schema of a recursive model is a reference to one of its own definitions: they
    are dropped, and the reference has nothing to refer to. *)
Example root_reference_loses_defs node :
  _enforce_strict_openai_schema [("$defs", JObj [("Node", node)]); ("$ref", JStr "#/$defs/Node")] = Ok [("$ref", JStr "#/$defs/Node")].
Proof. by destruct node. Qed.

(** ** Facts: requests *)

(** A turn of an agent whose model answers: the instruction, when there is one, was
    sent before the messages, the schema strict wherever it was looked at, and the
    answer is what the stream brought. *)
Theorem request_spec loads completion_fn llm instruction tools output_schema messages
    (Hanswered : ls_end (agent_model loads completion_fn llm instruction tools output_schema messages) = None) :
  exists kwargs chunks,
    completion_fn kwargs = Ok (Streamed chunks None) /\
    ls_responses (agent_model loads completion_fn llm instruction tools output_schema messages) = _stream loads chunks /\
    co_messages kwargs = (if str_truthy instruction then [SystemMessage instruction] else []) ++ (Sent <$> messages) /\
    co_model kwargs = lm_model llm /\ co_stream kwargs = true /\
    match output_schema with
    | None => co_response_format kwargs = None
    | Some (name, s) => exists s', _enforce_strict_openai_schema s = Ok s' /\ (forall c, rtc subschema s' c -> strict c) /\
        co_response_format kwargs = Some (JObj [("type", JStr "json_schema");
          ("json_schema", JObj [("name", JStr name); ("strict", JBool true); ("schema", JObj s')])])
    end.
Proof.
  unfold agent_model, generate_content_async in *.
  destruct (completion_of llm (turn_request instruction tools output_schema messages) true) as [kwargs|x] eqn:Ek; [|done]. cbn [mbind res_bind] in *.
  destruct (completion_fn kwargs) as [[chunks [x|]|m]|x] eqn:Ec; try done. exists kwargs, chunks. split; [done|]. split; [done|].
  unfold completion_of, turn_request in Ek. cbn [lq_model lq_messages lq_system_instruction lq_tools lq_response_schema] in Ek.
  apply res_bind_ok in Ek as (format & Hf & [= <-]). cbn [co_messages co_model co_stream co_response_format].
  split; [by destruct (str_truthy instruction) eqn:E; rewrite ?E|]. split; [done|]. split; [done|].
  destruct output_schema as [[name s]|]; [|by injection Hf as <-]. apply res_bind_ok in Hf as (f & Hf & [= <-]).
  unfold _to_response_format in Hf. apply res_bind_ok in Hf as (s' & Hs & [= <-]). exists s'. split; [done|]. split; [|done].
  intros c Hc. by apply (enforced_strict _ _ _ _ Hs).
Qed.

(** ** Responses as messages (core/events/event.py) *)

Section messages.
Context (dumps : json -> string).

(** The parts of a message: their texts. *)
Definition to_a2a_message (response : LLMResponse) : EBody :=
  AMessage false (match lr_content response with Some parts => (fun p => text_part (default estr (rp_text p))) <$> parts | None => [] end).

Definition to_chat_message (response : LLMResponse) : option ChatMessage :=
  match lr_content response with
  | None => None
  | Some parts =>
      let text := str_join estr (omap (fun p => if rp_thought p then None else rp_text p) parts) in
      let function_calls := omap rp_call parts in
      match omap rp_response parts with
      | fr :: _ => Some (ToolMessage (dumps (fr_response fr)) (fr_id fr))
      | [] => if str_truthy text || negb (bool_decide (function_calls = []))
              then Some (AssistantMessage (text_or_none text) (tool_call_of dumps <$> function_calls)) else None
      end
  end.

Lemma read_part p : exists ts, read_parts (artifact_parts p) = Ok (ts, part_calls [p], omap rp_response [p]) /\ str_join estr ts = str_join estr (plain_texts [p]).
Proof.
  destruct p as [t th c r].
  assert (exists ts, read_parts (match t with Some t => [mkEPart t JNull th None] | None => [] end) = Ok (ts, [], []) /\
    str_join estr ts = str_join estr (plain_texts [mkRPart t th c r])) as (ts & Ht & Hj).
  { destruct t as [s|]; [|exists []; by destruct th]. cbn. destruct th; [exists []; by rewrite andb_false_r|]. rewrite andb_true_r.
    destruct (str_truthy s) eqn:E; [by exists [s]|]. exists []. split; [done|]. by destruct s. }
  exists ts. split; [|done]. unfold artifact_parts. cbn [rp_text rp_thought rp_call rp_response].
  rewrite (read_parts_app _ _ ts [] [] [] (part_calls [mkRPart t th c r]) (omap rp_response [mkRPart t th c r]) Ht); [by rewrite app_nil_r|].
  destruct c as [[]|], r as [[]|]; done.
Qed.

Lemma read_response_parts ps : exists ts,
  read_parts (ps ≫= artifact_parts) = Ok (ts, part_calls ps, omap rp_response ps) /\ str_join estr ts = str_join estr (plain_texts ps).
Proof.
  induction ps as [|p ps (ts & IH & Hj)]; [by exists []|]. rewrite bind_cons. destruct (read_part p) as (ts1 & H1 & Hj1). exists (ts1 ++ ts).
  change (p :: ps) with ([p] ++ ps). unfold part_calls, plain_texts in *. rewrite !omap_app. split; [by apply read_parts_app|].
  by rewrite !str_join_nil_app, Hj, Hj1.
Qed.

(** The two ways from an answer of the model to what the model is sent next agree: by
    the artifact and the events, as the agent goes, or straight from the response.
    An answer with results of tools gives their messages too, of which the straight
    way keeps the first. *)
Theorem chat_messages_agree response parts (Hparts : lr_content response = Some parts) :
  exists ms results, artifact_messages dumps (parts ≫= artifact_parts) = Ok (ms ++ results) /\
    results = tool_message_of dumps <$> omap rp_response parts /\
    to_chat_message response = match results with m :: _ => Some m | [] => head ms end /\ length ms <= 1.
Proof.
  destruct (read_response_parts parts) as (ts & Hr & Hj). unfold artifact_messages. rewrite Hr. cbn [mbind res_bind]. do 2 eexists.
  split; [done|]. split; [done|]. unfold to_chat_message. rewrite Hparts, Hj. unfold plain_texts, part_calls.
  destruct (str_truthy _ || _) eqn:E; (split; [|cbn; lia]); destruct (omap rp_response parts); done.
Qed.
End messages.
