(* ===== verification/Service.v ===== *)
(** * A request from end to end

    The parts of the workflow service put together: the orchestrator with the agent that
    plans, run as a node of the workflow ([AgentNode]), and with tasks that are remote
    nodes ([RemoteA2a]) whose agents run models behind the A2A server ([ServedAgent]). *)
From S2P Require Import Cards.
From S2P Require Import Prelude PyStr Dict Json Dag DagPlan DagRuntime Orchestrator OrchestratorFacts.
From S2P Require Import OrchestratorSpec OrchestratorRuns OrchestratorThms OrchestratorEnd.
From S2P Require Import Graph NewEvents NodePath Contents NodeRunner RemoteA2a RemoteFacts LlmAgent LlmAgentFacts.
From S2P Require Import A2aServer ServedAgent AgentNode LlmRequest.
Local Open Scope string_scope.
Local Open Scope list_scope.

(** ** The application (new_choirworks/config.py, app/server.py) *)

(** The settings; an agent of the catalog is configured by name, url and description. *)
Record NewSettings := mkNewSettings {
  nw_host : string; nw_port : Z; nw_model : string; nw_api_base : option string;
  nw_db_path : string; nw_public_url : string; nw_agents : list AgentInfo }.
Definition default_new_settings : NewSettings :=
  mkNewSettings "0.0.0.0" 8080 "openai/glm-5.1" None "./data/choirworks.db" "http://localhost:8080" [].

(** The agent that is served: the orchestrator, or a single assistant. *)
Inductive RootAgent := Orchestrating (name : string) (catalog : list AgentInfo) | Assisting (agent : LLMAgent) (instruction : string).
Definition root_agent (s : NewSettings) : RootAgent :=
  match nw_agents s with
  | [] => Assisting (mkLLMAgent "choirworks" [] 3 None) "You are a helpful assistant."
  | catalog => Orchestrating "choirworks" catalog
  end.

Record NewApp := mkNewApp { nw_agent : RootAgent; nw_llm : LiteLLM; nw_card : Cards.AgentCard }.
Definition create_app (s : NewSettings) : NewApp :=
  mkNewApp (root_agent s) (mkLiteLLM (nw_model s) (nw_api_base s)) (build_agent_card_new (nw_public_url s)).

(** An orchestrator that is served has a catalog, so that each of its runs starts. *)
Lemma served_orchestrator_starts s name catalog events :
  nw_agent (create_app s) = Orchestrating name catalog -> catalog = nw_agents s /\ exists o, start_orchestrator catalog events = Ok o.
Proof.
  cbn. unfold root_agent. destruct (nw_agents s) as [|a l] eqn:E; [done|]. intros [= _ <-]. split; [done|].
  destruct (start_orchestrator_spec (a :: l) events) as [H _].
  destruct (start_orchestrator (a :: l) events) as [o|x]; [by exists o|]. assert (a :: l = []) as [=] by (apply H; by eexists).
Qed.

Section Service.
(** What the libraries do, and where the job runs. *)
Context (dumps py_repr dumps_input : json -> string) (sort_items : list (string * json) -> list (string * json)).
Context (type_name : exn -> string) (model : (DagPlan -> bool) -> string -> res json) (model_validate : json -> res DagPlan).
Context (task_id context_id : string) (workflow : Context) (workflow_path : string).

(** The planner, what its model may answer, and what answers to each launch. *)
Context (planner : Planner) (planner_model : (nat -> list ChatMessage -> LlmStream) -> Prop) (remote_of : Launch -> Remote).

(** ** The steps of the service *)

(** [_apply_plan_input]: the plan in the output of the planner node. *)
Definition plan_input (output : option json) : res (option DagPlan) :=
  match output with
  | Some (JObj d) => if bool_decide ("nodes" ∈ dkeys d) then p ← model_validate (JObj d); Ok (Some p) else Ok None
  | _ => Ok None
  end.

(** How the remote node of a launch ends, whatever else is in the invocation. *)
Definition outcome (la : Launch) : task_end :=
  (run_remote_node py_repr sort_items (remote_of la) task_id context_id (la_node la) (la_agent la) (la_message la) (mkInvocation [] None)).2.

(** When tasks end is up to the remote side, but a wait ends with one of them. *)
Definition waits (finished : nat -> list string -> string -> bool) : Prop :=
  forall i l, l <> [] -> exists k, k ∈ l /\ finished (S i) l k = true.

(** A task in flight for a node is that of its last launch. *)
Definition ends (finished : nat -> list string -> string -> bool) (past ls : list Launch) : environment := fun i l k =>
  if finished i l k then
    Some (match last_launch (match i with O => past | S _ => past ++ ls end) k with Some la => outcome la | None => Returned estr end)
  else None.

(** One node of the workflow. The planner node leaves its output or its error in its
    context; the executor reads the plan from the output. *)
Inductive service_step : Job -> list Launch -> Job -> Prop :=
| service_plans rt past uuid generate run_tool fuel events q rid body iv ctx input :
    planner_model generate ->
    planner_run dumps py_repr sort_items uuid generate run_tool dumps_input task_id context_id planner rt fuel (mkInvocation events (Some q)) = Some body ->
    run_node workflow workflow_path (mkRunnerNode "planner" None) rid None body (mkInvocation events (Some q)) = (iv, Ok ctx) ->
    cx_error ctx = None -> plan_input (cx_output ctx) = Ok input ->
    service_step (mkJob (mkOrch AtPlanner rt) past) [] (mkJob (mkOrch (AtExecutor input) rt) past)
| service_fails rt past uuid generate run_tool fuel events q rid body iv ctx x :
    planner_model generate ->
    planner_run dumps py_repr sort_items uuid generate run_tool dumps_input task_id context_id planner rt fuel (mkInvocation events (Some q)) = Some body ->
    run_node workflow workflow_path (mkRunnerNode "planner" None) rid None body (mkInvocation events (Some q)) = (iv, Ok ctx) ->
    cx_error ctx = Some x \/ (cx_error ctx = None /\ plan_input (cx_output ctx) = Err x) ->
    service_step (mkJob (mkOrch AtPlanner rt) past) [] (mkJob (mkOrch (Failed x) (shutdown rt)) past)
| service_executes rt past finished input rt' ls o :
    waits finished -> executor_run (ends finished past ls) input rt = (rt', ls, o) ->
    service_step (mkJob (mkOrch (AtExecutor input) rt) past) ls
                 (mkJob (mkOrch (executor_next o rt') (settle (executor_next o rt') rt')) (past ++ ls))
| service_judges rt past id rt' o :
    helper_run id rt = (rt', o) ->
    service_step (mkJob (mkOrch (AtHelper id) rt) past) [] (mkJob (mkOrch (helper_next o) (settle (helper_next o) rt')) past).

Lemma ends_wait finished past ls : waits finished -> wait_ok (ends finished past ls).
Proof. intros H i l Hl. destruct (H i l Hl) as (k & Hk & E). exists k. split; [done|]. unfold ends. rewrite E. by eexists. Qed.

(** Where what is launched depends on the ends: only on those before the dispatch. *)
Lemma executor_launches env env' input rt : env 0 = env' 0 -> (executor_run env input rt).1.2 = (executor_run env' input rt).1.2.
Proof.
  intros E. unfold executor_run. destruct (_apply_plan_input input rt) as [rt1|e]; [|done].
  assert (look env 0 rt1 = look env' 0 rt1) as <- by (unfold look; by rewrite E).
  destruct (rt_done_requested _); [by do 2 case_match|]. unfold executor_judge.
  destruct (_abort_if_failed _) as [rt2 [|]]; [|done]. destruct (pop_completion rt2) as [rt3 [|]]; [done|].
  destruct (_dispatch_ready rt3) as [[rt4 ls] [|]]; [|done]. destruct (has_work rt4); [|done].
  by destruct (executor_wait env rt4), (executor_wait env' rt4).
Qed.

(** ** Facts: a planner that stands by its plan, agents that end well *)

(** What answers the launch serves an agent that runs a model, over a connection that
    holds, and the agent ends well having first said [said]. *)
Definition serves (la : Launch) (said : string) : Prop :=
  exists uuid generate run_tool fuel agent t c st,
    agent_loop dumps py_repr sort_items uuid generate run_tool agent t c fuel (start_agent [user_message (la_message la)]) = (st, Some (Ok tt)) /\
    is_ok (_ensure_resolved (mkRemoteAgent (dn_agent_name (la_node la)) (ai_url (la_agent la))) (remote_of la)) = true /\
    re_responses (remote_of la) =
      (_run type_name (llm_behaviour dumps py_repr sort_items uuid generate run_tool agent t c fuel) t c (la_message la)).1 /\
    re_broken (remote_of la) = None /\ said = default estr (head (filterb str_truthy (answer_texts generate st))).

Lemma serves_outcome la said : serves la said -> outcome la = Returned said.
Proof.
  intros (uuid & generate & run_tool & fuel & agent & t & c & st & Hrun & Hok & Hre & Hb & ->). by eapply served_returns.
Qed.

Context (catalog : list AgentInfo) (task : string) (plan : DagPlan).
Local Abbreviation agents := (agents_by_name catalog).
Local Abbreviation names := (ai_name <$> (snd <$> agents)).
Local Abbreviation ids := (dn_id <$> dp_nodes plan).
Local Abbreviation steady := (steady_step agents plan).
Local Abbreviation job := (job_step (fun la r => r = outcome la)).
Local Abbreviation start := (orch_start agents task).

(** The plan is valid and within the catalog; pydantic's errors are exceptions; whatever
    the model of the planner answers to a brief, it says a text that the schema of the
    catalog reads as that plan. *)
Context (Hvalid : validate_dag plan MAX_PLAN_NODES = Ok tt) (Hsome : dp_nodes plan <> []).
Context (Hallowed : plan_allowed (new_runtime agents task) (Some plan)).
Context (Hexn : forall schema t x, model schema t = Err x -> is_exception x = true).
Context (Hplanner : build_planner model (snd <$> agents) = Ok planner) (Hmodel : exists generate, planner_model generate).
Context (Hplan : forall generate rt, planner_model generate -> exists rs d,
  generate 0 [UserMessage (build_planner_brief rt)] = mkStream rs None /\ part_calls (answer_parts rs) = [] /\
  str_truthy (ustrip (str_join estr (plain_texts (answer_parts rs)))) = true /\
  (forall schema, constrained_plan_schema names = Ok schema ->
     validate_schema (model schema) (str_join estr (plain_texts (answer_parts rs))) = Ok d) /\
  plan_input (Some d) = Ok (Some plan)).

(** Its node ends without error, with the plan in its output. *)
Lemma planner_ends uuid generate run_tool rt fuel events q rid : planner_model generate ->
  exists body iv ctx,
    planner_run dumps py_repr sort_items uuid generate run_tool dumps_input task_id context_id planner rt (S fuel) (mkInvocation events (Some q)) = Some body /\
    run_node workflow workflow_path (mkRunnerNode "planner" None) rid None body (mkInvocation events (Some q)) = (iv, Ok ctx) /\
    cx_error ctx = None /\ plan_input (cx_output ctx) = Ok (Some plan).
Proof.
  intros Hg. destruct (Hplan generate rt Hg) as (rs & d & Ea & Ec & Et & Hd & Hp).
  destruct (planner_node_spec dumps py_repr sort_items uuid generate run_tool dumps_input task_id context_id model (snd <$> agents) planner rt rs _
    fuel workflow workflow_path (mkRunnerNode "planner" None) rid events q Hplanner Ea Ec eq_refl Et eq_refl) as (schema & body & iv & ctx & Es & Eb & Er & H).
  { intros schema x. apply Hexn. }
  exists body, iv, ctx. rewrite (Hd schema Es) in H. destruct H as [H1 H2]. rewrite H2. done.
Qed.

Lemma planner_gives uuid generate run_tool rt fuel events q rid body iv ctx : planner_model generate ->
  planner_run dumps py_repr sort_items uuid generate run_tool dumps_input task_id context_id planner rt fuel (mkInvocation events (Some q)) = Some body ->
  run_node workflow workflow_path (mkRunnerNode "planner" None) rid None body (mkInvocation events (Some q)) = (iv, Ok ctx) ->
  cx_error ctx = None /\ plan_input (cx_output ctx) = Ok (Some plan).
Proof.
  intros Hg Eb Er. destruct fuel as [|fuel]; [done|].
  destruct (planner_ends uuid generate run_tool rt fuel events q rid Hg) as (body' & iv' & ctx' & Eb' & Er' & H).
  rewrite Eb in Eb'. injection Eb' as <-. rewrite Er in Er'. by injection Er' as <- <-.
Qed.

(** Where a run of the service stands as a job. *)
Record reached (tr : list (list Launch)) (j : Job) : Prop := {
  re_steady : steps steady start tr (jb_orch j);
  re_job : steps job (mkJob start []) tr j;
  re_stands : exists n L, stands agents plan n L (jb_orch j);
  re_flow : flow agents (fun la r => r = outcome la) (jb_past j) (or_rt (jb_orch j))
}.

(** Every launch of the run is answered, without a request to another agent. *)
Definition all_served (ls : list Launch) : Prop :=
  forall la, la ∈ ls -> exists said, serves la said /\ parse_mentions said (dkeys agents) = [].

Lemma ends_quiet finished past ls : all_served (past ++ ls) -> quiet_ends agents (ends finished past ls).
Proof.
  intros H i l k r. unfold ends. destruct (finished i l k); [|done]. intros [= <-].
  set (p := match i with O => past | S _ => past ++ ls end). destruct (last_launch p k) as [la|] eqn:E; [|by exists estr].
  apply last_launch_some in E as [Hla _]. destruct (H la) as (said & Hs & Hq); [subst p; destruct i; [apply elem_of_app; by left | done]|].
  exists said. split; [by apply serves_outcome | done].
Qed.

Lemma ends_tied finished past ls i :
  tied (fun la r => r = outcome la) (match i with O => past | S _ => past ++ ls end) (ends finished past ls i).
Proof.
  intros l k r Hl Hk. unfold ends. destruct (finished i l k); [|done]. intros [= <-].
  destruct (launched_last _ k (Hl k Hk)) as [la ->]. by exists la.
Qed.

Lemma reached_start : reached [] (mkJob start []).
Proof.
  split; [constructor | constructor | |].
  - destruct (steady_first agents task plan Hvalid Hsome Hallowed) as (rt & Ha & H & _).
    exists 0, []. exists []. split; [split; [done | by exists rt] | done].
  - split; try done; cbn; intros ? ?%elem_of_nil; done.
Qed.

(** A step of the service is a step of the job that [OrchestratorEnd] follows, and one of
    the jobs that [OrchestratorThms] traces. *)
Lemma service_step_follows tr j ls j' : reached tr j -> all_served (jb_past j ++ ls) -> service_step j ls j' ->
  steady (jb_orch j) ls (jb_orch j') /\ job j ls j' /\ jb_past j' = jb_past j ++ ls.
Proof.
  intros [Hs Hj (n & L & Hst) Hf] Hla Hstep.
  destruct Hstep as [rt past uuid generate run_tool fuel events q rid body iv ctx input Hg Eb Er Ec Ei
    | rt past uuid generate run_tool fuel events q rid body iv ctx x Hg Eb Er Hx
    | rt past finished input rt' ls o Hw E | rt past id rt' o E]; cbn [jb_orch jb_past] in *; rewrite ?app_nil_r.
  - destruct (planner_gives _ _ _ _ _ _ _ _ _ _ _ Hg Eb Er) as [_ Ep]. rewrite Ei in Ep. injection Ep as ->.
    assert (steady (mkOrch AtPlanner rt) [] (mkOrch (AtExecutor (Some plan)) rt)) as H by constructor.
    split; [exact H|]. split; [|done]. apply job_thinks; [done|]. by eapply steady_is_orch.
  - exfalso. destruct (planner_gives _ _ _ _ _ _ _ _ _ _ _ Hg Eb Er) as [Ee Ep]. destruct Hx as [Hx|[_ Hx]]; congruence.
  - pose proof (ends_wait finished past ls Hw) as Hwait. split; [econstructor; [exact Hwait | by apply ends_quiet | exact E]|]. split; [|done].
    eapply job_executes; [exact Hwait | exact (ends_tied finished past ls 0) | intros i; exact (ends_tied finished past ls (S i)) | exact E].
  - assert (steady (mkOrch (AtHelper id) rt) [] (mkOrch (helper_next o) (settle (helper_next o) rt'))) as H by (by constructor).
    split; [exact H|]. split; [|done]. apply job_thinks; [done|]. by eapply steady_is_orch.
Qed.

Lemma reached_step tr j ls j' : reached tr j -> all_served (jb_past j ++ ls) -> service_step j ls j' -> reached (tr ++ [ls]) j'.
Proof.
  intros H Hla Hstep. destruct (service_step_follows _ _ _ _ H Hla Hstep) as (Hs & Hj & _). destruct H as [Hs0 Hj0 (n & L & Hst) Hf].
  split.
  - eapply steps_app; [exact Hs0|]. econstructor; [exact Hs | constructor].
  - eapply steps_app; [exact Hj0|]. econstructor; [exact Hj | constructor].
  - exists (S n), (L ++ (la_id <$> ls)). by eapply stands_step.
  - eapply job_step_flow; [exact Hj | | exact Hf]. apply job_steps_orch in Hj0. cbn in Hj0. exact (orch_inv_steps _ _ _ _ Hj0).
Qed.

Lemma service_follows j tr' j' : steps service_step j tr' j' -> forall tr, reached tr j -> jb_past j = concat tr -> all_served (concat (tr ++ tr')) ->
  reached (tr ++ tr') j' /\ jb_past j' = concat (tr ++ tr').
Proof.
  induction 1 as [j|j ls j1 tr' j2 Hstep _ IH]; intros tr H Hp Hla; [by rewrite app_nil_r|].
  rewrite concat_app in Hla. cbn [concat] in Hla. rewrite app_assoc in Hla.
  assert (all_served (jb_past j ++ ls)) as Hls by (rewrite Hp; intros la Hin; apply Hla, elem_of_app; by left).
  assert (concat (tr ++ [ls]) = concat tr ++ ls) as Ec by (rewrite concat_app; cbn; by rewrite app_nil_r).
  replace (tr ++ ls :: tr') with ((tr ++ [ls]) ++ tr') by (by rewrite <- app_assoc). apply IH.
  - by eapply reached_step.
  - destruct (service_step_follows _ _ _ _ H Hls Hstep) as (_ & _ & ->). by rewrite Ec, Hp.
  - by rewrite concat_app, Ec.
Qed.

(** There is a step unless the job is done. *)
Lemma service_moves tr j : reached tr j -> (exists ls j', service_step j ls j') \/ exists out, or_pos (jb_orch j) = AtDone out.
Proof.
  intros [_ _ (n & L & H) _]. destruct j as [[[|input|k|out|e] rt] past]; [left..|right|].
  - destruct Hmodel as [generate Hg].
    destruct (planner_ends (fun _ => estr) generate (fun _ _ _ => Ok JNull) rt 0 [] [] estr Hg) as (body & iv & ctx & Eb & Er & Ee & Ep).
    eexists _, _. eapply service_plans; [exact Hg | exact Eb | exact Er | exact Ee | exact Ep].
  - set (finished := fun (i : nat) (_ : list string) (_ : string) => match i with O => false | S _ => true end).
    set (ls := (executor_run (ends finished past []) input rt).1.2).
    destruct (executor_run (ends finished past ls) input rt) as [[rt' ls'] o] eqn:E.
    assert (ls' = ls) as ->.
    { unfold ls. rewrite (executor_launches (ends finished past []) (ends finished past ls)) by done. by rewrite E. }
    eexists _, _. eapply (service_executes _ _ finished); [|exact E]. intros i [|k l] Hl; [done|]. exists k. split; [by left | done].
  - destruct (helper_run k rt) as [rt' o] eqn:E. eexists _, _. by apply service_judges.
  - by exists out.
  - by destruct H.
Qed.

Lemma reached_stands tr j : reached tr j -> stands agents plan (length tr) (la_id <$> concat tr) (jb_orch j).
Proof. intros H. by apply (steady_stands agents task plan Hvalid Hsome Hallowed), (re_steady _ _ H). Qed.

(** Every launch of a run that is done is answered in the result, and its message
    carries the answers it needed. *)
Lemma reached_answers tr j out la : reached tr j -> jb_past j = concat tr -> all_served (concat tr) ->
  or_pos (jb_orch j) = AtDone out -> la ∈ concat tr ->
  exists said, serves la said /\ dget (la_id la) out = Some said /\
    forall dep, dep ∈ dn_deps (la_node la) ->
      exists d, dget dep out = Some d /\ occurs ("[" +:+ dep +:+ " output]" +:+ nl +:+ d) (la_message la).
Proof.
  intros H Hp Hall Hd Hla. destruct (stands_done agents plan Hvalid _ _ _ _ (reached_stands _ _ H) Hd) as (-> & _ & Hkeys & Honce).
  pose proof (re_flow _ _ H) as Hf. rewrite Hp in Hf. set (past := concat tr) in *.
  assert (forall la1 la2, la1 ∈ past -> la2 ∈ past -> la_id la1 = la_id la2 -> la1 = la2) as Huniq.
  { intros la1 la2. apply NoDup_fmap_inj. rewrite Honce. by eapply ids_nodup. }
  assert (forall k o, dget k (rt_outputs (or_rt (jb_orch j))) = Some o -> exists la, la ∈ past /\ la_id la = k /\ outcome la = Returned o) as Hout.
  { intros k o Hk. destruct (fl_outputs _ _ _ _ Hf k o Hk) as [la' o' outputs Hin Hr _ _ _ _]. by exists la'. }
  destruct (dkeys_dget (la_id la) (rt_outputs (or_rt (jb_orch j)))) as [o Ho].
  { rewrite Hkeys, <- Honce. by apply list_elem_of_fmap_2. }
  destruct (Hall la Hla) as (said & Hs & _). exists said. split; [done|].
  assert (o = said) as ->.
  { destruct (Hout _ _ Ho) as (la' & Hin & Hid & E). rewrite (Huniq la' la Hin Hla Hid), (serves_outcome _ _ Hs) in E. by injection E. }
  split; [exact Ho|]. intros dep Hdep.
  pose proof (fl_outputs _ _ _ _ Hf _ _ Ho) as Hder. remember (la_id la) as k eqn:Ek. destruct Hder as [la' o outputs Hin _ _ _ Hdeps Hrec].
  rewrite (Huniq la' la Hin Hla Ek) in Hdeps. destruct (Hdeps dep Hdep) as (d & Hdd & Hocc). exists d. split; [|exact Hocc].
  destruct (Hrec _ _ Hdd) as [la2 d outputs2 Hin2 Hr2 _ _ _ _].
  destruct (dkeys_dget (la_id la2) (rt_outputs (or_rt (jb_orch j)))) as [o2 Ho2]; [rewrite Hkeys, <- Honce; by apply list_elem_of_fmap_2|].
  destruct (Hout _ _ Ho2) as (la3 & Hin3 & Hid3 & E3). rewrite (Huniq la3 la2 Hin3 Hin2 Hid3), <- Hr2 in E3. by injection E3 as <-.
Qed.

(** C11: A request from end to end. The planner's model stands by a valid plan of agents
    of the catalog, and what answers each launch serves an agent whose run ends well
    and asks nobody for help: then, in whatever order the tasks end, the service takes
    the steps of the orchestrator, never fails and always has a next step, until after
    exactly 3n + 2 steps for a plan of n nodes it is done. The result then holds, for
    each node of the plan, launched once, what its agent said first, in answer to a
    message that carries what was said for every node it depends on. *)
Theorem request_is_answered events s0 tr j :
  start_orchestrator catalog events = Ok s0 -> task = extract_user_task events ->
  steps service_step (mkJob s0 []) tr j -> all_served (concat tr) ->
  steps careful_step s0 tr (jb_orch j) /\ length tr <= 3 * length (dp_nodes plan) + 2 /\
  ((exists ls j', service_step j ls j') \/
   exists out, or_pos (jb_orch j) = AtDone out /\ length tr = 3 * length (dp_nodes plan) + 2 /\ dkeys out ≡ₚ ids /\ (la_id <$> concat tr) ≡ₚ ids /\
     forall la, la ∈ concat tr -> exists said, serves la said /\ dget (la_id la) out = Some said /\
       forall dep, dep ∈ dn_deps (la_node la) ->
         exists d, dget dep out = Some d /\ occurs ("[" +:+ dep +:+ " output]" +:+ nl +:+ d) (la_message la)).
Proof.
  intros Hs0 Ht Hrun Hall. assert (s0 = start) as -> by (unfold start_orchestrator in Hs0; destruct (constrained_plan_schema _); [by injection Hs0 as <-; rewrite Ht | done]).
  destruct (service_follows _ _ _ Hrun [] reached_start eq_refl Hall) as [H Hp]. cbn [app] in H, Hp.
  pose proof (reached_stands _ _ H) as Hst. split; [exact (job_steps_orch _ _ _ _ (re_job _ _ H))|]. split; [by eapply stands_bound|].
  destruct (service_moves _ _ H) as [?|[out E]]; [by left|]. right. exists out. split; [done|].
  destruct (stands_done agents plan Hvalid _ _ _ _ Hst E) as (_ & Hl & Hk & Ho). do 3 (split; [done|]).
  intros la Hla. by eapply reached_answers.
Qed.
End Service.
