(* ===== verification/ApiReplay.v ===== *)
(** * Replaying a conversation to a client (choirworks/api/replay.py)

    The stored tasks of a conversation become the events a client would have seen:
    per task a snapshot without artifacts, then its artifacts in order, the messages
    and the questions where their history artifact was recorded, and at the end the
    whole state. *)
From S2P Require Import Prelude PyStr Dict Json State StateFacts StateJson World Tool Events.
Local Open Scope string_scope.
Local Open Scope list_scope.

(** [StreamResponse]: a message, or one of the other events. *)
Inductive StreamEvent := SMessage (m : Message) | SEvent (e : A2AEvent).

Definition _intervention_delta (iv : Intervention) : list (string * json) :=
  [("status", JStr (InterventionStatus.intervention_status_value (iv_status iv)));
   ("node_id", JStr (iv_node_id iv));
   ("kind", JStr (InterventionKind_value (iv_kind iv)));
   ("question", JStr (iv_question iv));
   ("responder", JStr (ostr_or (iv_responder iv) estr));
   ("question_type", JStr (QuestionType_value (iv_question_type iv)));
   ("options", json_strs (iv_options iv));
   ("multi", JBool (iv_multi iv));
   ("requester", JStr (iv_requester iv))]
  ++ match iv_answer iv with Some a => [("answer", answer_to_json (Some a))] | None => [] end.

Definition node_delta (n : NodeState) : json :=
  JObj [("status", JStr (NodeStatus.node_status_value (n_status n)));
        ("output", JStr (ostr_or (n_output n) estr));
        ("error", JStr (ostr_or (n_error n) estr));
        ("name", JStr (n_name n));
        ("agent_name", JStr (n_agent_name n))].

(** [{key(x): f(x) for x in l if key(x)}]. *)
Definition dict_of {A} (key : A -> string) (f : A -> json) (l : list A) : list (string * json) :=
  foldl (fun d x => if str_truthy (key x) then dset (key x) (f x) d else d) [] l.

Definition _state_delta_event (s : OrchestrationState) (context_id task_id : string) (task_state : task_state) : A2AEvent :=
  state_delta_event task_id context_id
    [("nodes", JObj (dict_of fst (fun p => node_delta p.2) (nodes s)));
     ("members", JArr (Member_to_dict <$> dvals (members s)));
     ("interventions", JObj (dict_of iv_id (fun iv => JObj (_intervention_delta iv)) (dvals (interventions s))))]
    task_state.

Definition _artifact_update (task_id context_id : string) (artifact : Artifact) : StreamEvent :=
  SEvent (EvArtifact task_id context_id artifact false true).

Definition _message_event (task_id context_id message_id text : string) : StreamEvent :=
  SMessage (mkMessage message_id ROLE_USER task_id context_id [mkPart (CText text) []] []).

(** A status other than [""] replaces that of the question, and drops its answer. *)
Definition _intervention_delta_event (task : Task) (context_id : string) (iv : Intervention) (status : string) : StreamEvent :=
  let delta := _intervention_delta iv in
  let delta := if str_truthy status then ddel "answer" (dset "status" (JStr status) delta) else delta in
  SEvent (state_delta_event (t_id task) context_id [("interventions", JObj [(iv_id iv, JObj delta)])] (t_state task)).

Definition _find_question (ivs : list Intervention) (claimed : list string) (text : string) : option Intervention :=
  find_first (fun iv => negb (bool_decide (iv_id iv ∈ claimed) || negb (bool_decide (iv_question iv = text)))) ivs.

Definition _find_answer (ivs : list Intervention) (claimed answered : list string) (text : string) : option Intervention :=
  find_first (fun iv => negb (negb (bool_decide (iv_id iv ∈ claimed)) || bool_decide (iv_id iv ∈ answered))
                        && bool_decide (iv_status iv = InterventionStatus.RESOLVED) && bool_decide (render_answer iv = text)) ivs.

(** ["".join(part.text for part in parts if part.text)]. *)
Definition texts_of (parts : list Part) : string := str_join estr (filterb str_truthy (part_text <$> parts)).

(** [sorted(l, key=created_at)]: a stable sort by the text of the time. *)
Fixpoint insert_by_time (iv : Intervention) (l : list Intervention) : list Intervention :=
  match l with
  | [] => [iv]
  | x :: l' => if String.leb (iv_created_at iv) (iv_created_at x) then iv :: l else x :: insert_by_time iv l'
  end.
Definition by_time (l : list Intervention) : list Intervention := foldr insert_by_time [] l.

(** [events], [claimed], [answered], and the ids drawn. *)
Record ReplayState := mkReplayState { rs_events : list StreamEvent; rs_claimed : list string; rs_answered : list string; rs_drawn : nat }.
Definition emit_replay (e : StreamEvent) (rs : ReplayState) : ReplayState :=
  mkReplayState (rs_events rs ++ [e]) (rs_claimed rs) (rs_answered rs) (rs_drawn rs).
Definition claim (id : string) (rs : ReplayState) : ReplayState :=
  mkReplayState (rs_events rs) (rs_claimed rs ++ [id]) (rs_answered rs) (rs_drawn rs).
Definition settle_answer (id : string) (rs : ReplayState) : ReplayState :=
  mkReplayState (rs_events rs) (rs_claimed rs) (rs_answered rs ++ [id]) (rs_drawn rs).
Definition draw_id (rs : ReplayState) : ReplayState := mkReplayState (rs_events rs) (rs_claimed rs) (rs_answered rs) (S (rs_drawn rs)).

Definition kind_of (parts : list Part) : string :=
  match parts with p :: _ => default estr (meta_str "cw_type" (p_metadata p)) | [] => estr end.
Definition is_verbatim (kind : string) : bool := bool_decide (kind ∈ [CwType_value THOUGHT; CwType_value FUNCTION_CALL]).

(** The artifact with its texts in one part, when they are not empty. *)
Definition merged (art : Artifact) : option Artifact :=
  let text := texts_of (art_parts art) in
  if str_truthy text then
    Some (mkArtifact (art_id art) (art_name art)
            [mkPart (CText text) (match art_parts art with p :: _ => p_metadata p | [] => [] end)] (art_metadata art))
  else None.

Section replay.
Context (uuid_hex : nat -> string) (context_id : string) (ivs : list Intervention).

(** The ids of the user's messages by text, in the order of the history. *)
Definition pending_user_ids (task : Task) : list (string * list string) :=
  foldl (fun d m => if bool_decide (msg_role m = ROLE_USER)
                    then let text := texts_of (msg_parts m) in dset text (default [] (dget text d) ++ [msg_id m]) d else d)
    [] (t_history task).

(** The event to emit for a history artifact ([None]: none was translated), and the
    ids left. *)
Definition _replay_history_artifact (task : Task) (art : Artifact) (pending : list (string * list string)) (rs : ReplayState)
  : ReplayState * list (string * list string) * bool :=
  let metadata := match art_parts art with p :: _ => p_metadata p | [] => [] end in
  let role := default estr (meta_str "role" metadata) in
  let text := texts_of (art_parts art) in
  if negb (str_truthy text) then (rs, pending, false)
  else if bool_decide (role = "user") then
    match _find_answer ivs (rs_claimed rs) (rs_answered rs) text with
    | Some iv => (emit_replay (_intervention_delta_event task context_id iv estr) (settle_answer (iv_id iv) rs), pending, true)
    | None =>
        match dget text pending with
        | Some (id :: ids) => (emit_replay (_message_event (t_id task) context_id id text) rs, dset text ids pending, true)
        | _ => (emit_replay (_message_event (t_id task) context_id (uuid_hex (rs_drawn rs)) text) (draw_id rs), pending, true)
        end
    end
  else if bool_decide (role = "assistant") then
    match _find_question ivs (rs_claimed rs) text with
    | Some iv => (emit_replay (_intervention_delta_event task context_id iv "pending") (claim (iv_id iv) rs), pending, true)
    | None => (rs, pending, false)
    end
  else (rs, pending, false).

(** What an artifact that is no history gives. *)
Definition replay_artifact (art : Artifact) : option Artifact := if is_verbatim (kind_of (art_parts art)) then Some art else merged art.
Definition emit_artifact (task : Task) (art : Artifact) (rs : ReplayState) : ReplayState :=
  match replay_artifact art with
  | Some a => emit_replay (_artifact_update (t_id task) context_id a) rs
  | None => rs
  end.

Definition replay_step (task : Task) (acc : ReplayState * list (string * list string)) (art : Artifact) : ReplayState * list (string * list string) :=
  let '(rs, pending) := acc in
  match art_parts art with
  | [] => acc
  | _ =>
      if bool_decide (kind_of (art_parts art) = CwType_value HISTORY) then
        match _replay_history_artifact task art pending rs with
        | (rs, pending, true) => (rs, pending)
        | (rs, pending, false) => (emit_artifact task art rs, pending)
        end
      else (emit_artifact task art rs, pending)
  end.

(** The copy of the task without artifacts and history. *)
Definition bare_task (t : Task) : Task :=
  mkTask (t_id t) (t_context_id t) (t_state t) (t_status_message t) [] [] (t_metadata t).

Definition replay_task (rs : ReplayState) (task : Task) : ReplayState :=
  (foldl (replay_step task) (emit_replay (SEvent (EvTask (bare_task task))) rs, pending_user_ids task) (t_artifacts task)).1.
End replay.

Definition synthesize_replay_events (uuid_hex : nat -> string) (tasks : list Task) (context_id : string) (state : option OrchestrationState)
  : list StreamEvent :=
  let ivs := match state with Some s => by_time (dvals (interventions s)) | None => [] end in
  let rs := foldl (replay_task uuid_hex context_id ivs) (mkReplayState [] [] [] 0) tasks in
  rs_events rs ++
  match state, last tasks with
  | Some s, Some last_task => [SEvent (_state_delta_event s context_id (t_id last_task) (t_state last_task))]
  | _, _ => []
  end.

(** ** What the client sees of a question *)

(** The questions an event shows, each with its status, wherever in the replay it comes. *)
Definition question_shown (p : string * json) : option (string * string) :=
  match p.2 with JObj d => match dget "status" d with Some (JStr s) => Some (p.1, s) | _ => None end | _ => None end.
Definition shown_questions (e : StreamEvent) : list (string * string) :=
  match e with
  | SEvent (EvStatus _ _ _ _ (Some (JObj kvs))) =>
      match dget "cw_delta" kvs with
      | Some (JObj delta) => match dget "interventions" delta with Some (JObj questions) => omap question_shown questions | _ => [] end
      | _ => []
      end
  | _ => []
  end.

Lemma shown_intervention task ctx iv status :
  shown_questions (_intervention_delta_event task ctx iv status) =
  [(iv_id iv, if str_truthy status then status else InterventionStatus.intervention_status_value (iv_status iv))].
Proof.
  unfold _intervention_delta_event, state_delta_event, status_event, status_update, struct_of, _intervention_delta.
  destruct iv as [id nid q st [[s|l|b]|] rsp kd qt opts mt rq ct an], st, (str_truthy status) eqn:E; reflexivity.
Qed.

Lemma shown_app es e : (es ++ [e]) ≫= shown_questions = (es ≫= shown_questions) ++ shown_questions e.
Proof. rewrite bind_app. cbn [mbind list_bind]. by rewrite app_nil_r. Qed.

(** The ids shown with a status. *)
Definition shown_as (s : string) (marks : list (string * string)) : list string := omap (fun m => if decide (m.2 = s) then Some m.1 else None) marks.

Lemma elem_shown s marks id : id ∈ shown_as s marks <-> (id, s) ∈ marks.
Proof.
  unfold shown_as. rewrite list_elem_of_omap. split.
  - intros ([id' s'] & Hm & H). cbn in H. case_decide; by simplify_eq.
  - intros H. exists (id, s). cbn. by rewrite decide_True.
Qed.

Lemma shown_snoc s marks m : shown_as s (marks ++ [m]) = shown_as s marks ++ (if decide (m.2 = s) then [m.1] else []).
Proof. unfold shown_as. rewrite omap_app. cbn. by destruct (decide (m.2 = s)). Qed.

(** A question of the state is shown, as pending, or as resolved, when it is. *)
Definition rightly_shown (ivs : list Intervention) (m : string * string) : Prop :=
  exists iv, iv ∈ ivs /\ iv_id iv = m.1 /\ (m.2 = "pending" \/ (m.2 = "resolved" /\ iv_status iv = InterventionStatus.RESOLVED)).

Record marks_ok (ivs : list Intervention) (marks : list (string * string)) (claimed answered : list string) : Prop := mkMarksOk {
  mo_claimed : claimed = shown_as "pending" marks;
  mo_answered : answered = shown_as "resolved" marks;
  mo_all : Forall (rightly_shown ivs) marks;
  mo_once : NoDup claimed /\ NoDup answered;
  mo_order : forall pre id post, marks = pre ++ (id, "resolved") :: post -> (id, "pending") ∈ pre
}.

Definition replay_ok (ivs : list Intervention) (rs : ReplayState) : Prop :=
  marks_ok ivs (rs_events rs ≫= shown_questions) (rs_claimed rs) (rs_answered rs).

Lemma replay_ok_silent ivs rs e n : replay_ok ivs rs -> shown_questions e = [] ->
  replay_ok ivs (mkReplayState (rs_events rs ++ [e]) (rs_claimed rs) (rs_answered rs) n).
Proof. unfold replay_ok. cbn [rs_events rs_claimed rs_answered]. rewrite shown_app. intros H ->. by rewrite app_nil_r. Qed.

Lemma marks_snoc_pending ivs marks claimed answered iv : marks_ok ivs marks claimed answered -> iv ∈ ivs -> (iv_id iv ∉ claimed) ->
  marks_ok ivs (marks ++ [(iv_id iv, "pending")]) (claimed ++ [iv_id iv]) answered.
Proof.
  intros [-> -> Hall [Hc Ha] Ho] Hiv Hid. split; rewrite ?shown_snoc; cbn; rewrite ?app_nil_r; try done.
  - apply Forall_app. split; [done|]. apply Forall_singleton. exists iv. by auto.
  - split; [|done]. apply NoDup_app. split; [done|]. split; [set_solver|]. apply NoDup_singleton.
  - intros pre i post E. destruct post as [|x post _] using rev_ind.
    + apply app_inj_tail in E as [_ E]. done.
    + rewrite app_comm_cons, app_assoc in E. apply app_inj_tail in E as [E _]. eauto.
Qed.

Lemma marks_snoc_resolved ivs marks claimed answered iv : marks_ok ivs marks claimed answered ->
  iv ∈ ivs -> iv_status iv = InterventionStatus.RESOLVED -> iv_id iv ∈ claimed -> (iv_id iv ∉ answered) ->
  marks_ok ivs (marks ++ [(iv_id iv, "resolved")]) claimed (answered ++ [iv_id iv]).
Proof.
  intros [-> -> Hall [Hc Ha] Ho] Hiv Hst Hid Hna. split; rewrite ?shown_snoc; cbn; rewrite ?app_nil_r; try done.
  - apply Forall_app. split; [done|]. apply Forall_singleton. exists iv. by auto.
  - split; [done|]. apply NoDup_app. split; [done|]. split; [set_solver|]. apply NoDup_singleton.
  - intros pre i post E. destruct post as [|x post _] using rev_ind.
    + apply app_inj_tail in E as [<- E]. simplify_eq. by apply elem_shown.
    + rewrite app_comm_cons, app_assoc in E. apply app_inj_tail in E as [E _]. eauto.
Qed.

Lemma marks_once ivs marks claimed answered : marks_ok ivs marks claimed answered -> NoDup marks.
Proof.
  intros [-> -> Hall [Hc Ha] _]. induction marks as [|[id s] l IH]; [constructor|]. apply Forall_cons in Hall as [(iv & _ & _ & Hs) Hall].
  assert (forall s', shown_as s' ((id, s) :: l) = (if decide (s = s') then [id] else []) ++ shown_as s' l) as Hcons.
  { intros s'. unfold shown_as. cbn. by destruct (decide (s = s')). }
  rewrite Hcons in Hc, Ha. apply NoDup_app in Hc as (_ & Hc1 & Hc2), Ha as (_ & Ha1 & Ha2). constructor; [|by apply IH].
  intros Hin. cbn in Hs. destruct Hs as [->|[-> _]].
  - apply (Hc1 id); [by rewrite decide_True by done; apply list_elem_of_singleton | by apply elem_shown].
  - apply (Ha1 id); [by rewrite decide_True by done; apply list_elem_of_singleton | by apply elem_shown].
Qed.

Section facts.
Context (uuid_hex : nat -> string) (context_id : string) (ivs : list Intervention).

Lemma history_ok task art pending rs : replay_ok ivs rs -> replay_ok ivs (_replay_history_artifact uuid_hex context_id ivs task art pending rs).1.1.
Proof.
  intros Hok. unfold _replay_history_artifact. destruct (negb _); [done|].
  destruct (bool_decide (_ = "user")).
  - destruct (_find_answer _ _ _ _) as [iv|] eqn:Ef.
    + apply find_first_some in Ef as [Hin Hp]. bool_prop.
      unfold replay_ok. cbn [fst rs_events emit_replay settle_answer rs_claimed rs_answered]. rewrite shown_app, shown_intervention.
      match goal with E : iv_status iv = _ |- _ => rewrite E end. by apply marks_snoc_resolved.
    + destruct (dget _ pending) as [[|id ids]|]; by apply replay_ok_silent.
  - destruct (bool_decide (_ = "assistant")); [|done]. destruct (_find_question _ _ _) as [iv|] eqn:Ef; [|done].
    apply find_first_some in Ef as [Hin Hp]. bool_prop.
    unfold replay_ok. cbn [fst rs_events emit_replay claim rs_claimed rs_answered]. rewrite shown_app, shown_intervention.
    by apply marks_snoc_pending.
Qed.

Lemma artifact_ok task art rs : replay_ok ivs rs -> replay_ok ivs (emit_artifact context_id task art rs).
Proof. intros Hok. unfold emit_artifact. destruct (replay_artifact art); [by apply replay_ok_silent | done]. Qed.

Lemma step_ok task acc art : replay_ok ivs acc.1 -> replay_ok ivs (replay_step uuid_hex context_id ivs task acc art).1.
Proof.
  destruct acc as [rs pending]. cbn [fst]. intros Hok. unfold replay_step. destruct (art_parts art) eqn:Ep; [done|]. rewrite <- Ep.
  destruct (bool_decide _); [|by apply artifact_ok].
  pose proof (history_ok task art pending rs Hok) as Hh. destruct (_replay_history_artifact _ _ _ _ _ _ _) as [[rs' p'] []]; [done|by apply artifact_ok].
Qed.

Lemma tasks_ok tasks : forall rs, replay_ok ivs rs -> replay_ok ivs (foldl (replay_task uuid_hex context_id ivs) rs tasks).
Proof.
  induction tasks as [|t tasks IH]; intros rs Hok; [done|]. cbn [foldl]. apply IH. unfold replay_task.
  assert (forall l acc, replay_ok ivs acc.1 -> replay_ok ivs (foldl (replay_step uuid_hex context_id ivs t) acc l).1) as Hl.
  { induction l as [|a l IHl]; intros acc Ha; [done|]. cbn [foldl]. by apply IHl, step_ok. }
  apply Hl. by apply replay_ok_silent.
Qed.
End facts.

Lemma by_time_elem iv l : iv ∈ by_time l <-> iv ∈ l.
Proof.
  assert (forall x l, iv ∈ insert_by_time x l <-> iv = x \/ iv ∈ l) as Hi.
  { intros x. induction l0 as [|y l0 IH]; cbn [insert_by_time]; [set_solver|]. destruct (String.leb _ _); [set_solver|].
    rewrite !elem_of_cons, IH. tauto. }
  unfold by_time. induction l as [|x l IH]; [done|]. cbn [foldr]. by rewrite Hi, elem_of_cons, IH.
Qed.

(** A dictionary of a list holds, under each key that is not empty, what its last entry
    gives. *)
Lemma dict_of_spec {A} (key : A -> string) f (l : list A) :
  NoDup (dkeys (dict_of key f l)) /\
  forall k, dget k (dict_of key f l) = if str_truthy k then f <$> find_first (fun x => bool_decide (key x = k)) (rev l) else None.
Proof.
  unfold dict_of. induction l as [|x l [IHn IH]] using rev_ind; [split; [constructor | intros k; by destruct (str_truthy k)]|].
  rewrite foldl_snoc, rev_unit. split; [destruct (str_truthy (key x)); [by apply NoDup_dset | done]|].
  intros k. cbn [find_first List.find]. fold (find_first (fun x => bool_decide (key x = k)) (rev l)).
  destruct (str_truthy (key x)) eqn:Ex.
  - rewrite dget_dset, IH. case_decide as Hk; [subst k; by rewrite Ex, bool_decide_true|]. by rewrite bool_decide_false by congruence.
  - rewrite IH. destruct (str_truthy k) eqn:Ek; [|done]. rewrite bool_decide_false; [done|]. intros E. congruence.
Qed.

(** What the closing snapshot shows: every question of the state, once, as it stands. *)
Definition standing (s : OrchestrationState) (id st : string) : Prop :=
  id <> estr /\ exists iv, find_first (fun iv => bool_decide (iv_id iv = id)) (rev (dvals (interventions s))) = Some iv /\
    st = InterventionStatus.intervention_status_value (iv_status iv).

Lemma stripped_questions (d : list (string * json)) :
  (forall id j, (id, j) ∈ d -> exists iv, j = JObj (_intervention_delta iv)) ->
  omap question_shown (struct_of d) = omap question_shown d.
Proof.
  intros Hd. induction d as [|[id j] d IH]; [done|]. destruct (Hd id j) as (iv & ->); [by left|].
  assert (forall i' j', (i', j') ∈ d -> exists iv, j' = JObj (_intervention_delta iv)) as Hd' by (intros i' j' ?; eapply Hd; by right).
  specialize (IH Hd'). unfold struct_of in *. cbn [omap list_omap strip_none] in *. rewrite IH. done.
Qed.

Lemma closing_shows s ctx tid st :
  let shown := shown_questions (SEvent (_state_delta_event s ctx tid st)) in
  NoDup shown.*1 /\ forall id q, (id, q) ∈ shown <-> standing s id q.
Proof.
  cbn zeta. set (d := dict_of iv_id (fun iv => JObj (_intervention_delta iv)) (dvals (interventions s))).
  pose proof (dict_of_spec iv_id (fun iv => JObj (_intervention_delta iv)) (dvals (interventions s))) as [Hn Hg]. fold d in Hn, Hg.
  assert (forall id j, (id, j) ∈ d -> exists iv, j = JObj (_intervention_delta iv)) as Hd.
  { intros id j Hj. apply elem_dget in Hj; [|done]. rewrite Hg in Hj. destruct (str_truthy id); [|done]. apply fmap_Some in Hj as (iv & _ & ->). by exists iv. }
  assert (forall id iv, question_shown (id, JObj (_intervention_delta iv)) = Some (id, InterventionStatus.intervention_status_value (iv_status iv))) as Hq by done.
  change (shown_questions _) with (omap question_shown (struct_of d)). rewrite stripped_questions by done. split.
  - clear Hg. induction d as [|[id j] d IH]; [constructor|]. rewrite dkeys_cons in Hn. apply NoDup_cons in Hn as [Hid Hn].
    destruct (Hd id j) as (iv & ->); [by left|]. cbn [omap list_omap]. rewrite Hq. cbn. constructor; [|apply IH; [done|]; intros ? ? ?; eapply Hd; by right].
    intros Hin. apply Hid. apply list_elem_of_fmap in Hin as ([i q] & -> & Hin). apply list_elem_of_omap in Hin as ([i' j] & Hin & Ei).
    destruct (Hd i' j) as (iv' & ->); [by right|]. rewrite Hq in Ei. injection Ei as <- _. unfold dkeys. apply list_elem_of_fmap. by eexists (_, _).
  - intros id q. rewrite list_elem_of_omap. unfold standing. split.
    + intros ([i j] & Hin & Ei). destruct (Hd i j) as (iv & ->); [done|]. rewrite Hq in Ei. injection Ei as -> <-.
      apply elem_dget in Hin; [|done]. rewrite Hg in Hin. destruct (str_truthy id) eqn:Et; [|done]. apply fmap_Some in Hin as (iv' & Hf & E).
      split; [by apply str_truthy_true|]. exists iv'. split; [done|]. assert (Hq1 := Hq id iv). rewrite E, Hq in Hq1. congruence.
    + intros (Hid & iv & Hf & ->). exists (id, JObj (_intervention_delta iv)). split; [|done]. apply dget_elem. rewrite Hg, Hf. by rewrite (proj2 (str_truthy_true id)).
Qed.

(** C35: The questions of a replay. While the tasks are gone through, whatever the history,
    only questions of the state are shown; each is shown pending at most once and
    resolved at most once, resolved only when it is, and only after it was shown
    pending. Then, when there are a state and a task, comes one closing event that
    shows every question of the state (with an id) once, with the status it has;
    nothing follows it. *)
Theorem replay_shows_questions_once uuid_hex tasks context_id state :
  exists told closing, synthesize_replay_events uuid_hex tasks context_id state = told ++ closing /\
  (let marks := told ≫= shown_questions in
   NoDup marks /\
   Forall (rightly_shown (match state with Some s => dvals (interventions s) | None => [] end)) marks /\
   forall pre id post, marks = pre ++ (id, "resolved") :: post -> (id, "pending") ∈ pre) /\
  match state, tasks with
  | Some s, _ :: _ => exists e, closing = [e] /\ NoDup (shown_questions e).*1 /\ forall id st, (id, st) ∈ shown_questions e <-> standing s id st
  | _, _ => closing = []
  end.
Proof.
  unfold synthesize_replay_events. set (ivs := match state with Some s => by_time _ | None => [] end).
  assert (replay_ok ivs (mkReplayState [] [] [] 0)) as H0.
  { refine (mkMarksOk _ _ _ _ eq_refl eq_refl (Forall_nil_2 _) (conj NoDup_nil_2 NoDup_nil_2) _). intros pre i post E. by destruct pre. }
  pose proof (tasks_ok uuid_hex context_id ivs tasks _ H0) as Hok. eexists _, _. split; [done|]. split.
  - cbn zeta. split; [by eapply marks_once|]. split; [|apply Hok]. eapply Forall_impl; [apply Hok|].
    intros m (iv & Hin & H). exists iv. split; [|done]. unfold ivs in Hin. destruct state as [s|]; [by apply by_time_elem | done].
  - destruct state as [s|], tasks as [|t tasks]; try done. destruct (last (t :: tasks)) as [l|] eqn:El; [|by apply last_None in El].
    eexists. split; [done|]. apply closing_shows.
Qed.

(** ** What the client sees of an artifact *)

Definition is_history (a : Artifact) : bool := bool_decide (kind_of (art_parts a) = CwType_value HISTORY).
(** The artifact an event shows, unless it is history. *)
Definition artifact_of (e : StreamEvent) : option (string * Artifact) :=
  match e with
  | SEvent (EvArtifact tid _ a _ _) => if is_history a then None else Some (tid, a)
  | _ => None
  end.
(** What there is to show of a stored artifact. *)
Definition shows_artifact (task : Task) (a : Artifact) : option (string * Artifact) :=
  match art_parts a with
  | [] => None
  | _ => if is_history a then None else pair (t_id task) <$> replay_artifact a
  end.
Definition task_of (e : StreamEvent) : option Task := match e with SEvent (EvTask t) => Some t | _ => None end.

Lemma replay_artifact_kind a b : art_parts a <> [] -> replay_artifact a = Some b -> is_history b = is_history a.
Proof.
  unfold replay_artifact, is_history. intros Hp. destruct (is_verbatim _); [by intros [= ->]|]. unfold merged.
  destruct (str_truthy _); [|done]. intros [= <-]. cbn. by destruct (art_parts a).
Qed.

Section shown.
Context (uuid_hex : nat -> string) (context_id : string) (ivs : list Intervention).

(** A state grown by one event at most, and what the event shows. *)
Definition grows (rs rs' : ReplayState) (a : option (string * Artifact)) : Prop :=
  omap artifact_of (rs_events rs') = omap artifact_of (rs_events rs) ++ (match a with Some x => [x] | None => [] end) /\
  omap task_of (rs_events rs') = omap task_of (rs_events rs).

Lemma emit_grows e rs a : artifact_of e = a -> task_of e = None -> grows rs (emit_replay e rs) a.
Proof.
  intros Ha Ht. unfold grows, emit_replay. cbn [rs_events]. rewrite !omap_app. cbn [omap list_omap]. rewrite Ha, Ht.
  split; [done | by rewrite app_nil_r].
Qed.

Lemma emit_artifact_grows task art rs : art_parts art <> [] ->
  grows rs (emit_artifact context_id task art rs) (if is_history art then None else pair (t_id task) <$> replay_artifact art).
Proof.
  intros Hp. unfold emit_artifact. destruct (replay_artifact art) as [b|] eqn:E.
  - apply emit_grows; [|done]. cbn. rewrite (replay_artifact_kind _ _ Hp E). by destruct (is_history art).
  - assert ((if is_history art then None else pair (t_id task) <$> None) = None) as -> by (by destruct (is_history art)).
    split; [by rewrite app_nil_r|done].
Qed.

Lemma history_grows task art pending rs :
  grows rs (_replay_history_artifact uuid_hex context_id ivs task art pending rs).1.1 None.
Proof.
  assert (grows rs rs None) as Hr by (split; [by rewrite app_nil_r|done]).
  unfold _replay_history_artifact. destruct (negb _); [done|]. destruct (bool_decide (_ = "user")).
  - destruct (_find_answer _ _ _ _) as [iv|]; [by apply (emit_grows _ (settle_answer (iv_id iv) rs))|].
    destruct (dget _ pending) as [[|id ids]|]; [by apply (emit_grows _ (draw_id rs))|by apply emit_grows|by apply (emit_grows _ (draw_id rs))].
  - destruct (bool_decide (_ = "assistant")); [|done]. destruct (_find_question _ _ _) as [iv|]; [|done].
    by apply (emit_grows _ (claim (iv_id iv) rs)).
Qed.

Lemma step_grows task acc art : grows acc.1 (replay_step uuid_hex context_id ivs task acc art).1 (shows_artifact task art).
Proof.
  destruct acc as [rs pending]. unfold replay_step, shows_artifact. cbn [fst]. destruct (art_parts art) as [|p ps] eqn:Ep; [by split; [rewrite app_nil_r|]|].
  rewrite <- Ep. assert (art_parts art <> []) as Hp by congruence. fold (is_history art). destruct (is_history art) eqn:Eh.
  - pose proof (history_grows task art pending rs) as Hh. destruct (_replay_history_artifact _ _ _ _ _ _ _) as [[rs' p'] []]; [done|].
    pose proof (emit_artifact_grows task art rs' Hp) as He. rewrite Eh in He. cbn [fst] in Hh |- *. destruct Hh as [H1 H2], He as [H3 H4].
    split; [by rewrite H3, H1, <- app_assoc | by rewrite H4, H2].
  - pose proof (emit_artifact_grows task art rs Hp) as He. by rewrite Eh in He.
Qed.

Lemma replay_tasks_grow tasks : forall rs,
  omap artifact_of (rs_events (foldl (replay_task uuid_hex context_id ivs) rs tasks)) =
    omap artifact_of (rs_events rs) ++ (tasks ≫= fun t => omap (shows_artifact t) (t_artifacts t)) /\
  omap task_of (rs_events (foldl (replay_task uuid_hex context_id ivs) rs tasks)) = omap task_of (rs_events rs) ++ (bare_task <$> tasks).
Proof.
  induction tasks as [|t tasks IH]; intros rs; [cbn; by rewrite !app_nil_r|]. cbn [foldl]. destruct (IH (replay_task uuid_hex context_id ivs rs t)) as [-> ->].
  assert (forall l acc, let r := foldl (replay_step uuid_hex context_id ivs t) acc l in
    omap artifact_of (rs_events r.1) = omap artifact_of (rs_events acc.1) ++ omap (shows_artifact t) l /\ omap task_of (rs_events r.1) = omap task_of (rs_events acc.1)) as Hl.
  { induction l as [|a l IHl]; intros acc; [cbn; by rewrite app_nil_r|]. cbn [foldl]. destruct (IHl (replay_step uuid_hex context_id ivs t acc a)) as [E1 E2].
    destruct (step_grows t acc a) as [E3 E4]. cbn zeta. rewrite E1, E2, E3, E4. cbn [omap list_omap]. split; [|done].
    destruct (shows_artifact t a); cbn [app]; by rewrite <- app_assoc. }
  unfold replay_task. destruct (Hl (t_artifacts t) (emit_replay (SEvent (EvTask (bare_task t))) rs, pending_user_ids t)) as [-> ->].
  unfold emit_replay. cbn [fst rs_events]. rewrite !omap_app, bind_cons, fmap_cons, <- !app_assoc. done.
Qed.
End shown.

(** The tasks and the artifacts of a replay: every task once, in order and bare; and
    of the artifacts that are no history exactly those with something to show, each
    once, in the order they are stored: thoughts and tool calls as they are, others
    with their texts in one part. *)
Theorem replay_shows_every_artifact uuid_hex tasks context_id state :
  let events := synthesize_replay_events uuid_hex tasks context_id state in
  omap task_of events = bare_task <$> tasks /\
  omap artifact_of events = tasks ≫= fun t => omap (shows_artifact t) (t_artifacts t).
Proof.
  cbn zeta. unfold synthesize_replay_events. rewrite !omap_app.
  match goal with |- context [foldl (replay_task _ _ ?ivs) ?rs0 _] => destruct (replay_tasks_grow uuid_hex context_id ivs tasks rs0) as [-> ->] end.
  destruct state, (last tasks); cbn; by rewrite ?app_nil_r.
Qed.
