(* ===== verification/Conversations.v ===== *)
(** * The conversation endpoints and the context store (choirworks/api/conversations.py,
    choirworks/store/contexts.py)

    What is kept of a conversation is its record in the context store and its tasks
    in the task store. The endpoints list the conversations, replay one, and rewind
    one to before a turn. *)
From S2P Require Import Prelude PyStr Dict Json State StateFacts StateJson World Tool Events Rewind ApiReplay.
Local Open Scope string_scope.
Local Open Scope list_scope.

(** ** The context store *)

Record ContextRecord := mkContextRecord { co_state : string; co_title : string; co_created_at : string; co_updated_at : string }.
(** The rows, in the order of their insertion. *)
Abbreviation contexts := (list (string * ContextRecord)).

Definition context_create (context_id title now : string) (rows : contexts) : contexts :=
  match dget context_id rows with
  | None => dset context_id (mkContextRecord "{}" title now now) rows
  | Some r => if bool_decide (co_title r = estr)
              then dset context_id (mkContextRecord (co_state r) title (co_created_at r) (co_updated_at r)) rows else rows
  end.
Definition context_upsert_state (context_id state now : string) (rows : contexts) : contexts :=
  match dget context_id rows with
  | None => dset context_id (mkContextRecord state estr now now) rows
  | Some r => dset context_id (mkContextRecord state (co_title r) (co_created_at r) now) rows
  end.
(** [ORDER BY updated_at ASC, rowid ASC]. *)
Fixpoint insert_row (row : string * ContextRecord) (rows : contexts) : contexts :=
  match rows with
  | [] => [row]
  | x :: rows' => if String.leb (co_updated_at row.2) (co_updated_at x.2) then row :: rows else x :: insert_row row rows'
  end.
Definition context_list (rows : contexts) : contexts := foldr insert_row [] rows.

(** ** Endpoints *)

(** [HTTPException], or another exception (an internal error). *)
Inductive reply (A : Type) := Reply (a : A) | HTTPException (status_code : Z) (detail : string) | Internal (e : exn).
Arguments Reply {A} _.
Arguments HTTPException {A} _ _.
Arguments Internal {A} _.

Record ConversationSummary := mkSummary {
  su_id : string; su_title : string; su_created_at : string; su_updated_at : string; su_task_count : Z; su_last_status : string }.
Record ConversationPayload := mkPayload { pa_id : string; pa_context : option json; pa_tasks : list Task }.

(** [TaskState.Name(s).replace("TASK_STATE_", "").lower()]. *)
Definition state_name (s : task_state) : string :=
  match s with
  | TaskState.UNSPECIFIED => "unspecified" | TaskState.SUBMITTED => "submitted" | TaskState.WORKING => "working"
  | TaskState.COMPLETED => "completed" | TaskState.FAILED => "failed" | TaskState.CANCELED => "canceled"
  | TaskState.INPUT_REQUIRED => "input_required" | TaskState.REJECTED => "rejected" | TaskState.AUTH_REQUIRED => "auth_required"
  end.

Section endpoints.
(** The number of a state in the protocol. *)
Context (rank : task_state -> Z).
(** The task store: its pages, newest task first, for one conversation or all ([None]); and [save]. *)
Context {TaskStore : Type} (list_pages : option string -> TaskStore -> list (list Task)) (save : Task -> TaskStore -> TaskStore).
Context (py_repr : json -> string) (py_int : string -> option Z) (loads : string -> option json) (dumps : json -> string).

(** The rows, the tasks, and per live session whether its runner is at work. *)
Record ApiState := mkApi { ap_contexts : contexts; ap_tasks : TaskStore; ap_sessions : list (string * bool) }.

Definition all_tasks (context_id : string) (st : ApiState) : list Task := list_all_tasks (list_pages (Some context_id) (ap_tasks st)) true.

Definition _conversation_payload (context_id : string) (st : ApiState) : reply ConversationPayload :=
  match all_tasks context_id st with
  | [] => HTTPException 404 "conversation not found"
  | tasks => Reply (mkPayload context_id (match dget context_id (ap_contexts st) with Some r => loads (co_state r) | None => None end) tasks)
  end.

Definition create_conversation (conversation_id title now : string) (st : ApiState) : ApiState * string :=
  (mkApi (context_create conversation_id title now (ap_contexts st)) (ap_tasks st) (ap_sessions st), title).

(** [sessions] and [latest_state] after one task. *)
Definition summarize (acc : list (string * (ConversationSummary * task_state))) (task : Task) : list (string * (ConversationSummary * task_state)) :=
  let ctx_id := t_context_id task in
  let name := state_name (t_state task) in
  let acc :=
    match dget ctx_id acc with
    | Some _ => acc
    | None =>
        let title := match dget "title" (t_metadata task) with
                     | Some t => if py_bool t then py_str py_repr t else estr
                     | None => estr
                     end in
        dset ctx_id (mkSummary ctx_id title estr estr 0 name, t_state task) acc
    end in
  dupd ctx_id (fun p =>
    let '(s, latest) := p in
    let count := (su_task_count s + 1)%Z in
    if (rank latest <? rank (t_state task))%Z
    then (mkSummary (su_id s) (su_title s) (su_created_at s) (su_updated_at s) count name, t_state task)
    else (mkSummary (su_id s) (su_title s) (su_created_at s) (su_updated_at s) count (su_last_status s), latest)) acc.

Definition record_summary (p : string * ContextRecord) : string * (ConversationSummary * task_state) :=
  (p.1, (mkSummary p.1 (co_title p.2) (co_created_at p.2) (co_updated_at p.2) 0 estr, TaskState.UNSPECIFIED)).
Definition list_conversations (st : ApiState) : list ConversationSummary :=
  (foldl summarize (record_summary <$> context_list (ap_contexts st)) (list_all_tasks (list_pages None (ap_tasks st)) false)).*2.*1.

Definition get_conversation (context_id : string) (st : ApiState) : reply ConversationPayload := _conversation_payload context_id st.

(** [state_from_json(record.state)]: a [ValueError] or a [TypeError] counts as none. *)
Definition replay_state (now context_id : string) (st : ApiState) : res (option OrchestrationState) :=
  match dget context_id (ap_contexts st) with
  | Some r =>
      match loads (co_state r) with
      | Some data => guarded_load (state_from_json py_repr py_int now data)
      | None => Ok None
      end
  | None => Ok None
  end.
Definition replay_conversation (uuid_hex : nat -> string) (now context_id : string) (st : ApiState) : reply (list StreamEvent) :=
  match all_tasks context_id st with
  | [] => HTTPException 404 "conversation not found"
  | tasks =>
      match replay_state now context_id st with
      | Ok state => Reply (synthesize_replay_events uuid_hex tasks context_id state)
      | Err e => Internal e
      end
  end.

(** ** Rewinding *)

Definition session_is_active (context_id : string) (st : ApiState) : bool := default false (dget context_id (ap_sessions st)).

Definition rewind_marker (marker_id context_id task_id : string) : Task :=
  mkTask marker_id context_id TaskState.COMPLETED None [] [] [(REWIND_KEY, JStr task_id)].

(** What is refused, and the state to restore. *)
Definition check_rewind (now context_id task_id : string) (st : ApiState) : reply OrchestrationState :=
  if negb (str_truthy task_id) then HTTPException 400 "task_id is required"
  else if session_is_active context_id st then HTTPException 409 "会话正在执行中，无法回退"
  else match dget context_id (ap_contexts st) with
       | None => HTTPException 404 "conversation not found"
       | Some _ =>
           match all_tasks context_id st with
           | [] => HTTPException 404 "conversation not found"
           | tasks =>
               match last_index tasks task_id with
               | None => HTTPException 404 "task not found"
               | Some i =>
                   match tasks !! i with
                   | Some task =>
                       if negb (is_human_turn task) then HTTPException 400 "只有人类消息开启的回合可以回退"
                       else match restore_state py_repr py_int now loads tasks task_id with
                            | Ok s => Reply s
                            | Err (RewindUnavailable m) => HTTPException 409 m
                            | Err e => Internal e
                            end
                   | None => Internal Unmodelled
                   end
               end
           end
       end.

Definition apply_rewind_to (now marker_id context_id task_id : string) (s : OrchestrationState) (st : ApiState) : ApiState :=
  mkApi (context_upsert_state context_id (dumps (state_to_json s)) now (ap_contexts st))
    (save (rewind_marker marker_id context_id task_id) (ap_tasks st))
    (ddel context_id (ap_sessions st)).

Definition rewind_conversation (now marker_id context_id task_id : string) (st : ApiState) : ApiState * reply ConversationPayload :=
  match check_rewind now context_id task_id st with
  | Reply s => let st := apply_rewind_to now marker_id context_id task_id s st in (st, _conversation_payload context_id st)
  | HTTPException c d => (st, HTTPException c d)
  | Internal e => (st, Internal e)
  end.
End endpoints.

(** ** Facts of a rewind *)

Section rewind.
Context {TaskStore : Type} (list_pages : option string -> TaskStore -> list (list Task)) (save : Task -> TaskStore -> TaskStore).
(** The stored tasks of a conversation, oldest first: the pages list them newest
    first, and a new task is stored as the newest. *)
Context (stored : string -> TaskStore -> list Task)
  (Hlist : forall c s, mjoin (list_pages (Some c) s) = rev (stored c s))
  (Hsave : forall t s, t_id t ∉ t_id <$> stored (t_context_id t) s -> stored (t_context_id t) (save t s) = stored (t_context_id t) s ++ [t]).
Context (py_repr : json -> string) (py_int : string -> option Z) (loads : string -> option json) (dumps : json -> string).

Lemma all_tasks_visible c st : conversation c (stored c (ap_tasks st)) -> all_tasks list_pages c st = apply_rewinds (stored c (ap_tasks st)).
Proof. intros Hc. unfold all_tasks. by apply (list_all_cuts c). Qed.

Lemma check_rewind_ok now c task_id st s :
  check_rewind list_pages py_repr py_int loads now c task_id st = Reply s ->
  str_truthy task_id = true /\ session_is_active c st = false /\ is_Some (dget c (ap_contexts st)) /\
  (exists task, task ∈ all_tasks list_pages c st /\ is_human_turn task = true) /\
  task_id ∈ t_id <$> all_tasks list_pages c st /\
  restore_state py_repr py_int now loads (all_tasks list_pages c st) task_id = Ok s.
Proof.
  unfold check_rewind. destruct (str_truthy task_id) eqn:Et; [|done]. cbn [negb]. destruct (session_is_active c st) eqn:Ea; [done|].
  destruct (dget c (ap_contexts st)) as [r|]; [|done]. destruct (all_tasks list_pages c st) as [|t ts] eqn:El; [done|]. rewrite <- El.
  destruct (last_index (all_tasks list_pages c st) task_id) as [i|] eqn:Ei; [|done].
  destruct (all_tasks list_pages c st !! i) as [task|] eqn:Elk; [|done]. destruct (is_human_turn task) eqn:Eh; [|done]. cbn [negb].
  destruct (restore_state _ _ _ _ _ _) as [s'|e] eqn:Er; [|by destruct e]. intros [= ->].
  split_and!; try done.
  - exists task. split; [by eapply list_elem_of_lookup_2 | done].
  - destruct (decide (task_id ∈ t_id <$> all_tasks list_pages c st)) as [|Hn]; [done|]. by rewrite (last_index_none _ _ Hn) in Ei.
Qed.

(** The conversation as stored once the rewind is made. *)
Lemma rewind_stored now marker_id c task_id s st :
  conversation c (stored c (ap_tasks st)) -> marker_id ∉ t_id <$> stored c (ap_tasks st) ->
  task_id ∈ t_id <$> all_tasks list_pages c st -> str_truthy task_id = true ->
  let st' := apply_rewind_to save dumps now marker_id c task_id s st in
  conversation c (stored c (ap_tasks st')) /\ all_tasks list_pages c st' = before task_id (all_tasks list_pages c st).
Proof.
  intros Hconv Hfresh Hin Ht st'. rewrite all_tasks_visible in Hin by done.
  assert (extract_rewind (rewind_marker marker_id c task_id) = Some task_id) as Hext.
  { unfold extract_rewind, rewind_marker. cbn [t_metadata]. rewrite dget_hit. by rewrite Ht. }
  assert (stored c (ap_tasks st') = stored c (ap_tasks st) ++ [rewind_marker marker_id c task_id]) as Est
    by (apply (Hsave (rewind_marker marker_id c task_id)); exact Hfresh).
  assert (conversation c (stored c (ap_tasks st'))) as Hconv' by (rewrite Est; by apply (conv_rewind c _ _ task_id)).
  split; [done|]. rewrite !all_tasks_visible by done. rewrite Est, apply_rewinds_snoc. unfold apply_rewind. by rewrite Hext.
Qed.

Lemma rewind_payload now marker_id c task_id s st : let st' := apply_rewind_to save dumps now marker_id c task_id s st in
  (co_state <$> dget c (ap_contexts st')) = Some (dumps (state_to_json s)) /\
  _conversation_payload list_pages loads c st' =
    match all_tasks list_pages c st' with
    | [] => HTTPException 404 "conversation not found"
    | tasks => Reply (mkPayload c (loads (dumps (state_to_json s))) tasks)
    end.
Proof.
  assert ((co_state <$> dget c (ap_contexts (apply_rewind_to save dumps now marker_id c task_id s st))) = Some (dumps (state_to_json s))) as E.
  { unfold apply_rewind_to, context_upsert_state. cbn [ap_contexts]. destruct (dget c (ap_contexts st)); by rewrite dget_dset_eq. }
  split; [done|]. unfold _conversation_payload. destruct (all_tasks _ _ _); [done|].
  destruct (dget c _) as [r|]; [|done]. cbn in E. by injection E as ->.
Qed.

(** A turn begun by a human: its first message is the user's, and names no other sender. *)
Definition begun_by_human (t : Task) : Prop :=
  exists m rest, t_history t = m :: rest /\ msg_role m = ROLE_USER /\
    dget "sender" (room_options (Some m)) ∈ [None; Some JNull; Some (JStr estr); Some (JStr "user")].

(** The state of a session after the turns [pre]: that stored with the last of them. *)
Definition state_after (now : string) (pre : list Task) (s : OrchestrationState) : Prop :=
  match last pre with None => s = empty_state | Some t => load_task py_repr py_int now loads t = Ok (Some s) end.

(** A rewind to before [task_id] may be made: the session is not at work, there is a
    record of the conversation, and of what is visible of it, read from the start, [pre]
    comes before a turn with that id; a human began the turn, and [s] is the state
    stored before it. *)
Definition may_rewind (now c task_id : string) (st : ApiState) (pre : list Task) (s : OrchestrationState) : Prop :=
  task_id <> estr /\ dget c (ap_sessions st) <> Some true /\ is_Some (dget c (ap_contexts st)) /\
  exists task post, apply_rewinds (stored c (ap_tasks st)) = pre ++ task :: post /\ t_id task = task_id /\
    begun_by_human task /\ state_after now pre s.

Lemma human_turn_iff t : is_human_turn t = true <-> begun_by_human t.
Proof.
  unfold is_human_turn, begun_by_human. destruct (t_history t) as [|m rest]; [split; [done | by intros (? & ? & ? & _)]|].
  rewrite andb_true_iff, bool_decide_eq_true. split.
  - intros [Hr Hs]. exists m, rest. split; [done|]. split; [done|].
    destruct (dget "sender" _) as [v|]; [|by left]. destruct v as [| | |str| |]; try done; [right; by left|].
    apply orb_prop in Hs as [Hs|Hs]; bool_prop; subst; [do 2 right; by left | do 3 right; by left].
  - intros (? & ? & [= <- <-] & Hr & Hs). split; [done|]. repeat (apply elem_of_cons in Hs as [->|Hs]; [done|]). by apply elem_of_nil in Hs.
Qed.

Lemma conversation_nodup c l : conversation c l -> NoDup (t_id <$> l).
Proof.
  induction 1 as [|l t Hl IH Hc He Hid|l t i Hl IH Hc He Hin Hid]; [by apply NoDup_nil_2| |].
  all: rewrite fmap_app; apply NoDup_app; split; [done|]; split; [|apply NoDup_singleton]; by intros x Hx ->%list_elem_of_singleton.
Qed.

Lemma before_mid pre t post : NoDup (t_id <$> pre ++ t :: post) -> before (t_id t) (pre ++ t :: post) = pre.
Proof.
  induction pre as [|x pre IH]; cbn; [by rewrite bool_decide_true|]. intros [Hx Hnd]%NoDup_cons.
  rewrite bool_decide_false; [by rewrite IH|]. intros E. apply Hx. rewrite E. apply list_elem_of_fmap_2. apply elem_of_app. right. by left.
Qed.

(** What is checked is that the rewind may be made. *)
Lemma check_rewind_iff now c task_id st s :
  conversation c (stored c (ap_tasks st)) ->
  check_rewind list_pages py_repr py_int loads now c task_id st = Reply s <-> exists pre, may_rewind now c task_id st pre s.
Proof.
  intros Hconv. pose proof (all_tasks_visible c st Hconv) as Hvis.
  assert (NoDup (t_id <$> all_tasks list_pages c st)) as Hnd.
  { rewrite Hvis. eapply sublist_NoDup; [by apply (conversation_nodup c) | apply fmap_sublist, visible_sublist]. }
  assert (forall pre task post s', all_tasks list_pages c st = pre ++ task :: post -> t_id task = task_id ->
    restore_state py_repr py_int now loads (all_tasks list_pages c st) task_id = Ok s' <-> state_after now pre s') as Hrestore.
  { intros pre task post s' Es <-. rewrite restore_state_spec; [|done | rewrite Es, fmap_app; apply elem_of_app; right; by left].
    rewrite Es in Hnd |- *. rewrite before_mid by done. unfold state_after. destruct (last pre) as [cp|]; [|naive_solver].
    destruct (load_task _ _ _ _ cp) as [[s0|]|e]; cbn; naive_solver. }
  assert (forall pre task post, all_tasks list_pages c st = pre ++ task :: post -> last_index (all_tasks list_pages c st) (t_id task) = Some (length pre)) as Hidx.
  { intros pre task post Es. rewrite Es in Hnd |- *. apply last_index_split. rewrite fmap_app in Hnd. apply NoDup_app in Hnd as (_ & _ & Hnd).
    by apply NoDup_cons in Hnd as [? _]. }
  unfold may_rewind. rewrite <- Hvis. split.
  - intros Ec. destruct (check_rewind_ok _ _ _ _ _ Ec) as (Ht & Ha & Hr & _ & Hin & Hs). apply str_truthy_true in Ht.
    destruct (before_split task_id _ Hin) as (task & post & Es & Hid). revert Es.
    generalize (before task_id (all_tasks list_pages c st)). intros pre Es. exists pre.
    split; [done|]. split; [unfold session_is_active in Ha; intros E; by rewrite E in Ha|]. split; [done|]. exists task, post.
    split; [done|]. split; [done|]. split; [|by apply (Hrestore _ _ _ _ Es Hid)].
    apply human_turn_iff. unfold check_rewind in Ec. apply str_truthy_true in Ht. rewrite Ht, Ha in Ec. cbn [negb] in Ec.
    destruct Hr as [r Hr]. rewrite Hr in Ec. destruct (all_tasks list_pages c st) eqn:El; [done|]. rewrite <- El in *.
    rewrite <- Hid, (Hidx _ _ _ Es) in Ec. rewrite Es, lookup_app_r, Nat.sub_diag in Ec by lia. cbn in Ec.
    by destruct (is_human_turn task).
  - intros (pre & Ht & Ha & [r Hr] & task & post & Es & Hid & Hh & Hs). apply str_truthy_true in Ht. apply human_turn_iff in Hh.
    unfold check_rewind. rewrite Ht, Hr. cbn [negb].
    assert (session_is_active c st = false) as -> by (unfold session_is_active; by destruct (dget c (ap_sessions st)) as [[]|]).
    destruct (all_tasks list_pages c st) eqn:El; [by destruct pre|]. rewrite <- El in *.
    apply (Hrestore _ _ _ _ Es Hid) in Hs. rewrite Hs, <- Hid, (Hidx _ _ _ Es), Es, lookup_app_r, Nat.sub_diag by lia.
    cbn. by rewrite Hh.
Qed.

(** C17: A rewind to before a task is made exactly when a task is named, the session is not
    at work, there is a record of the conversation, the task is one of its visible turns,
    a human began that turn, and the visible turn just before it, if there is one, has a
    snapshot that can be read. What is then visible is exactly what came before the task,
    the state stored is that snapshot (the empty state when nothing came before), the
    session in memory is dropped, what is stored is again a conversation, and other
    conversations keep their record and their session. Otherwise nothing changes, and the
    answer is an error. *)
Theorem rewind_conversation_spec now marker_id c task_id st
    (Hconv : conversation c (stored c (ap_tasks st)))
    (Hfresh : marker_id ∉ t_id <$> stored c (ap_tasks st))
    (Hsessions : NoDup (dkeys (ap_sessions st))) :
  let '(st', answer) := rewind_conversation list_pages save py_repr py_int loads dumps now marker_id c task_id st in
  (forall pre s, may_rewind now c task_id st pre s ->
     conversation c (stored c (ap_tasks st')) /\
     apply_rewinds (stored c (ap_tasks st')) = pre /\ all_tasks list_pages c st' = pre /\
     (co_state <$> dget c (ap_contexts st')) = Some (dumps (state_to_json s)) /\
     dget c (ap_sessions st') = None /\
     (forall c', c' <> c -> dget c' (ap_contexts st') = dget c' (ap_contexts st) /\ dget c' (ap_sessions st') = dget c' (ap_sessions st)) /\
     answer = match pre with
              | [] => HTTPException 404 "conversation not found"
              | _ => Reply (mkPayload c (loads (dumps (state_to_json s))) pre)
              end) /\
  (~ (exists pre s, may_rewind now c task_id st pre s) -> st' = st /\ forall p, answer <> Reply p).
Proof.
  unfold rewind_conversation. destruct (check_rewind _ _ _ _ _ _ _ _) as [s|code d|e] eqn:Ec.
  2, 3: split; [intros pre s Hm; exfalso; assert (exists pre, may_rewind now c task_id st pre s) as Hx by (by exists pre);
    apply check_rewind_iff in Hx; [by rewrite Hx in Ec | done] | by split].
  split; [|intros Hno; destruct Hno; apply check_rewind_iff in Ec as [pre Hm]; [by exists pre, s | done]]. intros pre s' Hm.
  assert (s' = s) as ->.
  { assert (exists pre, may_rewind now c task_id st pre s') as Hx by (by exists pre). apply check_rewind_iff in Hx; [congruence | done]. }
  destruct (check_rewind_ok _ _ _ _ _ Ec) as (Ht & _ & _ & _ & Hin & _).
  destruct (rewind_stored now marker_id c task_id s st Hconv Hfresh Hin Ht) as [Hconv' Eall].
  assert (before task_id (all_tasks list_pages c st) = pre) as Epre.
  { destruct Hm as (_ & _ & _ & task & post & Es & <- & _). rewrite all_tasks_visible, Es by done. apply before_mid. rewrite <- Es.
    eapply sublist_NoDup; [exact (conversation_nodup c _ Hconv) | apply fmap_sublist, visible_sublist]. }
  rewrite Epre in Eall. destruct (rewind_payload now marker_id c task_id s st) as [Estate ->]. rewrite Eall.
  split; [done|]. split; [by rewrite <- all_tasks_visible|]. split; [done|]. split; [done|].
  split; [unfold apply_rewind_to; cbn [ap_sessions]; by rewrite dget_ddel_eq|]. split; [|by destruct pre].
  intros c' Hc. unfold apply_rewind_to, context_upsert_state. cbn [ap_sessions ap_contexts]. rewrite dget_ddel_ne by done.
  split; [|done]. destruct (dget c (ap_contexts st)); by rewrite dget_dset_ne.
Qed.

(** Rewinding to before the first turn: the rewind is made, everything is hidden,
    and the answer is that there is no such conversation. *)
Theorem rewind_to_the_start_says_404 now marker_id c st s task later
    (Hconv : conversation c (stored c (ap_tasks st)))
    (Hfresh : marker_id ∉ t_id <$> stored c (ap_tasks st))
    (Hfirst : all_tasks list_pages c st = task :: later)
    (Hcheck : check_rewind list_pages py_repr py_int loads now c (t_id task) st = Reply s) :
  let '(st', answer) := rewind_conversation list_pages save py_repr py_int loads dumps now marker_id c (t_id task) st in
  answer = HTTPException 404 "conversation not found" /\ all_tasks list_pages c st' = [] /\
  (co_state <$> dget c (ap_contexts st')) = Some (dumps (state_to_json s)).
Proof.
  unfold rewind_conversation. rewrite Hcheck. destruct (check_rewind_ok _ _ _ _ _ Hcheck) as (Ht & _ & _ & _ & Hin & _).
  destruct (rewind_stored now marker_id c _ s st Hconv Hfresh Hin Ht) as [_ Eall].
  destruct (rewind_payload now marker_id c (t_id task) s st) as [Estate ->]. rewrite Hfirst in Eall. cbn [before] in Eall.
  rewrite bool_decide_eq_true_2 in Eall by done. by rewrite Eall.
Qed.
End rewind.

(** ** Facts of the list *)

Section listing.
Context (rank : task_state -> Z) {TaskStore : Type} (list_pages : option string -> TaskStore -> list (list Task)) (py_repr : json -> string).

(** A summary of the tasks [ts]: their number, and the state of the highest number
    among them ([first]: what it was before them). *)
Definition summarizes (ts : list Task) (first : ConversationSummary * task_state) (p : ConversationSummary * task_state) : Prop :=
  su_id p.1 = su_id first.1 /\ su_title p.1 = su_title first.1 /\
  su_task_count p.1 = (su_task_count first.1 + Z.of_nat (length ts))%Z /\
  (rank first.2 <= rank p.2)%Z /\ (forall t, t ∈ ts -> (rank (t_state t) <= rank p.2)%Z) /\
  (p.2 = first.2 /\ su_last_status p.1 = su_last_status first.1 \/
   (rank first.2 < rank p.2)%Z /\ (exists t, t ∈ ts /\ t_state t = p.2) /\ su_last_status p.1 = state_name p.2).

Definition of_context (c : string) (ts : list Task) : list Task := filterb (fun t => bool_decide (t_context_id t = c)) ts.

Lemma summarize_other c acc t : t_context_id t <> c -> dget c (summarize rank py_repr acc t) = dget c acc.
Proof.
  intros Hc. unfold summarize. rewrite dget_dupd, decide_False by congruence.
  destruct (dget (t_context_id t) acc); [done|]. by rewrite dget_dset_ne by congruence.
Qed.

Lemma summarize_own c acc t p : t_context_id t = c -> dget c acc = Some p ->
  exists p', dget c (summarize rank py_repr acc t) = Some p' /\ summarizes [t] p p'.
Proof.
  intros <- Hp. unfold summarize. rewrite Hp, dget_dupd, decide_True, Hp by done. cbn [fmap option_fmap option_map].
  eexists. split; [done|]. destruct p as [s latest], (rank latest <? rank (t_state t))%Z eqn:E; unfold summarizes; cbn; split_and!; try done; try lia.
  - intros x ->%list_elem_of_singleton. lia.
  - right. split; [lia|]. split; [|done]. exists t. split; [by apply list_elem_of_singleton | done].
  - intros x ->%list_elem_of_singleton. lia.
  - by left.
Qed.

Lemma summarizes_trans t ts p p' p'' : summarizes [t] p p' -> summarizes ts p' p'' -> summarizes (t :: ts) p p''.
Proof.
  intros (I1 & T1 & C1 & L1 & A1 & D1) (I2 & T2 & C2 & L2 & A2 & D2). unfold summarizes. split_and!; try congruence; try lia.
  - rewrite C2, C1. cbn [length]. lia.
  - intros x [->|Hx]%elem_of_cons; [|by apply A2]. pose proof (A1 t (list_elem_of_here _ _)). lia.
  - destruct D2 as [[E2 S2]|(R2 & (t2 & H2 & E2) & S2)].
    + destruct D1 as [[E1 S1]|(R1 & (t1 & H1 & E1) & S1)]; [left; split; congruence|]. right. rewrite E2, S2.
      split; [done|]. split; [|done]. exists t1. split; [|done]. apply list_elem_of_singleton in H1 as ->. by left.
    + right. split; [lia|]. split; [|done]. exists t2. split; [by right | done].
Qed.

Lemma summarize_fold c ts : forall acc p, dget c acc = Some p ->
  exists p', dget c (foldl (summarize rank py_repr) acc ts) = Some p' /\ summarizes (of_context c ts) p p'.
Proof.
  induction ts as [|t ts IH]; intros acc p Hp.
  - exists p. split; [done|]. unfold summarizes. split_and!; try done; cbn; try lia; [intros t Ht; by apply elem_of_nil in Ht | by left].
  - cbn [foldl]. unfold of_context. cbn [filterb List.filter]. destruct (decide (t_context_id t = c)) as [Hc|Hc].
    + rewrite bool_decide_eq_true_2 by done. destruct (summarize_own c acc t p Hc Hp) as (p1 & H1 & S1).
      destruct (IH _ _ H1) as (p2 & H2 & S2). exists p2. split; [done|]. by apply (summarizes_trans _ _ _ p1).
    + rewrite bool_decide_eq_false_2 by done. apply IH. by rewrite summarize_other.
Qed.

Lemma context_list_perm rows : context_list rows ≡ₚ rows.
Proof.
  assert (forall row l, insert_row row l ≡ₚ row :: l) as Hins.
  { induction l as [|x l IH]; [done|]. cbn. destruct (String.leb _ _); [done|]. rewrite IH. apply Permutation_swap. }
  unfold context_list. induction rows as [|r rows IH]; [done|]. cbn. by rewrite Hins, IH.
Qed.

(** The list of conversations: a conversation with a record is listed with the number
    of its visible tasks, and as its last status the state that has the highest
    number in the protocol among those of its tasks, whatever their order; none
    when all its tasks are without a state. *)
Theorem list_conversations_spec st c r
    (Hkeys : NoDup (dkeys (ap_contexts st))) (Hrecord : dget c (ap_contexts st) = Some r)
    (Hrank : forall s, (rank TaskState.UNSPECIFIED <= rank s)%Z) :
  let tasks := of_context c (list_all_tasks (list_pages None (ap_tasks st)) false) in
  exists s, s ∈ list_conversations rank list_pages py_repr st /\ su_id s = c /\ su_title s = co_title r /\
    su_task_count s = Z.of_nat (length tasks) /\
    ((forall t, t ∈ tasks -> (rank (t_state t) <= rank TaskState.UNSPECIFIED)%Z) /\ su_last_status s = estr \/
     exists t, t ∈ tasks /\ su_last_status s = state_name (t_state t) /\ forall t', t' ∈ tasks -> (rank (t_state t') <= rank (t_state t))%Z).
Proof.
  cbn zeta. set (ts := list_all_tasks _ false).
  assert (dget c (record_summary <$> context_list (ap_contexts st)) =
    Some (mkSummary c (co_title r) (co_created_at r) (co_updated_at r) 0 estr, TaskState.UNSPECIFIED)) as H0.
  { apply elem_dget.
    - unfold dkeys. rewrite <- list_fmap_compose. change (fst ∘ record_summary) with (fst : string * ContextRecord -> string).
      fold (dkeys (context_list (ap_contexts st))). unfold dkeys in *. by rewrite context_list_perm.
    - apply list_elem_of_fmap. exists (c, r). split; [done|]. rewrite context_list_perm. by apply dget_elem. }
  destruct (summarize_fold c ts _ _ H0) as ([s latest] & Hp & (I & T & C & L & A & D)). cbn [fst snd] in *.
  exists s. split; [|split_and!; try done; try lia].
  - unfold list_conversations. fold ts. apply list_elem_of_fmap. exists (s, latest). split; [done|].
    apply list_elem_of_fmap. exists (c, (s, latest)). split; [done|]. by apply dget_elem.
  - destruct D as [[-> D]|(R & (t & Ht & Et) & D)]; [by left|]. right. exists t. rewrite Et. done.
Qed.
End listing.
