(* ===== verification/Recovery.v ===== *)
(** * Recovery after a restart (choirworks/a2a/recovery.py: recover_tasks)

    Every conversation with unfinished work gets one internal message, on the newest
    of its unfinished visible tasks. *)
From S2P Require Import Prelude PyStr Dict Json State StateFacts StateJson World Tool Events Rewind.
Local Open Scope string_scope.
Local Open Scope list_scope.

Definition TERMINAL_STATES : list task_state := [TaskState.COMPLETED; TaskState.CANCELED; TaskState.FAILED; TaskState.REJECTED].

Section recovery.
Context (py_repr : json -> string) (py_int : string -> option Z) (now : string) (loads : string -> option json).
(** Whether the context store has a record; whether sending to a task succeeds (an
    exception is logged and dropped). *)
Context (has_record : string -> bool) (send : Task -> bool).

(** Whether there is a state to go on from. *)
Definition recoverable (task : Task) : res bool :=
  s ← load_task py_repr py_int now loads task;
  Ok (match s with Some _ => true | None => has_record (t_context_id task) end).

(** [seen_contexts], the tasks a message was sent to, [recovered]. *)
Record RecoveryState := mkRecovery { rv_seen : list string; rv_sent : list Task; rv_recovered : Z }.

Definition recover_step (st : RecoveryState) (task : Task) : res RecoveryState :=
  if bool_decide (t_state task ∈ TERMINAL_STATES) || bool_decide (t_context_id task ∈ rv_seen st) then Ok st
  else
    ok ← recoverable task;
    Ok (if ok : bool then
          mkRecovery (t_context_id task :: rv_seen st) (rv_sent st ++ [task]) (if send task then rv_recovered st + 1 else rv_recovered st)
        else st).

Fixpoint recover_all (tasks : list Task) (st : RecoveryState) : res RecoveryState :=
  match tasks with
  | [] => Ok st
  | t :: tasks' => st ← recover_step st t; recover_all tasks' st
  end.
Definition recover_tasks (pages : list (list Task)) : res RecoveryState := recover_all (iter_all_tasks pages) (mkRecovery [] [] 0).

(** ** Facts *)

(** A task that is to be recovered if no newer one of its conversation is. *)
Definition candidate (ok : Task -> bool) (t : Task) : bool := negb (bool_decide (t_state t ∈ TERMINAL_STATES)) && ok t.

Lemma recover_all_spec (ok : Task -> bool) tasks : (forall t, t ∈ tasks -> recoverable t = Ok (ok t)) -> forall st st',
  recover_all tasks st = Ok st' ->
  exists sent, rv_sent st' = rv_sent st ++ sent /\ NoDup (t_context_id <$> sent) /\
    rv_recovered st' = (rv_recovered st + Z.of_nat (length (filterb send sent)))%Z /\
    (forall c, c ∈ rv_seen st' <-> c ∈ rv_seen st \/ c ∈ t_context_id <$> sent) /\
    (forall c, c ∈ rv_seen st -> c ∉ t_context_id <$> sent) /\
    (forall t, t ∈ sent <-> exists newer older, tasks = newer ++ t :: older /\ candidate ok t = true /\ (t_context_id t ∉ rv_seen st) /\
        forall x, x ∈ newer -> t_context_id x = t_context_id t -> candidate ok x = false).
Proof.
  induction tasks as [|t tasks IH]; intros Hok st st'.
  - intros [= <-]. exists []. rewrite app_nil_r. split_and!; try done; [constructor | cbn; lia | set_solver | set_solver|].
    intros t. split; [by intros ?%elem_of_nil | by intros (newer & older & E & _); destruct newer].
  - cbn [recover_all]. intros (st1 & Hstep & Hrest)%res_bind_ok.
    destruct (IH ltac:(intros; apply Hok; by right) _ _ Hrest) as (sent & Es & Hnd & Hr & Hseen & Hold & Hmem). clear IH Hrest.
    unfold recover_step in Hstep. destruct (decide (candidate ok t = true /\ t_context_id t ∉ rv_seen st)) as [[Hc Hn]|Hno].
    + assert (candidate ok t = true) as Hc' by done. unfold candidate in Hc'. apply andb_prop in Hc' as [Ht Hk]. apply negb_true_iff in Ht.
      rewrite Ht, (bool_decide_eq_false_2 _ Hn) in Hstep. cbn [orb] in Hstep. rewrite (Hok t (list_elem_of_here _ _)) in Hstep.
      cbn in Hstep. rewrite Hk in Hstep. injection Hstep as <-. cbn [rv_seen rv_sent rv_recovered] in *.
      exists (t :: sent). rewrite Es, <- app_assoc. split_and!; [done| | | | |].
      * rewrite fmap_cons. constructor; [|done]. apply Hold. by left.
      * rewrite Hr. cbn [filterb List.filter]. fold (filterb send sent). destruct (send t); cbn [length]; lia.
      * intros c. rewrite Hseen, fmap_cons, !elem_of_cons. tauto.
      * intros c Hcs. rewrite fmap_cons, elem_of_cons. intros [->|Hin]; [done|]. apply (Hold c); [by right|done].
      * intros x. rewrite elem_of_cons, Hmem. split.
        -- intros [->|(newer & older & -> & Hcx & Hnx & Hx)]; [exists [], tasks; split_and!; try done; intros y Hy; by apply elem_of_nil in Hy|].
           apply not_elem_of_cons in Hnx as [Hne Hnx]. exists (t :: newer), older. split_and!; try done.
           intros y [->|Hy]%elem_of_cons Hyc; [congruence | by apply Hx].
        -- intros ([|y newer] & older & E & Hcx & Hnx & Hx); simplify_eq/=; [by left|]. right. exists newer, older. split_and!; try done.
           ++ apply not_elem_of_cons. split; [|done]. intros Hxt. rewrite (Hx y) in Hc; [done|by left|done].
           ++ intros z Hz. apply Hx. by right.
    + assert (st1 = st) as ->.
      { destruct (bool_decide (t_state t ∈ TERMINAL_STATES)) eqn:Ht; [by injection Hstep|]. cbn [orb] in Hstep. case_bool_decide as Hn; [by injection Hstep|].
        rewrite (Hok t (list_elem_of_here _ _)) in Hstep. cbn in Hstep. destruct (ok t) eqn:Hk; [|by injection Hstep].
        exfalso. apply Hno. unfold candidate. by rewrite Ht, Hk. }
      exists sent. split_and!; try done. intros x. rewrite Hmem. split.
      * intros (newer & older & -> & Hcx & Hnx & Hx). exists (t :: newer), older. split_and!; try done.
        intros y [->|Hy]%elem_of_cons Hyc; [|by apply Hx]. apply not_true_iff_false. intros Hct. apply Hno. by rewrite Hyc.
      * intros ([|y newer] & older & E & Hcx & Hnx & Hx); simplify_eq/=; [by destruct Hno|]. exists newer, older. split_and!; try done.
        intros z Hz. apply Hx. by right.
Qed.

(** Recovery: the tasks that get a message are, of each conversation with an
    unfinished visible task to go on from, the newest such task; no conversation
    gets two; a failure to send stops nothing and is not counted. *)
Theorem recover_tasks_spec (ok : Task -> bool) pages st
    (Hok : forall t, t ∈ iter_all_tasks pages -> recoverable t = Ok (ok t)) (Hrun : recover_tasks pages = Ok st) :
  NoDup (t_context_id <$> rv_sent st) /\
  rv_recovered st = Z.of_nat (length (filterb send (rv_sent st))) /\
  forall t, t ∈ rv_sent st <-> exists newer older, iter_all_tasks pages = newer ++ t :: older /\ candidate ok t = true /\
    forall x, x ∈ newer -> t_context_id x = t_context_id t -> candidate ok x = false.
Proof.
  destruct (recover_all_spec ok _ Hok _ _ Hrun) as (sent & -> & Hnd & -> & _ & _ & Hmem). cbn [rv_sent rv_recovered app].
  split_and!; [done|done|]. intros t. rewrite Hmem. cbn [rv_seen]. setoid_rewrite elem_of_nil. naive_solver.
Qed.
End recovery.
