(* ===== verification/App.v ===== *)
(** * Starting the application (choirworks/config.py, api/app.py, sim/runner.py)

    The settings and what the orchestration gets of them; what happens at a start, to
    the database and to the registry, before the first request: the agents of a
    simulation are started and registered, unfinished work is recovered. *)
From S2P Require Import Prelude PyStr Dict Json State StateFacts StateJson World Conversations Recovery Cards.
From S2P Require Import SimAgent Registry.
Local Open Scope string_scope.
Local Open Scope list_scope.

(** ** Settings *)

(** Fractions are the texts of their numbers. *)
Record ServerConfig := mkServerConfig { sc_host : string; sc_port : Z }.
Record LLMConfig := mkLLMConfig {
  lc_planner_model : string; lc_api_base : option string; lc_timeout_seconds : string; lc_max_plan_retries : nat;
  lc_context_window : option Z; lc_compaction_threshold : string; lc_compaction_retention : nat }.
Record SchedulerConfig := mkSchedulerConfig {
  sh_max_parallel_nodes : Z; sh_node_timeout_seconds : string; sh_max_node_attempts : Z; sh_retry_backoff_seconds : string;
  sh_replan_on_failure : bool; sh_max_revisions : Z; sh_max_plan_nodes : Z }.
Record SimConfig := mkSimConfig { si_start_agents : bool; si_agents : list (list (string * string));
  si_chunk_size : Z; si_chunk_delay : string }.
Record Settings := mkSettings {
  se_server : ServerConfig; se_llm : LLMConfig; se_scheduler : SchedulerConfig; se_db_path : string; se_replay_on_startup : bool; se_public_url : string; se_sim : SimConfig }.

Definition default_llm : LLMConfig := mkLLMConfig "openai/gpt-4.1" None "60.0" 2 None "0.8" 10.
Definition default_scheduler : SchedulerConfig := mkSchedulerConfig 5 "600.0" 2 "1.0" true 3 20.
Definition default_sim : SimConfig := mkSimConfig false [] 2 "0.04".
Definition default_settings : Settings :=
  mkSettings (mkServerConfig "127.0.0.1" 8567) default_llm default_scheduler "./data/choirworks.db" true "http://127.0.0.1:8567" default_sim.

(** [ChoirWorksAgentExecutor.__init__], as far as it configures the orchestration. *)
Definition init_executor (max_parallel : Z) (node_timeout : string) (max_node_attempts max_derived_nodes max_revisions : Z)
    (replan_on_failure : bool) (max_plan_nodes : Z) (max_plan_retries : nat) : ExecutorConfig :=
  mkConfig max_parallel node_timeout max_node_attempts max_derived_nodes max_revisions replan_on_failure max_plan_nodes max_plan_retries.

(** What the application passes to it: the number of derived nodes is not a setting and
    stays at its default. *)
Definition executor_config (s : Settings) : ExecutorConfig :=
  let sch := se_scheduler s in
  init_executor (sh_max_parallel_nodes sch) (sh_node_timeout_seconds sch) (sh_max_node_attempts sch) 5 (sh_max_revisions sch)
    (sh_replan_on_failure sch) (sh_max_plan_nodes sch) (lc_max_plan_retries (se_llm s)).

(** The settings of a simulation. *)
Definition build_settings (host : string) (port : Z) (db_path : string) : Settings :=
  mkSettings (mkServerConfig host port) default_llm (mkSchedulerConfig 5 "600.0" 2 "0.2" true 3 20) db_path true
    ("http://" +:+ host +:+ ":" +:+ pretty port) default_sim.

(** ** The database *)

Record Db := mkDb { db_agents : list AgentRecord; db_tasks : list (list Task); db_contexts : list (string * ContextRecord) }.
Definition empty_db : Db := mkDb [] [] [].
(** The registry of a new process: no card is cached and no client made. *)
Definition open_registry (db : Db) : Registry := mkRegistry (db_agents db) [] [] [].

Section app.
Context (any_http_url : string -> option HttpUrl) (url_error : string -> string) (card_to_dict : AgentCard -> json).
Context (uuid_hex now_iso : nat -> string).
(** What the agent at a url answers when it is asked for its card. *)
Context (fetch : string -> fetched).

(** The registry's view of a card: [resolve_card] and [card_to_dict]; of an error the text. *)
Definition resolved (url : string) : json + string :=
  match resolve_card any_http_url url_error (fetch url) with Ok card => inl (card_to_dict card) | Err e => inr (exn_str e) end.

(** [for name, agent in agents: await registry.register(name, agent.url)]: it ends with
    the first that is refused. Each takes the next id. *)
Fixpoint register_all (t : nat) (l : list (string * string)) (rg : Registry) : Registry * option registry_error :=
  match l with
  | [] => (rg, None)
  | (name, url) :: l' =>
      match register any_http_url resolved (uuid_hex t) (now_iso t) name url id rg with
      | (rg, inl e) => (rg, Some e)
      | (rg, inr _) => register_all (S t) l' rg
      end
  end.

(** Where the simulated agents listen. *)
Context (port : nat -> Z).
Definition sim_url (i : nat) : string := "http://127.0.0.1:" +:+ pretty (port i).

(** What a start comes to: the agents that were started, with their urls, and what was
    recovered; what it can raise. *)
Record Started := mkStarted {
  st_registry : Registry; st_db : Db; st_agents : list (string * ScriptedExecutor); st_recovered : option RecoveryState }.
Inductive app_error := AppRaised (e : exn) | NotRegistered (e : registry_error).

(** The agents of the settings, started and registered one by one; the [i]-th listens at
    [sim_url i]. *)
Fixpoint start_specs (chunk_size : Z) (i : nat) (specs : list (list (string * string))) (rg : Registry)
  : Registry * list (string * ScriptedExecutor) * option app_error :=
  match specs with
  | [] => (rg, [], None)
  | spec :: specs' =>
      match dget "name" spec with
      | None => (rg, [], Some (AppRaised (KeyError "'name'")))
      | Some name =>
          let agent := (sim_url i, mkScripted (default "echo" (dget "behavior" spec)) name 0 chunk_size) in
          match register any_http_url resolved (uuid_hex i) (now_iso i) name (sim_url i) id rg with
          | (rg, inl e) => (rg, [agent], Some (NotRegistered e))
          | (rg, inr _) => let '(rg, agents, e) := start_specs chunk_size (S i) specs' rg in (rg, agent :: agents, e)
          end
      end
  end.

(** [lifespan], up to where the application serves. [send]: whether the message that
    recovers a task gets through. *)
Context (py_repr : json -> string) (py_int : string -> option Z) (now : string) (loads : string -> option json) (send : Task -> bool).

Definition start_sim (s : Settings) (db : Db) : Registry * Db * list (string * ScriptedExecutor) * option app_error :=
  let sim := se_sim s in
  if si_start_agents sim && negb (bool_decide (si_agents sim = [])) then
    let '(rg, agents, e) := start_specs (si_chunk_size sim) 0 (si_agents sim) (open_registry empty_db) in (rg, empty_db, agents, e)
  else (open_registry db, db, [], None).

Definition start_app (s : Settings) (db : Db) : Started * option app_error :=
  let '(rg, db, agents, e) := start_sim s db in
  match e with
  | Some e => (mkStarted rg db agents None, Some e)
  | None =>
      if se_replay_on_startup s then
        match recover_tasks py_repr py_int now loads (fun c => dmem c (db_contexts db)) send (db_tasks db) with
        | Ok r => (mkStarted rg db agents (Some r), None)
        | Err e => (mkStarted rg db agents None, Some (AppRaised e))
        end
      else (mkStarted rg db agents None, None)
  end.

(** ** The simulation (sim/runner.py: run) *)

(** The team is started, then the application, and the agents of the team are
    registered. Without an error the simulation runs; it ends with an error of the
    registration, and with one of the application the server does not come up. *)
Definition sim_team : list (string * string) := imap (fun i p => (fst p, sim_url i)) SIM_AGENTS.
Definition sim_run (fresh : bool) (host : string) (http_port : Z) (db_path : string) (db : Db) : Registry * option app_error :=
  let db := if fresh then empty_db else db in
  let '(app, e) := start_app (build_settings host http_port db_path) db in
  match e with
  | Some e => (st_registry app, Some e)
  | None => let '(rg, e) := register_all 0 sim_team (st_registry app) in (rg, NotRegistered <$> e)
  end.

(** ** Facts *)

(** The urls are proper ones as they are, every agent of the team answers with its card,
    and ids are new. *)
Context (Hurl : forall i, normalize_url any_http_url (sim_url i) = Some (sim_url i)).
Context (Hteam : forall i p, SIM_AGENTS !! i = Some p -> fetch (sim_url i) = Fetched (_make_card (snd p) (sim_url i) (fst p))).

Lemma sim_card_ok behavior i name : str_truthy (ustrip (str_or name behavior)) = true ->
  resolve_card any_http_url url_error (Fetched (_make_card behavior (sim_url i) name)) = Ok (_make_card behavior (sim_url i) name).
Proof.
  intros Hn. apply resolve_card_ok. split; [done|]. split; [exact Hn|]. split.
  - eexists. split; [by left | done].
  - intros j [->|[]%elem_of_nil]%elem_of_cons _. unfold valid_url. cbn [if_url]. specialize (Hurl i). unfold normalize_url in Hurl.
    by destruct (any_http_url (sim_url i)).
Qed.

(** The row of the [i]-th agent of the team. *)
Definition sim_record (i : nat) (p : string * string) : AgentRecord :=
  mkAgentRecord (uuid_hex i) (fst p) (sim_url i) (card_to_dict (_make_card (snd p) (sim_url i) (fst p))) "ok" (Some (now_iso i)) (now_iso i).

(** One agent of the team is registered, unless its name is taken. *)
Lemma register_one i p rg : SIM_AGENTS !! i = Some p -> uuid_hex i ∉ ar_id <$> rg_rows rg ->
  register any_http_url resolved (uuid_hex i) (now_iso i) (fst p) (sim_url i) id rg =
  if decide (fst p ∈ ar_name <$> rg_rows rg) then (rg, inl (duplicate (fst p)))
  else (cache_card (sim_url i) (card_to_dict (_make_card (snd p) (sim_url i) (fst p))) (set_rows (rg_rows rg ++ [sim_record i p]) rg), inr (sim_record i p)).
Proof.
  intros Hp Hid. assert (ustrip (fst p) = fst p /\ valid_name (fst p) = true /\ str_truthy (ustrip (str_or (fst p) (snd p))) = true) as (Hs & Hv & Ht).
  { clear Hid. apply list_elem_of_lookup_2 in Hp. unfold SIM_AGENTS in Hp.
    repeat (apply elem_of_cons in Hp as [->|Hp]; [by vm_compute|]). by apply elem_of_nil in Hp. }
  unfold register, AgentRegistration. rewrite Hs, Hv, Hurl. cbn [negb].
  assert (forall (q : AgentRecord -> string) v, existsb (fun x => bool_decide (q x = v)) (rg_rows rg) = bool_decide (v ∈ q <$> rg_rows rg)) as Hex.
  { intros q v. apply eq_bool_prop_intro. rewrite Is_true_true, existsb_elem, Is_true_true, bool_decide_eq_true, list_elem_of_fmap.
    split; intros (x & H1 & H2); exists x; [apply bool_decide_eq_true in H2 | rewrite bool_decide_eq_true]; by subst. }
  unfold get_by_name. case_decide as Hin.
  - apply list_elem_of_fmap in Hin as (r & Hr & Hin). destruct (find_first _ _) eqn:Ef; [done|].
    rewrite find_first_none in Ef. specialize (Ef r Hin). by rewrite bool_decide_true in Ef.
  - destruct (find_first _ _) as [r|] eqn:Ef.
    { apply find_first_some in Ef as [Hr Hb]. bool_prop. destruct Hin. rewrite <- Hb. by apply list_elem_of_fmap_2. }
    unfold resolved. rewrite (Hteam _ _ Hp), (sim_card_ok _ _ _ Ht). unfold insert_agent, id. cbn [ar_id ar_name].
    assert (existsb (fun x => bool_decide (ar_id x = uuid_hex i) || bool_decide (ar_name x = fst p)) (rg_rows rg) = false) as ->; [|done].
    apply existsb_false. intros x Hx. apply orb_false_intro; apply bool_decide_eq_false; intros E.
    + apply Hid. rewrite <- E. by apply list_elem_of_fmap_2.
    + apply Hin. rewrite <- E. by apply list_elem_of_fmap_2.
Qed.

Context (Huuid : forall i j, uuid_hex i = uuid_hex j -> i = j).

(** The names that are taken when a registration begins. *)
Local Abbreviation taken rg := (ar_name <$> rg_rows rg).

Lemma register_team l : forall i rg, (forall j p, l !! j = Some p -> SIM_AGENTS !! (i + j) = Some p) -> NoDup l.*1 ->
  (forall j, i <= j -> uuid_hex j ∉ ar_id <$> rg_rows rg) ->
  exists k, let '(rg', e) := register_all i (imap (fun j p => (fst p, sim_url (i + j))) l) rg in
    rg_rows rg' = rg_rows rg ++ take k (imap (fun j p => sim_record (i + j) p) l) /\
    (forall j p, j < k -> l !! j = Some p -> fst p ∉ taken rg) /\
    match e with
    | None => k = length l
    | Some err => exists p, l !! k = Some p /\ fst p ∈ taken rg /\ err = duplicate (fst p)
    end.
Proof.
  induction l as [|p l IH]; intros i rg Hl Hnd Hids.
  { exists 0. cbn. rewrite app_nil_r. split; [done|]. split; [intros; lia | done]. }
  cbn [imap register_all]. rewrite Nat.add_0_r.
  assert (SIM_AGENTS !! i = Some p) as Hp by (rewrite <- (Nat.add_0_r i); by apply Hl).
  rewrite (register_one i p rg Hp) by by apply Hids. cbn in Hnd. apply NoDup_cons in Hnd as [Hpn Hnd].
  case_decide as Hin.
  - exists 0. cbn [take]. rewrite app_nil_r. split; [done|]. split; [intros; lia|]. by exists p.
  - set (rg1 := cache_card _ _ _).
    assert (rg_rows rg1 = rg_rows rg ++ [sim_record i p]) as Hrows by done. clearbody rg1.
    destruct (IH (S i) rg1) as (k & Hk); [|done| |].
    + intros j q Hj. rewrite Nat.add_succ_comm. by apply (Hl (S j)).
    + intros j Hj. rewrite Hrows, fmap_app, elem_of_app. intros [Hold|Hnew]; [by apply (Hids j); [lia|]|].
      apply list_elem_of_singleton in Hnew. cbn in Hnew. apply Huuid in Hnew. lia.
    + exists (S k). rewrite (imap_ext _ (fun j q => (fst q, sim_url (S i + j)))) by (intros; cbn; by rewrite Nat.add_succ_r).
      destruct (register_all (S i) _ rg1) as [rg' e]. destruct Hk as (Hr & Hb & He). split; [|split].
      * rewrite Hr, Hrows, <- app_assoc. cbn [take app]. do 3 f_equal. apply imap_ext. intros. cbn. by rewrite Nat.add_succ_r.
      * intros [|j] q Hj Hq; [cbn in Hq; by injection Hq as <-|]. cbn in Hq. intros Hq'. apply (Hb j q); [lia | done|].
        rewrite Hrows, fmap_app. apply elem_of_app. by left.
      * destruct e as [err|]; [|cbn; by rewrite He]. destruct He as (q & Hq & Ht & ->). exists q. split; [done|]. split; [|done].
        rewrite Hrows, fmap_app in Ht. apply elem_of_app in Ht as [Ht|Ht]; [done|]. apply list_elem_of_singleton in Ht. destruct Hpn. cbn in Ht.
        rewrite <- Ht. apply list_elem_of_fmap_2. by eapply list_elem_of_lookup_2.
Qed.

(** A simulation whose application comes up: the agents of the team are registered in
    their order up to the first whose name the database has already, which ends the
    simulation as a duplicate; with no name taken, as on a fresh database, all of them
    are registered, with their urls and cards, and the simulation runs. So it does not
    start a second time on the database of a run. *)
Theorem sim_run_spec (fresh : bool) host http_port db_path db app
    (Hup : start_app (build_settings host http_port db_path) (if fresh then empty_db else db) = (app, None))
    (Hids : forall j, uuid_hex j ∉ ar_id <$> db_agents db) :
  let names : list string := if fresh then [] else ar_name <$> db_agents db in
  exists k, let '(rg, e) := sim_run fresh host http_port db_path db in
    rg_rows rg = (if fresh then [] else db_agents db) ++ take k (imap sim_record SIM_AGENTS) /\
    (forall j p, j < k -> SIM_AGENTS !! j = Some p -> fst p ∉ names) /\
    match e with
    | None => k = length SIM_AGENTS
    | Some err => exists p, SIM_AGENTS !! k = Some p /\ fst p ∈ names /\ err = NotRegistered (duplicate (fst p))
    end.
Proof.
  intros names. unfold sim_run at 1. rewrite Hup.
  set (db0 := if fresh then empty_db else db) in *.
  assert (st_registry app = open_registry db0) as ->.
  { unfold start_app, start_sim in Hup. cbn in Hup. destruct (recover_tasks _ _ _ _ _ _ _); by injection Hup as <-. }
  destruct (register_team SIM_AGENTS 0 (open_registry db0)) as (k & Hk).
  { done. }
  { apply (bool_decide_unpack _). by vm_compute. }
  { intros j _. subst db0. destruct fresh; [apply not_elem_of_nil | apply Hids]. }
  exists k. cbn [Nat.add] in Hk. unfold sim_team. destruct (register_all 0 _ (open_registry db0)) as [rg e]. destruct Hk as (Hr & Hb & He).
  assert (ar_name <$> rg_rows (open_registry db0) = names) as Hnames by (subst db0 names; by destruct fresh).
  rewrite Hnames in Hb, He. split; [rewrite Hr; subst db0; by destruct fresh|]. split; [exact Hb|].
  destruct e as [err|]; [|exact He]. destruct He as (p & Hp & Hn & ->). by exists p.
Qed.
End app.
