(* ===== verification/Witnesses.v ===== *)
(** * Witnesses

    Each theorem with hypotheses applied to a concrete input on which they hold:
    the surroundings of [Samples] and small plans, evaluated. *)
From S2P Require Import Prelude SystemPrompts PyStr Dict Json State StateFacts Transitions StateJson World Tool.
From S2P Require Import Events Evolution Prompts Helpers Hitl Dag Engine Llm Planner Patch Tools.
From S2P Require Import ToolFacts RemoteCaller NodeExec NodeFacts Settlement PlanFlow Rewind.
From S2P Require Import History Planning MessageFlow Samples MessageFacts Runner.
From S2P Require Import RunnerFacts ApiReplay Conversations Registry Recovery.
From S2P Require Import RemoteCallerFacts Cards SimAgent SimModel App.
Local Open Scope string_scope.
Local Open Scope list_scope.

(** A run whose result is known, as an equation. *)
Lemma run_ok {A} (m : M A) w (a : A) : snd (m w) = Ok a -> m w = (fst (m w), Ok a).
Proof. destruct (m w). cbn. by intros ->. Qed.

Lemma session_inv_ok s : wf_stateb s = true -> one_pendingb s = true -> session_inv s.
Proof. intros Hw Ho. split; [by apply wf_stateb_ok | by apply one_pendingb_ok]. Qed.

(** The result of a run on a concrete world. *)
Ltac ran := apply run_ok; by vm_compute.

(** ** Concrete plans *)

(** A question about [n1], asked by nobody in particular. *)
Definition sample_question : Intervention :=
  mkIntervention "i1" "n1" "which colour?" InterventionStatus.PENDING
    None None QUESTION SELECT ["red"; "blue"] false "assistant" "now" false.

(** [n1] waits for an answer, [n2] is done, [n3] depends on both. *)
Definition waiting_state : OrchestrationState :=
  set_interventions [("i1", sample_question)]
    (set_nodes [node_with NodeStatus.INPUT_REQUIRED "n1" "a" []; node_with NodeStatus.COMPLETED "n2" "b" [];
                node_with NodeStatus.PENDING "n3" "c" ["n1"; "n2"]] empty_state).

(** [n1] failed, [n2] waits for it, [n3] is being worked on. *)
Definition failed_state : OrchestrationState :=
  set_nodes [node_with NodeStatus.FAILED "n1" "a" []; node_with NodeStatus.PENDING "n2" "b" ["n1"];
             node_with NodeStatus.WORKING "n3" "c" []; node_with NodeStatus.PENDING "n4" "d" []] empty_state.

(** ** The state *)

Lemma enqueue_take_queued_witness :
  let '(s1, m) := enqueue "now" waiting_state "n1" "hurry" "human" None in
  let '(s2, taken) := take_queued s1 "n1" in
  q_text <$> taken = ["hurry"] /\ snd (take_queued s2 "n1") = [].
Proof.
  pose proof (enqueue_take_queued "now" waiting_state "n1" "hurry" "human" None) as H.
  assert (wf_state waiting_state) as Hw by (apply wf_stateb_ok; by vm_compute). specialize (H Hw).
  destruct (enqueue "now" waiting_state "n1" "hurry" "human" None) as [s1 m] eqn:E.
  destruct (take_queued s1 "n1") as [s2 taken]. destruct H as (-> & E2 & _ & Ht & _). split; [|exact E2].
  replace (snd (take_queued waiting_state "n1")) with (@nil QueuedMessage) by by vm_compute. cbn. by rewrite Ht.
Defined.

Lemma request_user_input_witness :
  exists iv, snd (request_user_input "i2" "now" waiting_state "n3" "really?" QUESTION CONFIRM [] false "assistant") = Some iv /\
    iv_question iv = "really?".
Proof.
  pose proof (request_user_input_spec "i2" "now" waiting_state "n3" "really?" QUESTION CONFIRM [] false "assistant") as H.
  destruct (session_inv_ok waiting_state) as [Hw Ho]; [by vm_compute..|].
  assert ("i2" ∉ dkeys (interventions waiting_state)) as Hn by (apply (bool_decide_unpack _); by vm_compute).
  specialize (H Hw Ho Hn).
  destruct (request_user_input "i2" "now" waiting_state "n3" "really?" QUESTION CONFIRM [] false "assistant") as [s' r].
  destruct H as (_ & _ & H). destruct (pending_intervention_for waiting_state "n3") eqn:E; [vm_compute in E; discriminate|].
  destruct H as (iv & -> & _ & Hq & _). by exists iv.
Defined.

Lemma settled_forever_witness :
  steps status_step NodeStatus.READY [NodeStatus.SUBMITTED; NodeStatus.COMPLETED] NodeStatus.COMPLETED /\
  exists c, c ∈ [NodeStatus.READY; NodeStatus.SUBMITTED; NodeStatus.COMPLETED] /\
    (c = NodeStatus.SUBMITTED \/ c = NodeStatus.WORKING \/ c = NodeStatus.RECOVER).
Proof.
  assert (steps status_step NodeStatus.READY [NodeStatus.SUBMITTED; NodeStatus.COMPLETED] NodeStatus.COMPLETED) as H.
  { eapply steps_cons; [split; [done|]; right; apply (bool_decide_unpack _); by vm_compute|].
    eapply steps_cons; [split; [done|]; right; apply (bool_decide_unpack _); by vm_compute|]. constructor. }
  split; [exact H|]. destruct (settled_forever _ _ _ H) as [_ H1]. by destruct (H1 eq_refl).
Defined.

Lemma state_roundtrip_witness :
  exists s', state_from_json (fun _ => "?") (fun _ => None) "now" (state_to_json waiting_state) = Ok s' /\
    s' = restored waiting_state.
Proof.
  destruct (state_roundtrip (fun _ => "?") (fun _ => None) "now" waiting_state) as (s' & H1 & H2 & _);
    [apply wf_stateb_ok; by vm_compute | by exists s'].
Defined.

(** ** Questions and tools *)

Lemma answer_intervention_witness :
  exists w', answer_intervention "i1" (AStr "red") (world_of waiting_state) = (w', Ok true) /\
    w_state w' = answered (AStr "red") sample_question waiting_state.
Proof.
  destruct (answer_intervention_spec (world_of waiting_state) "i1" (AStr "red")) as (w' & b & E & Hb & _ & Ht).
  { intros iv Hiv. vm_compute in Hiv. by injection Hiv as <-. }
  assert (b = true) as ->.
  { apply Hb. exists sample_question, (node_with NodeStatus.INPUT_REQUIRED "n1" "a" []).2.
    split; [done|]. split; [done|]. split; [|by vm_compute]. split; [done|]. by left. }
  destruct (Ht eq_refl) as (_ & iv & n & (Hiv & _) & E2). exists w'. split; [exact E|].
  vm_compute in Hiv. injection Hiv as <-. exact E2.
Defined.

Lemma finish_stream_witness :
  "create_plan" ∈ ["create_plan"] /\
  finish_stream ["create_plan"] [] (collect [mkDelta None None
    [mkCallDelta 0 (Some "create_plan") (Some "{}") (Some "c1")]]) =
    StreamDone (Some ("create_plan", PlanDraftArgs sample_draft, Some "c1")).
Proof.
  assert (finish_stream ["create_plan"] [] (collect [mkDelta None None
    [mkCallDelta 0 (Some "create_plan") (Some "{}") (Some "c1")]]) =
    StreamDone (Some ("create_plan", PlanDraftArgs sample_draft, Some "c1"))) as H by by vm_compute.
  split; [|exact H]. destruct (finish_stream_spec _ _ _ _ _ _ H) as (_ & _ & Hin & _). exact Hin.
Defined.

Lemma apply_patch_keeps_work_witness :
  exists s' r, apply_patch failed_state (mkPatch [] ["n1"; "n3"] "retry") ["a"] = Ok (s', r) /\
    pr_invalidated r = ["n1"; "n2"] /\ pr_skipped_in_flight r = ["n3"] /\ wf_state s'.
Proof.
  destruct (apply_patch_keeps_work failed_state (mkPatch [] ["n1"; "n3"] "retry") ["a"]) as (s' & r & E & Hw & _);
    [apply wf_stateb_ok; by vm_compute|].
  exists s', r. split; [exact E|]. vm_compute in E. injection E as <- <-. split; [done|]. split; [done | exact Hw].
Defined.

(** A plan is sound when every dependency is in the plan and ranked lower. *)
Definition rankedb (rank : string -> nat) (s : OrchestrationState) : bool :=
  forallb (fun '(k, n) => forallb (fun d => dmem d (nodes s) && bool_decide (rank d < rank k)) (n_deps n)) (nodes s).

Lemma rankedb_ok rank s : rankedb rank s = true -> plan_ok s.
Proof.
  unfold rankedb. rewrite forallb_elem. intros H.
  assert (forall k ds d, plan_graph s k = Some ds -> d ∈ ds -> is_Some (plan_graph s d) /\ rank d < rank k) as Hd.
  { intros k ds d (n & Hn & ->)%fmap_Some Hin. apply dget_elem in Hn. specialize (H _ Hn). cbn in H.
    rewrite forallb_elem in H. specialize (H _ Hin). bool_prop. split; [|lia].
    unfold plan_graph, get_node. unfold dmem in *. destruct (dget d (nodes s)); [by eexists | done]. }
  split; [intros k ds d Hk Hin; apply (Hd k ds d Hk Hin) | exists rank; intros k ds d Hk Hin _; apply (Hd k ds d Hk Hin)].
Qed.

Lemma failed_plan_ok : plan_ok failed_state.
Proof. apply (rankedb_ok (fun k => if bool_decide (k = "n2") then 1 else 0)). by vm_compute. Qed.

Lemma apply_patch_plan_witness :
  exists s' r, apply_patch failed_state (mkPatch [mkPatchNode "a" "again" "try again" []] ["n1"] "retry") ["a"] = Ok (s', r) /\
    pr_added r = ["x1"] /\ plan_ok s'.
Proof.
  destruct (apply_patch failed_state (mkPatch [mkPatchNode "a" "again" "try again" []] ["n1"] "retry") ["a"])
    as [[s' r]|e] eqn:E; [|by vm_compute in E].
  exists s', r. split; [done|]. split; [vm_compute in E; by injection E as <- <-|].
  eapply (apply_patch_plan failed_state _ ["a"] s' r); [apply wf_stateb_ok; by vm_compute | apply failed_plan_ok | exact E].
Defined.

Lemma create_plan_witness :
  exists w' r, create_plan_run (PlanDraftArgs sample_draft) empty_world = (w', Ok r) /\
    dkeys (nodes (w_state w')) = ["n1"; "n2"] /\ plan_ok (w_state w').
Proof.
  destruct (create_plan_run (PlanDraftArgs sample_draft) empty_world) as [w' [r|e]] eqn:E;
    [|apply (f_equal snd) in E; by vm_compute in E].
  exists w', r. split; [done|].
  destruct (create_plan_sound sample_draft 20 empty_world w' r) as (Hk & _ & Hp & _);
    [by vm_compute | done | exact E | split; [exact Hk | exact Hp]].
Defined.

(** [n1], which was started to help [n0], asks [b] for help. *)
Definition helper_n1 : NodeState :=
  set_status NodeStatus.INPUT_REQUIRED (new_node "n1" "n1" "a" [] "work" true (Some "n0")).
Definition helping_state : OrchestrationState :=
  set_nodes [node_with NodeStatus.INPUT_REQUIRED "n0" "c" []; ("n1", helper_n1)] empty_state.

Lemma call_subagent_witness :
  exists w' r, call_subagent_run (CallSubagentArgs "n1" "b" "help") (world_of helping_state) = (w', Ok r) /\
    fr_success r = true /\ forall m, in_chain helping_state helper_n1 m -> n_agent_name m <> "b".
Proof.
  destruct (call_subagent_run (CallSubagentArgs "n1" "b" "help") (world_of helping_state)) as [w' [r|e]] eqn:E;
    [|apply (f_equal snd) in E; by vm_compute in E].
  assert (fr_success r = true) as Hr by (apply (f_equal snd) in E; vm_compute in E; by injection E as <-).
  exists w', r. split; [done|]. split; [exact Hr|].
  destruct (call_subagent_guard (world_of helping_state) w' "n1" "b" "help" helper_n1 r) as (_ & Hc & _);
    [apply wf_stateb_ok; by vm_compute | by vm_compute | exact E | exact Hr | exact Hc].
Defined.

(** ** Nodes *)

(** [n1] answered that it needs information. *)
Definition needing_n1 : NodeState :=
  set_output (Some "[cw:need_info] which colour?") (node_with NodeStatus.WORKING "n1" "a" []).2.
Definition needing_state : OrchestrationState := set_nodes [("n1", needing_n1)] empty_state.

Lemma outcome_need_info_witness :
  exists w', flow_run outcome_handler outcome_flow (mkOutcomePayload "n1" None) (world_of needing_state) = (w', Ok END_) /\
    (n_status <$> get_node (w_state w') "n1") = Some NodeStatus.INPUT_REQUIRED.
Proof.
  destruct (outcome_need_info (world_of needing_state) "n1" needing_n1 "which colour?") as (w' & E & Hs);
    [by vm_compute..|].
  exists w'. split; [exact E|]. rewrite Hs. by vm_compute.
Defined.

(** A remote agent that cannot be reached. *)
Definition dead_remote : Remote := {|
  client_error _ _ := Some (RemoteError "down"); send_chunks _ _ _ _ := ([], None);
  subscribe_chunks _ _ _ := ([], None); remote_task _ _ _ := None |}.

Lemma execute_node_failure_witness :
  exists w', execute_node (H0:=dead_remote) 3 "n4" Dispatch (world_of failed_state) = (w', Ok tt) /\
    (n_status <$> get_node (w_state w') "n4") = Some NodeStatus.FAILED.
Proof.
  destruct (start_node "n4" Dispatch (world_of failed_state)) as [w1 r1] eqn:E1.
  assert (r1 = Ok tt) as -> by (apply (f_equal snd) in E1; by vm_compute in E1).
  destruct (remote_turn (H0:=dead_remote) 3 Dispatch "n4" w1) as [w2 r2] eqn:E2.
  assert (r2 = Err (RemoteError "down")) as ->.
  { apply (f_equal fst) in E1. apply (f_equal snd) in E2. cbn in E1. subst w1. by vm_compute in E2. }
  destruct (get_node (w_state w2) "n4") as [n|] eqn:En.
  2: { apply (f_equal fst) in E1, E2. cbn in E1, E2. subst w1 w2. by vm_compute in En. }
  assert (can_transition n NodeStatus.FAILED = true) as Hc.
  { apply (f_equal fst) in E1, E2. cbn in E1, E2. subst w1 w2. vm_compute in En. by injection En as <-. }
  destruct (execute_node_failure (H0:=dead_remote) 3 (world_of failed_state) w1 w2 "n4" Dispatch
    (RemoteError "down") n E1 E2 eq_refl En Hc) as (w' & E & _ & Hn & _).
  exists w'. split; [exact E|]. by rewrite Hn.
Defined.

(** A helper of [n1] has finished. *)
Definition helped_state : OrchestrationState :=
  set_nodes [node_with NodeStatus.INPUT_REQUIRED "n1" "a" [];
             ("n1-h1", set_output (Some "blue") (set_status NodeStatus.COMPLETED
                (new_node "n1-h1" "b" "b" [] "which colour?" true (Some "n1"))))] empty_state.

Lemma settle_from_helper_witness :
  exists w', settle_node_input "n1" (world_of helped_state) = (w', Ok true) /\
    (n_answer_text <$> get_node (w_state w') "n1") = Some (Some "blue").
Proof.
  destruct (get_node helped_state "n1") as [n|] eqn:En; [|by vm_compute in En].
  destruct (get_node helped_state "n1-h1") as [h|] eqn:Eh; [|by vm_compute in Eh].
  destruct (settle_from_helper (world_of helped_state) "n1" n "n1-h1" h) as (w' & E & _ & Hn & _);
    [apply wf_stateb_ok; by vm_compute | exact En
    | vm_compute in En; by injection En as <- | vm_compute in En; injection En as <-; by vm_compute | exact Eh |].
  exists w'. split; [exact E|]. unfold get_node. rewrite Hn.
  vm_compute in En, Eh. injection En as <-. injection Eh as <-. by vm_compute.
Defined.

(** ** The plan flow and the scheduler *)

(** A plan that failed with no attempt left. *)
Definition exhausted_state : OrchestrationState :=
  set_nodes [("n1", set_attempt 2 (node_with NodeStatus.FAILED "n1" "a" []).2)] empty_state.

Lemma repairs_bounded_witness :
  exists w, repairs 0 (world_of exhausted_state) 1 w /\ revision_count (w_state w) = 1%Z /\ (1 <= 3 - 0)%Z.
Proof.
  destruct (plan_flow_run 0 (world_of exhausted_state)) as [w r] eqn:E.
  assert (r = Ok CONTINUE) as -> by (apply (f_equal snd) in E; by vm_compute in E).
  assert (repairs 0 (world_of exhausted_state) 1 w) as H.
  { eapply repairs_once; [reflexivity | by vm_compute | by vm_compute | exact E | by apply repairs_none]. }
  exists w. split; [exact H|]. split.
  { replace w with (fst (plan_flow_run 0 (world_of exhausted_state))) by (by rewrite E). by vm_compute. }
  exact (repairs_bounded 0 _ _ _ H).
Defined.

Lemma session_invariant_witness :
  session_inv (w_state (fst (cancel "task" (world_of waiting_state)))) /\
  session_inv (w_state (fst (execute_node 3 "n3" Dispatch (world_of waiting_state)))).
Proof.
  destruct (session_invariant 3 "n3" Dispatch 0 no_response (say "hello") "task" (world_of waiting_state))
    as (H1 & _ & _ & _ & H2); [apply session_inv_ok; by vm_compute | by split].
Defined.

Lemma flows_end_witness :
  flow_loop (plan_handler 0) plan_flow 6 (f_start plan_flow) tt (world_of failed_state) = plan_flow_run 0 (world_of failed_state).
Proof.
  destruct (flows_end no_response (say "hello") 0 6 (world_of failed_state)) as (_ & _ & H & _); [lia | exact H].
Defined.

Lemma not_derived c : ~ derived_id c "n2".
Proof.
  intros (p & kd & d & _ & E). destruct p as [|a [|b [|x p]]]; cbn in E; discriminate.
Qed.

Lemma settled_nodes_stay_witness :
  exists n', get_node (w_state (fst (execute_node 3 "n3" Dispatch (world_of waiting_state)))) "n2" = Some n' /\
    n_status n' = NodeStatus.COMPLETED.
Proof.
  destruct (settled_nodes_stay 3 "n3" Dispatch 0 (world_of waiting_state) "n2" (node_with NodeStatus.COMPLETED "n2" "b" []).2)
    with (w' := fst (execute_node 3 "n3" Dispatch (world_of waiting_state))) as (n' & E & Es & _);
    [by vm_compute | left; reflexivity | apply not_derived | apply elem_of_cons; left; reflexivity
    | exists n'; split; [exact E | exact Es]].
Defined.

(** [n2] was working on a remote task when the process ended. *)
Definition crashed_state : OrchestrationState :=
  set_nodes [node_with NodeStatus.COMPLETED "n1" "a" [];
             ("n2", set_a2a_task_id (Some "r1") (node_with NodeStatus.WORKING "n2" "b" []).2);
             node_with NodeStatus.SUBMITTED "n3" "c" []] empty_state.

Lemma recover_session_witness :
  exists w', recover_session (world_of crashed_state) = (w', Ok tt) /\
    (n_status <$> get_node (w_state w') "n2") = Some NodeStatus.RECOVER /\
    (n_status <$> get_node (w_state w') "n3") = Some NodeStatus.PENDING.
Proof.
  destruct (recover_session (world_of crashed_state)) as [w' r] eqn:E.
  assert (r = Ok tt) as -> by (apply (f_equal snd) in E; by vm_compute in E).
  destruct (recover_session_spec (world_of crashed_state) w') as (_ & _ & _ & Hn);
    [apply wf_stateb_ok; by vm_compute | exact E |].
  exists w'. split; [done|]. rewrite !Hn. by vm_compute.
Defined.

Lemma cancel_witness :
  exists w', cancel "task" (world_of crashed_state) = (w', Ok tt) /\ w_session w' = false /\
    (n_status <$> get_node (w_state w') "n2") = Some NodeStatus.CANCELED.
Proof.
  destruct (cancel "task" (world_of crashed_state)) as [w' r] eqn:E.
  assert (r = Ok tt) as -> by (apply (f_equal snd) in E; by vm_compute in E).
  destruct (cancel_spec "task" (world_of crashed_state) w') as (Hs & _ & Hn);
    [apply wf_stateb_ok; by vm_compute | done | exact E |].
  exists w'. split; [done|]. split; [exact Hs|]. rewrite Hn. by vm_compute.
Defined.

Lemma plan_and_launch_witness :
  exists w', plan_and_launch "please" [] empty_world = (w', Ok tt) /\ launched w'.
Proof.
  destruct (plan_and_launch "please" [] empty_world) as [w' r] eqn:E.
  assert (r = Ok tt) as -> by (apply (f_equal snd) in E; by vm_compute in E).
  exists w'. split; [done|]. destruct (plan_and_launch_spec "please" [] empty_world w' E) as [[Hs _]|H]; [|exact H].
  exfalso. apply (f_equal fst) in E. cbn in E. subst w'. by vm_compute in Hs.
Defined.

Lemma scheduler_invariant_witness :
  exists s, reachable 3 no_response (world_of failed_state) s /\ r_nodes s = [("n1", Dispatch); ("n4", Dispatch)] /\
    length (r_nodes s) <= 5.
Proof.
  destruct (dispatch_phase 0 [] (world_of failed_state)) as [w1 r1] eqn:E1.
  assert (r1 = Ok ([("n1", Dispatch); ("n4", Dispatch)], [])) as -> by (apply (f_equal snd) in E1; by vm_compute in E1).
  assert (reachable 3 no_response (world_of failed_state) (mkScheduler w1 [("n1", Dispatch); ("n4", Dispatch)] [] Waiting)) as H.
  { apply rtc_once. apply (step_dispatch 3 no_response (world_of failed_state) w1 [] [] _ _ E1). by left. }
  eexists. split; [exact H|]. split; [done|].
  edestruct (scheduler_invariant 3 no_response (world_of failed_state)) as [Hl _];
    [apply session_inv_ok; by vm_compute | exact H | exact Hl].
Defined.

(** The first iteration starts the two nodes that may run, and waits for them. *)
Lemma scheduler_progress_witness :
  exists w', step 3 no_response (started (world_of failed_state)) (mkScheduler w' [("n1", Dispatch); ("n4", Dispatch)] [] Waiting).
Proof.
  destruct (scheduler_progress 3 no_response (world_of failed_state) (started (world_of failed_state))) as (w1 & batch & new & E & H);
    [apply session_inv_ok; by vm_compute | apply rtc_refl |].
  change (dispatch_phase 0 [] (world_of failed_state) = (w1, Ok (batch, new))) in E.
  pose proof (f_equal snd E) as E'. vm_compute in E'. injection E' as <- <-. exists w1. exact H.
Defined.

Lemma dispatch_phase_witness :
  exists w' batch new ready, dispatch_phase 3 [] (world_of failed_state) = (w', Ok (batch, new)) /\ batch.*1 = take 2 ready /\
    batch = [("n1", Dispatch); ("n4", Dispatch)].
Proof.
  destruct (dispatch_phase 3 [] (world_of failed_state)) as [w1 r1] eqn:E1.
  assert (r1 = Ok ([("n1", Dispatch); ("n4", Dispatch)], [])) as -> by (apply (f_equal snd) in E1; by vm_compute in E1).
  edestruct (dispatch_phase_spec 3 [] (world_of failed_state)) as (s & ready & _ & _ & _ & _ & Hl & _);
    [apply session_inv_ok; by vm_compute | exact E1 |].
  exists w1, [("n1", Dispatch); ("n4", Dispatch)], [], ready. split; [done|]. split; [exact Hl | done].
Defined.

(** ** The history *)

Definition turn (id : string) (rewind : list (string * json)) : Task :=
  mkTask id "ctx" TaskState.COMPLETED None [] [] rewind.
Definition two_turns : list Task := [turn "t1" []; turn "t2" []].

Lemma two_turns_conversation : conversation "ctx" (two_turns ++ [turn "t3" [(REWIND_KEY, JStr "t2")]]).
Proof.
  apply conv_rewind with (id := "t2"); [|done..| |]; [|apply (bool_decide_unpack _); by vm_compute..].
  apply (conv_turn "ctx" [turn "t1" []]); [|done|done|apply (bool_decide_unpack _); by vm_compute].
  apply (conv_turn "ctx" []); [constructor|done|done|]. apply (bool_decide_unpack _); by vm_compute.
Qed.

Lemma list_all_tasks_witness :
  t_id <$> list_all_tasks [[turn "t3" [(REWIND_KEY, JStr "t2")]; turn "t2" []]; [turn "t1" []]] true = ["t1"].
Proof.
  rewrite (list_all_tasks_rewinds "ctx" (two_turns ++ [turn "t3" [(REWIND_KEY, JStr "t2")]])
    [[turn "t3" [(REWIND_KEY, JStr "t2")]; turn "t2" []]; [turn "t1" []]] two_turns_conversation eq_refl).
  by vm_compute.
Defined.

Lemma stream_tasks_witness :
  filterb (fun t => bool_decide (t_context_id t = "ctx")) (stream_tasks [("other", ["x"])] two_turns) =
  stream_tasks [] (filterb (fun t => bool_decide (t_context_id t = "ctx")) two_turns).
Proof. apply (stream_tasks_context "ctx" two_turns [("other", ["x"])] []). by vm_compute. Defined.

Lemma restore_state_witness :
  restore_state (fun _ => "?") (fun _ => None) "now" (fun _ => None) two_turns "t1" = Ok empty_state.
Proof.
  rewrite (restore_state_spec (fun _ => "?") (fun _ => None) "now" (fun _ => None) two_turns "t1");
    [by vm_compute | apply (bool_decide_unpack _); by vm_compute..].
Defined.

Definition some_messages : list ChatMessage := [MsgUser "one"; MsgAssistant "two"; MsgUser "three"].

Lemma compact_witness :
  exists w' l c, compact some_messages empty_world = (w', Ok (l, c)) /\
    compacted some_messages some_messages empty_world w' l c.
Proof.
  destruct (compact some_messages empty_world) as [w' [[l c]|e]] eqn:E; [|apply (f_equal snd) in E; by vm_compute in E].
  exists w', l, c. split; [done|]. apply (compact_spec some_messages empty_world w' l c); [exact I | exact E].
Defined.

Lemma rebuild_entries_witness :
  foldM rebuild_part ([], None)
    (zip_with entry_artifact ["a1"; "a2"] [Said false User "hello"; Compacted 1 "greetings"] ≫= art_parts) empty_world =
  (empty_world, Ok ([chat_message User "hello"], Some (1%Z, "greetings"))).
Proof.
  rewrite (rebuild_entries ["a1"; "a2"] [Said false User "hello"; Compacted 1 "greetings"] empty_world);
    [by vm_compute | done | by repeat constructor].
Defined.

(** ** The conversations, the registry, recovery *)

(** A task store: the tasks, oldest first, listed on one page. *)
Definition in_context (c : string) (ts : list Task) : list Task := filterb (fun t => bool_decide (t_context_id t = c)) ts.
Definition one_page (c : option string) (ts : list Task) : list (list Task) :=
  [rev (match c with Some c => in_context c ts | None => ts end)].
Definition save_task (t : Task) (ts : list Task) : list Task := ts ++ [t].

Lemma one_page_lists c ts : mjoin (one_page (Some c) ts) = rev (in_context c ts).
Proof. cbn. by rewrite app_nil_r. Qed.

Lemma save_task_stores t ts : t_id t ∉ t_id <$> in_context (t_context_id t) ts ->
  in_context (t_context_id t) (save_task t ts) = in_context (t_context_id t) ts ++ [t].
Proof.
  intros _. unfold in_context, save_task. induction ts as [|x ts IH]; cbn; [by rewrite bool_decide_true|].
  destruct (bool_decide (t_context_id x = t_context_id t)); cbn; [f_equal|]; exact IH.
Qed.

(** A turn that a human began, after which the empty session was stored. *)
Definition human_turn (id : string) (state : task_state) : Task :=
  mkTask id "ctx" state None [] [mkMessage "m" ROLE_USER id "ctx" [] []] [(STATE_JSON_KEY, JStr "S")].
Definition loads_empty (s : string) : option json := if bool_decide (s = "S") then Some (state_to_json empty_state) else None.

Definition sample_api : ApiState :=
  mkApi [("ctx", mkContextRecord "S" "colours" "t0" "t1")] [human_turn "t1" TaskState.FAILED; human_turn "t2" TaskState.COMPLETED] [("ctx", false)].

Lemma sample_conversation : conversation "ctx" (in_context "ctx" (ap_tasks sample_api)).
Proof.
  change (in_context "ctx" (ap_tasks sample_api)) with ([human_turn "t1" TaskState.FAILED] ++ [human_turn "t2" TaskState.COMPLETED]).
  apply conv_turn; [|done|done|apply (bool_decide_unpack _); by vm_compute].
  apply (conv_turn "ctx" []); [constructor|done|done|]. apply (bool_decide_unpack _); by vm_compute.
Qed.

Lemma rewind_conversation_witness :
  exists st' p, rewind_conversation one_page save_task (fun _ => "?") (fun _ => None) loads_empty (fun _ => "S") "now" "r1" "ctx" "t2" sample_api = (st', Reply p) /\
    t_id <$> pa_tasks p = ["t1"] /\ t_id <$> all_tasks one_page "ctx" st' = ["t1"] /\ session_is_active "ctx" st' = false.
Proof.
  pose proof (rewind_conversation_spec one_page save_task in_context one_page_lists save_task_stores (fun _ => "?") (fun _ => None) loads_empty (fun _ => "S")
    "now" "r1" "ctx" "t2" sample_api sample_conversation) as H.
  destruct (rewind_conversation one_page save_task (fun _ => "?") (fun _ => None) loads_empty (fun _ => "S") "now" "r1" "ctx" "t2" sample_api) as [st' answer] eqn:E.
  specialize (H ltac:(apply (bool_decide_unpack _); by vm_compute) ltac:(apply (bool_decide_unpack _); by vm_compute)).
  destruct H as [H _]. destruct (H [human_turn "t1" TaskState.FAILED] empty_state) as (_ & _ & Hall & _ & Hact & _ & ->).
  - split; [done|]. split; [done|]. split; [by eexists|]. exists (human_turn "t2" TaskState.COMPLETED), [].
    split; [by vm_compute|]. split; [done|]. split; [|by vm_compute]. eexists _, _. split; [reflexivity|]. split; [done|]. by left.
  - eexists st', _. split; [done|]. split; [done|]. split; [by rewrite Hall|]. unfold session_is_active. by rewrite Hact.
Defined.

(** The numbers of the states in the protocol. *)
Definition protocol_rank (s : task_state) : Z :=
  match s with
  | TaskState.UNSPECIFIED => 0 | TaskState.SUBMITTED => 1 | TaskState.WORKING => 2 | TaskState.COMPLETED => 3 | TaskState.FAILED => 4
  | TaskState.CANCELED => 5 | TaskState.INPUT_REQUIRED => 6 | TaskState.REJECTED => 7 | TaskState.AUTH_REQUIRED => 8
  end.

(** The newest task of the conversation has completed; it is listed as failed. *)
Lemma list_conversations_witness :
  exists s, s ∈ list_conversations protocol_rank one_page (fun _ => "?") sample_api /\ su_title s = "colours" /\ su_task_count s = 2%Z /\
    su_last_status s = "failed".
Proof.
  destruct (list_conversations_spec protocol_rank one_page (fun _ => "?") sample_api "ctx" (mkContextRecord "S" "colours" "t0" "t1"))
    as (s & Hs & _ & Ht & Hc & Hl); [apply (bool_decide_unpack _); by vm_compute | done | by intros [] |].
  exists s. split; [exact Hs|]. split; [exact Ht|]. split; [rewrite Hc; by vm_compute|].
  destruct Hl as [[Hle _]|(t & Hin & -> & Hmax)].
  - specialize (Hle (human_turn "t1" TaskState.FAILED)). cbn in Hle. exfalso.
    enough (4 <= 0)%Z by lia. apply Hle. by right; left.
  - assert (t ∈ [human_turn "t2" TaskState.COMPLETED; human_turn "t1" TaskState.FAILED]) as Hin' by exact Hin.
    specialize (Hmax (human_turn "t1" TaskState.FAILED) ltac:(by right; left)).
    apply elem_of_cons in Hin' as [->|Hin']; [cbn in Hmax; lia | by apply list_elem_of_singleton in Hin' as ->].
Defined.

Definition plain_url (s : string) : option HttpUrl := Some (mkHttpUrl None None None None s).

Lemma register_witness :
  exists rg r, register plain_url (fun _ => inl (JStr "card")) "id1" "now" " helper " "http://h/" id (mkRegistry [] [] [] []) = (rg, inr r) /\
    get_by_name "helper" rg = Some r /\ dget "http://h" (rg_cards rg) = Some (JStr "card").
Proof.
  pose proof (register_spec plain_url (fun _ => inl (JStr "card")) "id1" "now" " helper " "http://h/" id (mkRegistry [] [] [] []) "helper" "http://h") as H.
  specialize (H ltac:(by vm_compute)).
  destruct (register plain_url (fun _ => inl (JStr "card")) "id1" "now" " helper " "http://h/" id (mkRegistry [] [] [] [])) as [rg answer] eqn:E.
  cbn zeta in H. destruct answer as [e|r].
  - exfalso. apply (f_equal snd) in E. vm_compute in E. discriminate.
  - destruct H as (_ & _ & _ & Hcard & _ & Hg & Hc). exists rg, r. split; [done|]. split; [exact Hg|]. rewrite Hc. by injection Hcard as <-.
Defined.

Lemma recover_tasks_witness :
  exists st, recover_tasks (fun _ => "?") (fun _ => None) "now" loads_empty (fun _ => false) (fun _ => true) 
      [[human_turn "t3" TaskState.WORKING; human_turn "t2" TaskState.SUBMITTED]; [human_turn "t1" TaskState.COMPLETED]] = Ok st /\
    t_id <$> rv_sent st = ["t3"] /\ rv_recovered st = 1%Z /\ NoDup (t_context_id <$> rv_sent st).
Proof.
  destruct (recover_tasks (fun _ => "?") (fun _ => None) "now" loads_empty (fun _ => false) (fun _ => true)
      [[human_turn "t3" TaskState.WORKING; human_turn "t2" TaskState.SUBMITTED]; [human_turn "t1" TaskState.COMPLETED]]) as [st|e] eqn:E;
    [|vm_compute in E; discriminate].
  destruct (recover_tasks_spec (fun _ => "?") (fun _ => None) "now" loads_empty (fun _ => false) (fun _ => true) (fun _ => true)
      [[human_turn "t3" TaskState.WORKING; human_turn "t2" TaskState.SUBMITTED]; [human_turn "t1" TaskState.COMPLETED]] st) as (Hn & Hr & _).
  - intros t Ht. vm_compute in Ht. repeat (apply elem_of_cons in Ht as [->|Ht]; [by vm_compute|]). by apply elem_of_nil in Ht.
  - exact E.
  - exists st. assert (t_id <$> rv_sent st = ["t3"]) as Hs by (vm_compute in E; injection E as <-; done).
    split; [done|]. split; [exact Hs|]. split; [|exact Hn]. rewrite Hr. vm_compute in E. injection E as <-. done.
Defined.

(** ** The simulators, the cards and the applications *)
(** One node, sent to its agent. *)
Definition sent_world : World := world_of (set_nodes [node_with NodeStatus.PENDING "n1" "a" []] empty_state).
Definition sent_node : NodeState := set_status NodeStatus.PENDING (new_node "n1" "n1" "a" [] "work" false None).

Definition text_artifact (id text : string) : Artifact := mkArtifact id "result" [mkPart (CText text) []] [].

(** Two artifacts, one of them in two pieces with the other between them. *)
Definition two_artifacts : list StreamResponse :=
  [SrTask (mkTask "r1" "rc" TaskState.WORKING None [] [] []); SrArtifact (text_artifact "x" "one ") false false;
   SrArtifact (text_artifact "y" "two") false true; SrArtifact (text_artifact "x" "more") true true;
   SrStatus "r1" TaskState.COMPLETED None].


(** The SDK with ids that say what they are of. *)
Definition plain_sdk : SimAgent.Sdk.
Proof.
  refine {| respond c := match c with
    | EnqueueTask parts => SrTask (mkTask "r1" "rc" TaskState.SUBMITTED None [] [] [])
    | StartWork => SrStatus "r1" TaskState.WORKING None
    | AddArtifact id name text append last_chunk =>
        SrArtifact (mkArtifact (default "fresh" id) name [mkPart (CText text) []] []) append last_chunk
    | RequiresInput text => SrStatus "r1" TaskState.INPUT_REQUIRED (Some (mkMessage "m" ROLE_AGENT "r1" "rc" [mkPart (CText text) []] []))
    | TaskFailed text => SrStatus "r1" TaskState.FAILED (Some (mkMessage "m" ROLE_AGENT "r1" "rc" [mkPart (CText text) []] []))
    | TaskComplete => SrStatus "r1" TaskState.COMPLETED None
    | TaskCancel => SrStatus "r1" TaskState.CANCELED None
    end |}.
  - by eexists.
  - by eexists.
  - intros. eexists _, []. split; [done|]. by intros i ->.
  - by eexists _, _.
  - by eexists _, _.
  - by eexists.
Defined.

(** The team's qa-engineer, whose answers go out two characters at a time. *)
Definition qa_agent : ScriptedExecutor := mkScripted "assist" "qa-engineer" 0 2.

Lemma scripted_turn_witness :
  let sdk := plain_sdk in
  length (execute "u" qa_agent (Some ["please test"]) false).2 = 12 /\
  exists w' n', consume_chunks "n1" (respond <$> (execute "u" qa_agent (Some ["please test"]) false).2, None) sent_world = (w', Ok NodeStatus.COMPLETED) /\
    n_output n' = Some "分析结论：测试通过，功能符合预期。" /\ get_node (w_state w') "n1" = Some n'.
Proof.
  intros sdk. split; [by vm_compute|].
  destruct (scripted_turn_spec (H0:=sdk) "u" qa_agent ["please test"] false "n1" sent_world sent_node eq_refl eq_refl) as (w' & n' & Hrun & Hn & Hout & _).
  exists w', n'. split; [exact Hrun|]. split; [|exact Hn]. rewrite Hout. by vm_compute.
Defined.

Lemma sim_stream_witness :
  uconcat (omap d_reasoning (_stream_structured_response "收到请求" "{}" "create_plan")) = "收到请求" /\
  finish_stream ["create_plan"] [] (collect (_stream_structured_response "收到请求" "{}" "create_plan")) =
    StreamDone (Some ("create_plan", PlanDraftArgs sample_draft, Some "call_1")).
Proof.
  destruct (sim_stream_spec "收到请求" "{}" "create_plan" ["create_plan"] []) as [H1 H2]; [done | by left |].
  split; [exact H1|]. rewrite H2. by vm_compute.
Defined.

Lemma sim_plan_witness : validate_plan (_make_plan "请评审这段代码").2 10 = Ok tt /\ length (pd_nodes (_make_plan "请评审这段代码").2) = 2.
Proof.
  destruct (sim_plan_spec "请评审这段代码" 10) as [H _]; [lia|]. split; [exact H | by vm_compute].
Defined.

(** ** Cards and clients *)

Definition some_card : AgentCard := build_agent_card "http://choir".
Definition any_url (s : string) : option HttpUrl := Some (mkHttpUrl None None None None s).

(** A client is made of a fetched card, and set aside when the card is refreshed. *)
Lemma client_pool_witness :
  exists s, steps (alone_step any_url id) new_pool [Ask "u"; Resolved 0 (Fetched some_card); Created 0; Cache "u" some_card; Ask "u"; Created 1] s /\
    dget "u" (cp_clients s) = Some (1, some_card) /\ dget "u" (cp_cards s) = Some some_card /\ 0 ∈ (fst <$> dvals (cp_clients s)) ++ (fst <$> cp_retired s) ++ cp_closed s.
Proof.
  assert (exists s, steps (alone_step any_url id) new_pool [Ask "u"; Resolved 0 (Fetched some_card); Created 0; Cache "u" some_card; Ask "u"; Created 1] s /\
    dget "u" (cp_clients s) = Some (1, some_card)) as (s & Hs & Hc).
  { assert (forall (s : ClientPool) l, cp_pending s = [] -> alone s l) as Hidle by (intros s l E m u st; rewrite E; done).
    eexists. split; [|shelve]. econstructor; [split; [by eapply pool_ask | by apply Hidle]|].
    econstructor; [split; [by eapply (pool_resolved _ _ _ 0 "u" _ some_card); vm_compute|]; intros [|m] u st; by vm_compute; intros [= <- <-]|].
    econstructor; [split; [by eapply (pool_created _ _ _ 0 "u" some_card)|]; intros [|m] u st; by vm_compute; intros [= <- <-]|].
    econstructor; [split; [apply pool_cache | by apply Hidle]|]. econstructor; [split; [by eapply pool_ask | by apply Hidle]|].
    econstructor; [split; [by eapply (pool_created _ _ _ 1 "u" some_card)|]; intros [|[|m]] u st; by vm_compute; intros [= <- <-]|]. constructor.
    Unshelve. done. }
  destruct (client_pool_spec any_url id _ s Hs) as [Hm Hk]. exists s. split; [exact Hs|]. split; [exact Hc|]. split; [by eapply Hm|].
  apply Hk. right; right; by left.
Defined.

(** ** Starting a simulation *)

Definition some_port (i : nat) : Z := match i with 0 => 8001 | 1 => 8002 | 2 => 8003 | 3 => 8004 | 4 => 8005 | 5 => 8006 | 6 => 8007 | _ => 8008 end.
Definition team_cards : list (string * AgentCard) :=
  imap (fun i p => (sim_url some_port i, _make_card (snd p) (sim_url some_port i) (fst p))) SIM_AGENTS.
Definition team_fetch (url : string) : fetched := match dget url team_cards with Some card => Fetched card | None => Unreadable "nobody" end.
Definition fresh_id (i : nat) : string := "u" +:+ pretty (Z.of_nat i).
(** The database of an earlier run, of which one agent is left. *)
Definition old_db : Db := mkDb [mkAgentRecord "x" "developer" "http://old" JNull "ok" None "t"] [] [].

(** The first agent of the team is registered, the second is there already. *)
Lemma sim_run_witness :
  exists rg, sim_run any_url id (fun _ => JNull) fresh_id (fun _ => "now") team_fetch some_port (fun _ => "?") (fun _ => None) "now"
      (fun _ => None) (fun _ => true) false "localhost" 8567 "sim.db" old_db =
    (rg, Some (NotRegistered (duplicate "developer"))) /\ ar_name <$> rg_rows rg = ["developer"; "product-manager"].
Proof.
  destruct (sim_run_spec any_url id (fun _ => JNull) fresh_id (fun _ => "now") team_fetch some_port (fun _ => "?") (fun _ => None) "now"
      (fun _ => None) (fun _ => true)) with (fresh := false) (host := "localhost") (http_port := 8567%Z) (db_path := "sim.db") (db := old_db)
      (app := mkStarted (open_registry old_db) old_db [] (Some (mkRecovery [] [] 0))) as (k & H).
  - intros i. do 7 (destruct i as [|i]; [by vm_compute|]). by vm_compute.
  - intros i p Hp. do 7 (destruct i as [|i]; [injection Hp as <-; by vm_compute|]). done.
  - intros i j E. apply prefix_pretty_inj in E. lia.
  - by vm_compute.
  - intros j [=E]%list_elem_of_singleton.
  - destruct (sim_run _ _ _ _ _ _ _ _ _ _ _ _ _ _ _ _ _) as [rg e] eqn:E. exists rg.
    assert (e = Some (NotRegistered (duplicate "developer"))) as -> by (apply (f_equal snd) in E; vm_compute in E; by symmetry).
    split; [done|]. destruct H as (Hr & Hb & p & Hp & _ & Hd). injection Hd as Hd. rewrite Hr.
    assert (k = 1) as ->; [|by vm_compute]. do 7 (destruct k as [|k]; [injection Hp as <-; try done; by vm_compute in Hd|]). done.
Defined.
